(* ===== verification/_CoqProject ===== *)
-Q . S2P
Prelude.v
Posix.v
Types.v
Util.v
UtilTheorems.v
Log.v
Mflock.v
MflockConc.v
MflockSolo.v
Block.v
CopyOnWrite.v
PosixSpec.v
PosixPath.v
BlockWrite.v
BlockRead.v
UtilLocking.v
Layout.v
Tree.v
Snapshot.v
SnapshotTheorems.v
SnapshotDestroy.v
Mfd.v
SnSteps.v
FuseFd.v
FuseDir.v
SnapshotIsolation.v
SmallSystem.v
IsolationTheorems.v
FusePath.v
Mount.v
Dispatch.v
MfdTheorems.v
Descriptors.v
SnStepsTheorems.v
SnStat.v
PassedOver.v
FuseDirTheorems.v
DirSteps.v
Survival.v
WorldType.v
Returns.v
Progress.v
ProgressSteps.v
ProgressListing.v
ProgressTheorems.v
MountTheorems.v
Reopen.v
Sessions.v
HistoryNames.v
History.v
HistoryOpen.v
HistorySessions.v
HistoryWrites.v
HistoryCreate.v
HistoryPaths.v
HistorySnapshots.v
HistoryReads.v
HistoryList.v
HistoryRoots.v
HistoryEvents.v
HistoryTheorems.v
HistoryFrozen.v
EndToEnd.v
Defects.v
Threads.v
ThreadCode.v
ThreadProtocol.v
ThreadSteps.v
ThreadWrites.v
ThreadReads.v
ThreadTheorems.v
ThreadSolo.v
