(* ===== verification/Prelude.v ===== *)
(** ESFS: a verification library for the snapshotting FUSE filesystem.

    ESFS is a C program that stacks a file system on a directory (the main
    space) and keeps snapshots of it under [/snapshots/ID].  A snapshot
    starts as an empty directory.  The first time a file of the main space
    is opened for writing after a snapshot, a map file and a dat file are
    made for it in the latest snapshot; a block of the file is appended to
    the dat file before it is first overwritten, and the map file records
    where.  Reading a file in a snapshot looks for each block in that
    snapshot, in the later ones, and in the main file.

    * The program's parts and the files that model them

    - [Prelude]: machine integers, little-endian words, lists with [Z]
      lengths, file contents as lists of bytes ([file_read], [file_write],
      [file_resize]), the state monad with undefined behaviour as [None], and
      the hint database [esfs].
    - [Posix]: the operating system under the program: names, inodes,
      descriptors and one function per system call the sources use.  Which
      calls fail and which reads and writes are cut short is an oracle, a list
      of [fault]s that every call consumes.  [requests_return] and the theorems on
      the lock table hold for every such list, those on isolation, blocks and
      threads for every list in which calls fail and none is cut short
      ([atomic], see below), and those from paths to bytes for the empty list.
      [PosixSpec] and [PosixPath] hold the lemmas on descriptors and on names.
    - [Types] ([types.h]): the structures and constants, the byte layout of the
      map header, and the world: the operating system, [fsdata_t], the open
      handles by address, and the buffers allocated.
    - [Util], [UtilTheorems] ([util.c]): path building with the C string
      bounds, snapshot paths, the hash, pointer files, parameter checks.
    - [Log] ([util.c], its first part): the lines of the log, with the calendar
      behind their dates.
    - [Mflock] ([mflock.c]): the table of 64 labelled mutexes as the sequential
      functions its callers see, and the class [LockService]: what a caller
      may rely on.  All theorems about the callers are proved for any lock
      service; [mflock_service] is the instance.  [MflockConc] models the same two
      functions once more as a step function with one step per access to
      shared memory, for any number of threads, and [MflockSolo] proves that the
      two models agree on a thread that runs alone.
    - [Block] ([block.c]): [b_read], [b_write], [b_truncate] and the buffers.
      [CopyOnWrite] states the invariant between the old contents, the main file,
      the map and the dat file; [BlockWrite] and [BlockRead] prove that the
      functions of [Block] keep it and use it.
    - [UtilLocking] ([util_locking.c]): recursive removal and [mkpath].  [Tree] has the
      laws of both, on file systems whose names form a tree.
    - [Snapshot], [SnapshotTheorems] ([snapshot.c]): the chain of snapshots in pointer
      files: creating and walking.  [SnapshotDestroy] is about removing.
    - [Mfd], [MfdTheorems] ([mfd.c], first half): opening, closing and validating the
      map and dat files of a main file.
    - [SnSteps], [SnStepsTheorems] ([mfd.c], second half): the steps from a snapshot to
      the main file when a path of a snapshot is opened.  [Descriptors] keeps the
      accounts of the descriptors that a handle owns, [SnStat] is the search for
      the steps when only the stat of the file is wanted, and [PassedOver] the search
      for a file of which the snapshots on the way keep no blocks.
    - [FuseFd] ([fuse_fd_write.c], [fuse_fd_close.c], the file part of
      [fuse_fd_read.c]), [FuseDir] (its directory part) and [FusePath]
      ([fuse_path_open.c], [fuse_path_write.c], [fuse_path_read.c]): the FUSE handlers.
      A C function [$name] is [esfs_name] here; elsewhere names are kept.
      [FuseDirTheorems] has the abstract listing of a directory, and [DirSteps] opens
      the directory in every snapshot on the way.
    - [Mount], [MountTheorems] ([esfs.c]): the start of the program up to [fuse_main].
      [Dispatch] is the table of handlers: [dispatch] serves one request of FUSE,
      [serve] a sequence of them.
    - [Layout]: where the program puts its files, as lists of path components,
      and that the names of files of different kinds never coincide.
    - [SnapshotIsolation], [IsolationTheorems]: the abstract specification (a file is its
      contents, a snapshot reader has the old contents) and the refinement.
    - [SmallSystem]: a small concrete system on which the theorems are tried.
    - [Survival]: from paths to bytes: a file is opened, changed and read in a
      snapshot.  [Reopen] has the branches of [mfd_open_sn] one by one: no
      snapshot, a map file that is there, a first map file for a file that is
      there or missing.  [Sessions] is a handle from [open] or [create] to [release],
      and the handlers that save a file and change it by its path.
    - [HistoryNames], [History]: whole histories.  The abstract state [hstate] is the
      list of snapshots and, for each name, what the file is now and what it was
      at every snapshot, if it existed; [hist_inv] relates the disk and the memory to it.
      [HistoryOpen], [HistorySessions], [HistoryWrites], [HistoryCreate] and [HistoryPaths]
      show that handlers which change a file keep the relation,
      [HistorySnapshots], [HistoryReads] and [HistoryEvents] that taking, removing and reading
      snapshots and mounting do, and [HistoryList] and [HistoryRoots] that listings show
      what the relation says.  [HistoryTheorems] has the events: [answer] is what an
      event gives and does to the abstract state, [run_event] the handlers that it
      stands for.  [HistoryFrozen] is the consequence for one snapshot.
    - [WorldType]: the shape of the state ([world_ok]), and that the system calls,
      the lock table and the changes of the global data keep it.
    - [Returns], [Progress], [ProgressSteps], [ProgressListing], [ProgressTheorems]: total
      correctness of every handler; [does P m Q] is a Hoare triple on the lock
      table, the shape of the state and the handles, under any faults.
    - [EndToEnd]: theorems that go from a path to the data.
    - [Defects]: theorems on what the code does against its purpose.
    - [Threads]: any number of threads that run code cut at its calls, interleaved
      at every access to what they share, with the lock table of [MflockConc]; and a
      logic of relies and guarantees for them, with a log of events.  [ThreadCode]
      has the handlers on open files ([write], [ftruncate], [read] and below them
      [b_write], [b_truncate], [b_read]) in this form.  [ThreadProtocol] is
      what the threads agree on, [ThreadSteps] has a lemma per system call and access to
      shared memory, [ThreadWrites] and [ThreadReads] prove the handlers, and
      [ThreadTheorems] has the theorems.  [ThreadSolo] proves that a thread that runs
      alone does what [Block] and [FuseFd] compute.

    * What the theorems show

    - The promise of the program: [history_refines] (a history of snapshots taken
      and removed, files created, written, truncated, removed, read back and
      measured in snapshots, changes of mode, owner and times, listings, and remounts gets
      the answers of the abstract file system, when that has answers to all of it
      and no call fails), [snapshot_frozen] (in such a history the
      stat, listing and bytes of a snapshot stay those of the files as they were) and
      [snapshot_survives_writes] (the same for a handle on a non-empty file and any chain of
      snapshots in copy-on-write form), from the handlers that FUSE calls down to the bytes on disk.
    - All requests, under all faults: [requests_return] (every handler returns, the state
      stays well formed and the lock table is what it was).
    - Requests served at the same time, on handles in order (for writing: made since the
      latest snapshot, of a file not empty then): [parallel_requests_linearizable] (whatever the
      schedule, the requests take effect one at a time, in an order that keeps the
      order of each thread, and none is lost or done twice) and
      [parallel_requests_isolated] (copy on write is never violated, snapshots read as
      they were, locks are given back, no step is undefined);
      [thread_alone_agrees] ties the threads to the sequential functions,
      [threads_can_start] their invariant to the one of [open_for_writing_protects], and
      [snapshot_during_write] shows the race that is left: once a write has validated its handle,
      nothing that other threads do, taking a snapshot included, keeps it from its [pwrite].
    - Isolation: [snapshot_isolation] (any operations on
      handles in order of a file refine the abstract file, when calls may fail
      but none is cut short; the lemma
      [snapshot_isolation_exact] has the results when no call fails);
      [b_write_saves] and [b_read_returns_old] are the block level
      behind it; [open_for_writing_protects] establishes the invariant when a
      file is opened, and [snapshot_reader_leaves_nothing] shows that reading leaks nothing;
      [snapshot_file_stat] is the stat of the file.
    - Locks: [mflock_mutual_exclusion] and [mflock_label_discipline] over all
      interleavings, [mflock_lock_unlock] for one thread, [mflock_solo_agrees] and
      [mflock_solo_progress] between the two models, and [mflock_lost_mutex], a run
      after which a label cannot be locked any more.
    - Snapshots: [sn_create_pushes], [sn_destroy_pops]
      and [sn_get_paths_to_prefix] relate the pointer files to
      a list of snapshots.
    - Directories and mounting: [snapshot_listing] and [main_mounts].
    - Data and paths: [mapheader_roundtrip], [decompose_sn_path_parts],
      [real_paths_fit], [map_prefix_path_overflow];
      and [snapshots_read_only] for the handlers.
    - What the code does against its purpose, for all files, handles and states of a
      kind: snapshots that show later data ([stale_handle_reads_new_data],
      [empty_file_reads_new_data], [removed_snapshot_shows_main],
      [missing_snapshot_file_opens]), requests that fail or are accepted against
      their meaning ([created_file_unwritable], [chmod_dir_fails], [hid_name_blocks_removal],
      [ftruncate_accepts_snapshot_handle]), and what is not cleaned up ([block_buffer_leaks],
      [short_dat_write_is_final]).  The example [late_dir_appears] of [EndToEnd] is
      a single run.

    * Bounds and fuel

    Integers are [Z] at the width of the C type, wrapped by [u64], [i64] and [i32]
    where C wraps.  [mflock_start] has fuel 3: a thread that runs alone passes
    START at most three times ([mflock_lock_unlock] shows it returns).  The loops
    over snapshots run MAX_SNAPSHOTS times as in C.  A directory stream has at
    most as many entries as there are names, and two ([dir_fuel]).  [mkpath]
    recurses at most once per character, and the walk of [nftw] at most as deep
    as there are names.  [requests_return] shows that no handler runs out of fuel.
    The number of blocks in the loops of [b_read] and [b_write] is computed as in C.
    File sizes are kept below 2^62 where the C code adds them ([room]).

    A run of threads is a schedule of any length [n]; the invariant asks that each
    dat file has room for [n] more blocks below 2^62 bytes ([fo_room]), one for each
    step, and that a file is below 2^61 bytes.  Threads do not run out of fuel:
    a schedule ends where it ends, and the theorems hold at each point of it.

    Histories assume that no system call fails, that the directories of the
    main space stay as they are, and that the memory which [mfd_open_sn] finds
    uninitialised when it makes a map file for a missing file is not the mode
    of a directory ([junk_ok]).  Events to which the abstract file system has no
    answer are those on files that are not tracked, those shown as defects in [Defects] (a
    snapshot taken while a tracked file is empty, reading a file that did not exist
    at a snapshot, reading or stat under the path of a snapshot when there is none), opening with
    O_CREAT or O_TRUNC, creating an existing file with O_EXCL, and requests whose
    names, sizes or offsets are out of bounds.

    Short reads and writes are excluded ([atomic]) in the theorems on isolation, blocks and
    threads because the code does not survive them: a short write to a dat file leaves a part
    of a block, after which the check of the size refuses every later block
    ([short_dat_write_is_final]), and a pointer cut short leaves a wrong pointer in the map
    file.  [requests_return] covers them.

    Path buffers are strings without a size.  That a path fits its buffer is the subject
    of [real_paths_fit] for [util.c], and [map_prefix_path_overflow] shows where it does not; a
    path that is too long is not undefined behaviour in the other theorems.  Memory that C leaves
    uninitialised has arbitrary values, which the theorems quantify over ([w_junk_mfd],
    [w_junk]); a read of it is not undefined behaviour either.

    * What is not modelled

    The calls of the log in the other functions; libfuse, which appears as the
    parameters [filler] and [fuse_main];
    symbolic links, permissions other than those [access] reads, and time stamps
    set by the system; the root directory of the system cannot be removed
    (EBUSY).  Two handlers run at the same time only in the [Thread] files:
    requests on handles that are open and need not be renewed.  Handlers that open,
    create, remove or list files, and taking a snapshot, are modelled from start to
    end without interruption; [snapshot_during_write] lets them meet a write, as one step
    of another thread.  A failing [opendir] inside [nftw] is not told from a failing [lstat].  That a thread which waits for a mutex gets it is not
    shown, and is false in general ([mflock_lost_mutex]).  The Perl preprocessor that
    expands [$] in names is not part of the program, and [fuse_unused.c] has no code
    that is compiled.

    * What is left

    Directories made and removed in histories, against an abstract tree;
    histories in which calls fail, where the abstract file system would have to say
    which parts of a compound request were done; the handlers that change names
    as programs of threads. *)

From stdpp Require Export base tactics numbers list gmap strings.
From Stdlib Require Export ZArith Lia.

#[global] Open Scope Z_scope.

Create HintDb esfs discriminated.

(** ** Machine integers *)

(** [unsigned long], [size_t] and the lock labels are 64 bits wide. *)
Definition u64 (z : Z) : Z := z mod 2 ^ 64.

(** [off_t] and [ssize_t] are 64 bits wide, two's complement. *)
Definition i64 (z : Z) : Z := (z + 2 ^ 63) mod 2 ^ 64 - 2 ^ 63.

(** [int] is 32 bits wide, two's complement. *)
Definition i32 (z : Z) : Z := (z + 2 ^ 31) mod 2 ^ 32 - 2 ^ 31.

Lemma u64_small z : 0 <= z < 2 ^ 64 -> u64 z = z.
Proof. intros. by apply Z.mod_small. Qed.

Lemma u64_range z : 0 <= u64 z < 2 ^ 64.
Proof. by apply Z.mod_pos_bound. Qed.

Lemma i64_small z : - 2 ^ 63 <= z < 2 ^ 63 -> i64 z = z.
Proof. intros. unfold i64. rewrite Z.mod_small; lia. Qed.

Lemma i32_small z : - 2 ^ 31 <= z < 2 ^ 31 -> i32 z = z.
Proof. intros. unfold i32. rewrite Z.mod_small; lia. Qed.

Lemma i64_0_iff z : 0 <= z < 2 ^ 64 -> i64 z = 0 <-> z = 0.
Proof.
  intros. unfold i64. split; [| by intros ->].
  pose proof (Z.div_mod (z + 2 ^ 63) (2 ^ 64) ltac:(lia)).
  pose proof (Z.mod_pos_bound (z + 2 ^ 63) (2 ^ 64) ltac:(lia)). nia.
Qed.

(** ** Lists indexed by [Z]: file contents, buffers and memory images *)

Definition zlen {A} (l : list A) : Z := Z.of_nat (length l).
Definition ztake {A} (n : Z) (l : list A) : list A := take (Z.to_nat n) l.
Definition zdrop {A} (n : Z) (l : list A) : list A := drop (Z.to_nat n) l.
Definition zeros (n : Z) : list Z := replicate (Z.to_nat n) 0.

(** Byte [i] of a file or buffer; positions outside it read as 0. *)
Definition zget (l : list Z) (i : Z) : Z :=
  if 0 <=? i then default 0 (l !! Z.to_nat i) else 0.

#[global] Arguments ztake : simpl never.
#[global] Arguments zdrop : simpl never.
#[global] Arguments zeros : simpl never.
#[global] Arguments zget : simpl never.
#[global] Arguments zlen : simpl never.
#[global] Arguments Z.to_nat : simpl never.
#[global] Arguments Z.shiftl : simpl never.
#[global] Arguments Z.shiftr : simpl never.

Lemma zlen_nonneg {A} (l : list A) : 0 <= zlen l.
Proof. unfold zlen. lia. Qed.

Lemma zlen_nil {A} : zlen (@nil A) = 0.
Proof. done. Qed.

Lemma zlen_cons {A} (x : A) l : zlen (x :: l) = 1 + zlen l.
Proof. unfold zlen. cbn [length]. lia. Qed.

Lemma zlen_app {A} (l k : list A) : zlen (l ++ k) = zlen l + zlen k.
Proof. unfold zlen. rewrite length_app. lia. Qed.

Lemma zlen_ztake {A} n (l : list A) : zlen (ztake n l) = Z.max 0 (Z.min n (zlen l)).
Proof. unfold zlen, ztake. rewrite length_take. lia. Qed.

Lemma zlen_zdrop {A} n (l : list A) : zlen (zdrop n l) = zlen l - Z.max 0 (Z.min n (zlen l)).
Proof. unfold zlen, zdrop. rewrite length_drop. lia. Qed.

Lemma zlen_zeros n : zlen (zeros n) = Z.max 0 n.
Proof. unfold zlen, zeros. rewrite length_replicate. lia. Qed.

Create Rewrite HintDb zlist.
#[export] Hint Rewrite @zlen_nil @zlen_cons @zlen_app @zlen_ztake @zlen_zdrop zlen_zeros : zlist.

(** Pushes [zlen] to the leaves, adds that lengths are not negative, and calls [lia]. *)
Ltac zlen_pose :=
  repeat match goal with
  | |- context [zlen ?l] =>
      lazymatch goal with
      | _ : 0 <= zlen l |- _ => fail
      | _ => pose proof (zlen_nonneg l)
      end
  | _ : context [zlen ?l] |- _ =>
      lazymatch goal with
      | _ : 0 <= zlen l |- _ => fail
      | _ => pose proof (zlen_nonneg l)
      end
  end.
Ltac zl := autorewrite with zlist in *; zlen_pose; lia.

Lemma zget_oob l i : i < 0 \/ zlen l <= i -> zget l i = 0.
Proof.
  unfold zget, zlen. intros H. destruct (Z.leb_spec 0 i); [| done].
  by rewrite lookup_ge_None_2 by lia.
Qed.

Lemma zget_lookup l i x : l !! i = Some x -> zget l (Z.of_nat i) = x.
Proof.
  intros H. unfold zget. destruct (Z.leb_spec 0 (Z.of_nat i)); [| lia].
  by rewrite Nat2Z.id, H.
Qed.

Lemma zget_app_l l k i : i < zlen l -> zget (l ++ k) i = zget l i.
Proof.
  unfold zget, zlen. intros H. destruct (Z.leb_spec 0 i); [| done].
  by rewrite lookup_app_l by lia.
Qed.

Lemma zget_app_r l k i : zlen l <= i -> zget (l ++ k) i = zget k (i - zlen l).
Proof.
  unfold zget, zlen. intros H.
  destruct (Z.leb_spec 0 i), (Z.leb_spec 0 (i - Z.of_nat (length l))); try lia.
  rewrite lookup_app_r by lia. repeat f_equal. lia.
Qed.

Lemma zget_ztake n l i : i < n -> zget (ztake n l) i = zget l i.
Proof.
  unfold zget, ztake. intros H. destruct (Z.leb_spec 0 i); [| done].
  by rewrite lookup_take_lt by lia.
Qed.

Lemma zget_zdrop n l i : 0 <= n -> 0 <= i -> zget (zdrop n l) i = zget l (n + i).
Proof.
  unfold zget, zdrop. intros Hn Hi.
  destruct (Z.leb_spec 0 i), (Z.leb_spec 0 (n + i)); try lia.
  rewrite lookup_drop. repeat f_equal. lia.
Qed.

Lemma zget_zeros n i : zget (zeros n) i = 0.
Proof.
  unfold zget, zeros. destruct (Z.leb_spec 0 i); [| done].
  destruct (replicate _ _ !! _) eqn:E; [| done].
  by apply lookup_replicate in E as [-> _].
Qed.

(** Two byte lists are equal when they have the same length and bytes. *)
Lemma zlist_eq l k :
  zlen l = zlen k -> (forall i, 0 <= i < zlen l -> zget l i = zget k i) -> l = k.
Proof.
  unfold zlen. intros Hl Hg. apply list_eq_same_length with (length k); [done | lia |].
  intros i x y Hi Hx Hy.
  pose proof (zget_lookup _ _ _ Hx). pose proof (zget_lookup _ _ _ Hy).
  rewrite Hg in *; [congruence | lia].
Qed.

(** *** What [pread], [pwrite] and [ftruncate] do to the bytes of a file *)

Definition file_read (c : list Z) (n off : Z) : list Z := ztake n (zdrop off c).

(** A write past the end leaves a hole of zeros; a write of no bytes does nothing. *)
Definition file_write (c d : list Z) (off : Z) : list Z :=
  if zlen d =? 0 then c
  else ztake off (c ++ zeros (off - zlen c)) ++ d ++ zdrop (off + zlen d) c.

Definition file_resize (c : list Z) (n : Z) : list Z := ztake n (c ++ zeros (n - zlen c)).

Lemma zlen_file_read c n off :
  0 <= n -> 0 <= off -> zlen (file_read c n off) = Z.max 0 (Z.min n (zlen c - off)).
Proof. intros. unfold file_read. zl. Qed.

Lemma file_read_all c n : zlen c <= n -> file_read c n 0 = c.
Proof.
  intros H. unfold file_read, zdrop, ztake, zlen in *. rewrite drop_0. apply take_ge. lia.
Qed.

Lemma zget_file_read c n off i :
  0 <= off -> 0 <= i < n -> zget (file_read c n off) i = zget c (off + i).
Proof. intros. unfold file_read. rewrite zget_ztake, zget_zdrop by lia. done. Qed.

Lemma zlen_file_write c d off :
  0 <= off -> zlen (file_write c d off) = if zlen d =? 0 then zlen c else Z.max (zlen c) (off + zlen d).
Proof.
  intros. unfold file_write. destruct (Z.eqb_spec (zlen d) 0); [done |]. zl.
Qed.

Lemma zget_file_write_in c d off i :
  0 <= off -> off <= i < off + zlen d -> zget (file_write c d off) i = zget d (i - off).
Proof.
  intros. unfold file_write. destruct (Z.eqb_spec (zlen d) 0); [lia |].
  assert (E : zlen (ztake off (c ++ zeros (off - zlen c))) = off) by zl.
  rewrite zget_app_r, E by lia. by rewrite zget_app_l by lia.
Qed.

Lemma zget_file_write_out c d off i :
  0 <= off -> i < off \/ off + zlen d <= i -> zget (file_write c d off) i = zget c i.
Proof.
  intros Ho Hi. unfold file_write. destruct (Z.eqb_spec (zlen d) 0); [done |].
  pose proof (zlen_nonneg d).
  assert (E : zlen (ztake off (c ++ zeros (off - zlen c))) = off) by zl.
  destruct Hi.
  - rewrite zget_app_l, zget_ztake by lia.
    destruct (decide (i < zlen c)); [by rewrite zget_app_l by lia |].
    rewrite zget_app_r, zget_zeros, zget_oob by lia. done.
  - rewrite !zget_app_r, E by lia. rewrite zget_zdrop by lia. f_equal. lia.
Qed.

Lemma zlen_file_resize c n : 0 <= n -> zlen (file_resize c n) = n.
Proof. intros. unfold file_resize. zl. Qed.

Lemma zget_file_resize c n i : i < n -> zget (file_resize c n) i = zget c i.
Proof.
  intros. unfold file_resize. rewrite zget_ztake by lia.
  destruct (decide (i < zlen c)); [by rewrite zget_app_l by lia |].
  rewrite zget_app_r, zget_zeros, zget_oob by lia. done.
Qed.

#[global] Arguments file_read : simpl never.
#[global] Arguments file_write : simpl never.
#[global] Arguments file_resize : simpl never.

(** ** Little-endian words in memory images *)

Fixpoint le_bytes (n : nat) (z : Z) : list Z :=
  match n with
  | O => []
  | S n' => z mod 256 :: le_bytes n' (z / 256)
  end.

Fixpoint le_val (l : list Z) : Z :=
  match l with
  | [] => 0
  | b :: t => b + 256 * le_val t
  end.

Lemma length_le_bytes n z : length (le_bytes n z) = n.
Proof. revert z. induction n; intros; cbn; [done | by rewrite IHn]. Qed.

Lemma zlen_le_bytes n z : zlen (le_bytes n z) = Z.of_nat n.
Proof. unfold zlen. by rewrite length_le_bytes. Qed.
#[export] Hint Rewrite zlen_le_bytes : zlist.

Lemma le_val_bytes n z : le_val (le_bytes n z) = z mod 2 ^ (8 * Z.of_nat n).
Proof.
  revert z. induction n as [| n IH]; intros z; cbn [le_bytes le_val].
  { by rewrite Z.mod_1_r. }
  rewrite IH, Nat2Z.inj_succ.
  replace (8 * Z.succ (Z.of_nat n)) with (8 + 8 * Z.of_nat n) by lia.
  rewrite Z.pow_add_r by lia. change (2 ^ 8) with 256.
  pose proof (Z.pow_pos_nonneg 2 (8 * Z.of_nat n) ltac:(lia) ltac:(lia)).
  by rewrite Z.rem_mul_r by lia.
Qed.

(** A word that fits its width is read back as it was stored. *)
Lemma le_val_bytes_small n z : 0 <= z < 2 ^ (8 * Z.of_nat n) -> le_val (le_bytes n z) = z.
Proof. intros. rewrite le_val_bytes. by apply Z.mod_small. Qed.

#[global] Arguments le_bytes : simpl never.
#[global] Arguments le_val : simpl never.

(** ** A state monad whose computations may not return

    [None] stands for a computation that blocks forever or leaves the
    defined behaviour of C; a theorem that says what an operation returns
    therefore also says that it returns. *)

Definition ST (W A : Type) : Type := W -> option (A * W).

#[global] Instance ST_ret W : MRet (ST W) := fun A a w => Some (a, w).
#[global] Instance ST_bind W : MBind (ST W) := fun A B f m w =>
  match m w with Some (a, w') => f a w' | None => None end.

Definition st_get {W} : ST W W := fun w => Some (w, w).
Definition st_put {W} (w : W) : ST W unit := fun _ => Some (tt, w).
Definition st_modify {W} (f : W -> W) : ST W unit := fun w => Some (tt, f w).
Definition st_stuck {W A} : ST W A := fun _ => None.

Lemma st_bind_run {W A B} (m : ST W A) (f : A -> ST W B) w a w' :
  m w = Some (a, w') -> (m ≫= f) w = f a w'.
Proof. intros H. unfold mbind, ST_bind. by rewrite H. Qed.

(** What follows depends on where the first part leads, not on where it starts. *)
Lemma st_bind_start {W A B} (m : ST W A) (f : A -> ST W B) w w' : m w = m w' -> (m ≫= f) w = (m ≫= f) w'.
Proof. intros H. unfold mbind, ST_bind. by rewrite H. Qed.

Lemma st_bind_assoc {W A B C} (m : ST W A) (f : A -> ST W B) (g : B -> ST W C) w : (m ≫= fun a => f a ≫= g) w = ((m ≫= f) ≫= g) w.
Proof. unfold mbind, ST_bind. by destruct (m w) as [[a w'] |]. Qed.

Lemma st_bind_inv {W A B} (m : ST W A) (f : A -> ST W B) w b w'' :
  (m ≫= f) w = Some (b, w'') -> exists a w', m w = Some (a, w') /\ f a w' = Some (b, w'').
Proof. unfold mbind, ST_bind. destruct (m w) as [[a w'] |] eqn:E; [eauto | done]. Qed.
