(* ===== verification/Posix.v ===== *)
(** The part of the operating system that ESFS calls: a tree of named
    inodes, open file descriptions and the system calls of the source, each
    a function on the state [os].

    Files are byte lists addressed through inodes, so that an open
    descriptor keeps its file after the name is removed.  Paths are resolved
    lexically (the filesystem under ESFS holds no symbolic links).  Every
    call first consults the fault schedule [os_faults]: it may fail there
    with any errno ([Fail]), and the calls that move bytes may also stop
    early ([Short]).  What the kernel may refuse for reasons that are not
    modelled (permissions, quotas, name limits) is such a [Fail]. *)

From S2P Require Import Prelude.
From Stdlib Require Import Ascii.

(** ** errno, open flags, modes (Linux) *)

Definition EPERM : Z := 1.
Definition ENOENT : Z := 2.
Definition EIO : Z := 5.
Definition ENXIO : Z := 6.
Definition EBADF : Z := 9.
Definition ENOMEM : Z := 12.
Definition EACCES : Z := 13.
Definition EFAULT : Z := 14.
Definition EBUSY : Z := 16.
Definition EEXIST : Z := 17.
Definition ENOTDIR : Z := 20.
Definition EISDIR : Z := 21.
Definition EINVAL : Z := 22.
Definition ENAMETOOLONG : Z := 36.
Definition ENOTEMPTY : Z := 39.
Definition EBADE : Z := 52.
Definition EREMCHG : Z := 78.
Definition ENOTSUP : Z := 95.

Definition O_RDONLY : Z := 0.
Definition O_WRONLY : Z := 1.
Definition O_RDWR : Z := 2.
Definition O_ACCMODE : Z := 3.
Definition O_CREAT : Z := 64.
Definition O_EXCL : Z := 128.
Definition O_TRUNC : Z := 512.
Definition O_APPEND : Z := 1024.
Definition O_NOATIME : Z := 262144.

Definition S_IFMT : Z := 61440.
Definition S_IFDIR : Z := 16384.
Definition S_IFREG : Z := 32768.
Definition S_IRWXU : Z := 448.

(** Is a flag bit set in a flag word? *)
Definition has (flags bit : Z) : bool := negb (Z.land flags bit =? 0).

Definition S_ISDIR (mode : Z) : bool := Z.land mode S_IFMT =? S_IFDIR.

(** ** [struct stat], with the layout of x86-64 Linux: 144 bytes *)

Record stat_t := Stat {
  st_dev : Z; st_ino : Z; st_nlink : Z;
  st_mode : Z; st_uid : Z; st_gid : Z;
  st_rdev : Z; st_size : Z; st_blksize : Z; st_blocks : Z;
  st_atim : Z; st_mtim : Z; st_ctim : Z
}.

(** ** The state of the system *)

Inductive fault :=
| NoFault
| Fail (e : Z)
| Short (n : Z).

(** The outcome of a call: a value, or the errno it sets. *)
Inductive res (A : Type) :=
| Ok (a : A)
| Err (e : Z).
Arguments Ok {A} a.
Arguments Err {A} e.

(** [i_meta] carries the metadata; its size field is not used, the size is
    the length of [i_data]. *)
Record inode := Inode { i_meta : stat_t; i_data : list Z }.

Definition i_isdir (i : inode) : bool := S_ISDIR (st_mode (i_meta i)).

(** An open file description: inode, access mode, append flag, position. *)
Record ofile := OFile { of_ino : nat; of_acc : Z; of_append : bool; of_pos : Z }.

(** A path is the list of its components; [[]] is the root. *)
Definition path := list string.

Record os := Os {
  os_names : gmap path nat;
  os_inodes : gmap nat inode;
  os_fds : gmap Z ofile;
  os_faults : list fault
}.

Definition set_names (x : gmap path nat) (s : os) : os := Os x (os_inodes s) (os_fds s) (os_faults s).
Definition set_inodes (x : gmap nat inode) (s : os) : os := Os (os_names s) x (os_fds s) (os_faults s).
Definition set_fds (x : gmap Z ofile) (s : os) : os := Os (os_names s) (os_inodes s) x (os_faults s).
Definition set_faults (x : list fault) (s : os) : os := Os (os_names s) (os_inodes s) (os_fds s) x.

Definition set_data (ino : nat) (d : list Z) (s : os) : os :=
  set_inodes (alter (fun i => Inode (i_meta i) d) ino (os_inodes s)) s.

Definition set_meta (ino : nat) (m : stat_t) (s : os) : os :=
  set_inodes (alter (fun i => Inode m (i_data i)) ino (os_inodes s)) s.

(** ** Faults *)

Definition pop_fault (s : os) : fault * os :=
  match os_faults s with
  | [] => (NoFault, s)
  | f :: r => (f, set_faults r s)
  end.

(** A call that either fails as scheduled or runs its body. *)
Definition syscall {A} (body : os -> res A * os) (s : os) : res A * os :=
  let '(f, s') := pop_fault s in
  match f with
  | Fail e => (Err e, s')
  | _ => body s'
  end.

(** The number of bytes a call may move when it was asked for [n]. *)
Definition io_limit (f : fault) (n : Z) : Z :=
  match f with Short k => Z.max 0 (Z.min k n) | _ => n end.

Definition syscall_io {A} (n : Z) (body : Z -> os -> res A * os) (s : os) : res A * os :=
  let '(f, s') := pop_fault s in
  match f with
  | Fail e => (Err e, s')
  | _ => body (io_limit f n) s'
  end.

(** ** Paths *)

(** Splits at '/', the current component held in reverse. *)
Fixpoint split_path (s : string) (cur : string) : list string :=
  match s with
  | EmptyString => [cur]
  | String c r =>
      if Ascii.eqb c "/"%char then cur :: split_path r EmptyString
      else split_path r (cur +:+ String c EmptyString)
  end.

Definition norm_step (acc : path) (c : string) : path :=
  if String.eqb c "" then acc
  else if String.eqb c "." then acc
  else if String.eqb c ".." then removelast acc
  else acc ++ [c].

(** The components of a path; empty ones and "." vanish, ".." goes up. *)
Definition resolve (s : string) : path := foldl norm_step [] (split_path s EmptyString).

(** The proper prefixes of a path, from the root. *)
Fixpoint ancestors (pre : path) (p : path) : list path :=
  match p with
  | [] => []
  | c :: r => pre :: ancestors (pre ++ [c]) r
  end.

Definition node_at (s : os) (p : path) : option inode :=
  ino ← os_names s !! p; os_inodes s !! ino.

(** Every ancestor of the path must be a directory. *)
Fixpoint walk (s : os) (ps : list path) : res unit :=
  match ps with
  | [] => Ok tt
  | p :: r =>
      match node_at s p with
      | None => Err ENOENT
      | Some i => if i_isdir i then walk s r else Err ENOTDIR
      end
  end.

(** Inode number of an existing path. *)
Definition lookup_path (s : os) (p : path) : res nat :=
  match walk s (ancestors [] p) with
  | Err e => Err e
  | Ok _ => match os_names s !! p with Some i => Ok i | None => Err ENOENT end
  end.

(** ** Allocation *)

Definition fresh_ino (s : os) : nat := S (list_max (fst <$> map_to_list (os_inodes s))).

Fixpoint lowest_fd (m : gmap Z ofile) (fuel : nat) (fd : Z) : Z :=
  match fuel with
  | O => fd
  | S n => match m !! fd with None => fd | Some _ => lowest_fd m n (fd + 1) end
  end.

(** The lowest descriptor not in use; 0, 1 and 2 are the standard streams. *)
Definition fresh_fd (s : os) : Z := lowest_fd (os_fds s) (S (size (os_fds s))) 3.

#[global] Arguments fresh_fd : simpl never.
#[global] Arguments fresh_ino : simpl never.

Definition alloc_fd (ino : nat) (flags : Z) (s : os) : res Z * os :=
  let fd := fresh_fd s in
  (Ok fd, set_fds (<[fd := OFile ino (Z.land flags O_ACCMODE) (has flags O_APPEND) 0]> (os_fds s)) s).

Definition new_meta (mode : Z) : stat_t := Stat 0 0 1 mode 1000 1000 0 0 4096 0 0 0 0.

Definition add_node (p : path) (mode : Z) (s : os) : nat * os :=
  let ino := fresh_ino s in
  (ino, set_names (<[p := ino]> (os_names s)) (set_inodes (<[ino := Inode (new_meta mode) []]> (os_inodes s)) s)).

(** ** The calls *)

Definition sys_open (name : string) (flags mode : Z) : os -> res Z * os := syscall (fun s =>
  let p := resolve name in
  match walk s (ancestors [] p) with
  | Err e => (Err e, s)
  | Ok _ =>
      match os_names s !! p with
      | Some ino =>
          if has flags O_CREAT && has flags O_EXCL then (Err EEXIST, s)
          else
            match os_inodes s !! ino with
            | None => (Err EIO, s)
            | Some i =>
                if i_isdir i && negb (Z.land flags O_ACCMODE =? O_RDONLY) then (Err EISDIR, s)
                else
                  let s' := if has flags O_TRUNC && negb (i_isdir i) then set_data ino [] s else s in
                  alloc_fd ino flags s'
            end
      | None =>
          if has flags O_CREAT
          then let '(ino, s') := add_node p (Z.lor S_IFREG mode) s in alloc_fd ino flags s'
          else (Err ENOENT, s)
      end
  end).

(** [opendir]; the stream is its descriptor. *)
Definition sys_opendir (name : string) : os -> res Z * os := syscall (fun s =>
  match lookup_path s (resolve name) with
  | Err e => (Err e, s)
  | Ok ino =>
      match os_inodes s !! ino with
      | None => (Err EIO, s)
      | Some i => if i_isdir i then alloc_fd ino O_RDONLY s else (Err ENOTDIR, s)
      end
  end).

(** [close] releases the descriptor even when it reports an error. *)
Definition sys_close (fd : Z) (s : os) : res unit * os :=
  let '(f, s') := pop_fault s in
  match os_fds s' !! fd with
  | None => (Err EBADF, s')
  | Some _ =>
      let s'' := set_fds (delete fd (os_fds s')) s' in
      match f with Fail e => (Err e, s'') | _ => (Ok tt, s'') end
  end.

Definition fd_node (s : os) (fd : Z) : option (ofile * inode) :=
  o ← os_fds s !! fd; i ← os_inodes s !! of_ino o; Some (o, i).

Definition sys_pread (fd n off : Z) : os -> res (list Z) * os := syscall_io n (fun n s =>
  match fd_node s fd with
  | None => (Err EBADF, s)
  | Some (o, i) =>
      if of_acc o =? O_WRONLY then (Err EBADF, s)
      else if off <? 0 then (Err EINVAL, s)
      else if i_isdir i then (Err EISDIR, s)
      else (Ok (file_read (i_data i) n off), s)
  end).

(** On Linux, [pwrite] on a descriptor opened with O_APPEND appends, whatever the offset. *)
Definition sys_pwrite (fd : Z) (d : list Z) (off : Z) : os -> res Z * os := syscall_io (zlen d) (fun n s =>
  match fd_node s fd with
  | None => (Err EBADF, s)
  | Some (o, i) =>
      if of_acc o =? O_RDONLY then (Err EBADF, s)
      else if off <? 0 then (Err EINVAL, s)
      else
        let at_ := if of_append o then zlen (i_data i) else off in
        (Ok n, set_data (of_ino o) (file_write (i_data i) (ztake n d) at_) s)
  end).

Definition set_pos (fd pos : Z) (s : os) : os :=
  set_fds (alter (fun o => OFile (of_ino o) (of_acc o) (of_append o) pos) fd (os_fds s)) s.

(** [write]: at the end of the file when O_APPEND is set, else at the position. *)
Definition sys_write (fd : Z) (d : list Z) : os -> res Z * os := syscall_io (zlen d) (fun n s =>
  match fd_node s fd with
  | None => (Err EBADF, s)
  | Some (o, i) =>
      if of_acc o =? O_RDONLY then (Err EBADF, s)
      else
        let at_ := if of_append o then zlen (i_data i) else of_pos o in
        (Ok n, set_pos fd (at_ + n) (set_data (of_ino o) (file_write (i_data i) (ztake n d) at_) s))
  end).

(** [lseek (fd, 0, SEEK_END)] *)
Definition sys_lseek_end (fd : Z) : os -> res Z * os := syscall (fun s =>
  match fd_node s fd with
  | None => (Err EBADF, s)
  | Some (o, i) => (Ok (zlen (i_data i)), set_pos fd (zlen (i_data i)) s)
  end).

Definition stat_of (ino : nat) (i : inode) : stat_t :=
  let m := i_meta i in
  Stat (st_dev m) (u64 (Z.of_nat ino)) (st_nlink m) (st_mode m) (st_uid m) (st_gid m) (st_rdev m)
       (zlen (i_data i)) (st_blksize m) (st_blocks m) (st_atim m) (st_mtim m) (st_ctim m).

Definition sys_lstat (name : string) : os -> res stat_t * os := syscall (fun s =>
  match lookup_path s (resolve name) with
  | Err e => (Err e, s)
  | Ok ino =>
      match os_inodes s !! ino with
      | None => (Err EIO, s)
      | Some i => (Ok (stat_of ino i), s)
      end
  end).

Definition sys_fstat (fd : Z) : os -> res stat_t * os := syscall (fun s =>
  match fd_node s fd with
  | None => (Err EBADF, s)
  | Some (o, i) => (Ok (stat_of (of_ino o) i), s)
  end).

Definition sys_mkdir (name : string) (mode : Z) : os -> res unit * os := syscall (fun s =>
  let p := resolve name in
  match walk s (ancestors [] p) with
  | Err e => (Err e, s)
  | Ok _ =>
      match os_names s !! p with
      | Some _ => (Err EEXIST, s)
      | None => (Ok tt, snd (add_node p (Z.lor S_IFDIR mode) s))
      end
  end).

(** The names directly below a directory. *)
Definition is_child (p q : path) : bool :=
  bool_decide (length q = S (length p)) && bool_decide (take (length p) q = p).

Definition children (s : os) (p : path) : list path :=
  filter (fun q => is_child p q = true) (fst <$> map_to_list (os_names s)).

Definition sys_rmdir (name : string) : os -> res unit * os := syscall (fun s =>
  let p := resolve name in
  match lookup_path s p with
  | Err e => (Err e, s)
  | Ok ino =>
      match os_inodes s !! ino with
      | None => (Err EIO, s)
      | Some i =>
          if negb (i_isdir i) then (Err ENOTDIR, s)
          else if decide (p = []) then (Err EBUSY, s)
          else match children s p with
               | [] => (Ok tt, set_names (delete p (os_names s)) s)
               | _ :: _ => (Err ENOTEMPTY, s)
               end
      end
  end).

Definition sys_unlink (name : string) : os -> res unit * os := syscall (fun s =>
  let p := resolve name in
  match lookup_path s p with
  | Err e => (Err e, s)
  | Ok ino =>
      match os_inodes s !! ino with
      | None => (Err EIO, s)
      | Some i => if i_isdir i then (Err EISDIR, s) else (Ok tt, set_names (delete p (os_names s)) s)
      end
  end).

Definition sys_ftruncate (fd n : Z) : os -> res unit * os := syscall (fun s =>
  match fd_node s fd with
  | None => (Err EBADF, s)
  | Some (o, i) =>
      if (of_acc o =? O_RDONLY) || (n <? 0) then (Err EINVAL, s)
      else (Ok tt, set_data (of_ino o) (file_resize (i_data i) n) s)
  end).

Definition sys_truncate (name : string) (n : Z) : os -> res unit * os := syscall (fun s =>
  match lookup_path s (resolve name) with
  | Err e => (Err e, s)
  | Ok ino =>
      match os_inodes s !! ino with
      | None => (Err EIO, s)
      | Some i =>
          if n <? 0 then (Err EINVAL, s)
          else if i_isdir i then (Err EISDIR, s)
          else (Ok tt, set_data ino (file_resize (i_data i) n) s)
      end
  end).

(** Changes the permission bits and keeps the type bits. *)
Definition with_mode (m : stat_t) (mode : Z) : stat_t :=
  Stat (st_dev m) (st_ino m) (st_nlink m)
       (Z.lor (Z.land (st_mode m) S_IFMT) (Z.land mode 4095)) (st_uid m) (st_gid m)
       (st_rdev m) (st_size m) (st_blksize m) (st_blocks m) (st_atim m) (st_mtim m) (st_ctim m).

Definition with_owner (m : stat_t) (uid gid : Z) : stat_t :=
  Stat (st_dev m) (st_ino m) (st_nlink m) (st_mode m) uid gid
       (st_rdev m) (st_size m) (st_blksize m) (st_blocks m) (st_atim m) (st_mtim m) (st_ctim m).

Definition on_node (name : string) (f : stat_t -> stat_t) : os -> res unit * os := syscall (fun s =>
  match lookup_path s (resolve name) with
  | Err e => (Err e, s)
  | Ok ino =>
      match os_inodes s !! ino with
      | None => (Err EIO, s)
      | Some i => (Ok tt, set_meta ino (f (i_meta i)) s)
      end
  end).

(** [fsync] and [fdatasync]: both only report errors, since [os] has no cache to lose. *)
Definition sys_fsync (fd : Z) : os -> res unit * os := syscall (fun s =>
  match fd_node s fd with None => (Err EBADF, s) | Some _ => (Ok tt, s) end).
Definition sys_fdatasync (fd : Z) : os -> res unit * os := syscall (fun s =>
  match fd_node s fd with None => (Err EBADF, s) | Some _ => (Ok tt, s) end).

(** [utimensat] with two times, each the image of a [struct timespec]. *)
Definition with_times (m : stat_t) (atim mtim : Z) : stat_t :=
  Stat (st_dev m) (st_ino m) (st_nlink m) (st_mode m) (st_uid m) (st_gid m)
       (st_rdev m) (st_size m) (st_blksize m) (st_blocks m) atim mtim (st_ctim m).

Definition sys_utimens (name : string) (atim mtim : Z) : os -> res unit * os :=
  on_node name (fun m => with_times m atim mtim).

Definition sys_chmod (name : string) (mode : Z) : os -> res unit * os := on_node name (fun m => with_mode m mode).
Definition sys_chown (name : string) (uid gid : Z) : os -> res unit * os := on_node name (fun m => with_owner m uid gid).

(** The entries of a directory: itself, its parent, and the names below it. *)
Definition entry_in (s : os) (ino : nat) (q : path) : option string :=
  match rev q with
  | c :: r => if decide (os_names s !! rev r = Some ino) then Some c else None
  | [] => None
  end.

Definition dir_entries (s : os) (ino : nat) : list string :=
  "." :: ".." :: omap (entry_in s ino) (fst <$> map_to_list (os_names s)).

(** [readdir]: the next entry of a stream, or none at its end. *)
Definition sys_readdir (fd : Z) : os -> res (option string) * os := syscall (fun s =>
  match fd_node s fd with
  | None => (Err EBADF, s)
  | Some (o, _) =>
      match dir_entries s (of_ino o) !! Z.to_nat (of_pos o) with
      | Some c => (Ok (Some c), set_pos fd (of_pos o + 1) s)
      | None => (Ok None, s)
      end
  end).

(** [access] and [statvfs]; what the kernel grants is a parameter. *)
Definition sys_access (granted : stat_t -> Z -> bool) (name : string) (mask : Z) : os -> res unit * os := syscall (fun s =>
  match lookup_path s (resolve name) with
  | Err e => (Err e, s)
  | Ok ino =>
      match os_inodes s !! ino with
      | None => (Err EIO, s)
      | Some i => (if granted (stat_of ino i) mask then Ok tt else Err EACCES, s)
      end
  end).

Definition sys_statvfs (name : string) : os -> res unit * os := syscall (fun s =>
  match lookup_path s (resolve name) with Err e => (Err e, s) | Ok _ => (Ok tt, s) end).
