(* ===== verification/Types.v ===== *)
(** The constants and structures of [types.h], the memory image of the map
    header, and the state and monad in which the operations of ESFS run. *)

From S2P Require Import Prelude Posix.

(** ** Constants *)

Definition PATH_MAX : Z := 4096.
Definition BL_S : Z := 131072.
Definition BL_SLOG : Z := 17.
Definition BLP_S : Z := 8.
Definition MAX_SNAPSHOTS : Z := 1024 * 1024.
Definition SNDIR : string := "/snapshots".
Definition SNDIR_LEN : Z := 10.
Definition EXT_DAT : string := ".dat".
Definition EXT_MAP : string := ".map".
Definition EXT_HID : string := ".hid".
Definition EXT_LEN : Z := 4.
Definition DIRSEP : string := "/".
Definition LOCK_NUM : Z := 64.
Definition LOCKLABEL_RMDIR : string := "*rmdir".

Definition SN_STEPS_UNUSED : Z := -8.
Definition SN_STEPS_NOTOPEN : Z := -9.
Definition SN_STEPS_MAIN : Z := -7.

Definition MFD_FD_NOSN : Z := -1.
Definition MFD_FD_RDONLY : Z := -2.
Definition MFD_FD_ENOENT : Z := -3.
Definition MFD_FD_ZLEN : Z := -4.

(** ** Map file header *)

Record mapheader_t := MapHeader {
  mh_version : Z;
  mh_exists : Z;
  mh_fstat : stat_t;
  mh_signature : list Z
}.

(** [sizeof(struct mapheader_t)]: 4 + 4 + 144 + 4, padded to a multiple of 8. *)
Definition MAPHEADER_S : Z := 160.

(** The four characters of the signature "ESFS". *)
Definition ESFS_SIGNATURE : list Z := [69; 83; 70; 83].
Definition ESFS_VERSION : Z := 12000.

Definition enc_stat (s : stat_t) : list Z :=
  le_bytes 8 (st_dev s) ++ le_bytes 8 (st_ino s) ++ le_bytes 8 (st_nlink s) ++
  le_bytes 4 (st_mode s) ++ le_bytes 4 (st_uid s) ++ le_bytes 4 (st_gid s) ++ le_bytes 4 0 ++
  le_bytes 8 (st_rdev s) ++ le_bytes 8 (st_size s) ++ le_bytes 8 (st_blksize s) ++
  le_bytes 8 (st_blocks s) ++
  le_bytes 16 (st_atim s) ++ le_bytes 16 (st_mtim s) ++ le_bytes 16 (st_ctim s) ++ le_bytes 24 0.

(** The bytes that [pwrite(fd, &mapheader, sizeof, 0)] writes. *)
Definition enc_header (h : mapheader_t) : list Z :=
  le_bytes 4 (mh_version h) ++ le_bytes 4 (mh_exists h) ++ enc_stat (mh_fstat h) ++
  mh_signature h ++ le_bytes 4 0.

(** Reads an [n]-byte word and returns the rest of the image. *)
Definition rd (n : nat) (l : list Z) : Z * list Z := (le_val (take n l), drop n l).
#[global] Arguments rd : simpl never.

Definition dec_stat (l : list Z) : stat_t * list Z :=
  let '(dev, l) := rd 8 l in let '(ino, l) := rd 8 l in let '(nlink, l) := rd 8 l in
  let '(mode, l) := rd 4 l in let '(uid, l) := rd 4 l in let '(gid, l) := rd 4 l in
  let '(_, l) := rd 4 l in
  let '(rdev, l) := rd 8 l in let '(size, l) := rd 8 l in let '(blksize, l) := rd 8 l in
  let '(blocks, l) := rd 8 l in
  let '(atim, l) := rd 16 l in let '(mtim, l) := rd 16 l in let '(ctim, l) := rd 16 l in
  let '(_, l) := rd 24 l in
  (Stat dev ino nlink mode uid gid rdev (i64 size) (i64 blksize) (i64 blocks) atim mtim ctim, l).

(** The header that an image of it in memory stands for. *)
Definition dec_header (l : list Z) : mapheader_t :=
  let '(version, l) := rd 4 l in
  let '(exists_, l) := rd 4 l in
  let '(st, l) := dec_stat l in
  MapHeader (i32 version) (i32 exists_) st (take 4 l).

(** ** Locks, global data, file handles *)

Record mflock_t := MfLock {
  ml_label : Z;
  ml_mutex : bool;
  ml_mod_mutex : bool;
  ml_want : Z
}.

(** [block_buffer] is [None] before it is allocated and once it is freed. *)
Record fsdata_t := FsData {
  rootdir : string;
  rootdir_len : Z;
  sn_dir : string;
  sn_number : Z;
  sn_lat_dir : string;
  sn_lat_dir_len : Z;
  sn_is_any : Z;
  mflocks : list mflock_t;
  block_buffer : option (list Z)
}.

Inductive snpath_types := snpath_root | snpath_id | snpath_full.

Record snpath_t := SnPath {
  is_there : snpath_types;
  sp_id : string;
  sp_inpath : string
}.

(** [dirfd] is the descriptor of the directory stream, [None] for NULL. *)
Record sn_steps_t := SnStep {
  step_path : string;
  step_mapfd : Z;
  step_datfd : Z;
  step_dirfd : option Z
}.

Inductive mfd_types := mfd_main | mfd_sn_root | mfd_sn_id | mfd_sn_full.

Record mfd_t := Mfd {
  is_main : mfd_types;
  mapheader : mapheader_t;
  locklabel : Z;
  mfd_sn_number : Z;
  mainfd : Z;
  maindir : option Z;
  mapfd : Z;
  datfd : Z;
  vpath : string;
  latest_written_block_cache : Z;
  sn_current : Z;
  sn_first_file : Z;
  sn_steps : list sn_steps_t
}.

Definition set_is_main x m := Mfd x (mapheader m) (locklabel m) (mfd_sn_number m) (mainfd m) (maindir m) (mapfd m) (datfd m) (vpath m) (latest_written_block_cache m) (sn_current m) (sn_first_file m) (sn_steps m).
Definition set_mapheader x m := Mfd (is_main m) x (locklabel m) (mfd_sn_number m) (mainfd m) (maindir m) (mapfd m) (datfd m) (vpath m) (latest_written_block_cache m) (sn_current m) (sn_first_file m) (sn_steps m).
Definition set_locklabel x m := Mfd (is_main m) (mapheader m) x (mfd_sn_number m) (mainfd m) (maindir m) (mapfd m) (datfd m) (vpath m) (latest_written_block_cache m) (sn_current m) (sn_first_file m) (sn_steps m).
Definition set_mfd_sn_number x m := Mfd (is_main m) (mapheader m) (locklabel m) x (mainfd m) (maindir m) (mapfd m) (datfd m) (vpath m) (latest_written_block_cache m) (sn_current m) (sn_first_file m) (sn_steps m).
Definition set_mainfd x m := Mfd (is_main m) (mapheader m) (locklabel m) (mfd_sn_number m) x (maindir m) (mapfd m) (datfd m) (vpath m) (latest_written_block_cache m) (sn_current m) (sn_first_file m) (sn_steps m).
Definition set_maindir x m := Mfd (is_main m) (mapheader m) (locklabel m) (mfd_sn_number m) (mainfd m) x (mapfd m) (datfd m) (vpath m) (latest_written_block_cache m) (sn_current m) (sn_first_file m) (sn_steps m).
Definition set_mapfd x m := Mfd (is_main m) (mapheader m) (locklabel m) (mfd_sn_number m) (mainfd m) (maindir m) x (datfd m) (vpath m) (latest_written_block_cache m) (sn_current m) (sn_first_file m) (sn_steps m).
Definition set_datfd x m := Mfd (is_main m) (mapheader m) (locklabel m) (mfd_sn_number m) (mainfd m) (maindir m) (mapfd m) x (vpath m) (latest_written_block_cache m) (sn_current m) (sn_first_file m) (sn_steps m).
Definition set_vpath x m := Mfd (is_main m) (mapheader m) (locklabel m) (mfd_sn_number m) (mainfd m) (maindir m) (mapfd m) (datfd m) x (latest_written_block_cache m) (sn_current m) (sn_first_file m) (sn_steps m).
Definition set_cache x m := Mfd (is_main m) (mapheader m) (locklabel m) (mfd_sn_number m) (mainfd m) (maindir m) (mapfd m) (datfd m) (vpath m) x (sn_current m) (sn_first_file m) (sn_steps m).
Definition set_sn_current x m := Mfd (is_main m) (mapheader m) (locklabel m) (mfd_sn_number m) (mainfd m) (maindir m) (mapfd m) (datfd m) (vpath m) (latest_written_block_cache m) x (sn_first_file m) (sn_steps m).
Definition set_sn_first_file x m := Mfd (is_main m) (mapheader m) (locklabel m) (mfd_sn_number m) (mainfd m) (maindir m) (mapfd m) (datfd m) (vpath m) (latest_written_block_cache m) (sn_current m) x (sn_steps m).
Definition set_sn_steps x m := Mfd (is_main m) (mapheader m) (locklabel m) (mfd_sn_number m) (mainfd m) (maindir m) (mapfd m) (datfd m) (vpath m) (latest_written_block_cache m) (sn_current m) (sn_first_file m) x.

(** ** The state of the running filesystem

    [w_os] is the system underneath, [w_fs] the global data of ESFS,
    [w_mfds] the file handles allocated for open files, by address.
    [w_junk] and [w_junk_mfd] are what uninitialised memory holds, as a byte
    buffer and as an mfd; no theorem fixes them.  [w_bufs] counts the block
    buffers obtained from malloc and not yet freed. *)
Record world := World {
  w_os : os;
  w_fs : fsdata_t;
  w_mfds : gmap Z mfd_t;
  w_junk : list Z;
  w_junk_mfd : mfd_t;
  w_bufs : Z
}.

Definition set_os x w := World x (w_fs w) (w_mfds w) (w_junk w) (w_junk_mfd w) (w_bufs w).
Definition set_fs x w := World (w_os w) x (w_mfds w) (w_junk w) (w_junk_mfd w) (w_bufs w).
Definition set_mfds x w := World (w_os w) (w_fs w) x (w_junk w) (w_junk_mfd w) (w_bufs w).
Definition set_bufs x w := World (w_os w) (w_fs w) (w_mfds w) (w_junk w) (w_junk_mfd w) x.

Definition set_mflocks x f := FsData (rootdir f) (rootdir_len f) (sn_dir f) (sn_number f) (sn_lat_dir f) (sn_lat_dir_len f) (sn_is_any f) x (block_buffer f).
Definition set_block_buffer x f := FsData (rootdir f) (rootdir_len f) (sn_dir f) (sn_number f) (sn_lat_dir f) (sn_lat_dir_len f) (sn_is_any f) (mflocks f) x.
Definition set_sn_is_any x f := FsData (rootdir f) (rootdir_len f) (sn_dir f) (sn_number f) (sn_lat_dir f) (sn_lat_dir_len f) x (mflocks f) (block_buffer f).
Definition set_sn_dir x f := FsData (rootdir f) (rootdir_len f) x (sn_number f) (sn_lat_dir f) (sn_lat_dir_len f) (sn_is_any f) (mflocks f) (block_buffer f).
Definition set_sn_number x f := FsData (rootdir f) (rootdir_len f) (sn_dir f) x (sn_lat_dir f) (sn_lat_dir_len f) (sn_is_any f) (mflocks f) (block_buffer f).
Definition set_sn_lat_dir x len f := FsData (rootdir f) (rootdir_len f) (sn_dir f) (sn_number f) x len (sn_is_any f) (mflocks f) (block_buffer f).

Abbreviation M := (ST world).

(** Runs a system call. *)
Definition sys {A} (f : os -> res A * os) : M (res A) := fun w =>
  let '(r, s) := f (w_os w) in Some (r, set_os s w).

Definition get_fs : M fsdata_t := fun w => Some (w_fs w, w).
Definition put_fs (f : fsdata_t) : M unit := fun w => Some (tt, set_fs f w).
Definition modify_fs (g : fsdata_t -> fsdata_t) : M unit := fun w => Some (tt, set_fs (g (w_fs w)) w).

(** [malloc] or [realloc]: [false] for NULL, as scheduled. *)
Definition malloc_ : M bool := fun w =>
  let '(f, s) := pop_fault (w_os w) in
  Some (match f with Fail _ => false | _ => true end, set_os s w).

Lemma sys_run {A} (f : os -> res A * os) w r s : f (w_os w) = (r, s) -> sys f w = Some (r, set_os s w).
Proof. intros H. unfold sys. by rewrite H. Qed.

(** ** The header survives its trip through the map file *)

Definition stat_wf (s : stat_t) : Prop :=
  (0 <= st_dev s < 2 ^ 64 /\ 0 <= st_ino s < 2 ^ 64 /\ 0 <= st_nlink s < 2 ^ 64 /\
   0 <= st_mode s < 2 ^ 32 /\ 0 <= st_uid s < 2 ^ 32 /\ 0 <= st_gid s < 2 ^ 32 /\
   0 <= st_rdev s < 2 ^ 64) /\
  (- 2 ^ 63 <= st_size s < 2 ^ 63 /\ - 2 ^ 63 <= st_blksize s < 2 ^ 63 /\ - 2 ^ 63 <= st_blocks s < 2 ^ 63) /\
  (0 <= st_atim s < 2 ^ 128 /\ 0 <= st_mtim s < 2 ^ 128 /\ 0 <= st_ctim s < 2 ^ 128).

Definition header_wf (h : mapheader_t) : Prop :=
  - 2 ^ 31 <= mh_version h < 2 ^ 31 /\ - 2 ^ 31 <= mh_exists h < 2 ^ 31 /\
  stat_wf (mh_fstat h) /\ length (mh_signature h) = 4%nat.

(** A header that [mfd_load_mapheader] accepts. *)
Definition header_ok (h : mapheader_t) : Prop :=
  header_wf h /\ mh_version h = ESFS_VERSION /\ mh_signature h = ESFS_SIGNATURE.

Lemma rd_le_bytes n z l : rd n (le_bytes n z ++ l) = (z mod 2 ^ (8 * Z.of_nat n), l).
Proof.
  unfold rd. rewrite take_app_length', drop_app_length' by by rewrite length_le_bytes.
  by rewrite le_val_bytes.
Qed.

Lemma i64_mod z : - 2 ^ 63 <= z < 2 ^ 63 -> i64 (z mod 2 ^ 64) = z.
Proof. intros. unfold i64. rewrite Zplus_mod_idemp_l, Z.mod_small; lia. Qed.

Lemma i32_mod z : - 2 ^ 31 <= z < 2 ^ 31 -> i32 (z mod 2 ^ 32) = z.
Proof. intros. unfold i32. rewrite Zplus_mod_idemp_l, Z.mod_small; lia. Qed.

Lemma dec_enc_stat s l : stat_wf s -> dec_stat (enc_stat s ++ l) = (s, l).
Proof.
  intros ([??] & [??] & [??]). destruct_and!.
  destruct s as [dev ino nl md uid gid rdev sz bs bk at_ mt ct]. cbn in *.
  unfold dec_stat, enc_stat. cbn [st_dev st_ino st_nlink st_mode st_uid st_gid st_rdev st_size st_blksize st_blocks st_atim st_mtim st_ctim].
  rewrite <-!app_assoc. rewrite !rd_le_bytes.
  rewrite !i64_mod by done. rewrite !Z.mod_small by done. done.
Qed.

Lemma zlen_enc_stat s : zlen (enc_stat s) = 144.
Proof. unfold enc_stat. by autorewrite with zlist. Qed.

Lemma dec_enc_header h l : header_wf h -> dec_header (enc_header h ++ l) = h.
Proof.
  intros (Hv & He & Hs & Hg). destruct h as [v e s g]. cbn in *.
  unfold dec_header, enc_header. cbn [mh_version mh_exists mh_fstat mh_signature].
  rewrite <-!app_assoc. rewrite !rd_le_bytes, dec_enc_stat by done.
  rewrite take_app_length' by done.
  rewrite !i32_mod by done. done.
Qed.

Lemma zlen_enc_header h : length (mh_signature h) = 4%nat -> zlen (enc_header h) = MAPHEADER_S.
Proof.
  intros H. unfold enc_header. rewrite !zlen_app, zlen_enc_stat, !zlen_le_bytes.
  unfold zlen. by rewrite H.
Qed.
