(* ===== verification/Util.v ===== *)
(** The low-level tools of [util.c]: construction of real paths, the
    decomposition of snapshot paths, the lock labels, and reading a snapshot
    pointer file.

    A C string is a [string]; a function that fills a buffer returns the
    string, or [Err e] where the C function returns [-e].  Lengths and the
    comparisons on them keep their C types: [strlen] is a [size_t], so the
    right-hand sides are converted to 64 unsigned bits. *)

From S2P Require Import Prelude Posix Types.
From Stdlib Require Import Ascii.

Definition strlen (s : string) : Z := Z.of_nat (String.length s).

(** The bytes of a string, without the terminating NUL. *)
Fixpoint string_bytes (s : string) : list Z :=
  match s with
  | EmptyString => []
  | String c r => Z.of_N (N_of_ascii c) :: string_bytes r
  end.

(** The C string at the start of a buffer. *)
Fixpoint cstring (l : list Z) : string :=
  match l with
  | [] => EmptyString
  | b :: r => if b =? 0 then EmptyString else String (ascii_of_N (Z.to_N b)) (cstring r)
  end.

(** [strncpy(dst, src, n); dst[n] = 0] *)
Definition strncpy (src : string) (n : Z) : string := String.substring 0 (Z.to_nat n) src.

Definition DIRSEPCH : ascii := "/"%char.

(** [strchr(s, c)], as an index. *)
Fixpoint strchr (s : string) (c : ascii) : option nat :=
  match s with
  | EmptyString => None
  | String d r => if Ascii.eqb d c then Some O else S <$> strchr r c
  end.

(** [s + n] for a pointer into a string *)
Fixpoint str_from (n : nat) (s : string) : string :=
  match n, s with
  | O, _ => s
  | S m, EmptyString => EmptyString
  | S m, String _ r => str_from m r
  end.

(** ** Which space a virtual path is in *)

Definition is_path_in_sn (path : string) : bool :=
  String.prefix SNDIR path &&
  match String.get (Z.to_nat SNDIR_LEN) path with
  | Some c => Ascii.eqb c DIRSEPCH
  | None => true
  end.

(** ** Real paths *)

Definition get_prefix_path (oldpath prefix : string) (prefixlen : Z) : res string :=
  if strlen oldpath <? u64 (PATH_MAX - prefixlen)
  then Ok (strncpy prefix prefixlen +:+ oldpath)
  else Err ENAMETOOLONG.

Definition get_map_prefix_path (oldpath prefix : string) (prefixlen : Z) : res string :=
  if strlen oldpath <? u64 (PATH_MAX - EXT_LEN - prefixlen)
  then Ok (strncpy prefix prefixlen +:+ oldpath +:+ EXT_MAP)
  else Err ENAMETOOLONG.

Definition get_dat_prefix_path (oldpath prefix : string) (prefixlen : Z) : res string :=
  if strlen oldpath <? u64 (PATH_MAX - EXT_LEN - prefixlen)
  then Ok (strncpy prefix prefixlen +:+ oldpath +:+ EXT_DAT)
  else Err ENAMETOOLONG.

Definition get_hid_path (oldpath : string) : res string :=
  if strlen oldpath <? u64 (PATH_MAX - EXT_LEN)
  then Ok (oldpath +:+ EXT_HID) else Err ENAMETOOLONG.

Definition get_map_path (oldpath : string) : res string :=
  if strlen oldpath <? u64 (PATH_MAX - EXT_LEN)
  then Ok (oldpath +:+ EXT_MAP) else Err ENAMETOOLONG.

Definition get_dat_path (oldpath : string) : res string :=
  if strlen oldpath <? u64 (PATH_MAX - EXT_LEN)
  then Ok (oldpath +:+ EXT_DAT) else Err ENAMETOOLONG.

Definition get_dir_hid_path (oldpath : string) : res string :=
  if strlen oldpath <? u64 (PATH_MAX - EXT_LEN - 1)
  then Ok (oldpath +:+ DIRSEP +:+ EXT_HID) else Err ENAMETOOLONG.

Definition map_path (path : string) (fsdata : fsdata_t) : res string :=
  if strlen path <? u64 (PATH_MAX - rootdir_len fsdata)
  then Ok (strncpy (rootdir fsdata) (rootdir_len fsdata) +:+ path)
  else Err ENAMETOOLONG.

(** ** Snapshot paths *)

(** The return value and the filled-in structure; the strings that the
    function leaves unset are empty. *)
Definition decompose_sn_path (path : string) : Z * snpath_t :=
  let len := strlen path in
  if len <=? SNDIR_LEN + 1 then (0, SnPath snpath_root "" "")
  else
    let idstart := str_from (Z.to_nat SNDIR_LEN) path in
    match strchr (str_from 1 idstart) DIRSEPCH with
    | None => (1, SnPath snpath_id idstart "")
    | Some k =>
        (* [nextslash] is [idstart + 1 + k] *)
        let nextslash := 1 + Z.of_nat k in
        if nextslash =? 1 then (0, SnPath snpath_root "" "")
        else if SNDIR_LEN + nextslash =? len - 1
        then let idlen := len - SNDIR_LEN - 1 in (1, SnPath snpath_id (strncpy idstart idlen) "")
        else (0, SnPath snpath_full (strncpy idstart nextslash) (str_from (Z.to_nat nextslash) idstart))
    end.

(** ** Lock labels *)

Definition djb2_step (key c : Z) : Z := u64 (u64 (u64 (Z.shiftl key 5) + key) + c).

Definition djb2 (s : string) : Z :=
  let round key := foldl djb2_step key (string_bytes s) in
  round (round (round (round (round 5381)))).

Definition string2locklabel (s : string) : Z :=
  let key := djb2 s in if key =? 0 then 1 else key.

(** ** Snapshot pointer files *)

(** Reads a snapshot directory from a pointer file into [buf]; returns the
    C return value and the new contents of the buffer.  On the error paths
    after [open] the descriptor stays open, as in the source. *)
Definition read_sndir_from_file (buf filepath : string) : M (Z * string) :=
  o ← sys (sys_open filepath O_RDONLY 0);
  match o with
  | Err e => mret (if e =? ENOENT then 0 else - e, buf)
  | Ok fd =>
      r ← sys (sys_pread fd PATH_MAX 0);
      match r with
      | Err e => mret (- e, buf)
      | Ok d =>
          let buf' := cstring (d ++ zdrop (zlen d) (string_bytes buf ++ [0])) in
          if (zlen d =? 0) || negb (zget d (zlen d - 1) =? 0) then mret (- EIO, buf')
          else
            _ ← sys (sys_close fd);
            mret (zlen d - 1, buf')
      end
  end.

(** ** Consistency of the constants *)

Definition check_params : Z :=
  if negb (strlen SNDIR =? SNDIR_LEN) then -51
  else if negb (strlen EXT_DAT =? EXT_LEN) then -52
  else if negb (strlen EXT_HID =? EXT_LEN) then -53
  else if negb (strlen DIRSEP =? 1) then -54
  else if negb (8 =? BLP_S) then -10
  else if BL_SLOG + BLP_S * 8 <? 8 * 8 then -11
  else if negb (Z.shiftl 1 BL_SLOG =? BL_S) then -12
  else 0.
