(* ===== verification/UtilTheorems.v ===== *)
(** The theorems on [util.c]: real paths fit their buffers (and when they do
    not), snapshot paths are taken apart where they were put together, lock
    labels are never the label of a free entry. *)

From S2P Require Import Prelude Posix Types Util.
From Stdlib Require Import Ascii.

(** ** Strings *)

Lemma append_cons c s t : String c s +:+ t = String c (s +:+ t).
Proof. done. Qed.

Lemma string_length_app s t : String.length (s +:+ t) = (String.length s + String.length t)%nat.
Proof. induction s as [| c s IH]; [done |]. rewrite !append_cons. cbn. by rewrite IH. Qed.

Lemma strlen_app s t : strlen (s +:+ t) = strlen s + strlen t.
Proof. unfold strlen. rewrite string_length_app. lia. Qed.

Lemma strlen_nonneg s : 0 <= strlen s.
Proof. unfold strlen. lia. Qed.

Lemma substring_0_length n : forall s, (String.length (String.substring 0 n s) <= n)%nat.
Proof.
  induction n as [| n IH]; intros [| c s]; cbn; [lia.. |]. specialize (IH s). lia.
Qed.

Lemma strlen_strncpy s n : 0 <= n -> strlen (strncpy s n) <= n.
Proof. intros. unfold strlen, strncpy. pose proof (substring_0_length (Z.to_nat n) s). lia. Qed.

Lemma substring_prefix s t : String.substring 0 (String.length s) (s +:+ t) = s.
Proof. induction s as [| c s IH]; [by destruct t |]. rewrite append_cons. cbn. by rewrite IH. Qed.

Lemma strncpy_prefix s t : strncpy (s +:+ t) (strlen s) = s.
Proof. unfold strncpy, strlen. rewrite Nat2Z.id. apply substring_prefix. Qed.

Lemma string_app_nil_r s : s +:+ "" = s.
Proof. induction s as [| c s IH]; [done |]. rewrite !append_cons. cbn. by rewrite IH. Qed.

Lemma strncpy_all s : strncpy s (strlen s) = s.
Proof. rewrite <-(string_app_nil_r s) at 1. apply strncpy_prefix. Qed.

Lemma str_from_app s t : str_from (String.length s) (s +:+ t) = t.
Proof. induction s as [| c s IH]; [by destruct t |]. by rewrite append_cons. Qed.

Lemma string_app_assoc s t u : (s +:+ t) +:+ u = s +:+ (t +:+ u).
Proof. induction s as [| c s IH]; [done |]. rewrite !append_cons. cbn. by rewrite IH. Qed.

(** ** Real paths *)

(** A path that fits in a buffer of [PATH_MAX] bytes with its NUL. *)
Definition fits (r : res string) : Prop := match r with Ok p => strlen p < PATH_MAX | Err e => e = ENAMETOOLONG end.

Lemma fits_if (s p : string) (n : Z) :
  (strlen s < n -> strlen p < PATH_MAX) -> fits (if strlen s <? n then Ok p else Err ENAMETOOLONG).
Proof. intros H. by destruct (Z.ltb_spec (strlen s) n); [apply H |]. Qed.

Lemma u64_path n : 0 <= n <= PATH_MAX -> u64 n = n.
Proof. intros. apply u64_small. unfold PATH_MAX in *. lia. Qed.

(** What the functions return when they succeed. *)
Lemma map_prefix_path_Ok path prefix f :
  get_map_prefix_path path prefix (strlen prefix) = Ok f -> f = prefix +:+ path +:+ EXT_MAP.
Proof. unfold get_map_prefix_path. rewrite strncpy_all. case_match; [by intros [= <-] | done]. Qed.

Lemma dat_prefix_path_Ok path prefix f :
  get_dat_prefix_path path prefix (strlen prefix) = Ok f -> f = prefix +:+ path +:+ EXT_DAT.
Proof. unfold get_dat_prefix_path. rewrite strncpy_all. case_match; [by intros [= <-] | done]. Qed.

Lemma map_path_Ok path fs f :
  rootdir_len fs = strlen (rootdir fs) -> map_path path fs = Ok f -> f = rootdir fs +:+ path.
Proof. intros E. unfold map_path. rewrite E, strncpy_all. case_match; [by intros [= <-] | done]. Qed.

(** C27 (real paths fit): each of the eight functions of [util.c] that build a
    real path either returns a string that fits with its terminating NUL in a
    buffer of PATH_MAX bytes or reports ENAMETOOLONG, provided the length of
    the prefix leaves room for the extension.  (The path that [_sn_readdir]
    builds for itself is not among them.) *)
Theorem real_paths_fit oldpath prefix n fsdata :
  0 <= n <= PATH_MAX - EXT_LEN -> 0 <= rootdir_len fsdata <= PATH_MAX ->
  fits (get_prefix_path oldpath prefix n) /\ fits (get_map_prefix_path oldpath prefix n) /\
  fits (get_dat_prefix_path oldpath prefix n) /\ fits (get_hid_path oldpath) /\ fits (get_map_path oldpath) /\
  fits (get_dat_path oldpath) /\ fits (get_dir_hid_path oldpath) /\ fits (map_path oldpath fsdata).
Proof.
  intros Hn Hr. unfold EXT_LEN in *.
  assert (Hp : strlen (strncpy prefix n) <= n) by (apply strlen_strncpy; lia).
  assert (Hq : strlen (strncpy (rootdir fsdata) (rootdir_len fsdata)) <= rootdir_len fsdata) by (apply strlen_strncpy; lia).
  unfold get_prefix_path, get_map_prefix_path, get_dat_prefix_path, get_hid_path, get_map_path, get_dat_path,
    get_dir_hid_path, map_path, EXT_LEN.
  rewrite !u64_path by (unfold PATH_MAX in *; lia).
  split_and!; apply fits_if; rewrite ?strlen_app; change (strlen EXT_MAP) with 4; change (strlen EXT_DAT) with 4;
    change (strlen EXT_HID) with 4; change (strlen DIRSEP) with 1; unfold PATH_MAX in *; lia.
Qed.

Lemma real_paths_fit_witness :
  fits (get_prefix_path "/f" "/r" 2) /\ fits (get_map_prefix_path "/f" "/r" 2) /\
  fits (get_dat_prefix_path "/f" "/r" 2) /\ fits (get_hid_path "/f") /\ fits (get_map_path "/f") /\
  fits (get_dat_path "/f") /\ fits (get_dir_hid_path "/f") /\
  fits (map_path "/f" (FsData "/r" 2 "/r/snapshots" 0 "" 0 0 [] None)).
Proof. apply real_paths_fit; unfold PATH_MAX, EXT_LEN; cbn; lia. Defined.

(** C29 (unchecked overflow): when the snapshot root is 4093 to 4095 bytes
    long, the bound [PATH_MAX - EXT_LEN - prefixlen] is negative, becomes a
    huge [size_t] in the comparison, and [get_map_prefix_path] and
    [get_dat_prefix_path] accept every path: the string they build does not
    fit the buffer. *)
Theorem map_prefix_path_overflow oldpath prefix :
  PATH_MAX - EXT_LEN < strlen prefix < PATH_MAX -> strlen oldpath < 2 ^ 62 ->
  exists p q, get_map_prefix_path oldpath prefix (strlen prefix) = Ok p /\ PATH_MAX < strlen p + 1 /\
    get_dat_prefix_path oldpath prefix (strlen prefix) = Ok q /\ PATH_MAX < strlen q + 1.
Proof.
  intros Hp Ho. unfold get_map_prefix_path, get_dat_prefix_path, PATH_MAX, EXT_LEN in *.
  assert (E : u64 (4096 - 4 - strlen prefix) = 2 ^ 64 + 4092 - strlen prefix).
  { unfold u64. rewrite <-(Z.mod_add _ 1) by lia. rewrite Z.mod_small; lia. }
  pose proof (strlen_nonneg oldpath). rewrite E. destruct (Z.ltb_spec (strlen oldpath) (2 ^ 64 + 4092 - strlen prefix)); [| lia].
  rewrite strncpy_all. eexists _, _. split_and!; [done | | done |]; rewrite !strlen_app.
  - change (strlen EXT_MAP) with 4. lia.
  - change (strlen EXT_DAT) with 4. lia.
Qed.

Fixpoint slashes (n : nat) : string := match n with O => "" | S m => String "/" (slashes m) end.

Lemma map_prefix_path_overflow_witness :
  exists p q, get_map_prefix_path "/f" (slashes 4094) (strlen (slashes 4094)) = Ok p /\ PATH_MAX < strlen p + 1 /\
    get_dat_prefix_path "/f" (slashes 4094) (strlen (slashes 4094)) = Ok q /\ PATH_MAX < strlen q + 1.
Proof.
  apply map_prefix_path_overflow; [| by vm_compute].
  assert (E : strlen (slashes 4094) = 4094) by (vm_compute; reflexivity).
  rewrite E. by vm_compute.
Defined.

(** ** Snapshot paths *)

(** No '/' in a component. *)
Fixpoint no_slash (s : string) : bool :=
  match s with
  | EmptyString => true
  | String c r => negb (Ascii.eqb c DIRSEPCH) && no_slash r
  end.

Lemma strchr_no_slash s : no_slash s = true -> strchr s DIRSEPCH = None.
Proof.
  induction s as [| c s IH]; cbn; [done |]. intros [Hc Hs]%andb_prop.
  destruct (Ascii.eqb c DIRSEPCH); [done |]. by rewrite IH.
Qed.

Lemma strchr_first s t : no_slash s = true -> strchr (s +:+ String DIRSEPCH t) DIRSEPCH = Some (String.length s).
Proof.
  induction s as [| c s IH]; [done |]. rewrite append_cons. cbn. intros [Hc Hs]%andb_prop.
  destruct (Ascii.eqb c DIRSEPCH); [done |]. by rewrite IH.
Qed.

Lemma str_from_sndir t : str_from (Z.to_nat SNDIR_LEN) (SNDIR +:+ t) = t.
Proof. apply (str_from_app SNDIR t). Qed.

Lemma strlen_nonempty s : s <> "" -> 1 <= strlen s.
Proof. destruct s; [done |]. intros _. unfold strlen. cbn. lia. Qed.

Lemma decompose_sn_id ID : ID <> "" -> no_slash ID = true ->
  decompose_sn_path (SNDIR +:+ DIRSEP +:+ ID) = (1, SnPath snpath_id (DIRSEP +:+ ID) "").
Proof.
  intros HI Hs. pose proof (strlen_nonempty ID HI). unfold decompose_sn_path.
  rewrite str_from_sndir, !strlen_app. change (strlen SNDIR) with 10. change (strlen DIRSEP) with 1. unfold SNDIR_LEN.
  destruct (Z.leb_spec (10 + (1 + strlen ID)) (10 + 1)); [lia |].
  change (str_from 1 (DIRSEP +:+ ID)) with ID. by rewrite strchr_no_slash.
Qed.

Lemma decompose_sn_full ID rest : ID <> "" -> no_slash ID = true -> rest <> "" ->
  decompose_sn_path (SNDIR +:+ DIRSEP +:+ ID +:+ DIRSEP +:+ rest)
    = (0, SnPath snpath_full (DIRSEP +:+ ID) (DIRSEP +:+ rest)).
Proof.
  intros HI Hs Hr. pose proof (strlen_nonempty ID HI). pose proof (strlen_nonempty rest Hr). unfold decompose_sn_path.
  rewrite str_from_sndir, !strlen_app. change (strlen SNDIR) with 10. change (strlen DIRSEP) with 1. unfold SNDIR_LEN.
  destruct (Z.leb_spec (10 + (1 + (strlen ID + (1 + strlen rest)))) (10 + 1)); [lia |].
  change (str_from 1 (DIRSEP +:+ ID +:+ DIRSEP +:+ rest)) with (ID +:+ String DIRSEPCH rest).
  rewrite strchr_first by done. change (Z.of_nat (String.length ID)) with (strlen ID).
  destruct (Z.eqb_spec (1 + strlen ID) 1); [lia |].
  destruct (Z.eqb_spec (10 + (1 + strlen ID)) (10 + (1 + (strlen ID + (1 + strlen rest))) - 1)); [lia |].
  assert (El : 1 + strlen ID = strlen (DIRSEP +:+ ID)) by (rewrite strlen_app; done).
  rewrite El. do 2 f_equal.
  - apply (strncpy_prefix (DIRSEP +:+ ID) (String DIRSEPCH rest)).
  - unfold strlen. rewrite Nat2Z.id. apply (str_from_app (DIRSEP +:+ ID) (String DIRSEPCH rest)).
Qed.

(** C26 (snapshot paths): [/snapshots/ID] is taken apart as the snapshot ID,
    [/snapshots/ID/rest] as the ID and the path inside it, [/snapshots] and
    [/snapshots/] as the snapshot root, and what was put together is got
    back, with the leading '/' of each part. *)
Theorem decompose_sn_path_parts ID rest :
  ID <> "" -> no_slash ID = true -> rest <> "" ->
  decompose_sn_path SNDIR = (0, SnPath snpath_root "" "") /\
  decompose_sn_path (SNDIR +:+ DIRSEP) = (0, SnPath snpath_root "" "") /\
  decompose_sn_path (SNDIR +:+ DIRSEP +:+ ID) = (1, SnPath snpath_id (DIRSEP +:+ ID) "") /\
  decompose_sn_path (SNDIR +:+ DIRSEP +:+ ID +:+ DIRSEP +:+ rest)
    = (0, SnPath snpath_full (DIRSEP +:+ ID) (DIRSEP +:+ rest)).
Proof. intros HI Hs Hr. split_and!; [done | done | by apply decompose_sn_id | by apply decompose_sn_full]. Qed.

Lemma decompose_sn_path_parts_witness :
  decompose_sn_path "/snapshots" = (0, SnPath snpath_root "" "") /\
  decompose_sn_path "/snapshots/" = (0, SnPath snpath_root "" "") /\
  decompose_sn_path "/snapshots/monday" = (1, SnPath snpath_id "/monday" "") /\
  decompose_sn_path "/snapshots/monday/d/f" = (0, SnPath snpath_full "/monday" "/d/f").
Proof. apply (decompose_sn_path_parts "monday" "d/f"); [discriminate | reflexivity | discriminate]. Defined.

(** ** Lock labels *)

Lemma djb2_fold_range l : forall k, 0 <= k < 2 ^ 64 -> 0 <= foldl djb2_step k l < 2 ^ 64.
Proof. induction l as [| c l IH]; intros k Hk; cbn; [done |]. apply IH, u64_range. Qed.

Lemma locklabel_pos s : 0 < string2locklabel s < 2 ^ 64.
Proof.
  unfold string2locklabel. assert (0 <= djb2 s < 2 ^ 64).
  { unfold djb2. cbv zeta. do 5 apply djb2_fold_range. lia. }
  destruct (Z.eqb_spec (djb2 s) 0); lia.
Qed.

(** The bytes of a string as the digits of a number in base 33, the first one
    the most significant; no wrap-around. *)
Fixpoint base33 (l : list Z) : Z :=
  match l with
  | [] => 0
  | c :: r => c * 33 ^ zlen r + base33 r
  end.

Lemma djb2_step_mod key c : djb2_step key c = (33 * key + c) mod 2 ^ 64.
Proof.
  unfold djb2_step, u64. rewrite Z.shiftl_mul_pow2, Z.add_mod_idemp_l, <-Z.add_assoc, Z.add_mod_idemp_l by lia. f_equal. change (2 ^ 5) with 32. lia.
Qed.

Lemma djb2_fold_base33 l : forall key, 0 <= key < 2 ^ 64 ->
  foldl djb2_step key l = (key * 33 ^ zlen l + base33 l) mod 2 ^ 64.
Proof.
  induction l as [| c l IH]; intros key Hk; cbn [foldl base33].
  - change (zlen (@nil Z)) with 0. rewrite Z.pow_0_r, Z.mul_1_r, Z.add_0_r. symmetry. by apply Z.mod_small.
  - rewrite IH, djb2_step_mod by apply u64_range. rewrite zlen_cons, Z.pow_add_r by (pose proof (zlen_nonneg l); lia).
    rewrite <-Z.add_mod_idemp_l, Z.mul_mod_idemp_l, Z.add_mod_idemp_l by lia. f_equal. rewrite Z.pow_1_r. ring.
Qed.

(** The hash: computed with shifts and additions that wrap around in
    every step, [djb2] is the remainder modulo 2^64 of one number: the bytes
    of the string, written five times after the digit 5381, read in base 33. *)
Theorem djb2_is_base33 s :
  let l := string_bytes s in djb2 s = base33 (5381 :: l ++ l ++ l ++ l ++ l) mod 2 ^ 64.
Proof.
  cbv zeta. unfold djb2. rewrite <-!foldl_app. rewrite djb2_fold_base33 by lia. cbn [base33]. by rewrite !app_assoc.
Qed.

(** [check_params] finds nothing wrong with the constants of [types.h], so
    [main] goes on. *)
Lemma check_params_ok : check_params = 0.
Proof. reflexivity. Qed.
