(* ===== verification/Log.v ===== *)
(** The log: the first part of [util.c].

    [time] and [gmtime_r] are modelled on 64-bit seconds since the epoch with
    the proleptic Gregorian calendar; a message is given as the text that
    [vfprintf] makes of it.  [log_instant] reads the time of a line back. *)

From S2P Require Import Prelude UtilTheorems.
From Stdlib Require Import Ascii.

(** The value of [params.h]. *)
Definition DEBUG : Z := 1.

(** ** Dates *)

(** The fields of [struct tm] that are printed. *)
Record tm := Tm { tm_year : Z; tm_mon : Z; tm_mday : Z; tm_hour : Z; tm_min : Z; tm_sec : Z }.

(** The year, the month from 1 and the day of a number of days since
    1970-01-01.  Years are counted from 1 March, in cycles of 400 (146097
    days), 100 (36524 days) and 4 (1461 days); the last day of the first and
    of the third kind belongs to the year before it. *)
Definition year_of_doe (doe : Z) : Z * Z :=
  let c := Z.min 3 (doe / 36524) in
  let r := doe - c * 36524 in
  let y := Z.min 3 (r mod 1461 / 365) in
  (100 * c + 4 * (r / 1461) + y, r mod 1461 - 365 * y).

Definition month_of_doy (doy : Z) : Z * Z :=
  let mp := (5 * doy + 2) / 153 in
  ((if mp <? 10 then mp + 3 else mp - 9), doy - (153 * mp + 2) / 5 + 1).

Definition civil (days : Z) : Z * Z * Z :=
  let z := days + 719468 in
  let '(y, doy) := year_of_doe (z mod 146097) in
  let '(m, d) := month_of_doy doy in
  (y + z / 146097 * 400 + (if m <=? 2 then 1 else 0), m, d).

(** [gmtime_r] fails when the year does not fit an [int]. *)
Definition gmtime_r (t : Z) : option tm :=
  let '(y, m, d) := civil (t / 86400) in
  let s := t mod 86400 in
  if (- 2 ^ 31 <=? y - 1900) && (y - 1900 <? 2 ^ 31)
  then Some (Tm (y - 1900) (m - 1) d (s / 3600) (s / 60 mod 60) (s mod 60))
  else None.

(** ** Lines *)

Definition digit (n : Z) : ascii := ascii_of_nat (Z.to_nat (48 + n)).

Fixpoint dec_fuel (fuel : nat) (n : Z) (acc : string) : string :=
  match fuel with
  | O => acc
  | S f => let acc := String (digit (n mod 10)) acc in if n <? 10 then acc else dec_fuel f (n / 10) acc
  end.

Fixpoint zeros_str (n : nat) : string := match n with O => "" | S n => String "0" (zeros_str n) end.

(** [%0wd] of an [int]; ten digits are enough for one. *)
Definition fmt_d (w : nat) (n : Z) : string :=
  let s := dec_fuel 10 (Z.abs n) "" in
  let sign := if n <? 0 then "-" else "" in
  sign +:+ zeros_str (w - String.length sign - String.length s) +:+ s.

(** What [$_log] prints before the message, when [time] gives [now] ([None]
    for -1) in thread [tid]. *)
Definition log_prefix (now : option Z) (tid : Z) : string :=
  let timeinfo := now ≫= gmtime_r in
  let field (f : tm -> Z) := default 0 (f <$> timeinfo) in
  fmt_d 4 (field (fun t => 1900 + tm_year t)) +:+ "-" +:+ fmt_d 2 (field tm_mon) +:+ "-" +:+ fmt_d 2 (field tm_mday) +:+ " " +:+
  fmt_d 2 (field tm_hour) +:+ ":" +:+ fmt_d 2 (field tm_min) +:+ ":" +:+ fmt_d 2 (field tm_sec) +:+ "[" +:+ fmt_d 5 tid +:+ "]".

(** A message is added to the log file. *)
Definition esfs_log (now : option Z) (tid : Z) (msg : string) (logfile : string) : string :=
  logfile +:+ log_prefix now tid +:+ msg.

(** Important messages and messages for debugging, by the value of [DEBUG]. *)
Definition dlogi (now : option Z) (tid : Z) (msg : string) (logfile : string) : string :=
  if 0 <? DEBUG then esfs_log now tid msg logfile else logfile.

Definition dlogdbg (now : option Z) (tid : Z) (msg : string) (logfile : string) : string :=
  if 1 <? DEBUG then esfs_log now tid msg logfile else logfile.

(** [log_open]: the file is emptied ([fopen] says whether it can be opened);
    [setvbuf] only changes when lines reach the disk. *)
Definition log_open (fopen : string -> bool) (filename : string) : option string :=
  if fopen filename then Some "" else None.

(** ** Reading a line back *)

Definition days_of_civil (y m d : Z) : Z :=
  let y := if m <=? 2 then y - 1 else y in
  let yoe := y mod 400 in
  let doy := (153 * (if 2 <? m then m - 3 else m + 9) + 2) / 5 + d - 1 in
  y / 400 * 146097 + (yoe * 365 + yoe / 4 - yoe / 100 + doy) - 719468.

Fixpoint undec (acc : Z) (s : string) : Z :=
  match s with "" => acc | String c s => undec (acc * 10 + Z.of_nat (nat_of_ascii c) - 48) s end.

Definition log_field (i n : nat) (line : string) : Z := undec 0 (String.substring i n line).

(** The second at which a line was printed, if the month is counted from
    [first]. *)
Definition log_instant (first : Z) (line : string) : Z :=
  days_of_civil (log_field 0 4 line) (log_field 5 2 line + 1 - first) (log_field 8 2 line) * 86400 +
  log_field 11 2 line * 3600 + log_field 14 2 line * 60 + log_field 17 2 line.

(** ** Lemmas *)

(** Checking a range. *)
Fixpoint all_from (p : Z -> bool) (n : nat) (z : Z) : bool :=
  match n with O => true | S n => if p z then all_from p n (z + 1) else false end.

Lemma all_from_spec p n z : all_from p n z = true -> forall x, z <= x < z + Z.of_nat n -> p x = true.
Proof.
  revert z. induction n as [| n IH]; intros z H x Hx; [lia |]. simpl in H. destruct (p z) eqn:E; [| done].
  destruct (decide (x = z)) as [-> | Hne]; [done | apply (IH (z + 1)); [done | lia]].
Qed.

Lemma year_of_doe_spec doe y doy : year_of_doe doe = (y, doy) -> 0 <= doe < 146097 ->
  0 <= y < 400 /\ 0 <= doy <= 365 /\ y * 365 + y / 4 - y / 100 + doy = doe.
Proof.
  unfold year_of_doe. intros [= <- <-] H. set (c := Z.min 3 (doe / 36524)). set (r := doe - c * 36524).
  assert (Hc : 0 <= c <= 3 /\ 0 <= r <= 36524 /\ (r = 36524 -> c = 3)).
  { subst r c. Z.to_euclidean_division_equations. lia. }
  assert (Hr : doe = c * 36524 + r) by lia. clearbody c r.
  pose proof (Z.div_mod r 1461 ltac:(lia)) as Hq. pose proof (Z.mod_pos_bound r 1461 eq_refl) as Hb.
  set (q := r / 1461) in *. set (u := r mod 1461) in *. clearbody q u.
  assert (Hq' : 0 <= q <= 24) by lia.
  assert (Hy : exists v, v = Z.min 3 (u / 365) /\ 0 <= v <= 3 /\ 0 <= u - 365 * v <= 365)
    by (eexists; split; [done |]; Z.to_euclidean_division_equations; lia).
  destruct Hy as (v & <- & Hv & Hu).
  assert ((100 * c + 4 * q + v) / 4 = 25 * c + q) as -> by (Z.to_euclidean_division_equations; lia).
  assert ((100 * c + 4 * q + v) / 100 = c) as -> by (Z.to_euclidean_division_equations; lia).
  lia.
Qed.

Lemma month_of_doy_spec doy m d : month_of_doy doy = (m, d) -> 0 <= doy <= 365 ->
  (153 * (if 2 <? m then m - 3 else m + 9) + 2) / 5 + d - 1 = doy /\ 1 <= m <= 12 /\ 1 <= d <= 31 /\ (m <= 2 <-> 306 <= doy).
Proof.
  unfold month_of_doy. intros [= <- <-] H. set (mp := (5 * doy + 2) / 153).
  assert (Hm : 0 <= mp <= 11 /\ (10 <= mp <-> 306 <= doy)) by (subst mp; Z.to_euclidean_division_equations; lia).
  assert (E : (if 2 <? (if mp <? 10 then mp + 3 else mp - 9) then (if mp <? 10 then mp + 3 else mp - 9) - 3 else (if mp <? 10 then mp + 3 else mp - 9) + 9) = mp).
  { destruct (Z.ltb_spec mp 10); [destruct (Z.ltb_spec 2 (mp + 3)) | destruct (Z.ltb_spec 2 (mp - 9))]; lia. }
  rewrite E. split; [lia |].
  assert (Hd : 1 <= doy - (153 * mp + 2) / 5 + 1 <= 31) by (subst mp; Z.to_euclidean_division_equations; lia).
  destruct (Z.ltb_spec mp 10); lia.
Qed.

(** A date determines its day, and its fields are in their ranges. *)
Lemma civil_spec n y m d : civil n = (y, m, d) ->
  days_of_civil y m d = n /\ 1 <= m <= 12 /\ 1 <= d <= 31 /\ (0 <= n < 2932897 -> 1970 <= y < 10000).
Proof.
  unfold civil. set (z := n + 719468). pose proof (Z.mod_pos_bound z 146097 eq_refl) as Hb.
  pose proof (Z.div_mod z 146097 ltac:(lia)) as Hz.
  destruct (year_of_doe _) as [y1 doy] eqn:Ey, (month_of_doy doy) as [m1 d1] eqn:Em. intros [= <- <- <-].
  destruct (year_of_doe_spec _ _ _ Ey Hb) as (Hy & Hdoy & Hsum), (month_of_doy_spec _ _ _ Em Hdoy) as (Hdd & Hm & Hd & Hlate).
  set (e := z / 146097) in *. set (k := if m1 <=? 2 then 1 else 0).
  assert (E : (if m1 <=? 2 then y1 + e * 400 + k - 1 else y1 + e * 400 + k) = y1 + e * 400)
    by (unfold k; destruct (m1 <=? 2); lia).
  split_and!; [| lia.. |].
  - unfold days_of_civil. rewrite E, Z.mod_add, Z.div_add, Z.mod_small, Z.div_small by lia. lia.
  - intros Hn. assert (Hk : 0 <= k <= 1 /\ (k = 1 <-> 306 <= doy)) by (unfold k; destruct (Z.leb_spec m1 2); lia).
    clearbody e k. Z.to_euclidean_division_equations. lia.
Qed.

(** Fields of fixed width. *)
Definition field_ok (w : nat) (n : Z) : bool :=
  Nat.eqb (String.length (fmt_d w n)) w && (undec 0 (fmt_d w n) =? n).

Lemma field4 n : 0 <= n < 10000 -> String.length (fmt_d 4 n) = 4%nat /\ undec 0 (fmt_d 4 n) = n.
Proof.
  intros Hn. assert (H : all_from (field_ok 4) (Z.to_nat 10000) 0 = true) by (vm_compute; reflexivity).
  apply all_from_spec with (x := n) in H; [| lia]. apply andb_true_iff in H as [H1 H2].
  split; [by apply Nat.eqb_eq | by apply Z.eqb_eq].
Qed.

Lemma field2 n : 0 <= n < 100 -> String.length (fmt_d 2 n) = 2%nat /\ undec 0 (fmt_d 2 n) = n.
Proof.
  intros Hn. assert (H : all_from (field_ok 2) (Z.to_nat 100) 0 = true) by (vm_compute; reflexivity).
  apply all_from_spec with (x := n) in H; [| lia]. apply andb_true_iff in H as [H1 H2].
  split; [by apply Nat.eqb_eq | by apply Z.eqb_eq].
Qed.

Lemma substring_field s t k : String.length s = k -> String.substring 0 k (s +:+ t) = s.
Proof. intros <-. apply substring_prefix. Qed.

Lemma substring_skip s t n i k : String.length s = k -> String.substring (k + i) n (s +:+ t) = String.substring i n t.
Proof. intros <-. by induction s. Qed.

(** Passing over a field and the character after it. *)
Lemma substring_past s c t n k i : String.length s = k -> (k < i)%nat ->
  String.substring i n (s +:+ String c "" +:+ t) = String.substring (i - k - 1) n t.
Proof.
  intros <- Hi. replace i with (String.length s + S (i - String.length s - 1))%nat at 1 by lia.
  by rewrite (substring_skip _ _ _ _ _ eq_refl).
Qed.

(** The six fields of a line, by position. *)
Lemma log_fields Y Mo D h mi s rest :
  0 <= Y < 10000 -> 0 <= Mo < 100 -> 0 <= D < 100 -> 0 <= h < 100 -> 0 <= mi < 100 -> 0 <= s < 100 ->
  let line := fmt_d 4 Y +:+ "-" +:+ fmt_d 2 Mo +:+ "-" +:+ fmt_d 2 D +:+ " " +:+ fmt_d 2 h +:+ ":" +:+ fmt_d 2 mi +:+ ":" +:+ fmt_d 2 s +:+ rest in
  (log_field 0 4 line, log_field 5 2 line, log_field 8 2 line, log_field 11 2 line, log_field 14 2 line, log_field 17 2 line)
  = (Y, Mo, D, h, mi, s).
Proof.
  intros HY HMo HD Hh Hmi Hs line.
  destruct (field4 _ HY) as [L4 V4], (field2 _ HMo) as [La Va], (field2 _ HD) as [Lb Vb], (field2 _ Hh) as [Lc Vc],
    (field2 _ Hmi) as [Ld Vd], (field2 _ Hs) as [Le Ve].
  unfold log_field, line.
  rewrite (substring_field _ _ _ L4), !(substring_past _ _ _ _ _ _ L4) by lia. cbn [Nat.sub].
  rewrite (substring_field _ _ _ La), !(substring_past _ _ _ _ _ _ La) by lia. cbn [Nat.sub].
  rewrite (substring_field _ _ _ Lb), !(substring_past _ _ _ _ _ _ Lb) by lia. cbn [Nat.sub].
  rewrite (substring_field _ _ _ Lc), !(substring_past _ _ _ _ _ _ Lc) by lia. cbn [Nat.sub].
  rewrite (substring_field _ _ _ Ld), !(substring_past _ _ _ _ _ _ Ld) by lia. cbn [Nat.sub].
  rewrite (substring_field _ _ _ Le). congruence.
Qed.

(** ** The time of a line *)

Lemma gmtime_fields t y m d : civil (t / 86400) = (y, m, d) -> 0 <= t < 2932897 * 86400 ->
  gmtime_r t = Some (Tm (y - 1900) (m - 1) d (t mod 86400 / 3600) (t mod 86400 / 60 mod 60) (t mod 86400 mod 60)) /\
  1970 <= y < 10000 /\ 1 <= m <= 12 /\ 1 <= d <= 31 /\ days_of_civil y m d = t / 86400.
Proof.
  intros E Ht. pose proof (civil_spec _ _ _ _ E) as (Hd & Hm & Hdd & Hy).
  specialize (Hy ltac:(Z.to_euclidean_division_equations; lia)).
  split; [| done]. unfold gmtime_r. rewrite E.
  destruct (Z.leb_spec (- 2 ^ 31) (y - 1900)), (Z.ltb_spec (y - 1900) (2 ^ 31)); [done | lia..].
Qed.

(** The fields of a line printed between 1970 and 9999. *)
Lemma log_line_fields t tid msg y m d : civil (t / 86400) = (y, m, d) -> 0 <= t < 2932897 * 86400 ->
  let line := esfs_log (Some t) tid msg "" in let s := t mod 86400 in
  (log_field 0 4 line, log_field 5 2 line, log_field 8 2 line, log_field 11 2 line, log_field 14 2 line, log_field 17 2 line)
  = (y, m - 1, d, s / 3600, s / 60 mod 60, s mod 60).
Proof.
  intros E Ht line s. destruct (gmtime_fields _ _ _ _ E Ht) as (Eg & Hy & Hm & Hd & Hdays).
  pose proof (Z.mod_pos_bound t 86400 eq_refl) as Hs.
  unfold line, esfs_log, log_prefix. cbn [mbind option_bind]. rewrite Eg.
  cbn [default fmap option_fmap option_map from_option tm_year tm_mon tm_mday tm_hour tm_min tm_sec id].
  replace (1900 + (y - 1900)) with y by lia. fold s in Hs |- *.
  change ("" +:+ ?x) with x. rewrite !string_app_assoc.
  apply log_fields; Z.to_euclidean_division_equations; lia.
Qed.

(** A line tells its second to a reader who counts the months from 0. *)
Lemma log_time_reads_back t tid msg :
  0 <= t < 2932897 * 86400 -> log_instant 0 (esfs_log (Some t) tid msg "") = t.
Proof.
  intros Ht. destruct (civil (t / 86400)) as [[y m] d] eqn:E.
  destruct (gmtime_fields _ _ _ _ E Ht) as (_ & _ & _ & _ & Hdays).
  pose proof (log_line_fields t tid msg _ _ _ E Ht) as Hl. cbv zeta in Hl.
  unfold log_instant. injection Hl as -> -> -> -> -> ->.
  replace (m - 1 + 1 - 0) with m by lia. rewrite Hdays. Z.to_euclidean_division_equations. lia.
Qed.

(** The month is printed as [gmtime_r] counts it, from 0: it is never the
    month of the message, and January has the number 0. *)
Lemma log_month_off t tid msg : 0 <= t < 2932897 * 86400 ->
  log_field 5 2 (esfs_log (Some t) tid msg "") + 1 = (civil (t / 86400)).1.2.
Proof.
  intros Ht. destruct (civil (t / 86400)) as [[y m] d] eqn:E.
  pose proof (log_line_fields t tid msg _ _ _ E Ht) as Hl. cbv zeta in Hl. injection Hl as _ -> _ _ _ _. cbn. lia.
Qed.

Example log_line_example : esfs_log (Some 1388534399) 4242 "Initialised ESFS" "" = "2013-11-31 23:59:59[04242]Initialised ESFS".
Proof. reflexivity. Qed.
