(* ===== verification/Mflock.v ===== *)
(** The lock table of [mflock.c] as one thread runs it: [mflock_lock] and
    [mflock_unlock] on the table in [fsdata].

    A thread that waits for a mutex nobody will release does not return, so
    these functions are [None] there.  Interleavings of several threads are
    the subject of [MflockConc].  The promise the rest of ESFS relies on is
    the class [LockService], which the table discharges at the end. *)

From S2P Require Import Prelude Posix Types.

Section Table.

Definition entry (t : list mflock_t) (i : nat) : option mflock_t := t !! i.

Definition get_table : M (list mflock_t) := fun w => Some (mflocks (w_fs w), w).
Definition put_table (t : list mflock_t) : M unit := fun w => Some (tt, set_fs (set_mflocks t (w_fs w)) w).

(** Changes entry [i]; an index outside the table is undefined behaviour. *)
Definition upd_entry (i : nat) (f : mflock_t -> mflock_t) : M unit :=
  t ← get_table;
  match t !! i with
  | Some _ => put_table (alter f i t)
  | None => st_stuck
  end.

Definition read_entry (i : nat) : M mflock_t :=
  t ← get_table; match t !! i with Some e => mret e | None => st_stuck end.

Definition with_label (x : Z) (e : mflock_t) : mflock_t := MfLock x (ml_mutex e) (ml_mod_mutex e) (ml_want e).
Definition with_mutex (x : bool) (e : mflock_t) : mflock_t := MfLock (ml_label e) x (ml_mod_mutex e) (ml_want e).
Definition with_mod_mutex (x : bool) (e : mflock_t) : mflock_t := MfLock (ml_label e) (ml_mutex e) x (ml_want e).
Definition with_want (x : Z) (e : mflock_t) : mflock_t := MfLock (ml_label e) (ml_mutex e) (ml_mod_mutex e) x.

(** [pthread_mutex_lock] on a mutex that is held does not return. *)
Definition mutex_lock (i : nat) : M unit :=
  e ← read_entry i; if ml_mutex e then st_stuck else upd_entry i (with_mutex true).
Definition mutex_unlock (i : nat) : M unit := upd_entry i (with_mutex false).
Definition mod_lock (i : nat) : M unit :=
  e ← read_entry i; if ml_mod_mutex e then st_stuck else upd_entry i (with_mod_mutex true).
Definition mod_unlock (i : nat) : M unit := upd_entry i (with_mod_mutex false).

(** [label & (LOCK_NUM - 1)] *)
Definition mod_index (label : Z) : nat := Z.to_nat (Z.land label (LOCK_NUM - 1)).

(** [want] is an [unsigned int]. *)
Definition want_add (k : Z) (e : mflock_t) : mflock_t := with_want ((ml_want e + k) mod 2 ^ 32) e.

Definition mflock_init_entry : mflock_t := MfLock 0 false false 0.

Definition mflock_init : M Z :=
  m ← malloc_;
  if negb m then mret (- ENOMEM)
  else _ ← put_table (replicate (Z.to_nat LOCK_NUM) mflock_init_entry); mret 0.

(** The table is freed; the model leaves no entry behind. *)
Definition mflock_destroy : M Z := _ ← put_table []; mret 0.

(** The search for the label at START, and for a mutex to label at FIND. *)
Definition find_label (t : list mflock_t) (label : Z) : option nat :=
  fst <$> list_find (fun e => ml_label e = label) t.
Definition find_free (t : list mflock_t) : option nat :=
  fst <$> list_find (fun e => ml_label e = 0 /\ ml_mutex e = false) t.

(** The START loop of [mflock_lock]; [have_mod] tells whether the thread
    holds the MOD mutex of the label.  A FIND that sees no free entry spins:
    with nobody else running it never ends. *)
Fixpoint mflock_start (fuel : nat) (have_mod : bool) (label : Z) : M Z :=
  match fuel with
  | O => st_stuck
  | S n =>
      t ← get_table;
      match find_label t label with
      | Some i =>
          _ ← (if have_mod then mod_unlock (mod_index label) else mret tt);
          _ ← upd_entry i (want_add 1);
          _ ← mutex_lock i;
          _ ← upd_entry i (want_add (-1));
          e ← read_entry i;
          if ml_label e =? label then mret (Z.of_nat i) else mflock_start n false label
      | None =>
          if negb have_mod then
            _ ← mod_lock (mod_index label); mflock_start n true label
          else
            match find_free t with
            | Some ml =>
                _ ← mutex_lock ml;
                e ← read_entry ml;
                if ml_label e =? 0 then
                  _ ← upd_entry ml (with_label label);
                  _ ← mod_unlock (mod_index label);
                  mret (Z.of_nat ml)
                else
                  _ ← mutex_unlock ml; st_stuck
            | None => st_stuck
            end
      end
  end.

(** A thread that runs alone passes START at most three times. *)
Definition mflock_lock (label : Z) : M Z := mflock_start 3 false label.

Definition mflock_unlock (lockid : Z) : M Z :=
  if lockid <? 0 then st_stuck
  else
    let i := Z.to_nat lockid in
    mylock ← read_entry i;
    if ml_want mylock =? 0 then
      let m := mod_index (ml_label mylock) in
      _ ← mod_lock m;
      mylock' ← read_entry i;
      if ml_want mylock' =? 0 then
        _ ← upd_entry i (with_label 0);
        _ ← mutex_unlock i;
        _ ← mod_unlock m;
        mret 0
      else
        _ ← mod_unlock m;
        _ ← mutex_unlock i;
        mret 0
    else
      _ ← mutex_unlock i; mret 0.

End Table.

(** ** The promise of the lock table *)

(** What a caller relies on: while the table is idle a lock can be taken
    for any label but 0, only the lock table changes, and releasing it
    returns to an idle table, whatever else happened in between. *)
Class LockService (lock unlock : Z -> M Z) := {
  lk_idle : list mflock_t -> Prop;
  lk_lock_ok w label :
    lk_idle (mflocks (w_fs w)) -> label <> 0 ->
    exists id t, 0 <= id < LOCK_NUM /\
      lock label w = Some (id, set_fs (set_mflocks t (w_fs w)) w) /\
      forall w2, mflocks (w_fs w2) = t ->
        exists t', lk_idle t' /\ unlock id w2 = Some (0, set_fs (set_mflocks t' (w_fs w2)) w2)
}.

(** No thread uses the table: no entry is labelled or wanted, no MOD mutex
    is held, and some entry's mutex is free. *)
Definition idle_table (t : list mflock_t) : Prop :=
  length t = Z.to_nat LOCK_NUM /\
  (forall i e, t !! i = Some e -> ml_label e = 0 /\ ml_mod_mutex e = false /\ ml_want e = 0) /\
  exists i e, t !! i = Some e /\ ml_mutex e = false.

(** ** Running the table operations *)

(** The world with another lock table. *)
Definition wt (t : list mflock_t) (w : world) : world := set_fs (set_mflocks t (w_fs w)) w.

Lemma wt_wt t t' w : wt t' (wt t w) = wt t' w.
Proof. done. Qed.

Lemma wt_table t w : mflocks (w_fs (wt t w)) = t.
Proof. done. Qed.

Lemma wt_id w : wt (mflocks (w_fs w)) w = w.
Proof. by destruct w as [? [] ? ? ? ?]. Qed.

Lemma mod_index_lt label : (mod_index label < Z.to_nat LOCK_NUM)%nat.
Proof.
  unfold mod_index. change (LOCK_NUM - 1) with (Z.ones 6). rewrite Z.land_ones by lia.
  pose proof (Z.mod_pos_bound label (2 ^ 6)). unfold LOCK_NUM. lia.
Qed.

Lemma get_table_run t w : get_table (wt t w) = Some (t, wt t w).
Proof. done. Qed.

Lemma read_entry_run t w i e : t !! i = Some e -> read_entry i (wt t w) = Some (e, wt t w).
Proof. intros H. unfold read_entry, mbind, ST_bind. cbn. by rewrite H. Qed.

Lemma upd_entry_run t w i e f :
  t !! i = Some e -> upd_entry i f (wt t w) = Some (tt, wt (alter f i t) w).
Proof. intros H. unfold upd_entry, mbind, ST_bind. cbn. by rewrite H. Qed.

Lemma mutex_lock_run t w i e :
  t !! i = Some e -> ml_mutex e = false ->
  mutex_lock i (wt t w) = Some (tt, wt (alter (with_mutex true) i t) w).
Proof.
  intros H F. unfold mutex_lock. rewrite (st_bind_run _ _ _ _ _ (read_entry_run _ _ _ _ H)), F.
  by eapply upd_entry_run.
Qed.

Lemma mod_lock_run t w i e :
  t !! i = Some e -> ml_mod_mutex e = false ->
  mod_lock i (wt t w) = Some (tt, wt (alter (with_mod_mutex true) i t) w).
Proof.
  intros H F. unfold mod_lock. rewrite (st_bind_run _ _ _ _ _ (read_entry_run _ _ _ _ H)), F.
  by eapply upd_entry_run.
Qed.

(** A table in which no entry carries [label]. *)
Lemma find_label_None t label :
  (forall i e, t !! i = Some e -> ml_label e <> label) -> find_label t label = None.
Proof.
  intros H. unfold find_label. destruct (list_find _ t) as [[i e] |] eqn:E; [| done].
  apply list_find_Some in E as (Hi & Hl & _). by destruct (H i e).
Qed.

Lemma find_free_Some t i e :
  t !! i = Some e -> ml_label e = 0 -> ml_mutex e = false ->
  exists j x, find_free t = Some j /\ t !! j = Some x /\ ml_label x = 0 /\ ml_mutex x = false.
Proof.
  intros Hi Hl Hm. unfold find_free.
  destruct (list_find_elem_of (fun e => ml_label e = 0 /\ ml_mutex e = false) t e) as [[j x] E];
    [by eapply list_elem_of_lookup_2 | done |].
  rewrite E. apply list_find_Some in E as (? & [??] & _). by exists j, x.
Qed.

(** The table while [label] is locked at [j]. *)
Definition locked_table (t : list mflock_t) (j : nat) (label : Z) : list mflock_t :=
  alter (fun e => with_label label (with_mutex true e)) j t.

Lemma idle_unlabelled t label :
  idle_table t -> label <> 0 -> forall i e, t !! i = Some e -> ml_label e <> label.
Proof. intros (_ & H & _) Hl i e Hi. destruct (H i e Hi). congruence. Qed.

Lemma entry_eta e : MfLock (ml_label e) (ml_mutex e) (ml_mod_mutex e) (ml_want e) = e.
Proof. by destruct e. Qed.

Lemma idle_mod_entry t label :
  idle_table t -> exists e, t !! mod_index label = Some e /\ ml_mod_mutex e = false.
Proof.
  intros (Hlen & H & _).
  destruct (lookup_lt_is_Some_2 t (mod_index label)) as [e He].
  { rewrite Hlen. apply mod_index_lt. }
  exists e. split; [done |]. by apply (H _ _ He).
Qed.

(** The entry at [j] after changing the one at [i]. *)
Lemma lookup_alter_entry (t : list mflock_t) f i j :
  alter f i t !! j = (if decide (i = j) then f else id) <$> t !! j.
Proof. rewrite list_lookup_alter. case_decide; [by subst |]. by destruct (t !! j). Qed.

(** [mflock_lock] on an idle table labels and takes a free entry. *)
Lemma mflock_lock_idle t w label :
  idle_table t -> label <> 0 ->
  exists j e, (j < Z.to_nat LOCK_NUM)%nat /\ t !! j = Some e /\ ml_mutex e = false /\
    mflock_lock label (wt t w) = Some (Z.of_nat j, wt (locked_table t j label) w).
Proof.
  intros Hi Hl. pose proof (idle_unlabelled _ _ Hi Hl) as Hun.
  destruct (idle_mod_entry _ label Hi) as (em & Hm & Hmf).
  set (m := mod_index label) in *. set (t1 := alter (with_mod_mutex true) m t).
  assert (Hf : exists i x, t1 !! i = Some x /\ ml_label x = 0 /\ ml_mutex x = false).
  { destruct Hi as (_ & Hall & i & e & He & Hf). destruct (Hall _ _ He) as (? & _ & _).
    exists i, (if decide (m = i) then with_mod_mutex true e else e).
    unfold t1. rewrite lookup_alter_entry, He. by case_decide. }
  destruct Hf as (i & x & Hx & Hxl & Hxm).
  destruct (find_free_Some _ _ _ Hx Hxl Hxm) as (j & y & Hfree & Hj & Hjl & Hjm).
  assert (exists z, t !! j = Some z /\ y = if decide (m = j) then with_mod_mutex true z else z) as (z & Hz & Hyz).
  { unfold t1 in Hj. rewrite lookup_alter_entry in Hj.
    destruct (t !! j) as [z |]; simplify_eq/=. exists z. split; [done |]. by destruct (decide (m = j)). }
  exists j, z. split_and!.
  { destruct Hi as [<- _]. by eapply lookup_lt_Some. } { done. } { rewrite Hyz in Hjm. by destruct (decide (m = j)). }
  unfold mflock_lock, mflock_start.
  rewrite (st_bind_run _ _ _ _ _ (get_table_run _ _)), find_label_None by done. cbn [negb].
  rewrite (st_bind_run _ _ _ _ _ (mod_lock_run _ _ _ _ Hm Hmf)). fold t1.
  rewrite (st_bind_run _ _ _ _ _ (get_table_run _ _)), find_label_None, Hfree.
  2: { intros i' x'. unfold t1. rewrite lookup_alter_entry.
       destruct (t !! i') eqn:E; intros; simplify_eq/=. destruct (decide (m = i')); exact (Hun _ _ E). }
  cbn [negb].
  rewrite (st_bind_run _ _ _ _ _ (mutex_lock_run _ _ _ _ Hj Hjm)).
  assert (Hj2 : alter (with_mutex true) j t1 !! j = Some (with_mutex true y)) by by rewrite list_lookup_alter_eq, Hj.
  rewrite (st_bind_run _ _ _ _ _ (read_entry_run _ _ _ _ Hj2)). cbn [ml_label with_mutex]. rewrite Hjl. cbn [Z.eqb].
  rewrite (st_bind_run _ _ _ _ _ (upd_entry_run _ _ _ _ _ Hj2)).
  unfold mod_unlock. fold m.
  destruct (lookup_lt_is_Some_2 (alter (with_label label) j (alter (with_mutex true) j t1)) m) as [e' He'].
  { unfold t1. rewrite !length_alter. by eapply lookup_lt_Some. }
  rewrite (st_bind_run _ _ _ _ _ (upd_entry_run _ _ _ _ _ He')).
  unfold mret, ST_ret. do 3 f_equal. apply list_eq. intros i'. unfold locked_table, t1.
  rewrite !lookup_alter_entry.
  destruct (t !! i') as [[]|] eqn:E; [| done]. cbn.
  destruct (decide (m = i')), (decide (j = i')); simplify_eq/=; try done; by rewrite E in Hm; simplify_eq/=.
Qed.

(** [mflock_unlock] undoes it. *)
Lemma mflock_unlock_locked t w j e label :
  idle_table t -> t !! j = Some e -> ml_mutex e = false ->
  mflock_unlock (Z.of_nat j) (wt (locked_table t j label) w) = Some (0, wt t w).
Proof.
  intros Hi Hj Hf. pose proof Hi as (Hlen & Hall & _). destruct (Hall _ _ Hj) as (Hl & Hmm & Hw).
  assert (Hj1 : locked_table t j label !! j = Some (with_label label (with_mutex true e))).
  { unfold locked_table. by rewrite list_lookup_alter_eq, Hj. }
  unfold mflock_unlock. destruct (Z.ltb_spec (Z.of_nat j) 0); [lia |]. rewrite Nat2Z.id.
  rewrite (st_bind_run _ _ _ _ _ (read_entry_run _ _ _ _ Hj1)).
  cbn [ml_want ml_label with_label with_mutex]. rewrite Hw. cbn [Z.eqb].
  destruct (idle_mod_entry _ label Hi) as (em & Hm & Hmf). set (m := mod_index label) in *.
  assert (Hm1 : exists e1, locked_table t j label !! m = Some e1 /\ ml_mod_mutex e1 = false).
  { unfold locked_table. rewrite lookup_alter_entry, Hm. eexists; split; [done |]. by destruct (decide (j = m)). }
  destruct Hm1 as (e1 & Hm1 & Hmf1).
  rewrite (st_bind_run _ _ _ _ _ (mod_lock_run _ _ _ _ Hm1 Hmf1)).
  set (t1 := alter (with_mod_mutex true) m (locked_table t j label)).
  assert (Hj2 : exists e2, t1 !! j = Some e2 /\ ml_want e2 = 0).
  { unfold t1. rewrite lookup_alter_entry, Hj1. eexists; split; [done |]. by destruct (decide (m = j)). }
  destruct Hj2 as (e2 & Hj2 & Hw2).
  rewrite (st_bind_run _ _ _ _ _ (read_entry_run _ _ _ _ Hj2)), Hw2. cbn [Z.eqb].
  rewrite (st_bind_run _ _ _ _ _ (upd_entry_run _ _ _ _ _ Hj2)).
  unfold mutex_unlock, mod_unlock.
  destruct (lookup_lt_is_Some_2 (alter (with_label 0) j t1) j) as [e3 He3].
  { rewrite length_alter. by eapply lookup_lt_Some. }
  rewrite (st_bind_run _ _ _ _ _ (upd_entry_run _ _ _ _ _ He3)).
  destruct (lookup_lt_is_Some_2 (alter (with_mutex false) j (alter (with_label 0) j t1)) m) as [e4 He4].
  { rewrite !length_alter. unfold t1, locked_table. rewrite !length_alter. by eapply lookup_lt_Some. }
  rewrite (st_bind_run _ _ _ _ _ (upd_entry_run _ _ _ _ _ He4)).
  unfold mret, ST_ret. do 3 f_equal. apply list_eq. intros i. unfold t1, locked_table.
  rewrite !lookup_alter_entry. destruct (t !! i) as [[la mu mo wa] |] eqn:E; [| done].
  destruct (Hall _ _ E) as (? & ? & ?). simplify_eq/=.
  destruct (decide (m = i)), (decide (j = i)); simplify_eq/=; try done.
  all: rewrite E in *; by simplify_eq/=.
Qed.

(** Both together: the unlock brings back the table of before the lock. *)
Lemma mflock_there_and_back w label :
  idle_table (mflocks (w_fs w)) -> label <> 0 ->
  exists id t, 0 <= id < LOCK_NUM /\ mflock_lock label w = Some (id, wt t w) /\
    forall w2, mflocks (w_fs w2) = t -> mflock_unlock id w2 = Some (0, wt (mflocks (w_fs w)) w2).
Proof.
  intros Hi Hl. destruct (mflock_lock_idle (mflocks (w_fs w)) w label Hi Hl) as (j & e & Hlt & Hj & Hf & Hrun).
  rewrite wt_id in Hrun. exists (Z.of_nat j), (locked_table (mflocks (w_fs w)) j label).
  split; [unfold LOCK_NUM in *; lia |]. split; [done |]. intros w2 Hw2.
  rewrite <-(wt_id w2) at 1. rewrite Hw2. by apply (mflock_unlock_locked _ w2 _ e).
Qed.

(** The table keeps the promise. *)
#[global] Instance mflock_service : LockService mflock_lock mflock_unlock.
Proof.
  refine {| lk_idle := idle_table |}. intros w label Hi Hl.
  destruct (mflock_there_and_back w label Hi Hl) as (id & t & Hid & E & Hun). exists id, t. split_and!; [lia | lia | done |].
  intros w2 Hw2. exists (mflocks (w_fs w)). split; [done | by apply Hun].
Defined.

(** It does more: for any idle table the same functions are a service whose
    idle table is exactly that one. *)
Definition mflock_service_at (t0 : list mflock_t) (H0 : idle_table t0) : LockService mflock_lock mflock_unlock.
Proof.
  refine {| lk_idle := fun t => t = t0 |}. intros w label Hi Hl.
  destruct (mflock_there_and_back w label ltac:(by rewrite Hi) Hl) as (id & t & Hid & E & Hun). exists id, t. split_and!; [lia | lia | done |].
  intros w2 Hw2. exists (mflocks (w_fs w)). split; [done | by apply Hun].
Defined.

(** The initial table is idle. *)
Lemma idle_table_init : idle_table (replicate (Z.to_nat LOCK_NUM) mflock_init_entry).
Proof.
  split; [by rewrite length_replicate |]. split.
  - intros i e Hi. by apply lookup_replicate in Hi as [-> _].
  - exists 0%nat, mflock_init_entry. done.
Qed.

(** ** Theorems *)

(** C17 (locking alone): on an idle table, also one in which entries are lost
    to leaked mutexes, [mflock_lock] returns, within the three passes of START
    it is given, an entry that was unlabelled and free; the entry then
    carries the label and its mutex is held, nothing outside the table has
    changed, and [mflock_unlock] of that entry restores the state exactly. *)
Theorem mflock_lock_unlock w label :
  idle_table (mflocks (w_fs w)) -> label <> 0 ->
  exists id e w', 0 <= id < LOCK_NUM /\ mflocks (w_fs w) !! Z.to_nat id = Some e /\ ml_mutex e = false /\
    mflock_lock label w = Some (id, w') /\ w' = wt (mflocks (w_fs w')) w /\
    mflocks (w_fs w') !! Z.to_nat id = Some (MfLock label true false 0) /\
    mflock_unlock id w' = Some (0, w).
Proof.
  intros Hi Hl.
  destruct (mflock_lock_idle (mflocks (w_fs w)) w label Hi Hl) as (j & e & Hlt & Hj & Hf & Hrun).
  destruct (proj1 (proj2 Hi) _ _ Hj) as (_ & Hmm & Hw). rewrite wt_id in Hrun.
  exists (Z.of_nat j), e, (wt (locked_table (mflocks (w_fs w)) j label) w). rewrite Nat2Z.id, wt_table.
  split_and!; [lia | unfold LOCK_NUM in *; lia | done | done | done | done | |].
  - unfold locked_table. rewrite list_lookup_alter_eq, Hj. destruct e. by simplify_eq/=.
  - rewrite (mflock_unlock_locked _ w j e label Hi Hj Hf). by rewrite wt_id.
Qed.

Definition idle_world : world :=
  World (Os ∅ ∅ ∅ []) (FsData "/r" 2 "/r/snapshots" 0 "" 0 0 (replicate (Z.to_nat LOCK_NUM) mflock_init_entry) None)
    ∅ [] (Mfd mfd_main (MapHeader 0 0 (Stat 0 0 0 0 0 0 0 0 0 0 0 0 0) []) 0 0 0 None 0 0 "" 0 0 0 []) 0.

Lemma mflock_lock_unlock_witness :
  exists id w', mflock_lock 7 idle_world = Some (id, w') /\ mflock_unlock id w' = Some (0, idle_world).
Proof.
  destruct (mflock_lock_unlock idle_world 7 idle_table_init) as (id & e & w' & _ & _ & _ & H & _ & _ & H'); [done |].
  by exists id, w'.
Defined.
