(* ===== verification/MflockConc.v ===== *)
(** [mflock_lock] and [mflock_unlock] run by any number of threads.

    Every access to the shared table is one step: reading one label of the
    scan, reading and writing [want] (the increment is not atomic), taking
    and releasing a mutex.  [exec] is the next step of a thread, [None]
    while it waits for a mutex.  The mutexes are of the fast kind: a thread
    that locks one it already holds waits forever. *)

From stdpp Require Import relations.
From S2P Require Import Prelude Posix Types Mflock.

(** ** States *)

(** Where a thread is: the label it was called with and the entry it is at. *)
Inductive pc :=
| Idle
(* mflock_lock *)
| Scan (label : Z) (have_mod : bool) (k : nat)   (* START: about to read label k *)
| FoundMod (label : Z) (i : nat)                 (* label found, MOD mutex to release *)
| WantRead (label : Z) (i : nat)
| WantWrite (label : Z) (i : nat) (v : Z)
| WaitMutex (label : Z) (i : nat)
| UnwantRead (label : Z) (i : nat)
| UnwantWrite (label : Z) (i : nat) (v : Z)
| Recheck (label : Z) (i : nat)
| WaitMod (label : Z)
| FindTest (label : Z) (k : nat)                 (* FIND: about to read label k *)
| FindTry (label : Z) (k : nat)
| FindRecheck (label : Z) (ml : nat)
| FindLabel (label : Z) (ml : nat)
| FindRelease (label : Z) (ml : nat)
| FindModUnlock (label : Z) (ml : nat)
| Locked (label : Z) (ml : nat)                  (* mflock_lock has returned ml *)
(* mflock_unlock *)
| UnTest (label : Z) (ml : nat)
| UnWaitMod (label : Z) (ml : nat)
| UnRetest (label : Z) (ml : nat)
| UnLabel (label : Z) (ml : nat)
| UnMutex (label : Z) (ml : nat)
| UnMod (label : Z)
| HandMod (label : Z) (ml : nat)
| HandMutex (label : Z) (ml : nat).

Record cstate := CState {
  c_lab : nat -> Z;
  c_mutex : nat -> option nat;
  c_mod : nat -> option nat;
  c_want : nat -> Z;
  c_pc : nat -> pc
}.

Definition upd {A} (f : nat -> A) (i : nat) (x : A) : nat -> A := fun j => if decide (j = i) then x else f j.

Definition set_lab i x s := CState (upd (c_lab s) i x) (c_mutex s) (c_mod s) (c_want s) (c_pc s).
Definition set_mutex i x s := CState (c_lab s) (upd (c_mutex s) i x) (c_mod s) (c_want s) (c_pc s).
Definition set_mod i x s := CState (c_lab s) (c_mutex s) (upd (c_mod s) i x) (c_want s) (c_pc s).
Definition set_want i x s := CState (c_lab s) (c_mutex s) (c_mod s) (upd (c_want s) i x) (c_pc s).
Definition goto t p s := CState (c_lab s) (c_mutex s) (c_mod s) (c_want s) (upd (c_pc s) t p).

Definition lock_num : nat := Z.to_nat LOCK_NUM.

Definition c_init : cstate := CState (fun _ => 0) (fun _ => None) (fun _ => None) (fun _ => 0) (fun _ => Idle).

(** ** Steps *)

(** What the caller of the thread does: an idle thread calls [mflock_lock],
    a thread that holds a lock calls [mflock_unlock]. *)
Inductive action := Call (label : Z) | Go.

Definition exec (t : nat) (a : action) (s : cstate) : option cstate :=
  match c_pc s t, a with
  | Idle, Call label => if label =? 0 then None else Some (goto t (Scan label false 0) s)
  | Scan label have_mod k, Go =>
      if (k <? lock_num)%nat then
        if c_lab s k =? label
        then Some (goto t (if have_mod then FoundMod label k else WantRead label k) s)
        else Some (goto t (Scan label have_mod (S k)) s)
      else Some (goto t (if have_mod then FindTest label 0 else WaitMod label) s)
  | FoundMod label i, Go => Some (goto t (WantRead label i) (set_mod (mod_index label) None s))
  | WantRead label i, Go => Some (goto t (WantWrite label i (c_want s i)) s)
  | WantWrite label i v, Go => Some (goto t (WaitMutex label i) (set_want i ((v + 1) mod 2 ^ 32) s))
  | WaitMutex label i, Go =>
      match c_mutex s i with
      | None => Some (goto t (UnwantRead label i) (set_mutex i (Some t) s))
      | Some _ => None
      end
  | UnwantRead label i, Go => Some (goto t (UnwantWrite label i (c_want s i)) s)
  | UnwantWrite label i v, Go => Some (goto t (Recheck label i) (set_want i ((v - 1) mod 2 ^ 32) s))
  | Recheck label i, Go =>
      if c_lab s i =? label then Some (goto t (Locked label i) s)
      else Some (goto t (Scan label false 0) s)
  | WaitMod label, Go =>
      match c_mod s (mod_index label) with
      | None => Some (goto t (Scan label true 0) (set_mod (mod_index label) (Some t) s))
      | Some _ => None
      end
  | FindTest label k, Go =>
      if (k <? lock_num)%nat then
        Some (goto t (if c_lab s k =? 0 then FindTry label k else FindTest label (S k)) s)
      else Some (goto t (FindTest label 0) s)
  | FindTry label k, Go =>
      match c_mutex s k with
      | None => Some (goto t (FindRecheck label k) (set_mutex k (Some t) s))
      | Some _ => Some (goto t (FindTest label (S k)) s)
      end
  | FindRecheck label ml, Go => Some (goto t (if c_lab s ml =? 0 then FindLabel label ml else FindRelease label ml) s)
  | FindLabel label ml, Go => Some (goto t (FindModUnlock label ml) (set_lab ml label s))
  | FindRelease label ml, Go => Some (goto t (FindTest label 0) (set_mutex ml None s))
  | FindModUnlock label ml, Go => Some (goto t (Locked label ml) (set_mod (mod_index label) None s))
  | Locked label ml, Go => Some (goto t (UnTest label ml) s)
  | UnTest label ml, Go => Some (goto t (if c_want s ml =? 0 then UnWaitMod label ml else HandMutex label ml) s)
  | UnWaitMod label ml, Go =>
      match c_mod s (mod_index (c_lab s ml)) with
      | None => Some (goto t (UnRetest label ml) (set_mod (mod_index (c_lab s ml)) (Some t) s))
      | Some _ => None
      end
  | UnRetest label ml, Go => Some (goto t (if c_want s ml =? 0 then UnLabel label ml else HandMod label ml) s)
  | UnLabel label ml, Go => Some (goto t (UnMutex label ml) (set_lab ml 0 s))
  | UnMutex label ml, Go => Some (goto t (UnMod label) (set_mutex ml None s))
  | UnMod label, Go => Some (goto t Idle (set_mod (mod_index label) None s))
  | HandMod label ml, Go => Some (goto t (HandMutex label ml) (set_mod (mod_index label) None s))
  | HandMutex label ml, Go => Some (goto t Idle (set_mutex ml None s))
  | _, _ => None
  end.

Definition cstep (s s' : cstate) : Prop := exists t a, exec t a s = Some s'.
Definition reachable (s : cstate) : Prop := rtc cstep c_init s.

(** A schedule, run as far as it goes. *)
Fixpoint run_schedule (sched : list (nat * action)) (s : cstate) : option cstate :=
  match sched with
  | [] => Some s
  | (t, a) :: r => match exec t a s with Some s' => run_schedule r s' | None => None end
  end.

Lemma run_schedule_steps sched : forall s s', run_schedule sched s = Some s' -> rtc cstep s s'.
Proof.
  induction sched as [| [t a] r IH]; intros s s'; cbn; [by intros [= ->] |].
  destruct (exec t a s) as [s1 |] eqn:E; [| done]. intros H. eapply rtc_l; [by exists t, a | by apply IH].
Qed.

(** ** The invariant *)

Section Inv.
Context (s : cstate).

Definition holds (t i : nat) : Prop := c_mutex s i = Some t.
Definition has_mod (t : nat) (label : Z) : Prop := c_mod s (mod_index label) = Some t.
Definition absent (label : Z) (k : nat) : Prop := forall i, (i < k)%nat -> c_lab s i <> label.

(** What is known of the table while a thread is at a point of its program. *)
Definition pc_ok (t : nat) (p : pc) : Prop :=
  match p with
  | Idle => True
  | Scan L false _ | WantRead L _ | WantWrite L _ _ | WaitMutex L _ | WaitMod L => L <> 0
  | Scan L true k => L <> 0 /\ has_mod t L /\ absent L k
  | FoundMod L _ | UnMod L => L <> 0 /\ has_mod t L
  | UnwantRead L i | UnwantWrite L i _ | Recheck L i => L <> 0 /\ holds t i
  | FindTest L _ | FindTry L _ => L <> 0 /\ has_mod t L /\ absent L lock_num
  | FindRecheck L ml | FindRelease L ml => L <> 0 /\ has_mod t L /\ absent L lock_num /\ holds t ml
  | FindLabel L ml => L <> 0 /\ has_mod t L /\ absent L lock_num /\ holds t ml /\ c_lab s ml = 0
  | FindModUnlock L ml | UnRetest L ml | UnLabel L ml | HandMod L ml =>
      L <> 0 /\ has_mod t L /\ holds t ml /\ c_lab s ml = L
  | Locked L ml | UnTest L ml | UnWaitMod L ml | HandMutex L ml => L <> 0 /\ holds t ml /\ c_lab s ml = L
  | UnMutex L ml => L <> 0 /\ has_mod t L /\ holds t ml
  end.

(** Only entries of the table are ever labelled, and no label is there twice. *)
Definition labels_ok : Prop :=
  (forall i, c_lab s i <> 0 -> (i < lock_num)%nat) /\
  (forall i j, c_lab s i <> 0 -> c_lab s i = c_lab s j -> i = j).

(** The entries that threads are at are entries of the table. *)
Definition pc_entry (p : pc) : Prop :=
  match p with FindTry _ k | FindRecheck _ k | FindLabel _ k => (k < lock_num)%nat | _ => True end.

Definition cinv : Prop := labels_ok /\ forall t, pc_ok t (c_pc s t) /\ pc_entry (c_pc s t).
End Inv.

Lemma upd_same {A} (f : nat -> A) i x : upd f i x i = x.
Proof. unfold upd. by rewrite decide_True. Qed.
Lemma upd_other {A} (f : nat -> A) i j x : j <> i -> upd f i x j = f j.
Proof. intros. unfold upd. by rewrite decide_False. Qed.

(** ** Stability: what other threads know survives a step *)

(** The step keeps what thread [u] holds, and the labels [u] protects. *)
Record stable (s s' : cstate) (u : nat) : Prop := {
  sb_mutex : forall i, c_mutex s i = Some u -> c_mutex s' i = Some u;
  sb_mod : forall i, c_mod s i = Some u -> c_mod s' i = Some u;
  sb_held : forall i, c_mutex s i = Some u -> c_lab s' i = c_lab s i;
  sb_label : forall L i, L <> 0 -> c_mod s (mod_index L) = Some u -> c_lab s i <> L -> c_lab s' i <> L
}.

Lemma stable_pc_ok s s' u p : stable s s' u -> pc_ok s u p -> pc_ok s' u p.
Proof.
  intros [Hm Hd Hh Hl] Hp.
  destruct p as [| L [|] k | | | | | | | | | | | | | | | | | | | | | | |]; cbn in *; unfold holds, has_mod, absent in *;
    destruct_and?; split_and?; eauto; try (rewrite Hh by done; done).
Qed.

Lemma stable_goto s s' u t p : stable s s' u -> stable s (goto t p s') u.
Proof. intros []. by split. Qed.

Lemma stable_refl s u : stable s s u.
Proof. by split. Qed.

Lemma stable_want s i v u : stable s (set_want i v s) u.
Proof. by split. Qed.

Lemma stable_mutex_take s i t u : c_mutex s i = None -> stable s (set_mutex i (Some t) s) u.
Proof.
  intros H. split; cbn; try done. intros j Hj. rewrite upd_other; [done |]. congruence.
Qed.

Lemma stable_mutex_drop s i t u : t <> u -> c_mutex s i = Some t -> stable s (set_mutex i None s) u.
Proof.
  intros Ht H. split; cbn; try done. intros j Hj. rewrite upd_other; [done |]. congruence.
Qed.

Lemma stable_mod_take s i t u : c_mod s i = None -> stable s (set_mod i (Some t) s) u.
Proof.
  intros H. split; cbn; try done. intros j Hj. rewrite upd_other; [done |]. congruence.
Qed.

Lemma stable_mod_drop s i t u : t <> u -> c_mod s i = Some t -> stable s (set_mod i None s) u.
Proof.
  intros Ht H. split; cbn; try done. intros j Hj. rewrite upd_other; [done |]. congruence.
Qed.

(** Labelling needs the entry's mutex and the MOD mutex of the label. *)
Lemma stable_label s i L t u :
  t <> u -> holds s t i -> (L = 0 \/ has_mod s t L) -> stable s (set_lab i L s) u.
Proof.
  intros Ht Hh Hm. unfold holds, has_mod in *. split; cbn; try done.
  - intros j Hj. rewrite upd_other; [done |]. congruence.
  - intros L' j HL' Hd Hne. unfold upd. case_decide; [| done]. intros <-.
    destruct Hm as [? | ?]; [done | congruence].
Qed.

Create HintDb conc.
#[export] Hint Resolve stable_refl stable_want stable_mutex_take stable_mutex_drop stable_mod_take stable_mod_drop
  stable_label : conc.

(** The thread that steps knows what its new point claims, the others know what they knew. *)
Lemma cinv_step s s' t p :
  cinv s -> (forall u, u <> t -> stable s s' u) -> labels_ok s' -> c_pc s' = c_pc s ->
  pc_ok s' t p -> pc_entry p -> cinv (goto t p s').
Proof.
  intros [_ Hi] Hst Hl Hpc Hp He. split; [done |]. intros u. cbn. rewrite Hpc. unfold upd.
  destruct (decide (u = t)) as [-> | Hne]; [done |]. destruct (Hi u) as [Hu Heu]. split; [| done].
  apply (stable_pc_ok s s' u); [by apply Hst | done].
Qed.

(** Labels after labelling or clearing an entry. *)
Lemma labels_ok_set s i L :
  labels_ok s -> (i < lock_num)%nat -> (forall j, c_lab s j = L -> L = 0) -> labels_ok (set_lab i L s).
Proof.
  intros [Hr Hu] Hi Hf. split; cbn; unfold upd.
  - intros j. case_decide; [by subst | apply Hr].
  - intros j k. repeat case_decide; subst; try done; intros H1 H2.
    + by destruct H1; apply (Hf k).
    + by destruct H1; rewrite H2; apply (Hf j).
    + by apply Hu.
Qed.

Lemma absent_all s L : labels_ok s -> L <> 0 -> absent s L lock_num -> forall j, c_lab s j = L -> L = 0.
Proof.
  intros [Hr _] HL Ha j Hj. destruct (decide (j < lock_num)%nat) as [Hlt | Hge]; [by destruct (Ha j Hlt) |].
  destruct Hge. apply Hr. congruence.
Qed.

Lemma has_mod_take s t L : has_mod (set_mod (mod_index L) (Some t) s) t L.
Proof. apply upd_same. Qed.

Lemma holds_take s t i : holds (set_mutex i (Some t) s) t i.
Proof. apply upd_same. Qed.

Lemma absent_0 s L : absent s L 0.
Proof. intros i Hi. lia. Qed.

Lemma absent_S s L k : absent s L k -> c_lab s k <> L -> absent s L (S k).
Proof. intros Ha Hk i Hi. destruct (decide (i = k)) as [-> | ?]; [done | apply Ha; lia]. Qed.

Lemma absent_ge s L k k' : absent s L k -> (k' <= k)%nat -> absent s L k'.
Proof. intros Ha Hk i Hi. apply Ha. lia. Qed.

#[export] Hint Resolve has_mod_take holds_take absent_0 absent_S absent_ge : conc.

(** Splits a step of [exec] into the program points of the thread. *)
Ltac exec_cases E Hp :=
  unfold exec in E;
  match type of E with
  | context [c_pc ?s ?t] =>
      destruct (c_pc s t) as [| ? hm ? | | | | | | | | | | | | | | | | | | | | | | |] eqn:Epc
  end;
  match type of E with context [match ?a with Call _ => _ | Go => _ end] => destruct a | _ => idtac end; try done;
  cbn in Hp; repeat case_match; simplify_eq; destruct_and?;
  repeat match goal with
  | H : (_ =? _) = true |- _ => apply Z.eqb_eq in H
  | H : (_ =? _) = false |- _ => apply Z.eqb_neq in H
  | H : (_ <? _)%nat = true |- _ => apply Nat.ltb_lt in H
  | H : (_ <? _)%nat = false |- _ => apply Nat.ltb_ge in H
  end.

(** What the other threads know. *)
Lemma exec_stable s s' t a u : cinv s -> exec t a s = Some s' -> u <> t -> stable s s' u.
Proof.
  intros [_ Hi] E Hu. destruct (Hi t) as [Hp _]. exec_cases E Hp; apply stable_goto; eauto with conc.
Qed.

(** The labels stay unique. *)
Lemma exec_labels s s' t a : cinv s -> exec t a s = Some s' -> labels_ok s'.
Proof.
  intros [Hl Hi] E. destruct (Hi t) as [Hp He]. exec_cases E Hp; try done; cbn in He.
  - apply (labels_ok_set s); [done | done |]. by eapply absent_all.
  - apply (labels_ok_set s); [done | | done]. apply Hl. congruence.
Qed.

(** What the thread itself knows at its next point. *)
Lemma exec_pc_ok s s' t a :
  cinv s -> exec t a s = Some s' -> pc_ok s' t (c_pc s' t) /\ pc_entry (c_pc s' t).
Proof.
  intros [_ Hi] E. destruct (Hi t) as [Hp He].
  exec_cases E Hp; cbn in *; rewrite upd_same; cbn; unfold holds, has_mod, absent in *; cbn;
    split_and?; eauto using upd_same with conc.
  - by apply absent_S.
  - by eapply absent_ge.
  - apply absent_0.
  - subst label. apply upd_same.
Qed.

Lemma exec_other_pc s s' t a u : exec t a s = Some s' -> u <> t -> c_pc s' u = c_pc s u.
Proof.
  intros E Hu. assert (Hp : True) by done. exec_cases E Hp; cbn; by apply upd_other.
Qed.

Lemma cinv_exec s s' t a : cinv s -> exec t a s = Some s' -> cinv s'.
Proof.
  intros Hc E. split; [by eapply exec_labels |]. intros u. destruct (decide (u = t)) as [-> | Hne].
  - by eapply exec_pc_ok.
  - rewrite (exec_other_pc _ _ _ _ _ E Hne). destruct (proj2 Hc u) as [Hu He]. split; [| done].
    by eapply stable_pc_ok; [eapply exec_stable |].
Qed.

Lemma cinv_init : cinv c_init.
Proof. split; [by split |]. by intros t. Qed.

Lemma cinv_steps s s' : cinv s -> rtc cstep s s' -> cinv s'.
Proof. intros Hi H. induction H as [| s1 s2 s3 (t & a & E) _ IH]; [done |]. apply IH. by eapply cinv_exec. Qed.

Lemma cinv_reachable s : reachable s -> cinv s.
Proof. apply cinv_steps, cinv_init. Qed.

(** ** Mutual exclusion *)

Lemma locked_exclusive s t u L L' i j :
  cinv s -> c_pc s t = Locked L i -> c_pc s u = Locked L' j -> t <> u -> L <> L' /\ i <> j.
Proof.
  intros [[_ Hu] Hi] Ht Hu' Hne. destruct (Hi t) as [Hp _], (Hi u) as [Hp' _]. rewrite Ht in Hp. rewrite Hu' in Hp'.
  cbn in *. unfold holds in *. destruct_and!.
  assert (i <> j) by congruence. split; [| done]. intros <-. assert (i = j) by (apply Hu; congruence). done.
Qed.

(** ** Mutexes that are never released *)

(** The entry whose mutex the program of a thread will release. *)
Definition pc_holds (p : pc) : option nat :=
  match p with
  | UnwantRead _ i | UnwantWrite _ i _ | Recheck _ i | FindRecheck _ i | FindLabel _ i | FindRelease _ i
  | FindModUnlock _ i | Locked _ i | UnTest _ i | UnWaitMod _ i | UnRetest _ i | UnLabel _ i | UnMutex _ i
  | HandMod _ i | HandMutex _ i => Some i
  | _ => None
  end.

(** Thread [t] holds the mutex of entry [i], but has forgotten about it. *)
Definition leaked (s : cstate) (t i : nat) : Prop := c_mutex s i = Some t /\ pc_holds (c_pc s t) <> Some i.

Lemma leaked_exec s s' u a t i :
  cinv s -> exec u a s = Some s' -> leaked s t i -> leaked s' t i /\ c_lab s' i = c_lab s i.
Proof.
  intros Hc E [Hm Hh]. destruct (decide (t = u)) as [<- | Hne].
  - destruct (proj2 Hc t) as [Hp _]. unfold leaked.
    exec_cases E Hp; cbn in *; rewrite ?upd_same; cbn; unfold holds, has_mod in *; unfold upd;
      repeat case_decide; subst; split_and?; try done; try congruence.
  - pose proof (exec_stable _ _ _ _ t Hc E Hne) as [Hsm _ Hsl _].
    split; [| by apply Hsl]. split; [by apply Hsm |]. by rewrite (exec_other_pc _ _ _ _ _ E Hne).
Qed.

Lemma leaked_steps s s' t i :
  cinv s -> rtc cstep s s' -> leaked s t i -> leaked s' t i /\ c_lab s' i = c_lab s i.
Proof.
  intros Hi H. induction H as [| s1 s2 s3 (u & a & E) _ IH]; [done |]. intros Hl.
  destruct (leaked_exec _ _ _ _ _ _ Hi E Hl) as [Hl' El].
  destruct IH as [? El']; [by eapply cinv_exec | done |]. split; [done | congruence].
Qed.

(** A label on a leaked entry can never be locked. *)
Lemma leaked_label_dead s s' t i u L j :
  cinv s -> rtc cstep s s' -> leaked s t i -> c_lab s i = L -> L <> 0 -> c_pc s' u <> Locked L j.
Proof.
  intros Hi H Hl HL H0 Hu. destruct (leaked_steps _ _ _ _ Hi H Hl) as [[Hm Hh] El].
  destruct (cinv_steps _ _ Hi H) as [[_ Huniq] Hall]. destruct (Hall u) as [Hp _]. rewrite Hu in Hp.
  cbn in Hp. unfold holds in Hp. destruct Hp as (_ & Hmj & Hj).
  assert (i = j) as <- by (apply Huniq; congruence). assert (t = u) as <- by congruence.
  by rewrite Hu in Hh.
Qed.

(** Only the holder of an entry's mutex and of the MOD mutex changes its label. *)
Lemma exec_label_change s s' t a i :
  cinv s -> exec t a s = Some s' -> c_lab s' i <> c_lab s i ->
  holds s t i /\ ((c_lab s i = 0 /\ has_mod s t (c_lab s' i)) \/ (c_lab s' i = 0 /\ has_mod s t (c_lab s i))).
Proof.
  intros [_ Hi] E Hne. destruct (Hi t) as [Hp _]. exec_cases E Hp; cbn in *; try done.
  all: unfold upd in *; case_decide; subst; [| done]; split; [done |]; auto.
Qed.

(** ** Schedules *)

Definition go (t n : nat) : list (nat * action) := replicate n (t, Go).

(** A thread that meets nobody takes the first free entry. *)
Definition lock_alone (t : nat) (L : Z) : list (nat * action) := (t, Call L) :: go t (65 + 1 + 65 + 1).

(** The state a schedule leads to. *)
Definition after (sched : list (nat * action)) : cstate := default c_init (run_schedule sched c_init).

Lemma after_reachable sched :
  match run_schedule sched c_init with Some _ => true | None => false end = true -> reachable (after sched).
Proof.
  unfold after. intros H. apply (run_schedule_steps sched). by destruct (run_schedule sched c_init).
Qed.

(** Threads 0 and 1 hold locks for the labels 7 and 71, which share a MOD mutex. *)
Definition two_locks : list (nat * action) :=
  lock_alone 0 7 ++ go 0 4 ++ lock_alone 1 71 ++ go 1 5.

(** Thread 0 holds label 1; thread 1 finds the label in the table, but
    thread 0 releases it before thread 1 asks for the handover.  Thread 2
    labels the entry with 2 and, since the entry is wanted, hands it over.
    Thread 1 gets the mutex, sees the wrong label, and starts again without
    releasing the mutex. *)
Definition lost_mutex : list (nat * action) :=
  lock_alone 0 1 ++ go 0 4 ++ [(1%nat, Call 1)] ++ go 1 1 ++ go 0 7 ++ go 1 2 ++
  lock_alone 2 2 ++ go 2 4 ++ go 2 3 ++ go 1 4.

(** ** Theorems *)

(** C15 (mutual exclusion): in every state that any interleaving of threads
    can reach, two threads that have both been given a lock were given
    different entries for different labels; so no label is locked twice. *)
Theorem mflock_mutual_exclusion s t u L L' i j :
  reachable s -> c_pc s t = Locked L i -> c_pc s u = Locked L' j -> t <> u -> L <> L' /\ i <> j.
Proof. intros H. apply locked_exclusive. by apply cinv_reachable. Qed.

Lemma mflock_mutual_exclusion_witness :
  c_pc (after two_locks) 0%nat = Locked 7 0 /\ c_pc (after two_locks) 1%nat = Locked 71 1 /\ 7 <> 71 /\ 0%nat <> 1%nat.
Proof.
  split; [by vm_compute |]. split; [by vm_compute |].
  apply (mflock_mutual_exclusion (after two_locks) 0 1 7 71 0 1);
    [apply after_reachable; by vm_compute | by vm_compute | by vm_compute | done].
Defined.

(** C16 (label discipline): a step changes the label of an entry only if the
    thread that takes it holds the entry's mutex and the MOD mutex of the
    label that is added or removed, in every reachable state; and labels in
    the table stay pairwise different. *)
Theorem mflock_label_discipline s s' t a i :
  reachable s -> exec t a s = Some s' ->
  (c_lab s' i <> c_lab s i ->
     holds s t i /\ ((c_lab s i = 0 /\ has_mod s t (c_lab s' i)) \/ (c_lab s' i = 0 /\ has_mod s t (c_lab s i)))) /\
  labels_ok s'.
Proof.
  intros H%cinv_reachable E. split; [by eapply exec_label_change | by eapply exec_labels].
Qed.

Lemma mflock_label_discipline_witness :
  c_lab (after (lock_alone 0 7 ++ go 0 2)) 0 = 0 /\
  match exec 0 Go (after (lock_alone 0 7 ++ go 0 2)) with
  | Some s' => c_lab s' 0 = 7 /\ labels_ok s'
  | None => False
  end.
Proof.
  split; [by vm_compute |].
  destruct (exec 0 Go (after (lock_alone 0 7 ++ go 0 2))) as [s' |] eqn:E.
  - split; [| by apply (mflock_label_discipline (after (lock_alone 0 7 ++ go 0 2)) s' 0 Go 0);
               [apply after_reachable; by vm_compute |]].
    assert (E' : c_lab <$> exec 0 Go (after (lock_alone 0 7 ++ go 0 2)) = Some (c_lab s')) by by rewrite E.
    assert (E2 : (fun f => f 0%nat) <$> (c_lab <$> exec 0 Go (after (lock_alone 0 7 ++ go 0 2))) = Some (c_lab s' 0%nat)) by by rewrite E'.
    vm_compute in E2. by injection E2.
  - assert (E' : match exec 0 Go (after (lock_alone 0 7 ++ go 0 2)) with Some _ => true | None => false end = false) by by rewrite E.
    vm_compute in E'. done.
Defined.

(** C28 (lost mutex): there is an interleaving of three threads after which
    a thread holds a mutex its program will never release, because
    [mflock_lock] starts over without releasing it when the recheck of the
    label fails; the label that the entry carries by then can never be
    locked again by any thread. *)
Theorem mflock_lost_mutex :
  exists s t i L, reachable s /\ leaked s t i /\ c_lab s i = L /\ L <> 0 /\
    forall s', rtc cstep s s' -> leaked s' t i /\ forall u j, c_pc s' u <> Locked L j.
Proof.
  assert (Hr : reachable (after lost_mutex)) by (apply after_reachable; by vm_compute).
  assert (Hl : leaked (after lost_mutex) 1 0) by (split; by vm_compute).
  exists (after lost_mutex), 1%nat, 0%nat, 2. split_and!; [done | done | by vm_compute | done |].
  intros s' H. pose proof (cinv_reachable _ Hr) as Hi. split.
  - by apply (leaked_steps (after lost_mutex)).
  - intros u j. apply (leaked_label_dead (after lost_mutex) s' 1 0); [done | done | done | by vm_compute | done].
Qed.
