(* ===== verification/MflockSolo.v ===== *)
(** The two models of the lock table agree: a thread of [MflockConc] that
    runs without interruption does what the functions of [Mflock] compute.

    [table_of] is the table of a state as [Mflock] has it, in which a mutex is
    only held or free.  [reach t p T p' T'] says that a thread at [p] with
    table [T], running alone, comes to [p'] with table [T']. *)

From stdpp Require Import relations.
From S2P Require Import Prelude Posix Types Mflock MflockConc.

Definition busy (o : option nat) : bool := match o with Some _ => true | None => false end.

Definition table_of (s : cstate) : list mflock_t :=
  (fun i => MfLock (c_lab s i) (busy (c_mutex s i)) (busy (c_mod s i)) (c_want s i)) <$> seq 0 lock_num.

(** The thread [t] makes all the steps. *)
Definition solo (t : nat) : relation cstate := rtc (fun s s' => exec t Go s = Some s').

Definition at_pc (t : nat) (p : pc) (T : list mflock_t) (s : cstate) : Prop := c_pc s t = p /\ table_of s = T.

Definition reach (t : nat) (p : pc) (T : list mflock_t) (p' : pc) (T' : list mflock_t) : Prop :=
  forall s, at_pc t p T s -> exists s', solo t s s' /\ at_pc t p' T' s'.

(** ** Tables *)

Lemma table_lookup s i e : table_of s !! i = Some e ->
  (i < lock_num)%nat /\ e = MfLock (c_lab s i) (busy (c_mutex s i)) (busy (c_mod s i)) (c_want s i).
Proof.
  unfold table_of. rewrite list_lookup_fmap_Some. intros (j & -> & [-> Hj]%lookup_seq). by split.
Qed.

Lemma table_length s : length (table_of s) = lock_num.
Proof. unfold table_of. by rewrite length_fmap, length_seq. Qed.

Lemma table_upd s s' i f :
  (forall j, j <> i -> c_lab s' j = c_lab s j /\ c_mutex s' j = c_mutex s j /\ c_mod s' j = c_mod s j /\ c_want s' j = c_want s j) ->
  f (MfLock (c_lab s i) (busy (c_mutex s i)) (busy (c_mod s i)) (c_want s i))
    = MfLock (c_lab s' i) (busy (c_mutex s' i)) (busy (c_mod s' i)) (c_want s' i) ->
  table_of s' = alter f i (table_of s).
Proof.
  intros Ho Hi. apply list_eq. intros j. rewrite lookup_alter_entry. unfold table_of. rewrite !list_lookup_fmap.
  destruct (seq 0 lock_num !! j) as [k |] eqn:E; [| done]. apply lookup_seq in E as [-> _]. cbn. f_equal. case_decide; [by subst |].
  destruct (Ho j) as (-> & -> & -> & ->); [lia | done].
Qed.

Ltac table_tac := apply table_upd; [intros j Hj; cbn; by rewrite ?upd_other | cbn; by rewrite ?upd_same].

Lemma table_goto t p s : table_of (goto t p s) = table_of s.
Proof. done. Qed.
Lemma table_lab i x s : table_of (set_lab i x s) = alter (with_label x) i (table_of s).
Proof. table_tac. Qed.
Lemma table_mutex i x s : table_of (set_mutex i x s) = alter (with_mutex (busy x)) i (table_of s).
Proof. table_tac. Qed.
Lemma table_mod i x s : table_of (set_mod i x s) = alter (with_mod_mutex (busy x)) i (table_of s).
Proof. table_tac. Qed.
Lemma table_want i x s : table_of (set_want i x s) = alter (with_want x) i (table_of s).
Proof. table_tac. Qed.

(** ** Steps of a thread that runs alone *)

Section Solo.
Context (t : nat).
Abbreviation reach := (reach t).

Lemma reach_refl p T : reach p T p T.
Proof using. intros s H. exists s. split; [apply rtc_refl | done]. Qed.

Lemma reach_trans p1 T1 p2 T2 p3 T3 : reach p1 T1 p2 T2 -> reach p2 T2 p3 T3 -> reach p1 T1 p3 T3.
Proof using.
  intros H1 H2 s Hs. destruct (H1 s Hs) as (s1 & R1 & Hs1). destruct (H2 s1 Hs1) as (s2 & R2 & Hs2).
  exists s2. split; [by etransitivity | done].
Qed.

Lemma reach_step p T p' T' :
  (forall s, c_pc s t = p -> table_of s = T -> exists s1, exec t Go s = Some (goto t p' s1) /\ table_of s1 = T') -> reach p T p' T'.
Proof using.
  intros H s [Hp HT]. destruct (H s Hp HT) as (s1 & E & <-). exists (goto t p' s1). split; [by apply rtc_once |].
  split; [apply upd_same | done].
Qed.

(** One step; the facts of the table are facts of the state. *)
Ltac step_tac :=
  intros; apply reach_step; intros s Hp HT; try rewrite <-HT in *; subst;
  repeat match goal with H : table_of s !! _ = Some _ |- _ => apply table_lookup in H as [? ->] end;
  cbn [ml_label ml_mutex ml_mod_mutex ml_want] in *; unfold exec; rewrite Hp;
  repeat match goal with
  | H : (?k < lock_num)%nat |- _ => rewrite (proj2 (Nat.ltb_lt k lock_num) H); clear H
  | H : ?a <> ?b |- context [?a =? ?b] => rewrite (proj2 (Z.eqb_neq a b) H)
  | H : ?a = 0 |- context [?a =? 0] => rewrite (proj2 (Z.eqb_eq a 0) H)
  | H : busy ?o = false |- _ => destruct o eqn:?; [done |]; clear H
  | H : busy ?o = true |- _ => destruct o eqn:?; [| done]; clear H
  end;
  rewrite ?Z.eqb_refl; eexists; (split; [reflexivity |]); rewrite ?table_mod, ?table_want, ?table_mutex, ?table_lab; try done.

Lemma reach_hit label hm k T e : T !! k = Some e -> ml_label e = label ->
  reach (Scan label hm k) T (if hm then FoundMod label k else WantRead label k) T.
Proof using. step_tac. Qed.

Lemma reach_miss label hm k T e : T !! k = Some e -> ml_label e <> label -> reach (Scan label hm k) T (Scan label hm (S k)) T.
Proof using. step_tac. Qed.

Lemma reach_end label hm T : reach (Scan label hm lock_num) T (if hm then FindTest label 0 else WaitMod label) T.
Proof using. step_tac. Qed.

Lemma alter_at (f g : mflock_t -> mflock_t) i (T : list mflock_t) e : T !! i = Some e -> f e = g e -> alter f i T = alter g i T.
Proof using.
  intros He Hfg. apply list_eq. intros j. rewrite !lookup_alter_entry. destruct (decide (i = j)) as [<- |]; [| done].
  rewrite He. cbn. by rewrite Hfg.
Qed.

(** *** Taking the mutex of a label *)

Lemma reach_found_mod label i T : reach (FoundMod label i) T (WantRead label i) (alter (with_mod_mutex false) (mod_index label) T).
Proof using. step_tac. Qed.

Lemma reach_want label i T e : T !! i = Some e -> reach (WantRead label i) T (WaitMutex label i) (alter (want_add 1) i T).
Proof using.
  intros He. rewrite (alter_at (want_add 1) (with_want ((ml_want e + 1) mod 2 ^ 32)) i T e He eq_refl).
  apply (reach_trans _ _ (WantWrite label i (ml_want e)) T); [revert He; step_tac |]. clear He. step_tac.
Qed.

Lemma reach_mutex label i T e : T !! i = Some e -> ml_mutex e = false ->
  reach (WaitMutex label i) T (UnwantRead label i) (alter (with_mutex true) i T).
Proof using. step_tac. Qed.

Lemma reach_unwant label i T e : T !! i = Some e -> reach (UnwantRead label i) T (Recheck label i) (alter (want_add (-1)) i T).
Proof using.
  intros He. rewrite (alter_at (want_add (-1)) (with_want ((ml_want e - 1) mod 2 ^ 32)) i T e He eq_refl).
  apply (reach_trans _ _ (UnwantWrite label i (ml_want e)) T); [revert He; step_tac |]. clear He. step_tac.
Qed.

Lemma reach_checked label i T e : T !! i = Some e -> ml_label e = label -> reach (Recheck label i) T (Locked label i) T.
Proof using. step_tac. Qed.

Lemma reach_again label i T e : T !! i = Some e -> ml_label e <> label -> reach (Recheck label i) T (Scan label false 0) T.
Proof using. step_tac. Qed.

(** *** Labelling a mutex *)

Lemma reach_mod label T e : T !! mod_index label = Some e -> ml_mod_mutex e = false ->
  reach (WaitMod label) T (Scan label true 0) (alter (with_mod_mutex true) (mod_index label) T).
Proof using. step_tac. Qed.

Lemma reach_find_next label k T e : T !! k = Some e -> ~ (ml_label e = 0 /\ ml_mutex e = false) ->
  reach (FindTest label k) T (FindTest label (S k)) T.
Proof using.
  intros He Hn. destruct (Z.eq_dec (ml_label e) 0) as [Hl | Hl].
  - assert (Hm : ml_mutex e = true) by (destruct (ml_mutex e); tauto). clear Hn.
    apply (reach_trans _ _ (FindTry label k) T); revert He Hl Hm; step_tac.
  - clear Hn. revert He Hl. step_tac.
Qed.

Lemma reach_find_take label k T e : T !! k = Some e -> ml_label e = 0 -> ml_mutex e = false ->
  reach (FindTest label k) T (FindRecheck label k) (alter (with_mutex true) k T).
Proof using.
  intros He Hl Hm. apply (reach_trans _ _ (FindTry label k) T); revert He Hl Hm; step_tac.
Qed.

Lemma reach_set_label label k T : reach (FindLabel label k) T (FindModUnlock label k) (alter (with_label label) k T).
Proof using. step_tac. Qed.

Lemma reach_mod_unlock label k T : reach (FindModUnlock label k) T (Locked label k) (alter (with_mod_mutex false) (mod_index label) T).
Proof using. step_tac. Qed.

Lemma reach_label label k T e : T !! k = Some e -> ml_label e = 0 ->
  reach (FindRecheck label k) T (Locked label k) (alter (with_mod_mutex false) (mod_index label) (alter (with_label label) k T)).
Proof using.
  intros He Hl. apply (reach_trans _ _ (FindLabel label k) T); [revert He Hl; step_tac |].
  eapply reach_trans; [apply reach_set_label | apply reach_mod_unlock].
Qed.

(** *** Unlocking *)

Lemma reach_un_free label k T e : T !! k = Some e -> ml_want e = 0 -> reach (Locked label k) T (UnWaitMod label k) T.
Proof using. intros He Hw. apply (reach_trans _ _ (UnTest label k) T); [step_tac | revert He Hw; step_tac]. Qed.

Lemma reach_un_wanted label k T e : T !! k = Some e -> ml_want e <> 0 -> reach (Locked label k) T (HandMutex label k) T.
Proof using. intros He Hw. apply (reach_trans _ _ (UnTest label k) T); [step_tac | revert He Hw; step_tac]. Qed.

Lemma reach_un_mod label k T e em : T !! k = Some e -> ml_label e = label ->
  T !! mod_index label = Some em -> ml_mod_mutex em = false ->
  reach (UnWaitMod label k) T (UnRetest label k) (alter (with_mod_mutex true) (mod_index label) T).
Proof using. step_tac. Qed.

Lemma reach_un_label label k T e : T !! k = Some e -> ml_want e = 0 ->
  reach (UnRetest label k) T Idle
    (alter (with_mod_mutex false) (mod_index label) (alter (with_mutex false) k (alter (with_label 0) k T))).
Proof using.
  intros He Hw. apply (reach_trans _ _ (UnLabel label k) T); [revert He Hw; step_tac |]. clear He Hw.
  apply (reach_trans _ _ (UnMutex label k) (alter (with_label 0) k T)); [step_tac |].
  apply (reach_trans _ _ (UnMod label) (alter (with_mutex false) k (alter (with_label 0) k T))); step_tac.
Qed.

Lemma reach_hand_mutex label k T : reach (HandMutex label k) T Idle (alter (with_mutex false) k T).
Proof using. step_tac. Qed.

Lemma reach_hand label k T e : T !! k = Some e -> ml_want e <> 0 ->
  reach (UnRetest label k) T Idle (alter (with_mutex false) k (alter (with_mod_mutex false) (mod_index label) T)).
Proof using.
  intros He Hw. apply (reach_trans _ _ (HandMod label k) T); [revert He Hw; step_tac |]. clear He Hw.
  apply (reach_trans _ _ (HandMutex label k) (alter (with_mod_mutex false) (mod_index label) T)); [step_tac | apply reach_hand_mutex].
Qed.

(** *** Searching *)

Lemma reach_scan label hm T : forall k, (k <= lock_num)%nat -> length T = lock_num ->
  (forall j e, (j < k)%nat -> T !! j = Some e -> ml_label e <> label) -> reach (Scan label hm 0) T (Scan label hm k) T.
Proof using.
  induction k as [| k IH]; intros Hk Hlen Hno; [apply reach_refl |].
  destruct (lookup_lt_is_Some_2 T k) as [e He]; [lia |].
  eapply reach_trans; [apply IH; [lia | done | intros j e' Hj; apply Hno; lia] |]. eapply reach_miss; [done |]. apply (Hno k e); [lia | done].
Qed.

Lemma reach_find label T : forall k, (k <= lock_num)%nat -> length T = lock_num ->
  (forall j e, (j < k)%nat -> T !! j = Some e -> ~ (ml_label e = 0 /\ ml_mutex e = false)) -> reach (FindTest label 0) T (FindTest label k) T.
Proof using.
  induction k as [| k IH]; intros Hk Hlen Hno; [apply reach_refl |].
  destruct (lookup_lt_is_Some_2 T k) as [e He]; [lia |].
  eapply reach_trans; [apply IH; [lia | done | intros j e' Hj; apply Hno; lia] |]. eapply reach_find_next; [done |]. apply (Hno k e); [lia | done].
Qed.

Lemma find_label_spec T label i : find_label T label = Some i ->
  exists e, T !! i = Some e /\ ml_label e = label /\ forall j e', (j < i)%nat -> T !! j = Some e' -> ml_label e' <> label.
Proof using.
  unfold find_label. destruct (list_find _ T) as [[j e] |] eqn:E; [| done]. intros [= <-].
  apply list_find_Some in E as (He & Hl & Hno). exists e. split_and!; [done | done |]. intros j' e' Hj He'. by apply (Hno j' e').
Qed.

Lemma find_label_none T label : find_label T label = None -> forall j e, T !! j = Some e -> ml_label e <> label.
Proof using.
  unfold find_label. destruct (list_find _ T) as [[j e] |] eqn:E; [done |]. intros _ j e He.
  apply list_find_None in E. rewrite Forall_forall in E. apply E. by eapply list_elem_of_lookup_2.
Qed.

Lemma find_free_spec T i : find_free T = Some i ->
  exists e, T !! i = Some e /\ ml_label e = 0 /\ ml_mutex e = false /\
    forall j e', (j < i)%nat -> T !! j = Some e' -> ~ (ml_label e' = 0 /\ ml_mutex e' = false).
Proof using.
  unfold find_free. destruct (list_find _ T) as [[j e] |] eqn:E; [| done]. intros [= <-].
  apply list_find_Some in E as (He & [Hl Hm] & Hno). exists e. split_and!; [done | done | done |]. intros j' e' Hj He'. by apply (Hno j' e').
Qed.

(** The whole scan at START. *)
Lemma reach_scan_hit label hm T i : length T = lock_num -> find_label T label = Some i ->
  reach (Scan label hm 0) T (if hm then FoundMod label i else WantRead label i) T.
Proof using.
  intros Hlen (e & He & Hl & Hno)%find_label_spec. pose proof (lookup_lt_Some _ _ _ He) as Hlt. rewrite Hlen in Hlt.
  apply (reach_trans _ _ (Scan label hm i) T); [| exact (reach_hit label hm i T e He Hl)].
  exact (reach_scan label hm T i (Nat.lt_le_incl _ _ Hlt) Hlen Hno).
Qed.

Lemma reach_scan_end label hm T : length T = lock_num -> find_label T label = None ->
  reach (Scan label hm 0) T (if hm then FindTest label 0 else WaitMod label) T.
Proof using.
  intros Hlen Hno. pose proof (find_label_none _ _ Hno) as Hn.
  apply (reach_trans _ _ (Scan label hm lock_num) T); [| apply reach_end].
  exact (reach_scan label hm T lock_num (le_n _) Hlen (fun j e _ => Hn j e)).
Qed.

(** The whole of FIND. *)
Lemma reach_find_free label T i : length T = lock_num -> find_free T = Some i ->
  reach (FindTest label 0) T (FindRecheck label i) (alter (with_mutex true) i T).
Proof using.
  intros Hlen (e & He & Hl & Hm & Hno)%find_free_spec. pose proof (lookup_lt_Some _ _ _ He) as Hlt. rewrite Hlen in Hlt.
  apply (reach_trans _ _ (FindTest label i) T); [| exact (reach_find_take label i T e He Hl Hm)].
  exact (reach_find label T i (Nat.lt_le_incl _ _ Hlt) Hlen Hno).
Qed.
End Solo.

(** ** The functions, taken apart *)

Abbreviation tab w := (mflocks (w_fs w)).

Lemma read_entry_inv i w e w' : read_entry i w = Some (e, w') -> tab w !! i = Some e /\ w' = w.
Proof. unfold read_entry, get_table, mbind, ST_bind. destruct (tab w !! i); [by intros [= <- <-] | done]. Qed.

Lemma upd_entry_inv i f w u w' : upd_entry i f w = Some (u, w') -> exists e, tab w !! i = Some e /\ w' = wt (alter f i (tab w)) w.
Proof.
  unfold upd_entry, get_table, mbind, ST_bind. destruct (tab w !! i) as [e |]; [| done]. intros [= _ <-]. by exists e.
Qed.

Lemma mutex_lock_inv i w u w' : mutex_lock i w = Some (u, w') ->
  exists e, tab w !! i = Some e /\ ml_mutex e = false /\ w' = wt (alter (with_mutex true) i (tab w)) w.
Proof.
  intros (e & w1 & [He ->]%read_entry_inv & H)%st_bind_inv. destruct (ml_mutex e) eqn:Em; [done |].
  apply upd_entry_inv in H as (e' & _ & ->). by exists e.
Qed.

Lemma mod_lock_inv i w u w' : mod_lock i w = Some (u, w') ->
  exists e, tab w !! i = Some e /\ ml_mod_mutex e = false /\ w' = wt (alter (with_mod_mutex true) i (tab w)) w.
Proof.
  intros (e & w1 & [He ->]%read_entry_inv & H)%st_bind_inv. destruct (ml_mod_mutex e) eqn:Em; [done |].
  apply upd_entry_inv in H as (e' & _ & ->). by exists e.
Qed.

(** ** Simulation *)

Section Sim.
Context (t : nat) (label : Z).
Abbreviation reach := (reach t).

(** The end of [mflock_lock] when the label was found: wait for its mutex. *)
Lemma wait_solo n w id w' i :
  (forall w, length (tab w) = lock_num -> mflock_start n false label w = Some (id, w') ->
     0 <= id /\ reach (Scan label false 0) (tab w) (Locked label (Z.to_nat id)) (tab w') /\
     exists e, tab w' !! Z.to_nat id = Some e /\ ml_label e = label) ->
  length (tab w) = lock_num ->
  (_ ← upd_entry i (want_add 1); _ ← mutex_lock i; _ ← upd_entry i (want_add (-1)); e ← read_entry i;
   if ml_label e =? label then mret (Z.of_nat i) else mflock_start n false label) w = Some (id, w') ->
  0 <= id /\ reach (WantRead label i) (tab w) (Locked label (Z.to_nat id)) (tab w') /\
  exists e, tab w' !! Z.to_nat id = Some e /\ ml_label e = label.
Proof using.
  intros IH Hlen (u1 & w1 & (e1 & He1 & ->)%upd_entry_inv & H)%st_bind_inv.
  apply st_bind_inv in H as (u2 & w2 & (e2 & He2 & Hm2 & ->)%mutex_lock_inv & H).
  apply st_bind_inv in H as (u3 & w3 & (e3 & He3 & ->)%upd_entry_inv & H).
  apply st_bind_inv in H as (e4 & w4 & [He4 ->]%read_entry_inv & H). rewrite !wt_wt, !wt_table in *.
  set (T3 := alter (want_add (-1)) i _) in *.
  assert (Hr : reach (WantRead label i) (tab w) (Recheck label i) T3).
  { eapply reach_trans; [exact (reach_want t label i _ _ He1) |].
    eapply reach_trans; [exact (reach_mutex t label i _ _ He2 Hm2) | exact (reach_unwant t label i _ _ He3)]. }
  destruct (Z.eqb_spec (ml_label e4) label) as [Hl | Hl].
  - injection H as <- <-. rewrite Nat2Z.id, wt_table. split; [lia |]. split; [| exists e4; exact (conj He4 Hl)].
    eapply reach_trans; [exact Hr | exact (reach_checked t label i _ _ He4 Hl)].
  - assert (Hlen3 : length T3 = lock_num) by (unfold T3; rewrite !length_alter; exact Hlen).
    destruct (IH (wt T3 w) Hlen3 H) as (Hid & Hr' & He). split; [exact Hid |]. split; [| exact He].
    eapply reach_trans; [exact Hr |]. eapply reach_trans; [exact (reach_again t label i _ _ He4 Hl) | exact Hr'].
Qed.

(** The end of [mflock_lock] when the label was not found: label a free mutex. *)
Lemma label_solo w id w' ml : length (tab w) = lock_num -> find_free (tab w) = Some ml ->
  (_ ← mutex_lock ml; e ← read_entry ml;
   if ml_label e =? 0 then _ ← upd_entry ml (with_label label); _ ← mod_unlock (mod_index label); mret (Z.of_nat ml)
   else _ ← mutex_unlock ml; st_stuck) w = Some (id, w') ->
  0 <= id /\ reach (FindTest label 0) (tab w) (Locked label (Z.to_nat id)) (tab w') /\
  exists e, tab w' !! Z.to_nat id = Some e /\ ml_label e = label.
Proof using.
  intros Hlen Hf (u1 & w1 & (e1 & He1 & Hm1 & ->)%mutex_lock_inv & H)%st_bind_inv.
  apply st_bind_inv in H as (e2 & w2 & [He2 ->]%read_entry_inv & H). rewrite !wt_table in *.
  pose proof (reach_find_free t label _ ml Hlen Hf) as Hr. set (T1 := alter (with_mutex true) ml (tab w)) in *.
  destruct (Z.eqb_spec (ml_label e2) 0) as [Hl |]; [| apply st_bind_inv in H as (? & ? & _ & [=])].
  apply st_bind_inv in H as (u3 & w3 & (e3 & He3 & ->)%upd_entry_inv & H).
  apply st_bind_inv in H as (u4 & w4 & (e4 & He4 & ->)%upd_entry_inv & H). rewrite !wt_wt, !wt_table in *.
  injection H as <- <-. rewrite Nat2Z.id, wt_table. split; [lia |]. split.
  - eapply reach_trans; [exact Hr | exact (reach_label t label ml _ _ He2 Hl)].
  - rewrite !lookup_alter_entry, He2, (decide_True _ _ eq_refl). eexists. split; [reflexivity |]. cbn. by destruct (decide _).
Qed.

Lemma start_solo n : forall hm w id w', length (tab w) = lock_num -> mflock_start n hm label w = Some (id, w') ->
  0 <= id /\ reach (Scan label hm 0) (tab w) (Locked label (Z.to_nat id)) (tab w') /\
  exists e, tab w' !! Z.to_nat id = Some e /\ ml_label e = label.
Proof using.
  induction n as [| n IH]; intros hm w id w' Hlen H; [done |]. cbn [mflock_start] in H.
  apply st_bind_inv in H as (T & w1 & HT & H). injection HT as <- <-. destruct (find_label (tab w) label) as [i |] eqn:Ef.
  - pose proof (reach_scan_hit t label hm _ i Hlen Ef) as Hs.
    apply st_bind_inv in H as (u & w1 & Hu & H). destruct hm.
    + apply upd_entry_inv in Hu as (em & Hem & ->).
      apply wait_solo in H as (Hid & Hr & He'); [| exact (fun w => IH false w id w') | rewrite wt_table, length_alter; exact Hlen].
      split; [exact Hid |]. split; [| exact He'].
      eapply reach_trans; [exact Hs |]. eapply reach_trans; [apply reach_found_mod | exact Hr].
    + injection Hu as _ <-. apply wait_solo in H as (Hid & Hr & He'); [| exact (fun w => IH false w id w') | exact Hlen].
      split; [exact Hid |]. split; [| exact He'].
      eapply reach_trans; [exact Hs | exact Hr].
  - pose proof (reach_scan_end t label hm _ Hlen Ef) as Hs.
    destruct hm; cbn [negb] in H.
    + destruct (find_free (tab w)) as [ml |] eqn:Hf; [| discriminate H].
      destruct (label_solo w id w' ml Hlen Hf H) as (Hid & Hr & He). split; [exact Hid |]. split; [| exact He].
      eapply reach_trans; [exact Hs | exact Hr].
    + apply st_bind_inv in H as (u & w1 & (em & Hem & Hmf & ->)%mod_lock_inv & H).
      assert (Hlen1 : length (tab (wt (alter (with_mod_mutex true) (mod_index label) (tab w)) w)) = lock_num)
        by (rewrite wt_table, length_alter; exact Hlen).
      destruct (IH _ _ _ _ Hlen1 H) as (Hid & Hr & He). split; [exact Hid |]. split; [| exact He].
      eapply reach_trans; [exact Hs |]. eapply reach_trans; [exact (reach_mod t label _ _ Hem Hmf) | exact Hr].
Qed.

(** [mflock_unlock] of the entry that carries the label. *)
Lemma unlock_solo w id r w' e : tab w !! Z.to_nat id = Some e -> ml_label e = label -> mflock_unlock id w = Some (r, w') ->
  r = 0 /\ reach (Locked label (Z.to_nat id)) (tab w) Idle (tab w').
Proof using.
  intros He Hl H. unfold mflock_unlock in H. destruct (id <? 0); [discriminate H |]. set (k := Z.to_nat id) in *.
  apply st_bind_inv in H as (e0 & w0 & [He0 ->]%read_entry_inv & H). rewrite He in He0. injection He0 as <-. rewrite Hl in H.
  destruct (Z.eqb_spec (ml_want e) 0) as [Hw | Hw].
  - apply st_bind_inv in H as (u1 & w1 & (em & Hem & Hmf & ->)%mod_lock_inv & H).
    apply st_bind_inv in H as (e2 & w2 & [He2 ->]%read_entry_inv & H). rewrite !wt_table in *.
    assert (Hr : reach (Locked label k) (tab w) (UnRetest label k) (alter (with_mod_mutex true) (mod_index label) (tab w))).
    { eapply reach_trans; [exact (reach_un_free t label k _ _ He Hw) | exact (reach_un_mod t label k _ _ _ He Hl Hem Hmf)]. }
    destruct (Z.eqb_spec (ml_want e2) 0) as [Hw2 | Hw2];
      apply st_bind_inv in H as (u3 & w3 & (e3 & He3 & ->)%upd_entry_inv & H);
      apply st_bind_inv in H as (u4 & w4 & (e4 & He4 & ->)%upd_entry_inv & H); rewrite !wt_wt, !wt_table in *.
    + apply st_bind_inv in H as (u5 & w5 & (e5 & He5 & ->)%upd_entry_inv & H). rewrite !wt_wt, !wt_table in *.
      injection H as <- <-. rewrite wt_table. split; [reflexivity |].
      eapply reach_trans; [exact Hr | exact (reach_un_label t label k _ _ He2 Hw2)].
    + injection H as <- <-. rewrite wt_table. split; [reflexivity |].
      eapply reach_trans; [exact Hr | exact (reach_hand t label k _ _ He2 Hw2)].
  - apply st_bind_inv in H as (u1 & w1 & (e1 & He1 & ->)%upd_entry_inv & H).
    injection H as <- <-. rewrite wt_table. split; [reflexivity |].
    eapply reach_trans; [exact (reach_un_wanted t label k _ _ He Hw) | apply reach_hand_mutex].
Qed.

Lemma call_starts s : c_pc s t = Idle -> label <> 0 ->
  exists s0, exec t (Call label) s = Some s0 /\ at_pc t (Scan label false 0) (table_of s) s0.
Proof using.
  intros Hp Hl. exists (goto t (Scan label false 0) s). unfold exec. rewrite Hp, (proj2 (Z.eqb_neq label 0) Hl).
  split; [reflexivity |]. split; [apply upd_same | apply table_goto].
Qed.
End Sim.

(** ** Theorems *)

(** C18 (alone, the threads do what the functions compute): take a state of
    the concurrent model and one of the sequential one with the same table,
    and a thread at rest.  If [mflock_lock] returns [id], the thread that calls
    it and runs alone comes, step by step, to the point where it holds entry
    [id], with the table that the function leaves; and whenever a thread holds
    an entry that carries its label and [mflock_unlock] returns, it returns 0
    and the thread alone comes back to rest with the table of the function. *)
Theorem mflock_solo_agrees t label s w :
  c_pc s t = Idle -> label <> 0 -> table_of s = tab w ->
  (forall id w', mflock_lock label w = Some (id, w') ->
     exists s0 s', exec t (Call label) s = Some s0 /\ solo t s0 s' /\
       0 <= id /\ at_pc t (Locked label (Z.to_nat id)) (tab w') s') /\
  (forall id e s2 w2 r w3, at_pc t (Locked label (Z.to_nat id)) (tab w2) s2 ->
     tab w2 !! Z.to_nat id = Some e -> ml_label e = label -> mflock_unlock id w2 = Some (r, w3) ->
     r = 0 /\ exists s3, solo t s2 s3 /\ at_pc t Idle (tab w3) s3).
Proof.
  intros Hpc Hl HT. split.
  - intros id w' H.
    assert (Hlen : length (tab w) = lock_num) by (rewrite <-HT; apply table_length).
    destruct (start_solo t label 3 false w id w' Hlen H) as (Hid & Hr & _).
    destruct (call_starts t label s Hpc Hl) as (s0 & Hc & Hs0). rewrite HT in Hs0.
    destruct (Hr s0 Hs0) as (s' & Hsolo & Hat). by exists s0, s'.
  - intros id e s2 w2 r w3 Hat He Hlab H. destruct (unlock_solo t label w2 id r w3 e He Hlab H) as [-> Hr].
    split; [reflexivity | exact (Hr s2 Hat)].
Qed.

(** A state in which thread 2 is at rest and entry 5 is labelled and free,
    with an entry before it whose mutex is lost. *)
Definition solo_state : cstate :=
  CState (upd (fun _ => 0) 5 9) (upd (fun _ => None) 1 (Some 7%nat)) (fun _ => None) (fun _ => 0) (fun _ => Idle).

Definition solo_world : world := wt (table_of solo_state) idle_world.

Lemma mflock_solo_agrees_witness :
  exists s0 s', exec 2 (Call 9) solo_state = Some s0 /\ solo 2 s0 s' /\ c_pc s' 2 = Locked 9 5.
Proof.
  destruct (mflock_solo_agrees 2 9 solo_state solo_world eq_refl ltac:(done) eq_refl) as [Hlock _].
  destruct (Hlock 5 (wt (alter (with_mutex true) 5%nat (table_of solo_state)) idle_world)) as (s0 & s' & H & Hs & _ & Hp & _);
    [vm_compute; reflexivity |]. by exists s0, s'.
Defined.

(** C19 (a thread alone is never stuck): whatever the other threads have lost,
    as long as no entry is labelled or wanted, no MOD mutex is held and one
    mutex is free, a thread that calls [mflock_lock] for any label and runs
    alone gets a lock, and when it goes on, alone, it releases it and leaves
    the table as it was. *)
Theorem mflock_solo_progress t label s :
  c_pc s t = Idle -> label <> 0 -> idle_table (table_of s) ->
  exists s0 s1 s2 k, exec t (Call label) s = Some s0 /\ solo t s0 s1 /\ c_pc s1 t = Locked label k /\
    solo t s1 s2 /\ c_pc s2 t = Idle /\ table_of s2 = table_of s.
Proof.
  intros Hpc Hl Hi. pose (w := wt (table_of s) idle_world).
  destruct (mflock_lock_idle (table_of s) idle_world label Hi Hl) as (j & e & Hlt & Hj & Hf & Hrun).
  pose proof (mflock_unlock_locked (table_of s) idle_world j e label Hi Hj Hf) as Hun.
  destruct (start_solo t label 3 false w _ _ (table_length s) Hrun) as (_ & Hr & e' & He' & Hlab).
  destruct (unlock_solo t label _ _ _ _ e' He' Hlab Hun) as (_ & Hr').
  destruct (call_starts t label s Hpc Hl) as (s0 & Hc & Hs0).
  destruct (Hr s0 Hs0) as (s1 & R1 & Hat1). destruct (Hr' s1 Hat1) as (s2 & R2 & Hp2 & HT2).
  exists s0, s1, s2, (Z.to_nat (Z.of_nat j)). exact (conj Hc (conj R1 (conj (proj1 Hat1) (conj R2 (conj Hp2 HT2))))).
Qed.

(** From the initial state, for the label 9. *)
Lemma mflock_solo_progress_witness :
  exists s0 s1 s2 k, exec 4 (Call 9) c_init = Some s0 /\ solo 4 s0 s1 /\ c_pc s1 4 = Locked 9 k /\ solo 4 s1 s2 /\ c_pc s2 4 = Idle.
Proof.
  assert (Hi : idle_table (table_of c_init)) by exact idle_table_init.
  destruct (mflock_solo_progress 4 9 c_init eq_refl ltac:(done) Hi) as (s0 & s1 & s2 & k & H0 & R1 & H1 & R2 & H2 & _).
  by exists s0, s1, s2, k.
Defined.
