(* ===== verification/Block.v ===== *)
(** Saving and reading blocks: [block.c].

    [b_write] copies the blocks that a write or a truncation is about to
    change to the dat file of the latest snapshot, once per block, and
    records where in the map file; [b_read] rebuilds the contents that a
    file had when a snapshot was taken from the saved blocks, the later
    snapshots and the main file.  This file holds the operations; [CopyOnWrite],
    [BlockWrite] and [BlockRead] hold their theory. *)

From S2P Require Import Prelude Posix Types Mflock.

(** [B_CALC_BLOCKS]: the first block and the number of blocks that a range of bytes touches. *)
Definition B_CALC_BLOCKS (byteoffset bytesize : Z) : Z * Z :=
  (Z.shiftr byteoffset BL_SLOG,
   u64 (Z.shiftr (u64 (bytesize + Z.land byteoffset (BL_S - 1) - 1)) BL_SLOG + 1)).

(** Where the pointer of a block is in the map file. *)
Definition map_offset (blockoffset : Z) : Z := i64 (MAPHEADER_S + blockoffset * BLP_S).

(** [BLOCK_READ_POINTER]: reads a block pointer; one past the end of the map file is 0. *)
Definition read_pointer (fd mapoffset : Z) : M (res Z) :=
  r ← sys (sys_pread fd BLP_S mapoffset);
  mret match r with
       | Err e => Err e
       | Ok d =>
           if zlen d =? BLP_S then Ok (i64 (le_val d))
           else if zlen d =? 0 then Ok 0
           else Err ENXIO
       end.

(** ** Reading *)

(** How the search for one block ends: [b_read] returns, or goes on with the next block. *)
Inductive read_next :=
| RReturn (ret : Z)
| RNext.

(** [pread] of [copylength] bytes into the buffer; -1 means the block was found. *)
Definition b_read_copy (copyfd copyto copylength copyfrom : Z) (buf : list Z) : M (Z * list Z) :=
  r ← sys (sys_pread copyfd copylength copyfrom);
  mret match r with
       | Err e => (e, buf)
       | Ok d => (if zlen d =? copylength then -1 else ENXIO, file_write buf d copyto)
       end.

(** One step of the chain: [waserror] and the buffer; [waserror = 0] sends
    the search to the next step. *)
Definition b_read_step (mfd : mfd_t) (sni : nat) (blockoffset copyto copylength copyfrom : Z) (buf : list Z)
  : M (Z * list Z) :=
  match sn_steps mfd !! sni with
  | None => st_stuck
  | Some step =>
      if (0 <? Z.of_nat sni) then
        if step_mapfd step <? 0 then mret (0, buf)
        else
          p ← read_pointer (step_mapfd step) (map_offset blockoffset);
          match p with
          | Err e => mret (e, buf)
          | Ok pointer =>
              if pointer =? 0 then mret (0, buf)
              else b_read_copy (step_datfd step) copyto copylength (copyfrom + Z.shiftl (pointer - 1) BL_SLOG) buf
          end
      else
        b_read_copy (step_datfd step) copyto copylength (copyfrom + Z.shiftl blockoffset BL_SLOG) buf
  end.

(** The part of a block to copy: [copyfrom] and [copylength], less in the
    first and in the last block. *)
Definition b_read_part (first last : bool) (blockoffset readoffset readsize : Z) : Z * Z :=
  let copyfrom := if first then readoffset - Z.shiftl blockoffset BL_SLOG else 0 in
  let copylength := if first then u64 (BL_S - copyfrom) else BL_S in
  let copylength :=
    if last then u64 (copylength - (Z.shiftl (blockoffset + 1) BL_SLOG - readoffset - readsize)) else copylength in
  (copyfrom, copylength).

Section WithLocks.
Context (lock_ unlock_ : Z -> M Z).

(** The [for sni] loop; [k] is [sni + 1].  The lock is taken for the latest
    snapshot and the main file. *)
Fixpoint b_read_sni (mfd : mfd_t) (k : nat) (lock : Z) (blockoffset copyto copylength copyfrom : Z) (buf : list Z)
  : M (read_next * list Z) :=
  match k with
  | O => mret (RNext, buf)
  | S sni =>
      let want := (Z.of_nat sni <=? 1) && (lock =? -1) in
      lock' ← (if want then lock_ (locklabel mfd) else mret lock);
      '(waserror, buf') ← (if want && (lock' <? 0) then mret (- lock', buf)
                           else b_read_step mfd sni blockoffset copyto copylength copyfrom buf);
      if waserror =? 0 then b_read_sni mfd sni lock' blockoffset copyto copylength copyfrom buf'
      else
        r ← (if negb (lock' =? -1) then unlock_ lock' else mret 0);
        if r <? 0 then mret (RReturn (- r), buf')
        else if 0 <? waserror then mret (RReturn (- waserror), buf')
        else mret (RNext, buf')
  end.

(** The [for blocknumber] loop; [n] is the number of blocks still to read. *)
Fixpoint b_read_loop (mfd : mfd_t) (n : nat) (blockoffset copyto readoffset readsize : Z) (buf : list Z)
  : M (Z * list Z) :=
  match n with
  | O => mret (i32 copyto, buf)
  | S n' =>
      let '(copyfrom, copylength) := b_read_part (copyto =? 0) (n =? 1)%nat blockoffset readoffset readsize in
      '(r, buf') ← b_read_sni mfd (Z.to_nat (sn_first_file mfd + 1)) (-1) blockoffset copyto copylength copyfrom buf;
      match r with
      | RReturn ret => mret (ret, buf')
      | RNext => b_read_loop mfd n' (blockoffset + 1) (copyto + copylength) readoffset readsize buf'
      end
  end.

(** Reads data from a snapshot file into [buf]; returns the C return value and the buffer. *)
Definition b_read (buf : list Z) (mfd : mfd_t) (readsize readoffset : Z) : M (Z * list Z) :=
  if readsize =? 0 then mret (0, buf)
  else
    let snsize := st_size (mh_fstat (mapheader mfd)) in
    let go readsize :=
      let '(blockoffset, blocknumber) := B_CALC_BLOCKS readoffset readsize in
      b_read_loop mfd (Z.to_nat blocknumber) blockoffset 0 readoffset readsize buf in
    if u64 snsize <? u64 (readoffset + readsize) then
      if snsize <=? readoffset then mret (0, buf)
      else go (u64 (snsize - readoffset))
    else go readsize.

(** ** Saving *)

Definition B_WRITE_DEFAULTS : Z := 0.
Definition B_WRITE_HAS_LOCK : Z := 1.

(** The buffer of [b_write]: not chosen yet, the one in [fsdata], or one of its own. *)
Inductive bufref :=
| BufNull
| BufGlobal
| BufHeap (mem : list Z).

(** The local variables that change in the block loop. *)
Record bw_state := BwState {
  bw_mfd : mfd_t;
  bw_lock : Z;
  bw_buf : bufref;
  bw_err : Z
}.

(** [malloc] of a block: fails as scheduled; the memory holds what it holds. *)
Definition malloc_block : M (option (list Z)) := fun w =>
  let '(f, s) := pop_fault (w_os w) in
  match f with
  | Fail _ => Some (None, set_os s w)
  | _ => Some (Some (ztake BL_S (w_junk w ++ zeros BL_S)), set_bufs (w_bufs w + 1) (set_os s w))
  end.

Definition buf_get (b : bufref) : M (list Z) :=
  match b with
  | BufNull => st_stuck
  | BufGlobal => f ← get_fs; match block_buffer f with Some m => mret m | None => st_stuck end
  | BufHeap m => mret m
  end.

Definition buf_set (b : bufref) (m : list Z) : M bufref :=
  match b with
  | BufNull => st_stuck
  | BufGlobal => _ ← modify_fs (set_block_buffer (Some m)); mret BufGlobal
  | BufHeap _ => mret (BufHeap m)
  end.

Definition buf_free (b : bufref) : M unit :=
  match b with
  | BufNull => mret tt
  | BufGlobal => modify_fs (set_block_buffer None)
  | BufHeap _ => fun w => Some (tt, set_bufs (w_bufs w - 1) w)
  end.

(** The outcome of an iteration: [true] leaves the loop. *)
Definition bw_break (st : bw_state) (e : Z) : M (bool * bw_state) :=
  mret (true, BwState (bw_mfd st) (bw_lock st) (bw_buf st) e).
Definition bw_continue (st : bw_state) : M (bool * bw_state) := mret (false, st).
Definition bw_set_cache (c : Z) (st : bw_state) : bw_state :=
  BwState (set_cache c (bw_mfd st)) (bw_lock st) (bw_buf st) (bw_err st).

(** The buffer to copy the block through, allocated once in the loop. *)
Definition b_get_buf (st : bw_state) : M (option bufref) :=
  match bw_buf st with
  | BufNull =>
      if bw_lock st =? 0 then mret (Some BufGlobal)
      else b ← malloc_block; mret (BufHeap <$> b)
  | b => mret (Some b)
  end.

(** Appends the block in the buffer to the dat file and stores its number,
    counted from 1, in the map. *)
Definition b_append (st : bw_state) (mem : list Z) (blockoffset : Z) : M (bool * bw_state) :=
  let mfd := bw_mfd st in
  l ← sys (sys_lseek_end (datfd mfd));
  match l with
  | Err e => bw_break st e
  | Ok datsize =>
      if negb (Z.land datsize (BL_S - 1) =? 0) then bw_break st EFAULT
      else
        n ← sys (sys_write (datfd mfd) (ztake BL_S mem));
        match n with
        | Err e => bw_break st e
        | Ok n =>
            if negb (n =? BL_S) then bw_break st ENXIO
            else
              let pointer := Z.shiftr datsize BL_SLOG + 1 in
              p ← sys (sys_pwrite (mapfd mfd) (le_bytes 8 pointer) (map_offset blockoffset));
              match p with
              | Err e => bw_break st e
              | Ok n =>
                  if negb (n =? BLP_S) then bw_break st ENXIO
                  else bw_continue (bw_set_cache (blockoffset + 1) st)
              end
        end
  end.

(** The end of the loop body: copies the block from the main file to the
    end of the dat file. *)
Definition b_save_block (st : bw_state) (blockoffset : Z) : M (bool * bw_state) :=
  let mfd := bw_mfd st in
  buf ← b_get_buf st;
  match buf with
  | None => bw_break st ENOMEM
  | Some b =>
      (* Read the old block from the main file *)
      r ← sys (sys_pread (mainfd mfd) BL_S (Z.shiftl blockoffset BL_SLOG));
      match r with
      | Err e => bw_break (BwState mfd (bw_lock st) b (bw_err st)) e
      | Ok d =>
          mem ← buf_get b;
          let mem := d ++ zdrop (zlen d) mem in
          b ← buf_set b mem;
          let st := BwState mfd (bw_lock st) b (bw_err st) in
          if zlen d <? 1 then bw_break st ENXIO
          else b_append st mem blockoffset
      end
  end.

(** The body of the block loop. *)
Definition b_write_block (st : bw_state) (blockoffset : Z) : M (bool * bw_state) :=
  let mfd := bw_mfd st in
  if latest_written_block_cache mfd =? blockoffset + 1 then bw_continue st
  else
    p ← read_pointer (mapfd mfd) (map_offset blockoffset);
    match p with
    | Err e => bw_break st e
    | Ok pointer =>
        if negb (pointer =? 0) then bw_continue (bw_set_cache (blockoffset + 1) st)
        else if bw_lock st =? -1 then
          lock ← lock_ (locklabel mfd);
          let st := BwState mfd lock (bw_buf st) (bw_err st) in
          if lock <? 0 then bw_break st (- lock)
          else
            (* Read the pointer for real, now that we have the lock *)
            p ← read_pointer (mapfd mfd) (map_offset blockoffset);
            match p with
            | Err e => bw_break st e
            | Ok pointer =>
                if negb (pointer =? 0) then bw_continue st else b_save_block st blockoffset
            end
        else b_save_block st blockoffset
    end.

(** The block loop; [n] is the number of blocks still to process. *)
Fixpoint b_write_loop (n : nat) (st : bw_state) (blockoffset : Z) : M bw_state :=
  match n with
  | O => mret st
  | S n' =>
      '(stop, st') ← b_write_block st blockoffset;
      if stop : bool then mret st' else b_write_loop n' st' (blockoffset + 1)
  end.

(** The cleanup of [b_write]; [lock] holds the result of the unlock when the buffer is considered. *)
Definition b_write_cleanup (st : bw_state) (flags : Z) : M (Z * mfd_t) :=
  if negb (bw_lock st =? -1) && negb (has flags B_WRITE_HAS_LOCK) then
    lock ← unlock_ (bw_lock st);
    let waserror := if (lock <? 0) && (bw_err st =? 0) then - lock else bw_err st in
    _ ← (if negb (lock =? 0) then buf_free (bw_buf st) else mret tt);
    mret (- waserror, bw_mfd st)
  else mret (- bw_err st, bw_mfd st).

(** Saves the part of a file that is about to be overwritten; returns the C
    return value and the mfd. *)
Definition b_write (mfd : mfd_t) (writesize writeoffset flags : Z) : M (Z * mfd_t) :=
  if (datfd mfd <? 0) || (writesize =? 0) then mret (0, mfd)
  else
    let lock := if has flags B_WRITE_HAS_LOCK then -2 else -1 in
    let snsize := st_size (mh_fstat (mapheader mfd)) in
    let go writesize :=
      let '(blockoffset, blocknumber) := B_CALC_BLOCKS writeoffset writesize in
      st ← b_write_loop (Z.to_nat blocknumber) (BwState mfd lock BufNull 0) blockoffset;
      b_write_cleanup st flags in
    if u64 snsize <? u64 (writeoffset + writesize) then
      if snsize <=? writeoffset then mret (0, mfd)
      else go (u64 (snsize - writeoffset))
    else go writesize.

(** Saves the part of a file that is about to be truncated. *)
Definition b_truncate (mfd : mfd_t) (newsize flags : Z) : M (Z * mfd_t) :=
  let st := mapheader mfd in
  if (mh_exists st =? 1) && (newsize <? st_size (mh_fstat st))
  then b_write mfd (u64 (st_size (mh_fstat st) - newsize)) newsize flags
  else mret (0, mfd).

End WithLocks.

(** [b_init_block_buffer] *)
Definition b_init_block_buffer : M Z :=
  b ← malloc_block;
  match b with
  | None => mret (- ENOMEM)
  | Some m => _ ← modify_fs (set_block_buffer (Some m)); mret 0
  end.

Definition b_destroy_block_buffer : M Z :=
  f ← get_fs;
  _ ← (match block_buffer f with
       | Some _ => fun w => Some (tt, set_bufs (w_bufs w - 1) w)
       | None => mret tt
       end);
  _ ← modify_fs (set_block_buffer None);
  mret 0.
