(* ===== verification/CopyOnWrite.v ===== *)
(** The copy-on-write invariant, on the bytes of the files alone.

    [old] is the contents a file had when a snapshot was taken, [main] the
    contents of the file that holds the current data, [map] and [dat] the
    two files of the snapshot.  [cow] says that the map file starts with the
    header of a file as long as [old], and that every block of [old] is either still in [main], when its pointer is 0, or in [dat] at the place
    the pointer gives.  For a snapshot that is not the latest, [main] is
    replaced by the contents the next snapshot stands for. *)

From S2P Require Import Prelude Posix Types.

(** ** Block pointers *)

Definition ptr_off (b : Z) : Z := MAPHEADER_S + b * BLP_S.

(** The eight bytes at [o]; bytes past the end are 0. *)
Definition word8 (m : list Z) (o : Z) : list Z :=
  [zget m o; zget m (o + 1); zget m (o + 2); zget m (o + 3);
   zget m (o + 4); zget m (o + 5); zget m (o + 6); zget m (o + 7)].

(** The pointer that the map file holds for block [b]; 0 when it is not saved. *)
Definition ptr_at (map : list Z) (b : Z) : Z := i64 (le_val (word8 map (ptr_off b))).

(** ** The invariant *)

(** Block [k] of [src] holds what [old] has in block [b]. *)
Definition holds_block (old : list Z) (b : Z) (src : list Z) (k : Z) : Prop :=
  forall i, 0 <= i < BL_S -> b * BL_S + i < zlen old ->
    k * BL_S + i < zlen src /\ zget src (k * BL_S + i) = zget old (b * BL_S + i).

Definition block_ok (old main map dat : list Z) (b : Z) : Prop :=
  (ptr_at map b = 0 /\ holds_block old b main b) \/
  (0 < ptr_at map b /\ ptr_at map b * BL_S <= zlen dat /\ holds_block old b dat (ptr_at map b - 1)).

Definition in_old (old : list Z) (b : Z) : Prop := 0 <= b /\ b * BL_S < zlen old.

(** The header at the start of a map file. *)
Definition map_header (map : list Z) (h : mapheader_t) : Prop :=
  file_read map MAPHEADER_S 0 = enc_header h /\ header_ok h.

Definition header_for (old : list Z) (h : mapheader_t) : Prop :=
  mh_exists h = 1 /\ st_size (mh_fstat h) = zlen old.

Record cow (old main map dat : list Z) : Prop := {
  cow_map_len : MAPHEADER_S <= zlen map;
  cow_map_align : (zlen map - MAPHEADER_S) mod BLP_S = 0;
  cow_header : exists h, map_header map h /\ header_for old h;
  cow_blocks : forall b, in_old old b -> block_ok old main map dat b
}.

(** A file that may be missing, for what is read of it. *)
Definition contents (v : option (list Z)) : list Z := default [] v.

(** The map file of a file that did not exist at the snapshot. *)
Definition gone_map (map : list Z) : Prop := exists h, map_header map h /\ mh_exists h = 0.

(** The block has been saved in the snapshot. *)
Definition saved (map : list Z) (b : Z) : Prop := ptr_at map b <> 0.

(** ** Words *)

Lemma zlen_word8 m o : zlen (word8 m o) = 8.
Proof. done. Qed.

Lemma zget_word8 m o i : 0 <= i < 8 -> zget (word8 m o) i = zget m (o + i).
Proof.
  intros Hi. assert (i = 0 \/ i = 1 \/ i = 2 \/ i = 3 \/ i = 4 \/ i = 5 \/ i = 6 \/ i = 7) as C by lia.
  unfold word8. destruct_or! C; subst i; unfold zget at 1; cbn; by rewrite ?Z.add_0_r.
Qed.

Lemma file_read_word8 m o :
  0 <= o -> zlen (file_read m 8 o) = 8 -> file_read m 8 o = word8 m o.
Proof.
  intros Ho H. apply zlist_eq; [by rewrite H |]. intros i Hi. rewrite H in Hi.
  by rewrite zget_word8, zget_file_read by lia.
Qed.

Lemma word8_ext m m' o o' :
  (forall i, 0 <= i < 8 -> zget m (o + i) = zget m' (o' + i)) -> word8 m o = word8 m' o'.
Proof. intros H. apply zlist_eq; [done |]. intros i Hi. rewrite !zget_word8 by done. by apply H. Qed.

Lemma le_val_word8_0 m o : (forall i, 0 <= i < 8 -> zget m (o + i) = 0) -> le_val (word8 m o) = 0.
Proof.
  intros H. rewrite (word8_ext m [] o 0); [done |]. intros i Hi. rewrite H by done.
  rewrite zget_oob; [done |]. right. rewrite zlen_nil. lia.
Qed.

(** A pointer past the end of the map file reads as 0. *)
Lemma ptr_at_end map b : zlen map <= ptr_off b -> ptr_at map b = 0.
Proof.
  intros H. unfold ptr_at. rewrite le_val_word8_0; [done |].
  intros i Hi. apply zget_oob. lia.
Qed.

(** Storing the pointer of a block. *)
Lemma ptr_at_store map b p :
  0 <= b -> 0 <= p < 2 ^ 63 -> ptr_at (file_write map (le_bytes 8 p) (ptr_off b)) b = p.
Proof.
  intros Hb Hp. unfold ptr_at.
  assert (word8 (file_write map (le_bytes 8 p) (ptr_off b)) (ptr_off b) = le_bytes 8 p) as ->.
  { apply zlist_eq; [by rewrite zlen_word8, zlen_le_bytes |]. rewrite zlen_word8. intros i Hi.
    rewrite zget_word8 by lia. unfold ptr_off, MAPHEADER_S, BLP_S.
    rewrite zget_file_write_in by (rewrite ?zlen_le_bytes; lia). f_equal. lia. }
  rewrite le_val_bytes_small by (cbn; lia). apply i64_small. lia.
Qed.

Lemma ptr_at_store_ne map b b' p :
  0 <= b -> 0 <= b' -> b <> b' -> ptr_at (file_write map (le_bytes 8 p) (ptr_off b)) b' = ptr_at map b'.
Proof.
  intros Hb Hb' Hne. unfold ptr_at. do 2 f_equal. apply word8_ext. intros i Hi.
  apply zget_file_write_out; unfold ptr_off, MAPHEADER_S, BLP_S; rewrite ?zlen_le_bytes; lia.
Qed.

Lemma zlen_store map b p :
  0 <= b -> zlen (file_write map (le_bytes 8 p) (ptr_off b)) = Z.max (zlen map) (ptr_off b + 8).
Proof.
  intros. rewrite zlen_file_write by (unfold ptr_off, MAPHEADER_S, BLP_S; lia).
  by rewrite zlen_le_bytes.
Qed.

(** Storing a pointer leaves the header alone. *)
Lemma map_header_store map b p :
  0 <= b -> MAPHEADER_S <= zlen map ->
  file_read (file_write map (le_bytes 8 p) (ptr_off b)) MAPHEADER_S 0 = file_read map MAPHEADER_S 0.
Proof.
  intros Hb Hl. unfold MAPHEADER_S in *. apply zlist_eq.
  { rewrite !zlen_file_read by lia. rewrite zlen_store by done. unfold ptr_off, MAPHEADER_S, BLP_S. lia. }
  intros i. rewrite zlen_file_read, zlen_store by (lia || done). intros Hi.
  rewrite !zget_file_read by lia. apply zget_file_write_out; unfold ptr_off, MAPHEADER_S, BLP_S; lia.
Qed.

(** ** Establishing and preserving the invariant *)

Lemma holds_block_self old main b k :
  holds_block old b main k -> b = k -> forall i, 0 <= i < BL_S -> b * BL_S + i < zlen old ->
  zget main (b * BL_S + i) = zget old (b * BL_S + i).
Proof. intros H <- i Hi Hl. by apply H. Qed.

(** Right after the header is written, the main file is the snapshot. *)
Lemma cow_fresh old h dat : header_ok h -> header_for old h -> cow old old (enc_header h) dat.
Proof.
  intros Hh Hf. pose proof (zlen_enc_header h (proj2 (proj2 (proj2 (proj1 Hh))))) as H.
  split; [lia | rewrite H; done | |].
  { exists h. split; [| done]. split; [| done]. apply file_read_all. lia. }
  intros b [Hb _]. left. split; [| by intros i _ Hl].
  apply ptr_at_end. unfold ptr_off, BLP_S. lia.
Qed.

Lemma holds_block_app old b src k ext : 0 <= k -> holds_block old b src k -> holds_block old b (src ++ ext) k.
Proof.
  intros Hk H i Hi Hl. destruct (H i Hi Hl) as [??]. split; [zl |]. by rewrite zget_app_l.
Qed.

(** Appending to the dat file loses nothing. *)
Lemma cow_dat_app old main map dat ext : cow old main map dat -> cow old main map (dat ++ ext).
Proof.
  intros [Hl Ha Hh Hb]. split; [done | done | done |]. intros b Hin.
  destruct (Hb b Hin) as [[? ?] | (? & ? & ?)]; [by left | right].
  split_and!; [done | zl |]. apply holds_block_app; [lia | done].
Qed.

(** Once the old block is in the dat file, its pointer may be stored. *)
Lemma cow_set_ptr old main map dat b p :
  cow old main map dat -> 0 <= b -> 0 < p < 2 ^ 63 -> p * BL_S <= zlen dat -> holds_block old b dat (p - 1) ->
  cow old main (file_write map (le_bytes 8 p) (ptr_off b)) dat.
Proof.
  intros [Hl Ha Hhd Hb] Hb0 Hp Hlen Hh. split.
  - rewrite zlen_store by done. lia.
  - rewrite zlen_store by done. unfold ptr_off, BLP_S, MAPHEADER_S in *.
    destruct (Z.max_spec (zlen map) (160 + b * 8 + 8)) as [[_ ->] | [_ ->]]; [| done].
    replace (160 + b * 8 + 8 - 160) with ((b + 1) * 8) by lia. apply Z_mod_mult.
  - destruct Hhd as (h & [Hr Hok] & Hf). exists h. split; [| done]. split; [| done]. by rewrite map_header_store.
  - intros b' Hin. unfold block_ok. destruct (decide (b = b')) as [<- | Hne].
    + rewrite ptr_at_store by lia. right. by split_and!; [lia | |].
    + rewrite ptr_at_store_ne by (done || apply Hin). by apply Hb.
Qed.

(** The number of the block that is appended to the dat file. *)
Lemma append_block (dat mem : list Z) :
  zlen dat mod BL_S = 0 -> zlen mem = BL_S -> zlen dat < 2 ^ 62 ->
  let p := zlen dat / BL_S + 1 in
  0 < p < 2 ^ 63 /\ zlen dat = (p - 1) * BL_S /\ p * BL_S <= zlen (dat ++ mem).
Proof.
  intros Hd Hm Hbig p. pose proof (zlen_nonneg dat). pose proof (Z.div_mod (zlen dat) BL_S ltac:(done)).
  assert (0 <= zlen dat / BL_S) by (by apply Z.div_pos).
  assert (zlen dat / BL_S < 2 ^ 62) by (apply Z.div_lt_upper_bound; unfold BL_S; lia).
  unfold p. split_and!; [lia | lia | lia | zl].
Qed.

Lemma append_holds old b dat mem k :
  zlen dat = k * BL_S -> zlen mem = BL_S ->
  (forall i, 0 <= i < BL_S -> b * BL_S + i < zlen old -> zget mem i = zget old (b * BL_S + i)) ->
  holds_block old b (dat ++ mem) k.
Proof.
  intros Hd Hm Hmem i Hi Hl. split; [zl |]. rewrite zget_app_r by lia.
  replace (k * BL_S + i - zlen dat) with i by lia. by apply Hmem.
Qed.

(** Saving a block: it is appended to the dat file and its pointer stored. *)
Lemma cow_store old main map dat b mem :
  cow old main map dat -> in_old old b -> ptr_at map b = 0 ->
  zlen dat mod BL_S = 0 -> zlen mem = BL_S -> zlen dat < 2 ^ 62 ->
  (forall i, 0 <= i < BL_S -> b * BL_S + i < zlen main -> zget mem i = zget main (b * BL_S + i)) ->
  let p := zlen dat / BL_S + 1 in
  cow old main (file_write map (le_bytes 8 p) (ptr_off b)) (dat ++ mem).
Proof.
  intros Hc Hin Hp Hd Hm Hbig Hmem p. destruct (append_block dat mem Hd Hm Hbig) as (Hpr & Hdat & Hlen).
  apply cow_set_ptr; [by apply cow_dat_app | by destruct Hin | done | done |]. apply append_holds; [done | done |].
  intros i Hi Hl. destruct (cow_blocks _ _ _ _ Hc b Hin) as [[_ Hh] | (? & _)]; [| lia].
  destruct (Hh i Hi Hl) as [? <-]. by apply Hmem.
Qed.

(** A byte of the snapshot that is still in the main file belongs to a block that is not saved. *)
Lemma block_of_byte i : 0 <= i -> i = (i / BL_S) * BL_S + i mod BL_S /\ 0 <= i mod BL_S < BL_S /\ 0 <= i / BL_S.
Proof.
  intros. pose proof (Z.div_mod i BL_S ltac:(done)). pose proof (Z.mod_pos_bound i BL_S ltac:(done)).
  pose proof (Z.div_pos i BL_S ltac:(done) ltac:(done)). lia.
Qed.

(** Changing the main file keeps the invariant when the bytes of the
    blocks that are not saved keep their place and value. *)
Lemma cow_main old main main' map dat :
  cow old main map dat ->
  (forall b i, in_old old b -> ~ saved map b -> 0 <= i < BL_S -> b * BL_S + i < zlen old ->
     b * BL_S + i < zlen main -> b * BL_S + i < zlen main' /\ zget main' (b * BL_S + i) = zget main (b * BL_S + i)) ->
  cow old main' map dat.
Proof.
  intros [Hl Ha Hhd Hb] H. split; [done | done | done |]. intros b Hin.
  destruct (Hb b Hin) as [[Hp Hh] | ?]; [left | by right]. split; [done |].
  intros i Hi Hlen. destruct (Hh i Hi Hlen) as [H1 H2].
  assert (Hns : ~ saved map b) by (unfold saved; rewrite Hp; tauto).
  by destruct (H b i Hin Hns Hi Hlen H1) as [? ->].
Qed.

(** The blocks that bytes [off .. off+n-1] of the old contents lie in are saved. *)
Definition range_saved (old map : list Z) (off n : Z) : Prop :=
  0 < n -> off < zlen old -> forall b, in_old old b -> off < (b + 1) * BL_S -> b * BL_S < off + n -> saved map b.

(** Everything is saved: the main file need not be read any more, so it may
    be open for writing only. *)
Definition all_saved (old map : list Z) : Prop := forall b, in_old old b -> saved map b.
Definition can_save (acc : Z) (old map : list Z) : Prop := acc <> O_WRONLY \/ all_saved old map.

Lemma can_save_mono acc old map map' :
  (forall b, 0 <= b -> saved map b -> saved map' b) -> can_save acc old map -> can_save acc old map'.
Proof. intros Hm [? | Ha]; [by left | right]. intros b Hb. apply Hm; [apply Hb | by apply Ha]. Qed.

(** Overwriting a saved range. *)
Lemma cow_main_write old main map dat d off :
  cow old main map dat -> 0 <= off -> range_saved old map off (zlen d) ->
  cow old (file_write main d off) map dat.
Proof.
  intros Hc Ho Hs. apply (cow_main _ _ _ _ _ Hc). intros b i Hin Hns Hi Hl Hm.
  destruct Hin as [? ?]. rewrite zlen_file_write by done. split; [case_match; lia |].
  apply zget_file_write_out; [done |]. pose proof (zlen_nonneg d).
  destruct (decide (off <= b * BL_S + i < off + zlen d)) as [? | ?]; [| lia].
  destruct Hns. apply Hs; [lia | lia | done | lia..].
Qed.

(** Appending never touches a block that is not saved. *)
Lemma cow_main_append old main map dat d :
  cow old main map dat -> cow old (file_write main d (zlen main)) map dat.
Proof.
  intros Hc. pose proof (zlen_nonneg main). apply (cow_main _ _ _ _ _ Hc). intros b i Hin Hns Hi Hl Hm.
  rewrite zlen_file_write by done. split; [case_match; lia |].
  apply zget_file_write_out; [done |]. by left.
Qed.

(** Truncating (or extending) to [n] when the blocks from [n] on are saved. *)
Lemma cow_main_resize old main map dat n :
  cow old main map dat -> 0 <= n -> range_saved old map n (zlen old - n) ->
  cow old (file_resize main n) map dat.
Proof.
  intros Hc Hn Hs. apply (cow_main _ _ _ _ _ Hc). intros b i Hin Hns Hi Hl Hm. destruct Hin.
  destruct (decide (b * BL_S + i < n)) as [Hlt | ?].
  - split; [by rewrite zlen_file_resize | by apply zget_file_resize].
  - destruct Hns. apply Hs; [lia | lia | by split | lia..].
Qed.
