(* ===== verification/PosixSpec.v ===== *)
(** Laws of the system calls: what a call on an open file does when no
    byte-moving call stops early ([atomic]), and that it leaves everything
    else alone ([frame]). *)

From S2P Require Import Prelude Posix.

(** ** Faults *)

(** Calls fail outright with a proper errno, or succeed. *)
Definition atomic_fault (f : fault) : Prop :=
  match f with NoFault => True | Fail e => 0 < e | Short _ => False end.
Definition atomic (s : os) : Prop := Forall atomic_fault (os_faults s).

(** Some scheduled call fails. *)
Definition faulty (s : os) : Prop := exists e, Fail e ∈ os_faults s.

(** The state after one more call has consulted the schedule. *)
Definition adv (s : os) : os := set_faults (tail (os_faults s)) s.

Lemma pop_fault_adv s : pop_fault s = (default NoFault (head (os_faults s)), adv s).
Proof. destruct s as [? ? ? [| f r]]; done. Qed.

Lemma atomic_adv s : atomic s -> atomic (adv s).
Proof. unfold atomic. destruct s as [? ? ? [| f r]]; cbn; [done |]. by intros [_ ?]%Forall_cons. Qed.

Lemma faulty_adv s : faulty (adv s) -> faulty s.
Proof. destruct s as [? ? ? [| f r]]; cbn; [done |]. intros [e He]. exists e. cbn in *. by right. Qed.

Lemma not_faulty_nil s : os_faults s = [] -> ~ faulty s.
Proof. intros H [e He]. rewrite H in He. by apply not_elem_of_nil in He. Qed.

(** A call under an atomic schedule fails as scheduled or runs in full. *)
Lemma syscall_atomic {A} (body : os -> res A * os) s :
  atomic s ->
  syscall body s = body (adv s) \/ exists e, 0 < e /\ faulty s /\ syscall body s = (Err e, adv s).
Proof.
  intros Ha. unfold syscall. rewrite pop_fault_adv.
  destruct s as [nm nd fd [| f r]]; cbn in *; [by left |].
  apply Forall_cons in Ha as [Hf _]. destruct f as [| e | n]; [by left | right | done].
  exists e. split_and!; [done | exists e; by left | done].
Qed.

Lemma syscall_io_atomic {A} n (body : Z -> os -> res A * os) s :
  atomic s ->
  syscall_io n body s = body n (adv s) \/ exists e, 0 < e /\ faulty s /\ syscall_io n body s = (Err e, adv s).
Proof.
  intros Ha. unfold syscall_io. rewrite pop_fault_adv.
  destruct s as [nm nd fd [| f r]]; cbn in *; [by left |].
  apply Forall_cons in Ha as [Hf _]. destruct f as [| e | k]; [by left | right | done].
  exists e. split_and!; [done | exists e; by left | done].
Qed.

(** ** Open files *)

(** [fd] is open on the regular file [ino] with contents [c]. *)
Definition fd_file (s : os) (fd : Z) (ino : nat) (c : list Z) (acc : Z) (app : bool) : Prop :=
  exists pos m, os_fds s !! fd = Some (OFile ino acc app pos) /\
    os_inodes s !! ino = Some (Inode m c) /\ S_ISDIR (st_mode m) = false.

Lemma fd_file_node s fd ino c acc app :
  fd_file s fd ino c acc app ->
  exists pos m, fd_node s fd = Some (OFile ino acc app pos, Inode m c) /\ S_ISDIR (st_mode m) = false.
Proof.
  intros (pos & m & Hf & Hi & Hd). exists pos, m. split; [| done].
  unfold fd_node. rewrite Hf. cbn. by rewrite Hi.
Qed.

Lemma fd_file_adv s fd ino c acc app : fd_file s fd ino c acc app -> fd_file (adv s) fd ino c acc app.
Proof. done. Qed.

Lemma fd_file_fun s fd ino c acc app ino' c' acc' app' :
  fd_file s fd ino c acc app -> fd_file s fd ino' c' acc' app' -> ino = ino' /\ c = c' /\ acc = acc' /\ app = app'.
Proof. intros (? & ? & ? & ? & ?) (? & ? & ? & ? & ?). by simplify_eq. Qed.

(** ** The frame of a computation: all that it may touch are the contents
    of the files in [touch], the positions of the open files, and the
    schedule. *)

Definition of_key (o : ofile) : nat * Z * bool := (of_ino o, of_acc o, of_append o).

Record frame (touch : nat -> Prop) (s s' : os) : Prop := {
  fr_names : os_names s' = os_names s;
  fr_fds : forall fd, of_key <$> os_fds s' !! fd = of_key <$> os_fds s !! fd;
  fr_inodes : forall i, ~ touch i -> os_inodes s' !! i = os_inodes s !! i;
  fr_meta : forall i, i_meta <$> os_inodes s' !! i = i_meta <$> os_inodes s !! i;
  fr_atomic : atomic s -> atomic s';
  fr_faulty : faulty s' -> faulty s;
  fr_nofault : os_faults s = [] -> os_faults s' = []
}.

#[global] Instance frame_refl touch : Reflexive (frame touch).
Proof. by split. Qed.

#[global] Instance frame_trans touch : Transitive (frame touch).
Proof.
  intros s1 s2 s3 [Hn Hf Hi Hm Ha Hu H0] [Hn' Hf' Hi' Hm' Ha' Hu' H0'].
  split; try tauto; [congruence | ..].
  - intros fd. by rewrite Hf', Hf.
  - intros i Ht. by rewrite Hi', Hi.
  - intros i. by rewrite Hm', Hm.
Qed.

Lemma frame_weaken (t1 t2 : nat -> Prop) s s' : (forall i, t1 i -> t2 i) -> frame t1 s s' -> frame t2 s s'.
Proof. intros H []. split; try done. intros i Hi. apply fr_inodes0. naive_solver. Qed.

Lemma frame_adv touch s : frame touch s (adv s).
Proof.
  split; try done; [by apply atomic_adv | by apply faulty_adv |]. cbn. by intros ->.
Qed.

Lemma frame_set_data (touch : nat -> Prop) i d s : touch i -> frame touch s (set_data i d s).
Proof.
  intros Ht. split; try done; intros j; cbn.
  - intros Hj. rewrite lookup_alter_ne; [done |]. by intros ->.
  - rewrite lookup_alter. case_decide; [subst | done]. by destruct (os_inodes s !! j).
Qed.

Lemma frame_set_pos touch fd p s : frame touch s (set_pos fd p s).
Proof.
  split; try done; intros fd'; cbn. rewrite lookup_alter. case_decide; [subst | done].
  by destruct (os_fds s !! fd').
Qed.

(** A file outside the frame keeps its contents, at every descriptor. *)
Lemma frame_fd_file (touch : nat -> Prop) s s' fd ino c acc app :
  frame touch s s' -> ~ touch ino -> fd_file s fd ino c acc app -> fd_file s' fd ino c acc app.
Proof.
  intros [] Ht (pos & m & Hf & Hi & Hd). specialize (fr_fds0 fd). rewrite Hf in fr_fds0.
  destruct (os_fds s' !! fd) as [[ino' acc' app' pos'] |] eqn:E; simplify_eq/=.
  exists pos', m. by rewrite E, fr_inodes0.
Qed.

Lemma frame_quiet_fd_file s s' fd ino c acc app :
  frame (fun _ => False) s s' -> fd_file s fd ino c acc app -> fd_file s' fd ino c acc app.
Proof. intros H. apply (frame_fd_file _ _ _ _ _ _ _ _ H). tauto. Qed.

Lemma fd_file_set_data s fd ino c acc app d :
  fd_file s fd ino c acc app -> fd_file (set_data ino d s) fd ino d acc app.
Proof.
  intros (pos & m & Hf & Hi & Hd). exists pos, m. split_and!; [done | | done].
  cbn. by rewrite lookup_alter_eq, Hi.
Qed.

Lemma fd_file_set_pos s fd ino c acc app fd' p :
  fd_file s fd ino c acc app -> fd_file (set_pos fd' p s) fd ino c acc app.
Proof. intros H. eapply (frame_fd_file (fun _ => False)); [apply frame_set_pos | tauto | done]. Qed.

(** ** The calls on open files *)

(** Splits on what the schedule says about the call in the goal; the
    failing case is the right side of the goal. *)
Ltac by_schedule :=
  match goal with
  | H : atomic ?s |- context [syscall_io ?n ?b ?s] =>
      destruct (syscall_io_atomic n b s H) as [-> | ?]; [left | by right]
  | H : atomic ?s |- context [syscall ?b ?s] =>
      destruct (syscall_atomic b s H) as [-> | ?]; [left | by right]
  end.

Section Calls.
Context (s : os) (Ha : atomic s) (fd : Z) (ino : nat) (c : list Z) (acc : Z) (app : bool).
Context (Hfd : fd_file s fd ino c acc app).

Lemma sys_pread_spec n off :
  acc <> O_WRONLY -> 0 <= off ->
  sys_pread fd n off s = (Ok (file_read c n off), adv s) \/
  exists e, 0 < e /\ faulty s /\ sys_pread fd n off s = (Err e, adv s).
Proof using Ha Hfd.
  intros Hacc Hoff. unfold sys_pread.
  by_schedule.
  destruct (fd_file_node _ _ _ _ _ _ (fd_file_adv _ _ _ _ _ _ Hfd)) as (pos & m & -> & Hd).
  cbn [of_acc]. destruct (Z.eqb_spec acc O_WRONLY); [done |]. destruct (Z.ltb_spec off 0); [lia |].
  unfold i_isdir. cbn [i_meta i_data]. by rewrite Hd.
Qed.

Lemma sys_pwrite_spec d off :
  acc <> O_RDONLY -> 0 <= off ->
  let at_ := if app then zlen c else off in
  sys_pwrite fd d off s = (Ok (zlen d), set_data ino (file_write c d at_) (adv s)) \/
  exists e, 0 < e /\ faulty s /\ sys_pwrite fd d off s = (Err e, adv s).
Proof using Ha Hfd.
  intros Hacc Hoff at_. unfold sys_pwrite.
  by_schedule.
  destruct (fd_file_node _ _ _ _ _ _ (fd_file_adv _ _ _ _ _ _ Hfd)) as (pos & m & -> & Hd).
  cbn [of_acc of_append of_ino i_data]. destruct (Z.eqb_spec acc O_RDONLY); [done |].
  destruct (Z.ltb_spec off 0); [lia |].
  unfold ztake, zlen at 2. by rewrite Nat2Z.id, firstn_all.
Qed.

Lemma sys_write_spec d :
  acc <> O_RDONLY -> app = true ->
  sys_write fd d s = (Ok (zlen d), set_pos fd (zlen c + zlen d) (set_data ino (file_write c d (zlen c)) (adv s))) \/
  exists e, 0 < e /\ faulty s /\ sys_write fd d s = (Err e, adv s).
Proof using Ha Hfd.
  intros Hacc Happ. unfold sys_write.
  by_schedule.
  destruct (fd_file_node _ _ _ _ _ _ (fd_file_adv _ _ _ _ _ _ Hfd)) as (pos & m & -> & Hd).
  cbn [of_acc of_append of_ino i_data of_pos]. destruct (Z.eqb_spec acc O_RDONLY); [done |].
  rewrite Happ. unfold ztake, zlen at 4. by rewrite Nat2Z.id, firstn_all.
Qed.

Lemma sys_lseek_end_spec :
  sys_lseek_end fd s = (Ok (zlen c), set_pos fd (zlen c) (adv s)) \/
  exists e, 0 < e /\ faulty s /\ sys_lseek_end fd s = (Err e, adv s).
Proof using Ha Hfd.
  unfold sys_lseek_end.
  by_schedule.
  destruct (fd_file_node _ _ _ _ _ _ (fd_file_adv _ _ _ _ _ _ Hfd)) as (pos & m & -> & Hd). done.
Qed.

Lemma sys_ftruncate_spec n :
  acc <> O_RDONLY -> 0 <= n ->
  sys_ftruncate fd n s = (Ok tt, set_data ino (file_resize c n) (adv s)) \/
  exists e, 0 < e /\ faulty s /\ sys_ftruncate fd n s = (Err e, adv s).
Proof using Ha Hfd.
  intros Hacc Hn. unfold sys_ftruncate.
  by_schedule.
  destruct (fd_file_node _ _ _ _ _ _ (fd_file_adv _ _ _ _ _ _ Hfd)) as (pos & m & -> & Hd).
  cbn [of_acc of_append of_ino i_data]. destruct (Z.eqb_spec acc O_RDONLY); [done |].
  destruct (Z.ltb_spec n 0); [lia |]. done.
Qed.

End Calls.

(** Appending, as the list operation. *)
Lemma file_write_end c d : file_write c d (zlen c) = c ++ d.
Proof.
  unfold file_write. destruct (Z.eqb_spec (zlen d) 0) as [E | E].
  - destruct d; [by rewrite app_nil_r | rewrite zlen_cons in E; pose proof (zlen_nonneg d); lia].
  - rewrite Z.sub_diag. unfold zeros, ztake, zdrop, zlen. cbn. rewrite app_nil_r.
    rewrite Nat2Z.id, firstn_all, drop_ge by lia. by rewrite app_nil_r.
Qed.

(** ** Open descriptors and regular files apart *)

Definition open_on (s : os) (fd : Z) (ino : nat) (acc : Z) (app : bool) : Prop :=
  exists pos, os_fds s !! fd = Some (OFile ino acc app pos).

Definition regular (s : os) (ino : nat) (c : list Z) : Prop :=
  exists m, os_inodes s !! ino = Some (Inode m c) /\ S_ISDIR (st_mode m) = false.

Lemma fd_file_split s fd ino c acc app : fd_file s fd ino c acc app <-> open_on s fd ino acc app /\ regular s ino c.
Proof.
  split.
  - intros (pos & m & ? & ? & ?). split; [by exists pos | by exists m].
  - intros [[pos ?] (m & ? & ?)]. by exists pos, m.
Qed.

Lemma open_on_frame touch s s' fd ino acc app : frame touch s s' -> open_on s fd ino acc app -> open_on s' fd ino acc app.
Proof.
  intros Hf [pos Ho]. pose proof (fr_fds _ _ _ Hf fd) as E. rewrite Ho in E.
  destruct (os_fds s' !! fd) as [[ino' acc' app' pos'] |] eqn:E'; simplify_eq/=. by exists pos'.
Qed.

Lemma regular_frame (touch : nat -> Prop) s s' ino c : frame touch s s' -> ~ touch ino -> regular s ino c -> regular s' ino c.
Proof. intros Hf Ht (m & Hi & Hd). exists m. by rewrite (fr_inodes _ _ _ Hf) by done. Qed.

Lemma regular_set_data s ino c d : regular s ino c -> regular (set_data ino d s) ino d.
Proof. intros (m & Hi & Hd). exists m. split; [| done]. cbn. by rewrite lookup_alter_eq, Hi. Qed.
