(* ===== verification/PosixPath.v ===== *)
(** Laws of the calls that take a path, when no call fails: opening,
    creating, reading and writing files by name, and what they leave alone. *)

From S2P Require Import Prelude Posix PosixSpec.

(** ** Fresh numbers *)

Lemma lowest_fd_spec m fuel : forall fd,
  m !! lowest_fd m fuel fd = None \/ (forall i, 0 <= i < Z.of_nat fuel -> is_Some (m !! (fd + i))).
Proof.
  induction fuel as [| n IH]; intros fd; cbn; [right; lia |].
  destruct (m !! fd) as [o |] eqn:E; [| by left]. destruct (IH (fd + 1)) as [? | H]; [by left | right].
  intros i Hi. destruct (decide (i = 0)) as [-> | ?]; [rewrite Z.add_0_r, E; eauto |].
  replace (fd + i) with (fd + 1 + (i - 1)) by lia. apply H. lia.
Qed.

Lemma lowest_fd_ge m fuel : forall fd, fd <= lowest_fd m fuel fd.
Proof. induction fuel as [| n IH]; intros fd; cbn; [done |]. case_match; [specialize (IH (fd + 1)); lia | done]. Qed.

Lemma fresh_fd_ge s : 3 <= fresh_fd s.
Proof. apply lowest_fd_ge. Qed.

(** There are not enough descriptors to fill the range that is searched. *)
Lemma fresh_fd_free s : os_fds s !! fresh_fd s = None.
Proof.
  unfold fresh_fd. destruct (lowest_fd_spec (os_fds s) (S (size (os_fds s))) 3) as [? | H]; [done | exfalso].
  set (n := S (size (os_fds s))) in *. set (l := (fun i => 3 + Z.of_nat i) <$> seq 0 n).
  assert (Hsub : list_to_set l ⊆ dom (os_fds s)).
  { intros x Hx. apply elem_of_list_to_set, list_elem_of_fmap in Hx as (i & -> & Hi). apply elem_of_seq in Hi.
    apply elem_of_dom, H. lia. }
  apply subseteq_size in Hsub. rewrite size_dom, size_list_to_set in Hsub.
  - unfold l in Hsub. rewrite length_fmap, length_seq in Hsub. lia.
  - apply NoDup_fmap_2; [intros ? ? ?; lia | apply NoDup_seq].
Qed.

Lemma fresh_ino_free s : os_inodes s !! fresh_ino s = None.
Proof.
  unfold fresh_ino. destruct (os_inodes s !! S _) as [i |] eqn:E; [exfalso | done].
  apply elem_of_map_to_list in E. apply (list_elem_of_fmap_2 fst), list_elem_of_In in E. cbn in E.
  pose proof (proj1 (List.list_max_le _ _) (le_n (list_max (map_to_list (os_inodes s)).*1))) as Hf.
  rewrite List.Forall_forall in Hf. specialize (Hf _ E). lia.
Qed.

(** ** Calls without faults *)

Lemma syscall_ok {A} (body : os -> res A * os) s : os_faults s = [] -> syscall body s = body s.
Proof. intros H. unfold syscall, pop_fault. by rewrite H. Qed.

Lemma syscall_io_ok {A} n (body : Z -> os -> res A * os) s : os_faults s = [] -> syscall_io n body s = body n s.
Proof. intros H. unfold syscall_io, pop_fault. by rewrite H. Qed.

(** ** Files by name *)

(** The directories on the way to [p] exist. *)
Definition dirs_ok (s : os) (p : path) : Prop := walk s (ancestors [] p) = Ok tt.

Definition file_at (s : os) (p : path) (ino : nat) (c : list Z) : Prop :=
  dirs_ok s p /\ os_names s !! p = Some ino /\ regular s ino c.

Definition absent_at (s : os) (p : path) : Prop := dirs_ok s p /\ os_names s !! p = None.

(** Some component on the way to [p], or the last one, does not exist. *)
Definition enoent_at (s : os) (p : path) : Prop := exists q, q `prefix_of` p /\ absent_at s q.

Lemma absent_enoent s p : absent_at s p -> enoent_at s p.
Proof. intros H. by exists p. Qed.

Lemma ancestors_app q : forall pre r, ancestors pre (q ++ r) = ancestors pre q ++ ancestors (pre ++ q) r.
Proof.
  induction q as [| c q IH]; intros pre r; cbn; [by rewrite app_nil_r |]. by rewrite IH, <-app_assoc.
Qed.

Lemma walk_app s ps qs : walk s ps = Ok tt -> walk s (ps ++ qs) = walk s qs.
Proof.
  induction ps as [| p r IH]; cbn; [done |]. destruct (node_at s p) as [i |]; [| done]. by destruct (i_isdir i).
Qed.

(** The walk of a path stops at a missing component. *)
Lemma enoent_lookup s p : enoent_at s p ->
  walk s (ancestors [] p) = Err ENOENT \/ (walk s (ancestors [] p) = Ok tt /\ os_names s !! p = None).
Proof.
  intros (q & [r ->] & Hd & Hn). rewrite ancestors_app, (walk_app _ _ _ Hd). destruct r as [| c r]; cbn.
  - right. by rewrite app_nil_r.
  - left. unfold node_at. by rewrite Hn.
Qed.

Lemma file_not_enoent s p i c : file_at s p i c -> ~ enoent_at s p.
Proof. intros (Hd & Hn & _) [E | [_ E]]%enoent_lookup; [by rewrite Hd in E | by rewrite Hn in E]. Qed.

(** Adding names and inodes, or changing data, keeps the directories. *)
Definition grows (s s' : os) : Prop :=
  (forall p i, os_names s !! p = Some i -> os_names s' !! p = Some i) /\
  (forall i n, os_inodes s !! i = Some n -> exists n', os_inodes s' !! i = Some n' /\ i_meta n' = i_meta n).

Lemma walk_grows s s' ps : grows s s' -> walk s ps = Ok tt -> walk s' ps = Ok tt.
Proof.
  intros [Hn Hi]. induction ps as [| p r IH]; cbn; [done |]. unfold node_at.
  destruct (os_names s !! p) as [ino |] eqn:E; cbn; [| done]. rewrite (Hn _ _ E). cbn.
  destruct (os_inodes s !! ino) as [n |] eqn:E'; [| done].
  destruct (Hi _ _ E') as (n' & -> & Hm). unfold i_isdir. rewrite Hm. by case_match.
Qed.

Lemma grows_refl s : grows s s.
Proof. split; [done |]. intros i n H. by exists n. Qed.

Lemma grows_trans s1 s2 s3 : grows s1 s2 -> grows s2 s3 -> grows s1 s3.
Proof.
  intros [H1 H2] [H3 H4]. split; [auto |]. intros i n Hn. destruct (H2 _ _ Hn) as (n' & Hn' & E).
  destruct (H4 _ _ Hn') as (n'' & ? & E'). exists n''. split; [done | congruence].
Qed.

Lemma grows_data s ino d : grows s (set_data ino d s).
Proof.
  split; [done |]. intros i n H. cbn. rewrite lookup_alter. case_decide; [subst | by exists n].
  rewrite H. cbn. by eexists.
Qed.

Lemma grows_fds s x : grows s (set_fds x s).
Proof. exact (grows_refl s). Qed.

Lemma grows_add s p mode : os_names s !! p = None -> grows s (snd (add_node p mode s)).
Proof.
  intros Hp. split; cbn.
  - intros q i Hq. rewrite lookup_insert_ne; [done |]. congruence.
  - intros i n Hi. exists n. split; [| done]. rewrite lookup_insert_ne; [done |].
    intros <-. by rewrite fresh_ino_free in Hi.
Qed.

(** ** Opening *)

(** The state once [ino] is open at the lowest free descriptor. *)
Definition opened (s : os) (ino : nat) (flags : Z) : os :=
  set_fds (<[fresh_fd s := OFile ino (Z.land flags O_ACCMODE) (has flags O_APPEND) 0]> (os_fds s)) s.

Lemma open_existing s name flags mode ino c :
  os_faults s = [] -> file_at s (resolve name) ino c -> (has flags O_CREAT && has flags O_EXCL) = false ->
  sys_open name flags mode s =
    (Ok (fresh_fd s), opened (if has flags O_TRUNC then set_data ino [] s else s) ino flags).
Proof.
  intros Hf (Hd & Hn & m & Hi & Hr) Hx. unfold sys_open. rewrite syscall_ok by done.
  rewrite Hd, Hn, Hx, Hi. unfold i_isdir. cbn [i_meta]. rewrite Hr. cbn [andb negb].
  rewrite andb_true_r. by destruct (has flags O_TRUNC).
Qed.

Lemma open_absent s name flags mode :
  os_faults s = [] -> absent_at s (resolve name) -> has flags O_CREAT = false ->
  sys_open name flags mode s = (Err ENOENT, s).
Proof.
  intros Hf (Hd & Hn) Hc. unfold sys_open. rewrite syscall_ok by done. by rewrite Hd, Hn, Hc.
Qed.

Lemma open_enoent s name flags mode :
  os_faults s = [] -> enoent_at s (resolve name) -> has flags O_CREAT = false ->
  sys_open name flags mode s = (Err ENOENT, s).
Proof.
  intros Hf He Hc. unfold sys_open. rewrite syscall_ok by done.
  destruct (enoent_lookup _ _ He) as [-> | [-> ->]]; [done |]. by rewrite Hc.
Qed.

Lemma open_excl s name flags mode ino :
  os_faults s = [] -> dirs_ok s (resolve name) -> os_names s !! resolve name = Some ino ->
  (has flags O_CREAT && has flags O_EXCL) = true ->
  sys_open name flags mode s = (Err EEXIST, s).
Proof. intros Hf Hd Hn Hx. unfold sys_open. rewrite syscall_ok by done. by rewrite Hd, Hn, Hx. Qed.

(** Creating a file: its inode and name are new. *)
Lemma open_create s name flags mode :
  os_faults s = [] -> absent_at s (resolve name) -> has flags O_CREAT = true ->
  sys_open name flags mode s =
    (Ok (fresh_fd s), opened (snd (add_node (resolve name) (Z.lor S_IFREG mode) s)) (fresh_ino s) flags).
Proof.
  intros Hf (Hd & Hn) Hc. unfold sys_open. rewrite syscall_ok by done. by rewrite Hd, Hn, Hc.
Qed.

Lemma opened_open_on s ino flags :
  open_on (opened s ino flags) (fresh_fd s) ino (Z.land flags O_ACCMODE) (has flags O_APPEND).
Proof. exists 0. cbn. by rewrite lookup_insert_eq. Qed.

Lemma opened_other s ino flags fd i acc app : open_on s fd i acc app -> open_on (opened s ino flags) fd i acc app.
Proof.
  intros [pos H]. assert (fresh_fd s <> fd) by (intros <-; by rewrite fresh_fd_free in H).
  exists pos. unfold opened. cbn [os_fds set_fds]. by rewrite lookup_insert_ne.
Qed.

(** Closing what was just opened gives the descriptors back. *)
Lemma close_ok s fd o : os_faults s = [] -> os_fds s !! fd = Some o -> sys_close fd s = (Ok tt, set_fds (delete fd (os_fds s)) s).
Proof. intros Hf Hfd. unfold sys_close, pop_fault. by rewrite Hf, Hfd. Qed.

Lemma add_node_file_at s p mode :
  absent_at s p -> S_ISDIR mode = false ->
  file_at (snd (add_node p mode s)) p (fresh_ino s) [].
Proof.
  intros [Hd Hn] Hm. split; [by eapply walk_grows; [apply grows_add |] |]. cbn. rewrite lookup_insert_eq.
  split; [done |]. exists (new_meta mode). cbn. by rewrite lookup_insert_eq.
Qed.

(** ** Reading and writing through a descriptor *)

Lemma pread_ok s fd ino c acc app n off :
  os_faults s = [] -> fd_file s fd ino c acc app -> acc <> O_WRONLY -> 0 <= off ->
  sys_pread fd n off s = (Ok (file_read c n off), s).
Proof.
  intros Hf Hfd Ha Ho. assert (Hat : atomic s) by (unfold atomic; by rewrite Hf).
  destruct (sys_pread_spec s Hat fd ino c acc app Hfd n off Ha Ho) as [-> | (e & _ & Hfl & _)].
  - destruct s as [? ? ? fl]. cbn in *. by subst.
  - by destruct (not_faulty_nil _ Hf).
Qed.

Lemma pwrite_ok s fd ino c acc d off :
  os_faults s = [] -> fd_file s fd ino c acc false -> acc <> O_RDONLY -> 0 <= off ->
  sys_pwrite fd d off s = (Ok (zlen d), set_data ino (file_write c d off) s).
Proof.
  intros Hf Hfd Ha Ho. assert (Hat : atomic s) by (unfold atomic; by rewrite Hf).
  destruct (sys_pwrite_spec s Hat fd ino c acc false Hfd d off Ha Ho) as [-> | (e & _ & Hfl & _)].
  - destruct s as [? ? ? fl]. cbn in *. by subst.
  - by destruct (not_faulty_nil _ Hf).
Qed.

(** A file keeps its place when other data changes. *)
Lemma file_at_grows s s' p ino c :
  grows s s' -> file_at s p ino c -> os_inodes s' !! ino = os_inodes s !! ino -> file_at s' p ino c.
Proof.
  intros Hg (Hd & Hn & m & Hi & Hr) Hs. split; [by eapply walk_grows |]. split; [by apply Hg |].
  exists m. by rewrite Hs.
Qed.

Lemma file_at_set_data s p ino c d : file_at s p ino c -> file_at (set_data ino d s) p ino d.
Proof.
  intros (Hd & Hn & Hr). split; [by eapply walk_grows; [apply grows_data |] |]. split; [done | by eapply regular_set_data].
Qed.

Lemma file_at_fds s p ino c x : file_at s p ino c -> file_at (set_fds x s) p ino c.
Proof. intros (Hd & ? & ?). split; [by eapply walk_grows; [apply grows_fds |] | done]. Qed.

(** ** Stat *)

Lemma lstat_file s name ino c :
  os_faults s = [] -> file_at s (resolve name) ino c ->
  exists st n, sys_lstat name s = (Ok st, s) /\ os_inodes s !! ino = Some n /\ st = stat_of ino n /\
    st_size st = zlen c /\ S_ISDIR (st_mode st) = false.
Proof.
  intros Hf (Hd & Hn & m & Hi & Hm). unfold sys_lstat. rewrite syscall_ok by done. unfold lookup_path.
  rewrite Hd, Hn, Hi. by eexists _, _.
Qed.

(** A directory by name. *)
Definition dir_at (s : os) (p : path) : Prop :=
  exists ino i, lookup_path s p = Ok ino /\ os_inodes s !! ino = Some i /\ i_isdir i = true.

Lemma lstat_dir s name :
  os_faults s = [] -> dir_at s (resolve name) ->
  exists st, sys_lstat name s = (Ok st, s) /\ S_ISDIR (st_mode st) = true.
Proof.
  intros Hf (ino & i & Hl & Hi & Hd). unfold sys_lstat. rewrite syscall_ok by done. rewrite Hl, Hi. by eexists.
Qed.

(** ** Flag words *)

Lemma has_bit f k : 0 <= k -> has f (2 ^ k) = Z.testbit f k.
Proof.
  intros Hk. unfold has. destruct (Z.testbit f k) eqn:E.
  - destruct (Z.eqb_spec (Z.land f (2 ^ k)) 0) as [H | H]; [| done].
    assert (Z.testbit (Z.land f (2 ^ k)) k = true) as T by (by rewrite Z.land_spec, E, Z.pow2_bits_true).
    rewrite H, Z.bits_0 in T. done.
  - destruct (Z.eqb_spec (Z.land f (2 ^ k)) 0) as [H | H]; [done |]. destruct H. apply Z.bits_inj'. intros n Hn.
    rewrite Z.land_spec, Z.pow2_bits_eqb, Z.bits_0 by done. destruct (Z.eqb_spec k n); [subst; by rewrite E | apply andb_false_r].
Qed.
