(* ===== verification/BlockWrite.v ===== *)
(** [b_write] and [b_truncate] keep the copy-on-write invariant, whatever
    calls fail, and when they succeed every block of the range is saved.

    The theorems hold for any implementation of the locks that keeps the
    promise of [LockService]. *)

From S2P Require Import Prelude Posix PosixSpec Types Mflock Block CopyOnWrite.

(** ** Shifts and masks of the block size *)

Lemma shiftl_block b : Z.shiftl b BL_SLOG = b * BL_S.
Proof. by rewrite Z.shiftl_mul_pow2. Qed.

Lemma shiftr_block b : Z.shiftr b BL_SLOG = b / BL_S.
Proof. by rewrite Z.shiftr_div_pow2. Qed.

Lemma land_block b : Z.land b (BL_S - 1) = b mod BL_S.
Proof. change (BL_S - 1) with (Z.ones 17). by rewrite Z.land_ones. Qed.

Lemma div_block_bounds z : z / BL_S * BL_S <= z < (z / BL_S + 1) * BL_S.
Proof.
  pose proof (Z.div_mod z BL_S ltac:(done)). pose proof (Z.mod_pos_bound z BL_S ltac:(done)). lia.
Qed.

Lemma in_old_bound old b : in_old old b -> zlen old < 2 ^ 62 -> 0 <= b < 2 ^ 45.
Proof. intros [? ?] ?. unfold BL_S in *. lia. Qed.

Lemma map_offset_ptr b : 0 <= b < 2 ^ 45 -> map_offset b = ptr_off b.
Proof. intros. unfold map_offset, ptr_off, MAPHEADER_S, BLP_S. apply i64_small. lia. Qed.

(** ** What a computation of ESFS may touch *)

Definition fs_stable (f f' : fsdata_t) : Prop :=
  set_mflocks [] (set_block_buffer None f') = set_mflocks [] (set_block_buffer None f).

Record wframe (touch : nat -> Prop) (w w' : world) : Prop := {
  wf_os : frame touch (w_os w) (w_os w');
  wf_fs : fs_stable (w_fs w) (w_fs w');
  wf_mfds : w_mfds w' = w_mfds w;
  wf_junk : w_junk w' = w_junk w;
  wf_junk_mfd : w_junk_mfd w' = w_junk_mfd w
}.

#[global] Instance wframe_refl touch : Reflexive (wframe touch).
Proof. by split. Qed.

#[global] Instance wframe_trans touch : Transitive (wframe touch).
Proof.
  intros w1 w2 w3 [Ho Hf Hm Hj Hk] [Ho' Hf' Hm' Hj' Hk']. unfold fs_stable in *.
  split; [by etransitivity | unfold fs_stable; congruence | congruence..].
Qed.

Lemma wframe_os touch w s : frame touch (w_os w) s -> wframe touch w (set_os s w).
Proof. by split. Qed.

Lemma wframe_table touch w t : wframe touch w (set_fs (set_mflocks t (w_fs w)) w).
Proof. by split. Qed.

Lemma wframe_buffer touch w b : wframe touch w (set_fs (set_block_buffer b (w_fs w)) w).
Proof. by split. Qed.

Lemma wframe_bufs touch w n : wframe touch w (set_bufs n w).
Proof. by split. Qed.

Create HintDb wframe.
#[export] Hint Resolve wframe_refl wframe_os wframe_table wframe_buffer wframe_bufs frame_adv
  frame_set_data frame_set_pos frame_refl : wframe.

(** ** The files behind an mfd *)

Record cow_fds (s : os) (mfd : mfd_t) (im ip id : nat) (old main map dat : list Z) : Prop := {
  cf_main : exists acc app, fd_file s (mainfd mfd) im main acc app /\ can_save acc old map;
  cf_map : fd_file s (mapfd mfd) ip map O_RDWR false;
  cf_dat : fd_file s (datfd mfd) id dat O_WRONLY true;
  cf_distinct : im <> ip /\ im <> id /\ ip <> id
}.

(** The files of the snapshot, the only ones that [b_write] changes. *)
Definition sn_files (ip id : nat) (i : nat) : Prop := i = ip \/ i = id.

(** What the cached block number promises. *)
Definition cache_ok (mfd : mfd_t) (map : list Z) : Prop :=
  forall b, 0 <= b -> latest_written_block_cache mfd = b + 1 -> saved map b.

(** Two mfds that differ at most in the cache. *)
Definition same_mfd (m m' : mfd_t) : Prop := set_cache 0 m' = set_cache 0 m.

Definition buffer_ok (w : world) : Prop := exists m, block_buffer (w_fs w) = Some m /\ zlen m = BL_S.

Definition bufref_ok (b : bufref) : Prop := match b with BufHeap m => zlen m = BL_S | _ => True end.

(** ** Reading a pointer *)

Lemma read_pointer_spec w fd ip map acc b :
  atomic (w_os w) -> fd_file (w_os w) fd ip map acc false -> acc <> O_WRONLY ->
  0 <= b < 2 ^ 45 -> (zlen map - MAPHEADER_S) mod BLP_S = 0 -> MAPHEADER_S <= zlen map ->
  exists r, read_pointer fd (map_offset b) w = Some (r, set_os (adv (w_os w)) w) /\
    (r = Ok (ptr_at map b) \/ exists e, r = Err e /\ 0 < e /\ faulty (w_os w)).
Proof.
  intros Ha Hf Hacc Hb Hal Hlen. rewrite map_offset_ptr by done.
  assert (0 <= ptr_off b) by (unfold ptr_off, MAPHEADER_S, BLP_S; lia).
  unfold read_pointer.
  destruct (sys_pread_spec _ Ha _ _ _ _ _ Hf BLP_S (ptr_off b)) as [E | (e & He & Hfl & E)]; try done;
    rewrite (st_bind_run _ _ _ _ _ (sys_run _ _ _ _ E)).
  2: { exists (Err e). split; [done |]. right. eauto. }
  eexists. split; [done |]. left.
  pose proof (zlen_file_read map BLP_S (ptr_off b) ltac:(done) ltac:(done)) as L.
  destruct (decide (zlen map <= ptr_off b)) as [Hend | Hin].
  - rewrite ptr_at_end by done.
    assert (zlen (file_read map BLP_S (ptr_off b)) = 0) as -> by lia. done.
  - assert (zlen (file_read map BLP_S (ptr_off b)) = 8) as L8.
    { unfold ptr_off, MAPHEADER_S, BLP_S in *.
      pose proof (Z.div_mod (zlen map - 160) 8 ltac:(done)). lia. }
    rewrite L8. change (8 =? BLP_S) with true. cbv iota.
    unfold BLP_S in *. by rewrite file_read_word8.
Qed.

(** ** The block loop *)

Section Loop.
Context (lock_ unlock_ : Z -> M Z) {LS : LockService lock_ unlock_}.
Context (im ip id : nat) (old main : list Z) (Hold : zlen old < 2 ^ 62).

(** The lock is either not held, with the table idle, or held and can be released. *)
Definition lock_inv (w : world) (lock : Z) : Prop :=
  (lock = -1 /\ lk_idle (mflocks (w_fs w))) \/
  (0 <= lock /\ forall w2, mflocks (w_fs w2) = mflocks (w_fs w) ->
     exists t, lk_idle t /\ unlock_ lock w2 = Some (0, set_fs (set_mflocks t (w_fs w2)) w2)).

(** What holds between two iterations of the loop that started in [w0] with
    the mfd [m0] and the map [map0]. *)
Record bw_inv (w0 : world) (m0 : mfd_t) (map0 : list Z) (st : bw_state) (w : world) (map dat : list Z) : Prop := {
  bi_frame : wframe (sn_files ip id) w0 w;
  bi_fds : cow_fds (w_os w) (bw_mfd st) im ip id old main map dat;
  bi_cow : cow old main map dat;
  bi_align : zlen dat mod BL_S = 0;
  bi_buf : buffer_ok w;
  bi_bufref : bufref_ok (bw_buf st);
  bi_cache : cache_ok (bw_mfd st) map;
  bi_mfd : same_mfd m0 (bw_mfd st);
  bi_lock : lock_inv w (bw_lock st);
  bi_mono : forall b, 0 <= b -> saved map0 b -> saved map b;
  bi_atomic : atomic (w_os w)
}.

#[local] Arguments bi_frame {_ _ _ _ _ _ _} _.
#[local] Arguments bi_fds {_ _ _ _ _ _ _} _.
#[local] Arguments bi_cow {_ _ _ _ _ _ _} _.
#[local] Arguments bi_align {_ _ _ _ _ _ _} _.
#[local] Arguments bi_buf {_ _ _ _ _ _ _} _.
#[local] Arguments bi_bufref {_ _ _ _ _ _ _} _.
#[local] Arguments bi_cache {_ _ _ _ _ _ _} _.
#[local] Arguments bi_mfd {_ _ _ _ _ _ _} _.
#[local] Arguments bi_lock {_ _ _ _ _ _ _} _.
#[local] Arguments bi_mono {_ _ _ _ _ _ _} _.
#[local] Arguments bi_atomic {_ _ _ _ _ _ _} _.
#[local] Arguments cf_main {_ _ _ _ _ _ _ _ _} _.
#[local] Arguments cf_map {_ _ _ _ _ _ _ _ _} _.
#[local] Arguments cf_dat {_ _ _ _ _ _ _ _ _} _.

(** How an iteration on block [b] ends: the block is saved and the loop
    goes on, or a call failed ([fl]) and the loop stops with its errno. *)
Definition iter_ok (w0 : world) (m0 : mfd_t) (map0 : list Z) (b err : Z) (fl : Prop) (map dat : list Z)
    (r : option (bool * bw_state * world)) : Prop :=
  exists stop st' w' map' dat',
    r = Some (stop, st', w') /\ bw_inv w0 m0 map0 st' w' map' dat' /\
    ((stop = false /\ bw_err st' = err /\ saved map' b) \/ (stop = true /\ 0 < bw_err st' /\ fl)) /\
    zlen dat' <= zlen dat + BL_S /\
    (forall b', 0 <= b' -> saved map b' -> saved map' b').

Lemma cow_fds_frame s s' m main' map dat :
  frame (fun _ => False) s s' -> cow_fds s m im ip id old main' map dat -> cow_fds s' m im ip id old main' map dat.
Proof.
  intros Hf [(acc & app & Hm & Ha) Hp Hd Hx]. split; [| | | done].
  - exists acc, app. split; [| done]. by eapply frame_quiet_fd_file.
  - by eapply frame_quiet_fd_file.
  - by eapply frame_quiet_fd_file.
Qed.

Lemma cow_fds_cache s m c main' map dat :
  cow_fds s m im ip id old main' map dat -> cow_fds s (set_cache c m) im ip id old main' map dat.
Proof. intros []. by split. Qed.

Lemma same_mfd_cache m m' c : same_mfd m m' -> same_mfd m (set_cache c m').
Proof. done. Qed.

(** A step that changes no file keeps the invariant. *)
Lemma bw_inv_quiet w0 m0 map0 st w map dat w' st' :
  bw_inv w0 m0 map0 st w map dat ->
  wframe (fun _ => False) w w' -> lock_inv w' (bw_lock st') -> buffer_ok w' -> bufref_ok (bw_buf st') ->
  bw_mfd st' = bw_mfd st -> bw_inv w0 m0 map0 st' w' map dat.
Proof.
  intros [] Hf Hl Hb Hr Hm. rewrite <-Hm in *. pose proof (wf_os _ _ _ Hf) as Ho. split; try done.
  - etransitivity; [done |]. destruct Hf. split; try done. by eapply frame_weaken; [| done].
  - by eapply cow_fds_frame.
  - by apply (fr_atomic _ _ _ Ho).
Qed.

Lemma buffer_ok_os s w : buffer_ok w -> buffer_ok (set_os s w).
Proof. done. Qed.

Lemma lock_inv_os s w l : lock_inv w l -> lock_inv (set_os s w) l.
Proof. done. Qed.

Lemma bw_inv_err w0 m0 map0 st w map dat e :
  bw_inv w0 m0 map0 st w map dat ->
  bw_inv w0 m0 map0 (BwState (bw_mfd st) (bw_lock st) (bw_buf st) e) w map dat.
Proof. intros []. by split. Qed.

(** Advancing past a call that changed nothing. *)
Lemma bw_inv_adv w0 m0 map0 st w map dat :
  bw_inv w0 m0 map0 st w map dat -> bw_inv w0 m0 map0 st (set_os (adv (w_os w)) w) map dat.
Proof.
  intros H. eapply bw_inv_quiet; [done | eauto with wframe | | | | done].
  - apply lock_inv_os. apply (bi_lock H).
  - apply buffer_ok_os. apply (bi_buf H).
  - apply (bi_bufref H).
Qed.

(** Leaving the loop with an error. *)
Lemma iter_break w0 m0 map0 st w b err (fl : Prop) map dat map' dat' e :
  bw_inv w0 m0 map0 st w map' dat' -> 0 < e -> fl -> zlen dat' <= zlen dat + BL_S ->
  (forall b', 0 <= b' -> saved map b' -> saved map' b') ->
  iter_ok w0 m0 map0 b err fl map dat (bw_break st e w).
Proof.
  intros H He Hf Hl Hs. eexists true, _, w, map', dat'.
  split_and!; [done | by apply bw_inv_err | by right | done | done].
Qed.

Lemma iter_weaken w0 m0 map0 b err (fl fl' : Prop) map dat r :
  (fl -> fl') -> iter_ok w0 m0 map0 b err fl map dat r -> iter_ok w0 m0 map0 b err fl' map dat r.
Proof.
  intros Hfl (stop & st' & w' & map' & dat' & -> & Hi & Hp & Hl & Hs).
  exists stop, st', w', map', dat'. split_and!; try done.
  destruct Hp as [? | (? & ? & ?)]; [by left | right; auto].
Qed.

(** Choosing the buffer. *)
Lemma b_get_buf_spec w0 m0 map0 st w map dat :
  bw_inv w0 m0 map0 st w map dat ->
  exists buf w',
    b_get_buf st w = Some (buf, w') /\
    (forall st', bw_mfd st' = bw_mfd st -> bw_lock st' = bw_lock st -> bufref_ok (bw_buf st') ->
       bw_inv w0 m0 map0 st' w' map dat) /\
    match buf with
    | None => faulty (w_os w)
    | Some b => b <> BufNull /\ bufref_ok b
    end /\ (faulty (w_os w') -> faulty (w_os w)).
Proof.
  intros H. unfold b_get_buf. pose proof (bi_lock H) as Hl. pose proof (bi_buf H) as Hb.
  assert (Hid : forall b, b <> BufNull -> bufref_ok b -> exists buf w', Some (Some b, w) = Some (buf, w') /\
    (forall st', bw_mfd st' = bw_mfd st -> bw_lock st' = bw_lock st -> bufref_ok (bw_buf st') -> bw_inv w0 m0 map0 st' w' map dat) /\
    match buf with None => faulty (w_os w) | Some b => b <> BufNull /\ bufref_ok b end /\ (faulty (w_os w') -> faulty (w_os w))).
  { intros b Hn Hok. exists (Some b), w. split_and!; try done. intros st' Hm Hlk Hr.
    eapply bw_inv_quiet; try done. by rewrite Hlk. }
  pose proof (bi_bufref H) as Hbr.
  destruct (bw_buf st) as [| | mem] eqn:Eb; [| by apply Hid | by apply Hid].
  destruct (Z.eqb_spec (bw_lock st) 0); [by apply Hid |].
  unfold mbind, ST_bind, malloc_block. rewrite pop_fault_adv.
  set (f := default NoFault (head (os_faults (w_os w)))).
  assert (Hf : (exists e, f = Fail e /\ faulty (w_os w)) \/ f = NoFault \/ exists k, f = Short k).
  { unfold f, faulty. destruct (os_faults (w_os w)) as [| [| e | k] r]; cbn; eauto.
    left. exists e. split; [done |]. exists e. by left. }
  destruct Hf as [(e & -> & Hfl) | Hok].
  - exists None, (set_os (adv (w_os w)) w). split_and!; try done.
    + intros st' Hm Hlk Hr. eapply bw_inv_quiet; [done | eauto with wframe | | done | done | done].
      rewrite Hlk. by apply lock_inv_os.
  - exists (Some (BufHeap (ztake BL_S (w_junk w ++ zeros BL_S)))), (set_bufs (w_bufs w + 1) (set_os (adv (w_os w)) w)).
    split_and!.
    + destruct Hok as [-> | [k ->]]; done.
    + intros st' Hm Hlk Hr. eapply bw_inv_quiet; [done | | | done | done | done].
      * apply (wframe_trans _ _ (set_os (adv (w_os w)) w)); auto with wframe.
      * by rewrite Hlk.
    + done.
    + cbn. rewrite zlen_ztake, zlen_app, zlen_zeros. pose proof (zlen_nonneg (w_junk w)). unfold BL_S in *. lia.
    + cbn. intros. by apply faulty_adv.
Qed.

(** New contents for the files of the snapshot. *)
Lemma cow_fds_dat s m map dat dat' fd p :
  cow_fds s m im ip id old main map dat ->
  cow_fds (set_pos fd p (set_data id dat' (adv s))) m im ip id old main map dat'.
Proof.
  intros [(acc & app & Hm & Ha) Hp Hd (Hx1 & Hx2 & Hx3)].
  assert (Hf : frame (fun i => i = id) s (set_pos fd p (set_data id dat' (adv s)))).
  { etransitivity; [apply frame_adv |]. etransitivity; [by apply frame_set_data | apply frame_set_pos]. }
  split; [| | | done].
  - exists acc, app. split; [| done]. by eapply frame_fd_file.
  - eapply frame_fd_file; [done | | done]. done.
  - apply fd_file_set_pos. by eapply fd_file_set_data, fd_file_adv.
Qed.

Lemma cow_fds_map s m map map' dat :
  (forall b, 0 <= b -> saved map b -> saved map' b) -> cow_fds s m im ip id old main map dat -> cow_fds (set_data ip map' (adv s)) m im ip id old main map' dat.
Proof.
  intros Hmono [(acc & app & Hm & Ha) Hp Hd (Hx1 & Hx2 & Hx3)].
  assert (Hf : frame (fun i => i = ip) s (set_data ip map' (adv s))).
  { etransitivity; [apply frame_adv |]. by apply frame_set_data. }
  split; [| | | done].
  - exists acc, app. split; [by eapply frame_fd_file | by eapply can_save_mono].
  - by eapply fd_file_set_data, fd_file_adv.
  - eapply frame_fd_file; [done | | done]. done.
Qed.

(** The buffer holds a block, and can be filled. *)
Lemma buf_update w b :
  b <> BufNull -> bufref_ok b -> buffer_ok w ->
  exists mem, buf_get b w = Some (mem, w) /\ zlen mem = BL_S /\
    forall mem', zlen mem' = BL_S ->
      exists b' w', buf_set b mem' w = Some (b', w') /\ b' <> BufNull /\ bufref_ok b' /\ buffer_ok w' /\
        wframe (fun _ => False) w w' /\ w_os w' = w_os w /\ mflocks (w_fs w') = mflocks (w_fs w).
Proof.
  intros Hn Hok (m & Hm & Hl). destruct b as [| | mem]; [done | |].
  - exists m. unfold buf_get, mbind, ST_bind, get_fs. rewrite Hm. split_and!; [done | done |].
    intros mem' Hl'. exists BufGlobal, (set_fs (set_block_buffer (Some mem') (w_fs w)) w).
    split_and!; try done. by exists mem'.
  - exists mem. split_and!; [done | done |]. intros mem' Hl'. exists (BufHeap mem'), w.
    split_and!; try done. by exists m.
Qed.

(** The old block at the start of the buffer. *)
Lemma buffer_block b d mem :
  0 <= b -> d = file_read main BL_S (b * BL_S) -> zlen mem = BL_S ->
  zlen (d ++ zdrop (zlen d) mem) = BL_S /\
  forall i, 0 <= i < BL_S -> b * BL_S + i < zlen main -> zget (d ++ zdrop (zlen d) mem) i = zget main (b * BL_S + i).
Proof.
  intros Hb Hd Hm. assert (0 <= b * BL_S) by (unfold BL_S; lia).
  assert (Hl : zlen d = Z.max 0 (Z.min BL_S (zlen main - b * BL_S))).
  { subst d. by apply zlen_file_read. }
  assert (0 < BL_S) by done.
  split; [zl |]. intros i Hi Hlen. rewrite zget_app_l by lia. subst d. by apply zget_file_read.
Qed.

Lemma unsaved_nonempty map dat b :
  cow old main map dat -> in_old old b -> ptr_at map b = 0 -> b * BL_S < zlen main.
Proof.
  intros Hc Hin Hp. destruct (cow_blocks _ _ _ _ Hc b Hin) as [[_ H] | (? & _)]; [| lia].
  destruct Hin. destruct (H 0); [done | lia | lia].
Qed.

Lemma align_step n : n mod BL_S = 0 -> (n + BL_S) mod BL_S = 0.
Proof. intros. replace (n + BL_S) with (n + 1 * BL_S) by lia. by rewrite Z_mod_plus_full. Qed.

(** New contents for the dat file, and for the map file. *)
Lemma bw_inv_dat w0 m0 map0 st w map dat dat' fd p :
  bw_inv w0 m0 map0 st w map dat -> cow old main map dat' -> zlen dat' mod BL_S = 0 ->
  bw_inv w0 m0 map0 st (set_os (set_pos fd p (set_data id dat' (adv (w_os w)))) w) map dat'.
Proof.
  intros [] Hc Ha.
  assert (Hf : frame (sn_files ip id) (w_os w) (set_pos fd p (set_data id dat' (adv (w_os w))))).
  { etransitivity; [apply frame_adv |]. etransitivity; [| apply frame_set_pos].
    apply frame_set_data. by right. }
  split; try done.
  - etransitivity; [done |]. by apply wframe_os.
  - cbn. by eapply cow_fds_dat.
  - by apply (fr_atomic _ _ _ Hf).
Qed.

Lemma bw_inv_map w0 m0 map0 st w map map' dat st' :
  bw_inv w0 m0 map0 st w map dat -> cow old main map' dat ->
  (forall b, 0 <= b -> saved map b -> saved map' b) ->
  bw_lock st' = bw_lock st -> bw_buf st' = bw_buf st -> same_mfd (bw_mfd st) (bw_mfd st') -> cache_ok (bw_mfd st') map' ->
  bw_inv w0 m0 map0 st' (set_os (set_data ip map' (adv (w_os w))) w) map' dat.
Proof.
  intros [] Hc Hm El Eb Es Hca.
  assert (Hf : frame (sn_files ip id) (w_os w) (set_data ip map' (adv (w_os w)))).
  { etransitivity; [apply frame_adv |]. apply frame_set_data. by left. }
  split; try done.
  - etransitivity; [done |]. by apply wframe_os.
  - cbn. apply (cow_fds_map _ _ _ map' _ Hm) in bi_fds0. destruct st as [m l bf e], st' as [m' l' bf' e'].
    cbn in *. destruct m, m'. unfold same_mfd in Es. cbn in Es. simplify_eq. destruct bi_fds0. by split.
  - by rewrite Eb.
  - unfold same_mfd in *. congruence.
  - rewrite El. done.
  - intros b Hb Hs. auto.
  - by apply (fr_atomic _ _ _ Hf).
Qed.

(** Storing the pointer, once the block is at the end of the dat file. *)
Lemma b_store_spec w0 m0 map0 st w map dat mem b e :
  bw_inv w0 m0 map0 st w map (dat ++ mem) -> cow old main map dat -> in_old old b -> ptr_at map b = 0 ->
  zlen dat mod BL_S = 0 -> zlen dat < 2 ^ 62 -> zlen mem = BL_S ->
  (forall i, 0 <= i < BL_S -> b * BL_S + i < zlen main -> zget mem i = zget main (b * BL_S + i)) ->
  e = bw_err st ->
  iter_ok w0 m0 map0 b e (faulty (w_os w)) map dat
    ((p ← sys (sys_pwrite (mapfd (bw_mfd st)) (le_bytes 8 (zlen dat / BL_S + 1)) (ptr_off b));
      match p with
      | Err e => bw_break st e
      | Ok n => if negb (n =? BLP_S) then bw_break st ENXIO else bw_continue (bw_set_cache (b + 1) st)
      end) w).
Proof.
  intros I5 Hc Hin Hp Hal Hbig Hmlen Hmget ->. pose proof Hin as [Hb0 _].
  pose proof (bi_fds I5) as Hfds5. pose proof (bi_atomic I5) as At5. assert (HBL : 0 < BL_S) by done.
  assert (0 <= ptr_off b) by (unfold ptr_off, MAPHEADER_S, BLP_S; lia).
  destruct (sys_pwrite_spec _ At5 _ _ _ _ _ (cf_map Hfds5) (le_bytes 8 (zlen dat / BL_S + 1)) (ptr_off b))
    as [E | (e & He & Hfl & E)]; [done | done | |];
    rewrite (st_bind_run _ _ _ _ _ (sys_run _ _ _ _ E)); clear E.
  2: { eapply iter_break; [by apply bw_inv_adv | done | done | zl | done]. }
  rewrite zlen_le_bytes. change (Z.of_nat 8 =? BLP_S) with true. cbn [negb].
  set (map' := file_write map (le_bytes 8 (zlen dat / BL_S + 1)) (ptr_off b)).
  assert (Hdiv : 0 <= zlen dat / BL_S < 2 ^ 62).
  { pose proof (zlen_nonneg dat). split; [by apply Z.div_pos | apply Z.div_lt_upper_bound; unfold BL_S; lia]. }
  assert (Hmono : forall b', 0 <= b' -> saved map b' -> saved map' b').
  { intros b' Hb' Hs. unfold saved, map' in *. destruct (decide (b = b')) as [<- | ?]; [done |].
    by rewrite ptr_at_store_ne by lia. }
  assert (Hsb : saved map' b) by (unfold saved, map'; rewrite ptr_at_store; lia).
  eexists false, _, _, map', (dat ++ mem). split_and!; [done | | by left | zl | done].
  eapply bw_inv_map; [done | by apply cow_store | done | done | done | done |].
  intros b' Hb' Hca. cbn in Hca. by assert (b = b') as <- by lia.
Qed.

(** The step that appends: the block of the main file is in the buffer. *)
Lemma b_append_spec w0 m0 map0 st w map dat b mem :
  bw_inv w0 m0 map0 st w map dat -> in_old old b -> ptr_at map b = 0 -> zlen dat < 2 ^ 62 ->
  zlen mem = BL_S ->
  (forall i, 0 <= i < BL_S -> b * BL_S + i < zlen main -> zget mem i = zget main (b * BL_S + i)) ->
  iter_ok w0 m0 map0 b (bw_err st) (faulty (w_os w)) map dat (b_append st mem b w).
Proof.
  intros I3 Hin Hp Hbig Hmlen Hmget. pose proof (in_old_bound _ _ Hin Hold) as Hbb. unfold b_append.
  assert (HBL : 0 < BL_S) by done.
  pose proof (bi_fds I3) as Hfds. pose proof (bi_atomic I3) as At3.
  destruct (sys_lseek_end_spec _ At3 _ _ _ _ _ (cf_dat Hfds)) as [E | (e & He & Hfl & E)];
    rewrite (st_bind_run _ _ _ _ _ (sys_run _ _ _ _ E)); clear E.
  2: { eapply iter_break; [by apply bw_inv_adv | done | done | lia | done]. }
  set (w4 := set_os (set_pos (datfd (bw_mfd st)) (zlen dat) (adv (w_os w))) w).
  assert (I4 : bw_inv w0 m0 map0 st w4 map dat).
  { eapply bw_inv_quiet; [done | | apply (bi_lock I3) | apply (bi_buf I3) | apply (bi_bufref I3) | done].
    apply wframe_os. etransitivity; [apply frame_adv | apply frame_set_pos]. }
  assert (Hfl4 : faulty (w_os w4) -> faulty (w_os w)) by apply faulty_adv.
  rewrite land_block, (bi_align I3). cbn [Z.eqb negb].
  replace (ztake BL_S mem) with mem by (unfold ztake; rewrite <-Hmlen; unfold zlen; by rewrite Nat2Z.id, firstn_all).
  pose proof (bi_fds I4) as Hfds4. pose proof (bi_atomic I4) as At4.
  destruct (sys_write_spec _ At4 _ _ _ _ _ (cf_dat Hfds4) mem) as [E | (e & He & Hfl & E)]; [done | done | |];
    rewrite (st_bind_run _ _ _ _ _ (sys_run _ _ _ _ E)); clear E.
  2: { eapply iter_break; [by apply bw_inv_adv | done | by apply Hfl4 | lia | done]. }
  rewrite Hmlen, Z.eqb_refl, file_write_end, shiftr_block, map_offset_ptr by done. cbn [negb].
  eapply iter_weaken; [| apply (b_store_spec w0 m0 map0 st _ map dat mem b); try done; [| apply (bi_cow I3) | apply (bi_align I3)]].
  { by intros ?%faulty_adv%Hfl4. }
  apply (bw_inv_dat _ _ _ _ _ _ _ _ _ _ I4).
  - apply cow_dat_app, (bi_cow I4).
  - rewrite zlen_app, Hmlen. apply align_step, (bi_align I4).
Qed.

(** Saving a block that is not saved yet. *)
Lemma b_save_block_spec w0 m0 map0 st w map dat b :
  bw_inv w0 m0 map0 st w map dat -> in_old old b -> ptr_at map b = 0 -> zlen dat < 2 ^ 62 ->
  iter_ok w0 m0 map0 b (bw_err st) (faulty (w_os w)) map dat (b_save_block st b w).
Proof.
  intros H Hin Hp Hbig. pose proof Hin as [Hb0 Hbl]. assert (HBL : 0 < BL_S) by done.
  assert (Hbs : 0 <= b * BL_S) by (unfold BL_S; lia).
  unfold b_save_block.
  destruct (b_get_buf_spec _ _ _ _ _ _ _ H) as (buf & w1 & E1 & Hinv1 & Hbuf & Hfl1).
  rewrite (st_bind_run _ _ _ _ _ E1). clear E1.
  destruct buf as [bf |].
  2: { eapply iter_break; [apply Hinv1; [done | done | apply (bi_bufref H)] | done | done | lia | done]. }
  destruct Hbuf as [Hbn Hbok].
  assert (I1 : bw_inv w0 m0 map0 (BwState (bw_mfd st) (bw_lock st) bf (bw_err st)) w1 map dat) by by apply Hinv1.
  destruct (cf_main (bi_fds I1)) as (acc & app & Hmain & Hcs). cbn [bw_mfd] in Hmain.
  assert (Hacc : acc <> O_WRONLY) by (destruct Hcs as [? | Ha]; [done | by destruct (Ha b Hin)]).
  rewrite shiftl_block.
  destruct (sys_pread_spec _ (bi_atomic I1) _ _ _ _ _ Hmain BL_S (b * BL_S) Hacc Hbs)
    as [E2 | (e & He & Hfl & E2)];
    rewrite (st_bind_run _ _ _ _ _ (sys_run _ _ _ _ E2)); clear E2.
  2: { eapply iter_break; [by apply bw_inv_adv, I1 | done | by apply Hfl1 | lia | done]. }
  pose proof (bw_inv_adv _ _ _ _ _ _ _ I1) as I2.
  set (w2 := set_os (adv (w_os w1)) w1) in *. set (d := file_read main BL_S (b * BL_S)).
  destruct (buf_update w2 bf Hbn Hbok (bi_buf I2)) as (mem & E3 & Hmem & Hset).
  rewrite (st_bind_run _ _ _ _ _ E3). clear E3.
  destruct (buffer_block b d mem Hb0 eq_refl Hmem) as [Hmlen Hmget]. set (mem' := d ++ zdrop (zlen d) mem) in *.
  destruct (Hset mem' Hmlen) as (bf' & w3 & E4 & Hbn' & Hbok' & Hbuf3 & Hfr3 & Hos3 & Hmf3).
  rewrite (st_bind_run _ _ _ _ _ E4). clear E4 Hset.
  pose proof (unsaved_nonempty _ _ _ (bi_cow H) Hin Hp) as Hne.
  assert (Hd1 : 1 <= zlen d) by (unfold d; rewrite zlen_file_read by lia; lia).
  destruct (Z.ltb_spec (zlen d) 1); [lia |].
  eapply iter_weaken; [| apply (b_append_spec w0 m0 map0 (BwState (bw_mfd st) (bw_lock st) bf' (bw_err st))); try done].
  - rewrite Hos3. by intros ?%faulty_adv%Hfl1.
  - eapply bw_inv_quiet; [apply I2 | done | | done | done | done].
    pose proof (bi_lock I2) as Hl. unfold lock_inv in *. by rewrite Hmf3.
Qed.

(** Remembering a saved block in the cache. *)
Lemma bw_inv_cache w0 m0 map0 st w map dat b :
  bw_inv w0 m0 map0 st w map dat -> 0 <= b -> saved map b ->
  bw_inv w0 m0 map0 (bw_set_cache (b + 1) st) w map dat.
Proof.
  intros [] Hb Hs. split; try done.
  - by apply cow_fds_cache.
  - intros b' Hb' Hc. cbn in Hc. by assert (b = b') as <- by lia.
Qed.

(** Reading the pointer of a block, in the loop. *)
Lemma bw_read_pointer w0 m0 map0 st w map dat b :
  bw_inv w0 m0 map0 st w map dat -> in_old old b ->
  exists r w', read_pointer (mapfd (bw_mfd st)) (map_offset b) w = Some (r, w') /\
    bw_inv w0 m0 map0 st w' map dat /\ (faulty (w_os w') -> faulty (w_os w)) /\ w_fs w' = w_fs w /\
    (r = Ok (ptr_at map b) \/ exists e, r = Err e /\ 0 < e /\ faulty (w_os w)).
Proof.
  intros H Hin. pose proof (in_old_bound _ _ Hin Hold) as Hbb.
  destruct (read_pointer_spec w (mapfd (bw_mfd st)) ip map O_RDWR b (bi_atomic H) (cf_map (bi_fds H))) as (r & E & Hr);
    [done | done | apply (cow_map_align _ _ _ _ (bi_cow H)) | apply (cow_map_len _ _ _ _ (bi_cow H)) |].
  exists r, (set_os (adv (w_os w)) w). split_and!; [done | by apply bw_inv_adv | apply faulty_adv | done | done].
Qed.

(** The block is found saved, in the map or through the cache. *)
Lemma iter_saved w0 m0 map0 st st' w b fl map dat :
  bw_inv w0 m0 map0 st' w map dat -> bw_err st' = bw_err st -> saved map b ->
  iter_ok w0 m0 map0 b (bw_err st) fl map dat (bw_continue st' w).
Proof.
  intros H He Hs. assert (0 < BL_S) by done. eexists false, st', w, map, dat.
  split_and!; [done | done | by left | lia | done].
Qed.

(** Taking the lock of the file. *)
Lemma bw_take_lock w0 m0 map0 st w map dat :
  bw_inv w0 m0 map0 st w map dat -> bw_lock st = -1 -> locklabel (bw_mfd st) <> 0 ->
  exists id' t, 0 <= id' < LOCK_NUM /\
    lock_ (locklabel (bw_mfd st)) w = Some (id', set_fs (set_mflocks t (w_fs w)) w) /\
    bw_inv w0 m0 map0 (BwState (bw_mfd st) id' (bw_buf st) (bw_err st)) (set_fs (set_mflocks t (w_fs w)) w) map dat.
Proof.
  intros H El Hlab. destruct (bi_lock H) as [[_ Hidle] | [? _]]; [| lia].
  destruct (lk_lock_ok w (locklabel (bw_mfd st)) Hidle Hlab) as (id' & t & Hid & E & Hun).
  exists id', t. split_and!; [lia | lia | done |].
  eapply bw_inv_quiet; [done | auto with wframe | | | apply (bi_bufref H) | done].
  - right. split; [cbn; lia |]. done.
  - apply (bi_buf H).
Qed.

(** The body of the loop. *)
Lemma b_write_block_spec w0 m0 map0 st w map dat b :
  bw_inv w0 m0 map0 st w map dat -> in_old old b -> zlen dat < 2 ^ 62 -> locklabel m0 <> 0 ->
  iter_ok w0 m0 map0 b (bw_err st) (faulty (w_os w)) map dat (b_write_block lock_ st b w).
Proof.
  intros H Hin Hbig Hlab. pose proof Hin as [Hb0 _]. assert (HBL : 0 < BL_S) by done. unfold b_write_block.
  assert (Hlab' : locklabel (bw_mfd st) <> 0).
  { pose proof (bi_mfd H) as E. unfold same_mfd in E.
    by rewrite (f_equal locklabel E : locklabel (bw_mfd st) = locklabel m0). }
  destruct (Z.eqb_spec (latest_written_block_cache (bw_mfd st)) (b + 1)) as [Hc | Hc].
  { apply iter_saved; [done | done |]. by apply (bi_cache H). }
  destruct (bw_read_pointer _ _ _ _ _ _ _ _ H Hin) as (r & w1 & E & H1 & Hfl1 & Hfs1 & Hr).
  rewrite (st_bind_run _ _ _ _ _ E). clear E.
  destruct Hr as [-> | (e & -> & He & Hfl)]; [| eapply iter_break; [done | done | done | lia | done]].
  destruct (Z.eqb_spec (ptr_at map b) 0) as [Hp | Hp]; cbn [negb].
  2: { apply iter_saved; [by apply bw_inv_cache | done | done]. }
  destruct (Z.eqb_spec (bw_lock st) (-1)) as [Hl | Hl].
  2: { eapply iter_weaken; [done |]. by apply b_save_block_spec. }
  destruct (bw_take_lock _ _ _ _ _ _ _ H1 Hl Hlab') as (id' & t & Hid & E & H2).
  rewrite (st_bind_run _ _ _ _ _ E). clear E. destruct (Z.ltb_spec id' 0); [lia |].
  destruct (bw_read_pointer _ _ _ _ _ _ _ _ H2 Hin) as (r & w3 & E & H3 & Hfl3 & Hfs3 & Hr).
  cbn [bw_mfd] in E. rewrite (st_bind_run _ _ _ _ _ E). clear E.
  destruct Hr as [-> | (e & -> & He & Hfl)]; [| eapply iter_break; [done | done | by apply Hfl1 | lia | done]].
  rewrite Hp. cbn [Z.eqb negb].
  eapply iter_weaken; [| by apply (b_save_block_spec w0 m0 map0 (BwState (bw_mfd st) id' (bw_buf st) (bw_err st)))].
  intros Hf. apply Hfl1. by apply Hfl3 in Hf.
Qed.

(** The whole loop over blocks [b .. b+n-1]. *)
Lemma b_write_loop_spec w0 m0 map0 n : forall st w map dat b,
  bw_inv w0 m0 map0 st w map dat -> bw_err st = 0 -> locklabel m0 <> 0 ->
  (forall b', b <= b' < b + Z.of_nat n -> in_old old b') ->
  zlen dat + Z.of_nat n * BL_S < 2 ^ 62 ->
  exists st' w' map' dat', b_write_loop lock_ n st b w = Some (st', w') /\
    bw_inv w0 m0 map0 st' w' map' dat' /\
    zlen dat' <= zlen dat + Z.of_nat n * BL_S /\
    (forall b', 0 <= b' -> saved map b' -> saved map' b') /\
    ((bw_err st' = 0 /\ forall b', b <= b' < b + Z.of_nat n -> saved map' b') \/
     (0 < bw_err st' /\ faulty (w_os w0))).
Proof.
  assert (HBL : 0 < BL_S) by done.
  induction n as [| n IH]; intros st w map dat b H He Hlab Hin Hbig.
  { exists st, w, map, dat. split_and!; [done | done | lia | done |]. left. split; [done |]. lia. }
  cbn [b_write_loop].
  destruct (b_write_block_spec _ _ _ _ _ _ _ b H) as (stop & st1 & w1 & map1 & dat1 & E & H1 & Hpost & Hlen & Hmono);
    [apply Hin; lia | lia | done |].
  rewrite (st_bind_run _ _ _ _ _ E). clear E. rewrite He in Hpost.
  destruct Hpost as [(-> & He1 & Hs) | (-> & He1 & Hfl)].
  2: { exists st1, w1, map1, dat1. split_and!; [done | done | lia | done |]. right. split; [done |].
       by apply (fr_faulty _ _ _ (wf_os _ _ _ (bi_frame H))). }
  destruct (IH st1 w1 map1 dat1 (b + 1) H1 He1 Hlab) as (st2 & w2 & map2 & dat2 & E & H2 & Hlen2 & Hmono2 & Hpost2);
    [intros; apply Hin; lia | lia |].
  exists st2, w2, map2, dat2. split_and!; [done | done | lia | auto |].
  destruct Hpost2 as [[? Hs2] | ?]; [left | by right].
  split; [done |]. intros b' Hb'. destruct (decide (b' = b)) as [-> | ?]; [| apply Hs2; lia].
  apply Hmono2; [by destruct (Hin b ltac:(lia)) | done].
Qed.

(** The cleanup releases the lock and reports the error of the loop. *)
Lemma b_write_cleanup_spec w0 m0 map0 st w map dat :
  bw_inv w0 m0 map0 st w map dat ->
  exists t w', b_write_cleanup unlock_ st B_WRITE_DEFAULTS w = Some ((- bw_err st, bw_mfd st), w') /\
    lk_idle t /\ w' = set_fs (set_mflocks t (w_fs w)) w.
Proof.
  intros H. unfold b_write_cleanup. change (has B_WRITE_DEFAULTS B_WRITE_HAS_LOCK) with false. cbn [negb].
  destruct (bi_lock H) as [[-> Hi] | [Hl Hun]].
  - exists (mflocks (w_fs w)), w. split_and!; [done | done |]. by destruct w as [? [] ? ? ? ?].
  - destruct (Z.eqb_spec (bw_lock st) (-1)); [lia |]. cbn [negb andb].
    destruct (Hun w eq_refl) as (t & Hi & E). rewrite (st_bind_run _ _ _ _ _ E). cbn. by eauto.
Qed.
End Loop.

(** ** Which blocks a range touches *)

Lemma calc_blocks_eq off size :
  0 <= off -> 1 <= size -> off + size < 2 ^ 63 ->
  B_CALC_BLOCKS off size = (off / BL_S, (off + size - 1) / BL_S - off / BL_S + 1).
Proof.
  intros Ho Hs Hb. unfold B_CALC_BLOCKS. rewrite land_block, !shiftr_block.
  pose proof (Z.mod_pos_bound off BL_S ltac:(done)) as Hm. pose proof (Z.mod_le off BL_S Ho ltac:(done)) as Hle.
  rewrite (u64_small (size + _ - 1)) by lia.
  assert (E : (size + off mod BL_S - 1) / BL_S = (off + size - 1) / BL_S - off / BL_S).
  { replace (size + off mod BL_S - 1) with (off + size - 1 + (- (off / BL_S)) * BL_S).
    - by rewrite Z.div_add.
    - pose proof (Z.div_mod off BL_S ltac:(done)). lia. }
  rewrite E, u64_small; [done |].
  pose proof (Z.div_le_mono off (off + size - 1) BL_S ltac:(done) ltac:(lia)).
  pose proof (Z.div_pos off BL_S Ho ltac:(done)).
  pose proof (Z.div_lt_upper_bound (off + size - 1) BL_S (2 ^ 63) ltac:(done) ltac:(unfold BL_S; lia)). lia.
Qed.

(** A block lies between the first and the last one exactly when it meets the range. *)
Lemma block_in_range off size b :
  off / BL_S <= b <= (off + size - 1) / BL_S <-> off < (b + 1) * BL_S /\ b * BL_S < off + size.
Proof.
  pose proof (div_block_bounds off). pose proof (div_block_bounds (off + size - 1)). unfold BL_S in *. nia.
Qed.

(** ** [b_write] *)

(** An mfd open for writing on a file whose contents were [old] when the
    latest snapshot was taken. *)
Record mfd_ok (idle : list mflock_t -> Prop) (w : world) (mfd : mfd_t) (im ip id : nat)
    (old main map dat : list Z) : Prop := {
  mo_fds : cow_fds (w_os w) mfd im ip id old main map dat;
  mo_cow : cow old main map dat;
  mo_size : st_size (mh_fstat (mapheader mfd)) = zlen old;
  mo_exists : mh_exists (mapheader mfd) = 1;
  mo_old : zlen old < 2 ^ 61;
  mo_align : zlen dat mod BL_S = 0;
  mo_buffer : buffer_ok w;
  mo_cache : cache_ok mfd map;
  mo_idle : idle (mflocks (w_fs w));
  mo_atomic : atomic (w_os w);
  mo_label : locklabel mfd <> 0;
  mo_datfd : 0 <= datfd mfd
}.

(** How a call that saves blocks ends, when it was asked to save the range
    of [size] bytes from [off]: all else is untouched, nothing saved is
    lost, and on success the whole range is saved. *)
Definition save_post (idle : list mflock_t -> Prop) (w : world) (mfd : mfd_t) (im ip id : nat)
    (old main map dat : list Z) (off size : Z) (out : option (Z * mfd_t * world)) : Prop :=
  exists r mfd' w' map' dat',
    out = Some (r, mfd', w') /\ wframe (sn_files ip id) w w' /\
    mfd_ok idle w' mfd' im ip id old main map' dat' /\ same_mfd mfd mfd' /\
    zlen dat' <= zlen dat + zlen old + BL_S /\
    (forall b, 0 <= b -> saved map b -> saved map' b) /\
    ((r = 0 /\ range_saved old map' off size) \/ (r < 0 /\ faulty (w_os w))).

Section BWrite.
Context (lock_ unlock_ : Z -> M Z) {LS : LockService lock_ unlock_}.
Context (im ip id : nat) (old main : list Z).

(** The invariant holds when the loop starts. *)
Lemma bw_inv_init w mfd map dat :
  mfd_ok lk_idle w mfd im ip id old main map dat ->
  bw_inv lock_ unlock_ im ip id old main w mfd map (BwState mfd (-1) BufNull 0) w map dat.
Proof. intros []. split; try done. by left. Qed.

(** Nothing to save. *)
Lemma save_post_nothing w mfd map dat off size :
  mfd_ok lk_idle w mfd im ip id old main map dat -> (zlen old <= off \/ size = 0) ->
  save_post lk_idle w mfd im ip id old main map dat off size (Some (0, mfd, w)).
Proof.
  intros H Hn. pose proof (zlen_nonneg old). assert (0 < BL_S) by done.
  exists 0, mfd, w, map, dat. split_and!; [done | done | done | done | lia | done |]. left. split; [done |].
  intros Hsz Ho b [??] ??. lia.
Qed.

(** The loop and the cleanup, on a range inside the old contents. *)
Lemma b_write_range w mfd map dat off size :
  mfd_ok lk_idle w mfd im ip id old main map dat ->
  0 <= off -> 1 <= size -> off + size <= zlen old -> zlen dat + zlen old + 2 * BL_S < 2 ^ 62 ->
  save_post lk_idle w mfd im ip id old main map dat off size
    ((let '(blockoffset, blocknumber) := B_CALC_BLOCKS off size in
      st ← b_write_loop lock_ (Z.to_nat blocknumber) (BwState mfd (-1) BufNull 0) blockoffset;
      b_write_cleanup unlock_ st B_WRITE_DEFAULTS) w).
Proof.
  intros H Ho Hs Hend Hbig. pose proof (mo_old _ _ _ _ _ _ _ _ _ _ H) as Hold. assert (HBL : 0 < BL_S) by done.
  rewrite calc_blocks_eq by lia.
  pose proof (Z.div_pos off BL_S Ho HBL) as Hf.
  pose proof (Z.div_le_mono off (off + size - 1) BL_S HBL ltac:(lia)) as Hle.
  pose proof (div_block_bounds (off + size - 1)) as Hlast.
  set (first := off / BL_S) in *. set (last := (off + size - 1) / BL_S) in *.
  set (n := Z.to_nat (last - first + 1)). assert (Hn : Z.of_nat n = last - first + 1) by (unfold n; lia).
  assert (HnB : Z.of_nat n * BL_S <= zlen old + BL_S) by (unfold BL_S in *; nia).
  destruct (b_write_loop_spec lock_ unlock_ im ip id old main ltac:(lia) w mfd map n _ w map dat first
              (bw_inv_init _ _ _ _ H)) as (st & w1 & map1 & dat1 & E & H1 & Hlen & Hmono & Hpost);
    [done | apply (mo_label _ _ _ _ _ _ _ _ _ _ H) | | lia |].
  { intros b Hb. assert (b <= last) by lia. split; [lia |]. unfold BL_S in *. nia. }
  rewrite (st_bind_run _ _ _ _ _ E). clear E.
  destruct (b_write_cleanup_spec _ _ _ _ _ _ _ _ _ _ _ _ _ _ H1) as (t & w2 & E & Hi & ->).
  rewrite E. clear E. destruct H1 as [Hfr Hfds Hc Hal Hbuf Hbr Hca Hm Hl Hmn Hat].
  eexists _, _, _, map1, dat1. split_and!; [done | | | done | lia | done |].
  - etransitivity; [done | auto with wframe].
  - assert (Hsame : set_cache 0 (bw_mfd st) = set_cache 0 mfd) by done. destruct H.
    split; try done.
    + by rewrite (f_equal (fun m => st_size (mh_fstat (mapheader m))) Hsame : st_size (mh_fstat (mapheader (bw_mfd st))) = _).
    + by rewrite (f_equal (fun m => mh_exists (mapheader m)) Hsame : mh_exists (mapheader (bw_mfd st)) = _).
    + by rewrite (f_equal locklabel Hsame : locklabel (bw_mfd st) = _).
    + by rewrite (f_equal datfd Hsame : datfd (bw_mfd st) = _).
  - destruct Hpost as [[-> Hsv] | [He Hfl]]; [left | right; split; [lia | done]].
    split; [done |]. intros _ _ b [Hb0 Hbl] H1 H2. apply Hsv.
    pose proof (proj2 (block_in_range off size b) (conj H1 H2)). lia.
Qed.

(** [b_write] keeps the snapshot whatever calls fail, and saves the range when it returns 0. *)
Lemma b_write_spec w mfd map dat off size :
  mfd_ok lk_idle w mfd im ip id old main map dat ->
  0 <= off -> 0 <= size -> off + size < 2 ^ 63 -> zlen dat + zlen old + 2 * BL_S < 2 ^ 62 ->
  save_post lk_idle w mfd im ip id old main map dat off size
    (b_write lock_ unlock_ mfd size off B_WRITE_DEFAULTS w).
Proof.
  intros H Ho Hs Hb Hbig. pose proof (mo_old _ _ _ _ _ _ _ _ _ _ H) as Hold. pose proof (zlen_nonneg old).
  unfold b_write. rewrite (mo_size _ _ _ _ _ _ _ _ _ _ H).
  pose proof (mo_datfd _ _ _ _ _ _ _ _ _ _ H). destruct (Z.ltb_spec (datfd mfd) 0); [lia |]. cbn [orb].
  destruct (Z.eqb_spec size 0); [apply save_post_nothing; auto |].
  change (has B_WRITE_DEFAULTS B_WRITE_HAS_LOCK) with false. cbv iota.
  rewrite !u64_small by lia. destruct (Z.ltb_spec (zlen old) (off + size)).
  2: { apply b_write_range; (done || lia). }
  destruct (Z.leb_spec (zlen old) off); [apply save_post_nothing; auto |].
  rewrite u64_small by lia.
  destruct (b_write_range w mfd map dat off (zlen old - off) H) as (r & mfd' & w' & map' & dat' & -> & Hfr & Hok & Hm & Hl & Hmono & Hpost); try lia.
  exists r, mfd', w', map', dat'. split_and!; try done.
  destruct Hpost as [[? Hr] | ?]; [left | by right]. split; [done |].
  intros _ _ b Hin Hb1 Hb2. apply Hr; [lia | done | done | done |]. destruct Hin. lia.
Qed.

(** [b_truncate] saves everything from the new size on. *)
Lemma b_truncate_spec w mfd map dat newsize :
  mfd_ok lk_idle w mfd im ip id old main map dat ->
  0 <= newsize -> zlen dat + zlen old + 2 * BL_S < 2 ^ 62 ->
  save_post lk_idle w mfd im ip id old main map dat newsize (zlen old - newsize)
    (b_truncate lock_ unlock_ mfd newsize B_WRITE_DEFAULTS w).
Proof.
  intros H Hn Hbig. pose proof (mo_old _ _ _ _ _ _ _ _ _ _ H) as Hold. pose proof (zlen_nonneg old).
  unfold b_truncate. rewrite (mo_exists _ _ _ _ _ _ _ _ _ _ H), (mo_size _ _ _ _ _ _ _ _ _ _ H). cbn [Z.eqb andb].
  destruct (Z.ltb_spec newsize (zlen old)).
  - rewrite u64_small by lia. apply b_write_spec; (done || lia).
  - apply save_post_nothing; [done | by left].
Qed.
End BWrite.
