(* ===== verification/BlockRead.v ===== *)
(** [b_read] returns the bytes a file had when the snapshot was taken.

    The steps of a handle are related to the contents the file had at each
    of them ([chain_ok]): the main file at step 0, then the snapshots back
    in time, each either without information about the file or with a map
    and a dat file in the copy-on-write invariant with the step before. *)

From S2P Require Import Prelude Posix PosixSpec Types Mflock Block CopyOnWrite BlockWrite.

(** ** The chain of steps *)

Definition quiet : nat -> Prop := fun _ => False.

(** A step of the chain: [v] is the contents at this snapshot, [v'] at the
    next one.  The files of the step are none of those in [avoid].  Of a
    step where the file was empty or missing nothing is ever read. *)
Definition step_ok (avoid : nat -> Prop) (s : os) (step : sn_steps_t) (v v' : list Z) : Prop :=
  v = [] \/ (step_mapfd step < 0 /\ v = v') \/
  (0 <= step_mapfd step /\
   exists ip map acc dat, fd_file s (step_mapfd step) ip map acc false /\ acc <> O_WRONLY /\ ~ avoid ip /\
     cow v v' map dat /\
     (dat = [] \/ exists id acc' app, fd_file s (step_datfd step) id dat acc' app /\ acc' <> O_WRONLY /\ ~ avoid id)).

Record chain_ok (s : os) (steps : list sn_steps_t) (views : list (list Z)) : Prop := {
  ck_main : forall step v, steps !! 0%nat = Some step -> views !! 0%nat = Some v ->
    v = [] \/ exists im acc app, fd_file s (step_datfd step) im v acc app /\ acc <> O_WRONLY;
  ck_step : forall k step v v', steps !! S k = Some step -> views !! S k = Some v -> views !! k = Some v' ->
    step_ok quiet s step v v';
  ck_len : length views = length steps
}.

(** What touches only files the step avoids leaves the step alone. *)
Lemma step_ok_frame touch s s' step v v' : frame touch s s' -> step_ok touch s step v v' -> step_ok touch s' step v v'.
Proof.
  intros Hf [? | [? | (? & ip & map & acc & dat & Hm & ? & ? & ? & Hd)]]; [by left | by right; left | right; right].
  split; [done |]. exists ip, map, acc, dat. split_and!; [by eapply frame_fd_file | done | done | done |].
  destruct Hd as [-> | (id & acc' & app & Hd & ? & ?)]; [by left | right].
  exists id, acc', app. split_and!; [by eapply frame_fd_file | done | done].
Qed.

(** A step that avoids files avoids fewer. *)
Lemma step_ok_weaken (avoid avoid' : nat -> Prop) s step v v' :
  (forall i, avoid' i -> avoid i) -> step_ok avoid s step v v' -> step_ok avoid' s step v v'.
Proof.
  intros Hi [? | [? | (? & ip & map & acc & dat & Hm & ? & ? & ? & Hd)]]; [by left | by right; left | right; right].
  split; [done |]. exists ip, map, acc, dat. split_and!; [done | done | by intros ?%Hi | done |].
  destruct Hd as [-> | (id & acc' & app & Hd & ? & ?)]; [by left | right].
  exists id, acc', app. split_and!; [done | done | by intros ?%Hi].
Qed.

Lemma step_ok_quiet avoid s step v v' : step_ok avoid s step v v' -> step_ok quiet s step v v'.
Proof. by apply step_ok_weaken. Qed.

Lemma chain_ok_frame s s' steps views :
  frame quiet s s' -> chain_ok s steps views -> chain_ok s' steps views.
Proof.
  intros Hf [Hm Hs Hl]. split; [| | done].
  - intros step v Hst Hv. destruct (Hm step v Hst Hv) as [-> | (im & acc & app & ? & ?)]; [by left | right].
    exists im, acc, app. split; [by eapply frame_quiet_fd_file | done].
  - intros k step v v' H1 H2 H3. eapply step_ok_frame; [done | by eapply Hs].
Qed.

(** A block found through one step of the chain is found through the next. *)
Lemma holds_block_trans old b v v' : holds_block old b v b -> holds_block v b v' b -> holds_block old b v' b.
Proof.
  intros H H' i Hi Hl. destruct (H i Hi Hl) as [Hv E]. destruct (H' i Hi Hv) as [? E'].
  split; [done | congruence].
Qed.

Lemma holds_block_into old b v dat k : holds_block old b v b -> holds_block v b dat k -> holds_block old b dat k.
Proof.
  intros H H' i Hi Hl. destruct (H i Hi Hl) as [Hv E]. destruct (H' i Hi Hv) as [? E'].
  split; [done | congruence].
Qed.

Lemma holds_block_refl old b : holds_block old b old b.
Proof. by intros i _ Hl. Qed.

Lemma holds_block_in old b v : in_old old b -> holds_block old b v b -> in_old v b.
Proof.
  intros [Hb Hl] H. split; [done |]. destruct (H 0) as [Hv _]; unfold BL_S in *; lia.
Qed.

Lemma in_old_nil b : ~ in_old [] b.
Proof. intros [? ?]. unfold zlen, BL_S in *. cbn in *. lia. Qed.

(** A read inside a block that holds the old one gets the old bytes. *)
Lemma holds_block_read old b src k from len :
  holds_block old b src k -> 0 <= k -> 0 <= b -> 0 <= from -> 0 <= len -> from + len <= BL_S ->
  b * BL_S + from + len <= zlen old ->
  file_read src len (from + k * BL_S) = file_read old len (b * BL_S + from).
Proof.
  intros H Hk Hb Hf Hl Hfl Hend. assert (0 < BL_S) by done. assert (0 <= k * BL_S) by nia. assert (0 <= b * BL_S) by nia.
  assert (Hlast : 0 < len -> k * BL_S + (from + len - 1) < zlen src) by (intros; apply H; lia).
  assert (E1 : zlen (file_read old len (b * BL_S + from)) = len) by (rewrite zlen_file_read; lia).
  assert (E2 : zlen (file_read src len (from + k * BL_S)) = len) by (rewrite zlen_file_read; lia).
  apply zlist_eq; [congruence |]. rewrite E2. intros i Hi.
  rewrite !zget_file_read by lia.
  destruct (H (from + i)) as [_ E]; [lia | lia |].
  replace (from + k * BL_S + i) with (k * BL_S + (from + i)) by lia.
  replace (b * BL_S + from + i) with (b * BL_S + (from + i)) by lia. done.
Qed.

(** ** Consecutive writes into a buffer *)

Lemma file_write_seq c d d' : file_write (file_write c d 0) d' (zlen d) = file_write c (d ++ d') 0.
Proof.
  pose proof (zlen_nonneg d). pose proof (zlen_nonneg d').
  apply zlist_eq.
  { rewrite !zlen_file_write by lia. rewrite zlen_app. repeat case_match; lia. }
  intros i Hi. destruct (decide (i < zlen d)) as [? | ?].
  - rewrite zget_file_write_out by lia. rewrite !zget_file_write_in by (rewrite ?zlen_app; lia).
    by rewrite zget_app_l by lia.
  - destruct (decide (i < zlen d + zlen d')) as [? | ?].
    + rewrite !zget_file_write_in by (rewrite ?zlen_app; lia). rewrite zget_app_r by lia. f_equal. lia.
    + rewrite !zget_file_write_out by (rewrite ?zlen_app; lia). done.
Qed.

Lemma file_read_split c n m off :
  0 <= off -> 0 <= n -> 0 <= m -> off + n <= zlen c ->
  file_read c (n + m) off = file_read c n off ++ file_read c m (off + n).
Proof.
  intros. pose proof (zlen_nonneg c).
  assert (E : zlen (file_read c n off) = n) by (rewrite zlen_file_read; lia).
  apply zlist_eq.
  { rewrite zlen_app, E, !zlen_file_read by lia. lia. }
  intros i Hi. rewrite zlen_file_read in Hi by lia.
  rewrite zget_file_read by lia. destruct (decide (i < n)).
  - rewrite zget_app_l, zget_file_read by lia. done.
  - rewrite zget_app_r, E, zget_file_read by lia. f_equal. lia.
Qed.

(** ** What a read may touch: the locks and the schedule *)

Definition rframe (w w' : world) : Prop :=
  wframe quiet w w' /\ block_buffer (w_fs w') = block_buffer (w_fs w).

#[global] Instance rframe_refl : Reflexive rframe.
Proof. by split. Qed.

#[global] Instance rframe_trans : Transitive rframe.
Proof. intros w1 w2 w3 [] []. split; [by etransitivity | congruence]. Qed.

Lemma rframe_os w s : frame quiet (w_os w) s -> rframe w (set_os s w).
Proof. split; [by apply wframe_os | done]. Qed.

Lemma rframe_table w t : rframe w (set_fs (set_mflocks t (w_fs w)) w).
Proof. split; [apply wframe_table | done]. Qed.

(** ** One block *)

Section Block.
Context (lock_ unlock_ : Z -> M Z) {LS : LockService lock_ unlock_}.
Context (mfd : mfd_t) (views : list (list Z)) (old : list Z) (Hlab : locklabel mfd <> 0).
Context (Hold : zlen old < 2 ^ 62).

(** The part of a block that is to be copied lies in the old contents. *)
Definition part_ok (b from len : Z) : Prop :=
  in_old old b /\ 0 <= from /\ 0 <= len /\ from + len <= BL_S /\ b * BL_S + from + len <= zlen old.

(** The buffer once the part is in place. *)
Definition with_part (buf : list Z) (b to len from : Z) : list Z :=
  file_write buf (file_read old len (b * BL_S + from)) to.

Lemma b_read_copy_spec w fd ino src acc app b k from len to buf :
  atomic (w_os w) -> fd_file (w_os w) fd ino src acc app -> acc <> O_WRONLY ->
  holds_block old b src k -> 0 <= k -> part_ok b from len ->
  exists r buf', b_read_copy fd to len (from + Z.shiftl k BL_SLOG) buf w = Some ((r, buf'), set_os (adv (w_os w)) w) /\
    ((r = -1 /\ buf' = with_part buf b to len from) \/ (0 < r /\ faulty (w_os w))).
Proof.
  intros Ha Hf Hacc Hh Hk ([Hb _] & ? & ? & ? & ?). rewrite shiftl_block. unfold b_read_copy.
  assert (0 < BL_S) by done. assert (0 <= b * BL_S) by nia.
  destruct (sys_pread_spec _ Ha _ _ _ _ _ Hf len (from + k * BL_S)) as [E | (e & He & Hfl & E)];
    [done | nia | |]; rewrite (st_bind_run _ _ _ _ _ (sys_run _ _ _ _ E)); eexists _, _; (split; [done |]).
  2: by right.
  left. rewrite (holds_block_read old b) by done.
  assert (E' : zlen (file_read old len (b * BL_S + from)) = len) by (rewrite zlen_file_read; lia).
  by rewrite E', Z.eqb_refl.
Qed.

(** How a step ends: found, not found here but in the rest of the chain, or an error. *)
Definition step_post (w : world) (sni : nat) (b from len to : Z) (buf : list Z) (r : Z) (buf' : list Z) : Prop :=
  (r = -1 /\ buf' = with_part buf b to len from) \/
  (r = 0 /\ buf' = buf /\ exists sni' v', sni = S sni' /\ views !! sni' = Some v' /\ holds_block old b v' b) \/
  (0 < r /\ faulty (w_os w)).

(** A snapshot with a map file. *)
Lemma b_read_step_mapped w sni step v v' b from len to buf :
  atomic (w_os w) -> sn_steps mfd !! S sni = Some step -> 0 <= step_mapfd step ->
  step_ok quiet (w_os w) step v v' -> views !! sni = Some v' -> holds_block old b v b -> part_ok b from len ->
  exists r buf' s', b_read_step mfd (S sni) b to len from buf w = Some ((r, buf'), set_os s' w) /\
    frame quiet (w_os w) s' /\ step_post w (S sni) b from len to buf r buf'.
Proof using Hold.
  intros Ha Hst Hfd Hok Hv' Hh Hp. pose proof Hp as (Hin & _).
  unfold b_read_step. rewrite Hst. destruct (Z.ltb_spec 0 (Z.of_nat (S sni))); [| lia].
  destruct (Z.ltb_spec (step_mapfd step) 0); [lia |].
  destruct Hok as [-> | [[? _] | (_ & ip & map & acc & dat & Hm & Hacc & _ & Hc & Hd)]];
    [by destruct (in_old_nil b (holds_block_in _ _ _ Hin Hh)) | lia |].
  destruct (read_pointer_spec w (step_mapfd step) ip map acc b Ha Hm Hacc (in_old_bound _ _ Hin Hold)
              (cow_map_align _ _ _ _ Hc) (cow_map_len _ _ _ _ Hc)) as (r & E & Hr).
  rewrite (st_bind_run _ _ _ _ _ E). clear E.
  destruct Hr as [-> | (e & -> & He & Hfl)].
  2: { eexists e, buf, _. split_and!; [done | apply frame_adv | by right; right]. }
  destruct (cow_blocks _ _ _ _ Hc b (holds_block_in _ _ _ Hin Hh)) as [[Hp0 Hb] | (Hp0 & Hpl & Hb)].
  - rewrite Hp0. cbn [Z.eqb]. eexists 0, buf, _. split_and!; [done | apply frame_adv |].
    right; left. split_and!; [done | done |]. exists sni, v'. split_and!; [done | done | by eapply holds_block_trans].
  - destruct (Z.eqb_spec (ptr_at map b) 0); [lia |].
    destruct Hd as [-> | (id & acc' & app & Hd & Hacc' & _)]; [rewrite zlen_nil in Hpl; unfold BL_S in Hpl; lia |].
    destruct (b_read_copy_spec (set_os (adv (w_os w)) w) (step_datfd step) id dat acc' app b (ptr_at map b - 1) from len to buf)
      as (r & buf' & E & Hr); [by apply atomic_adv | done | done | by eapply holds_block_into | lia | done |].
    exists r, buf', (adv (adv (w_os w))). split_and!; [done | etransitivity; apply frame_adv |].
    destruct Hr as [? | [? Hfl]]; [by left | right; right]. split; [done |]. by apply faulty_adv.
Qed.

Lemma b_read_step_spec w sni v b from len to buf :
  atomic (w_os w) -> chain_ok (w_os w) (sn_steps mfd) views -> views !! sni = Some v ->
  holds_block old b v b -> part_ok b from len ->
  exists r buf' s', b_read_step mfd sni b to len from buf w = Some ((r, buf'), set_os s' w) /\
    frame quiet (w_os w) s' /\ step_post w sni b from len to buf r buf'.
Proof using Hold.
  intros Ha Hc Hv Hh Hp. pose proof (holds_block_in _ _ _ (proj1 Hp) Hh) as Hin.
  destruct (lookup_lt_is_Some_2 (sn_steps mfd) sni) as [step Hst].
  { rewrite <-(ck_len _ _ _ Hc). by eapply lookup_lt_Some. }
  destruct sni as [| sni].
  - destruct (ck_main _ _ _ Hc _ _ Hst Hv) as [-> | (im & acc & app & Hf & Hacc)]; [by destruct (in_old_nil b) |].
    pose proof Hp as ([Hb0 _] & _). unfold b_read_step. rewrite Hst. cbn [Z.of_nat Z.ltb Z.compare].
    destruct (b_read_copy_spec w _ im v acc app b b from len to buf Ha Hf Hacc Hh Hb0 Hp) as (r & buf' & E & Hr).
    exists r, buf', (adv (w_os w)). split_and!; [done | apply frame_adv |].
    destruct Hr; [by left | by right; right].
  - destruct (lookup_lt_is_Some_2 views sni) as [v' Hv'].
    { apply lookup_lt_Some in Hv. lia. }
    pose proof (ck_step _ _ _ Hc _ _ _ _ Hst Hv Hv') as Hok.
    destruct (Z.ltb_spec (step_mapfd step) 0) as [Hneg | Hpos]; [| by eapply b_read_step_mapped].
    destruct Hok as [-> | [[_ ->] | [? _]]]; [by destruct (in_old_nil b) | | lia].
    unfold b_read_step. rewrite Hst. destruct (Z.ltb_spec 0 (Z.of_nat (S sni))); [| lia].
    destruct (Z.ltb_spec (step_mapfd step) 0); [| lia].
    exists 0, buf, (w_os w). split_and!; [by destruct w | done |]. right; left. eauto 10.
Qed.

(** The lock is not held and the table idle, or it is held and can be released. *)
Definition lock_st (lock : Z) (w : world) : Prop :=
  (lock = -1 /\ lk_idle (mflocks (w_fs w))) \/
  (0 <= lock /\ forall w2, mflocks (w_fs w2) = mflocks (w_fs w) ->
     exists t, lk_idle t /\ unlock_ lock w2 = Some (0, set_fs (set_mflocks t (w_fs w2)) w2)).

Lemma lock_st_os lock w s : lock_st lock w -> lock_st lock (set_os s w).
Proof. done. Qed.

(** Taking the lock where the loop wants it. *)
Lemma b_read_lock w sni lock :
  lock_st lock w ->
  let want := (Z.of_nat sni <=? 1) && (lock =? -1) in
  exists lock' t, (if want then lock_ (locklabel mfd) else mret lock) w = Some (lock', set_fs (set_mflocks t (w_fs w)) w) /\
    lock_st lock' (set_fs (set_mflocks t (w_fs w)) w) /\ (want && (lock' <? 0)) = false.
Proof using Hlab.
  intros Hl want. destruct want eqn:Ew; unfold want in *.
  - apply andb_true_iff in Ew as [_ ->%Z.eqb_eq].
    destruct Hl as [[_ Hi] | [? _]]; [| lia].
    destruct (lk_lock_ok w (locklabel mfd) Hi Hlab) as (id & t & Hid & E & Hun).
    exists id, t. split_and!; [done | right; split; [lia | done] |]. destruct (Z.ltb_spec id 0); [lia | done].
  - exists lock, (mflocks (w_fs w)). split_and!; [by destruct w as [? [] ? ? ? ?] | by destruct w as [? [] ? ? ? ?] | done].
Qed.

(** Releasing it. *)
Lemma b_read_unlock w lock :
  lock_st lock w ->
  exists t, (if negb (lock =? -1) then unlock_ lock else mret 0) w = Some (0, set_fs (set_mflocks t (w_fs w)) w) /\ lk_idle t.
Proof.
  intros [[-> Hi] | [Hl Hun]].
  - exists (mflocks (w_fs w)). split; [by destruct w as [? [] ? ? ? ?] | done].
  - destruct (Z.eqb_spec lock (-1)); [lia |]. destruct (Hun w eq_refl) as (t & Hi & E). by exists t.
Qed.

(** The search down the chain finds the block. *)
Lemma b_read_sni_spec k : forall w lock buf v b from len to,
  atomic (w_os w) -> chain_ok (w_os w) (sn_steps mfd) views -> lock_st lock w ->
  views !! k = Some v -> holds_block old b v b -> part_ok b from len ->
  exists out buf' w', b_read_sni lock_ unlock_ mfd (S k) lock b to len from buf w = Some ((out, buf'), w') /\
    rframe w w' /\ lk_idle (mflocks (w_fs w')) /\
    ((out = RNext /\ buf' = with_part buf b to len from) \/
     (exists r, out = RReturn r /\ r < 0 /\ faulty (w_os w))).
Proof using Hold Hlab.
  induction k as [k IH] using lt_wf_ind. intros w lock buf v b from len to Ha Hc Hl Hv Hh Hp.
  cbn [b_read_sni].
  destruct (b_read_lock w k lock Hl) as (lock' & t & E & Hl' & Hw).
  rewrite (st_bind_run _ _ _ _ _ E), Hw. clear E.
  set (w1 := set_fs (set_mflocks t (w_fs w)) w) in *.
  destruct (b_read_step_spec w1 k v b from len to buf Ha Hc Hv Hh Hp) as (r & buf' & s' & E & Hfr & Hpost).
  rewrite (st_bind_run _ _ _ _ _ E). clear E.
  assert (Hfr' : rframe w (set_os s' w1)).
  { etransitivity; [apply (rframe_table w t) | by apply (rframe_os w1)]. }
  destruct (Z.eqb_spec r 0) as [-> | Hr].
  - destruct Hpost as [[? _] | [(_ & -> & k' & v' & -> & Hv' & Hh') | [? _]]]; [lia | | lia].
    destruct (IH k' ltac:(lia) (set_os s' w1) lock' buf v' b from len to) as (out & buf'' & w2 & E & Hf2 & Hi & Hpost);
      [by apply (fr_atomic _ _ _ Hfr) | by eapply chain_ok_frame | by apply lock_st_os | done | done | done |].
    exists out, buf'', w2. split_and!; [done | by etransitivity | done |].
    destruct Hpost as [? | (r & ? & ? & Hfl)]; [by left | right]. exists r. split_and!; [done | done |].
    by apply (fr_faulty _ _ _ Hfr).
  - destruct (b_read_unlock (set_os s' w1) lock' (lock_st_os _ _ _ Hl')) as (t' & E & Hi).
    rewrite (st_bind_run _ _ _ _ _ E). clear E. cbn [Z.ltb Z.compare].
    assert (Hfr2 : rframe w (set_fs (set_mflocks t' (w_fs (set_os s' w1))) (set_os s' w1))).
    { etransitivity; [done | apply rframe_table]. }
    destruct Hpost as [[-> ->] | [(? & _) | [Hr' Hfl]]]; [| lia |].
    + eexists RNext, _, _. split_and!; [done | done | done | by left].
    + destruct (Z.ltb_spec 0 r); [| lia].
      eexists (RReturn (- r)), _, _. split_and!; [done | done | done |]. right. exists (- r). split_and!; [done | lia | done].
Qed.
End Block.

(** ** The range *)

(** Bytes copied before block [b] is read. *)
Definition copied (off size b : Z) : Z := Z.min size (Z.max 0 (b * BL_S - off)).

Lemma b_read_part_eq off size b lastp :
  0 <= off -> 1 <= size -> off + size < 2 ^ 62 -> off / BL_S <= b <= (off + size - 1) / BL_S ->
  (lastp = true <-> b = (off + size - 1) / BL_S) ->
  exists from, b_read_part (copied off size b =? 0) lastp b off size = (from, copied off size (b + 1) - copied off size b) /\
    0 <= from /\ b * BL_S + from = off + copied off size b /\
    from + (copied off size (b + 1) - copied off size b) <= BL_S /\ copied off size b <= copied off size (b + 1).
Proof.
  intros Ho Hs Hb Hr Hlast. unfold b_read_part, copied. rewrite !shiftl_block.
  pose proof (div_block_bounds off). pose proof (div_block_bounds (off + size - 1)).
  assert (HB : BL_S = 131072) by done. rewrite HB in *.
  set (f := off / 131072) in *. set (l := (off + size - 1) / 131072) in *.
  eexists. split; [f_equal |].
  - destruct (Z.eqb_spec (Z.min size (Z.max 0 (b * 131072 - off))) 0), lastp;
      rewrite ?(u64_small (131072 - _)) by lia; rewrite ?u64_small by lia;
      destruct Hlast as [H1 H2]; try (specialize (H1 eq_refl)); try (assert (b <> l) by (intros E; by specialize (H2 E))); lia.
  - destruct (Z.eqb_spec (Z.min size (Z.max 0 (b * 131072 - off))) 0); lia.
Qed.

Lemma copied_first off size : 0 <= off -> 1 <= size -> copied off size (off / BL_S) = 0.
Proof. intros. pose proof (div_block_bounds off). unfold copied. lia. Qed.

Lemma copied_end off size : 0 <= off -> 1 <= size -> copied off size ((off + size - 1) / BL_S + 1) = size.
Proof. intros. pose proof (div_block_bounds (off + size - 1)). unfold copied. lia. Qed.

(** The part of block [b] that is copied, and the buffer after it. *)
Lemma copied_part old off size buf b from :
  let to := copied off size b in let to' := copied off size (b + 1) in
  0 <= off -> 1 <= size -> off + size <= zlen old -> off / BL_S <= b <= (off + size - 1) / BL_S ->
  0 <= from -> b * BL_S + from = off + to -> from + (to' - to) <= BL_S -> to <= to' ->
  part_ok old b from (to' - to) /\
  with_part old (file_write buf (file_read old to off) 0) b to (to' - to) from = file_write buf (file_read old to' off) 0.
Proof.
  intros to to' Ho Hs Hend Hb Hfrom Hpos Hfit Hmono.
  assert (Hto : 0 <= to) by (unfold to, copied; lia). assert (Hto' : to' <= size) by (unfold to', copied; lia).
  pose proof (div_block_bounds (off + size - 1)). pose proof (Z.div_pos off BL_S Ho ltac:(done)). split.
  - split_and!; [split; [lia |] | lia..]. unfold BL_S in *. nia.
  - unfold with_part. rewrite Hpos. replace to' with (to + (to' - to)) at 2 by lia.
    rewrite (file_read_split old to (to' - to) off) by lia. rewrite <-file_write_seq. f_equal.
    rewrite zlen_file_read; lia.
Qed.

(** ** [b_read] *)

(** A handle on a file inside a snapshot, which had the contents [old]. *)
Record read_ok (idle : list mflock_t -> Prop) (w : world) (mfd : mfd_t) (views : list (list Z)) (old : list Z) : Prop := {
  ro_chain : chain_ok (w_os w) (sn_steps mfd) views;
  ro_first : 0 <= sn_first_file mfd;
  ro_old : views !! Z.to_nat (sn_first_file mfd) = Some old;
  ro_size : st_size (mh_fstat (mapheader mfd)) = zlen old;
  ro_len : zlen old < 2 ^ 62;
  ro_idle : idle (mflocks (w_fs w));
  ro_atomic : atomic (w_os w);
  ro_label : locklabel mfd <> 0
}.

(** How a read of [n] bytes from [off] ends: nothing is changed, and the
    buffer has the old bytes unless some call failed. *)
Definition read_post (idle : list mflock_t -> Prop) (w : world) (mfd : mfd_t) (views : list (list Z)) (old : list Z)
    (buf : list Z) (n off : Z) (out : option (Z * list Z * world)) : Prop :=
  exists r buf' w', out = Some (r, buf', w') /\ rframe w w' /\ read_ok idle w' mfd views old /\
    ((r = n /\ buf' = file_write buf (file_read old n off) 0) \/ (r < 0 /\ faulty (w_os w))).

Section BRead.
Context (lock_ unlock_ : Z -> M Z) {LS : LockService lock_ unlock_}.
Context (mfd : mfd_t) (views : list (list Z)) (old : list Z).

Lemma read_ok_frame w w' :
  read_ok lk_idle w mfd views old -> rframe w w' -> lk_idle (mflocks (w_fs w')) ->
  read_ok lk_idle w' mfd views old.
Proof.
  intros [] [Hf _] Hi. split; try done.
  - by eapply chain_ok_frame; [apply (wf_os _ _ _ Hf) |].
  - by apply (fr_atomic _ _ _ (wf_os _ _ _ Hf)).
Qed.

Lemma b_read_loop_spec off size buf n : forall w b,
  read_ok lk_idle w mfd views old -> 0 <= off -> 1 <= size -> size < 2 ^ 31 -> off + size <= zlen old ->
  off / BL_S <= b -> b + Z.of_nat n = (off + size - 1) / BL_S + 1 ->
  read_post lk_idle w mfd views old buf size off
    (b_read_loop lock_ unlock_ mfd n b (copied off size b) off size
       (file_write buf (file_read old (copied off size b) off) 0) w).
Proof.
  induction n as [| n IH]; intros w b H Ho Hs Hs31 Hend Hf Hn; pose proof H as [].
  { replace b with ((off + size - 1) / BL_S + 1) by lia. rewrite copied_end by done. cbn [b_read_loop].
    eexists _, _, w. split_and!; [done | done | done |]. left. split; [| done]. apply i32_small. lia. }
  cbn [b_read_loop].
  destruct (b_read_part_eq off size b (S n =? 1)%nat) as (from & E & Hfrom & Hpos & Hfit & Hmono); [lia.. | |].
  { destruct n; cbn; split; intros; (done || lia). }
  rewrite E. clear E. destruct (copied_part old off size buf b from) as [Hp Eb]; [lia.. |].
  set (to := copied off size b) in *. set (to' := copied off size (b + 1)) in *.
  replace (Z.to_nat (sn_first_file mfd + 1)) with (S (Z.to_nat (sn_first_file mfd))) by lia.
  destruct (b_read_sni_spec lock_ unlock_ mfd views old ro_label0 ro_len0 (Z.to_nat (sn_first_file mfd)) w (-1)
              (file_write buf (file_read old to off) 0) old b from (to' - to) to) as (out & buf' & w' & E & Hfr & Hi & Hpost);
    [done | done | by left | done | apply holds_block_refl | done |].
  rewrite (st_bind_run _ _ _ _ _ E). clear E.
  destruct Hpost as [[-> ->] | (r & -> & Hr & Hfl)].
  - rewrite Eb. replace (to + (to' - to)) with to' by lia. unfold to'.
    destruct (IH w' (b + 1) (read_ok_frame _ _ H Hfr Hi)) as (r & buf' & w2 & E & Hf2 & H2 & Hpost); [lia.. |].
    exists r, buf', w2. split_and!; [done | by etransitivity | done |].
    destruct Hpost as [? | [? Hfl]]; [by left | right]. split; [done |]. by apply (fr_faulty _ _ _ (wf_os _ _ _ (proj1 Hfr))).
  - exists r, buf', w'. split_and!; [done | done | by eapply read_ok_frame |]. by right.
Qed.

(** The bytes to return: the part of the range that lies in the old contents. *)
Definition read_len (old : list Z) (size off : Z) : Z := Z.max 0 (Z.min size (zlen old - off)).

Lemma b_read_spec w buf size off :
  read_ok lk_idle w mfd views old -> 0 <= off -> 0 <= size < 2 ^ 31 -> off + size < 2 ^ 63 ->
  read_post lk_idle w mfd views old buf (read_len old size off) off
    (b_read lock_ unlock_ buf mfd size off w).
Proof.
  intros H Ho Hs Hb. pose proof H as []. pose proof (zlen_nonneg old).
  assert (Hnone : read_len old size off = 0 -> read_post lk_idle w mfd views old buf 0 off (Some (0, buf, w))).
  { intros _. exists 0, buf, w. split_and!; [done | done | done |]. by left. }
  assert (Hgo : forall n, 1 <= n -> n < 2 ^ 31 -> off + n <= zlen old ->
    read_post lk_idle w mfd views old buf n off
      ((let '(blockoffset, blocknumber) := B_CALC_BLOCKS off n in
        b_read_loop lock_ unlock_ mfd (Z.to_nat blocknumber) blockoffset 0 off n buf) w)).
  { intros n Hn Hn31 Hend. rewrite calc_blocks_eq by lia.
    pose proof (Z.div_le_mono off (off + n - 1) BL_S ltac:(done) ltac:(lia)).
    pose proof (b_read_loop_spec off n buf (Z.to_nat ((off + n - 1) / BL_S - off / BL_S + 1)) w (off / BL_S) H) as L.
    rewrite copied_first in L by lia. apply L; lia. }
  unfold b_read. rewrite ro_size0. destruct (Z.eqb_spec size 0) as [-> | ?].
  { replace (read_len old 0 off) with 0 by (unfold read_len; lia). apply Hnone. unfold read_len. lia. }
  rewrite !u64_small by lia. destruct (Z.ltb_spec (zlen old) (off + size)).
  - destruct (Z.leb_spec (zlen old) off).
    + replace (read_len old size off) with 0 by (unfold read_len; lia). apply Hnone. unfold read_len. lia.
    + rewrite u64_small by lia. replace (read_len old size off) with (zlen old - off) by (unfold read_len; lia).
      apply Hgo; lia.
  - replace (read_len old size off) with size by (unfold read_len; lia). apply Hgo; lia.
Qed.
End BRead.
