(* ===== verification/UtilLocking.v ===== *)
(** [util_locking.c]: removing a directory tree and creating the parents of a path. *)

From S2P Require Import Prelude Posix Types Util Mflock.
From Stdlib Require Import Ascii.

(** ** rm -r *)

(** [_univ_rm]: 0 or errno. *)
Definition univ_rm (fpath : string) (isdir : bool) : M Z :=
  r ← (if isdir then sys (sys_rmdir fpath) else sys (sys_unlink fpath));
  mret match r with Ok _ => 0 | Err e => e end.

Fixpoint join_path (p : path) : string :=
  match p with
  | [] => EmptyString
  | c :: r => "/" +:+ c +:+ join_path r
  end.

(** The walk below a directory, contents before the directory itself; a
    path has at most as many ancestors as there are names, so [size] of them
    is enough fuel. *)
Fixpoint postorder (fuel : nat) (s : os) (p : path) : list path :=
  match fuel with
  | O => [p]
  | S n => flat_map (postorder n s) (children s p) ++ [p]
  end.

Definition tree_postorder (s : os) (p : path) : list path := postorder (size (os_names s)) s p.

(** [nftw] with FTW_DEPTH: visits the contents of a directory before the
    directory; stops at the first result that is not 0.  A path that does
    not exist, or whose stat cannot be read, is an error of [nftw] itself, -1. *)
Fixpoint nftw_visit (fn : string -> bool -> M Z) (ps : list path) : M Z :=
  match ps with
  | [] => mret 0
  | p :: r =>
      sb ← sys (sys_lstat (join_path p));
      match sb with
      | Err _ => mret (-1)
      | Ok sb => x ← fn (join_path p) (S_ISDIR (st_mode sb)); if x =? 0 then nftw_visit fn r else mret x
      end
  end.

Definition nftw (name : string) (fn : string -> bool -> M Z) : M Z :=
  w ← st_get;
  match lookup_path (w_os w) (resolve name) with
  | Err _ => mret (-1)
  | Ok _ => nftw_visit fn (tree_postorder (w_os w) (resolve name))
  end.

Definition recursive_remove (path : string) : M Z :=
  lock ← mflock_lock (string2locklabel LOCKLABEL_RMDIR);
  if lock <? 0 then mret lock
  else
    ret ← nftw path univ_rm;
    lock ← mflock_unlock lock;
    if negb (lock =? 0) then mret lock
    else if 0 <=? ret then mret (- ret)
    else mret (- ENOMEM).

(** ** mkdir -p *)

(** The position of the last '/' in the first [n] characters. *)
Fixpoint last_slash (s : string) : option nat :=
  match s with
  | EmptyString => None
  | String c r =>
      match last_slash r with
      | Some k => Some (S k)
      | None => if Ascii.eqb c DIRSEPCH then Some O else None
      end
  end.

(** Creates the parents of [path]; the return value and the first directory
    created.  Every call is on a shorter path. *)
Fixpoint mkpath_rec (fuel : nat) (path : string) (mode : Z) : M (Z * string) :=
  match fuel with
  | O => st_stuck
  | S n =>
      match last_slash path with
      | None | Some O => mret (- EBADE, "")
      | Some (S _ as slashpos) =>
          let prepath := strncpy path (Z.of_nat slashpos) in
          st ← sys (sys_lstat prepath);
          match st with
          | Err e =>
              if e =? ENOENT then
                '(mkpathret, first) ← mkpath_rec n prepath mode;
                if mkpathret <? 0 then mret (mkpathret, first)
                else
                  m ← sys (sys_mkdir prepath mode);
                  match m with
                  | Err e' =>
                      (* another thread may be creating the same directories *)
                      if e' =? EEXIST then mret (1, if mkpathret =? 0 then prepath else first)
                      else mret (- e', first)
                  | Ok _ => mret (1, if mkpathret =? 0 then prepath else first)
                  end
              else mret (- e, "")
          | Ok mystat => mret (if S_ISDIR (st_mode mystat) then 0 else - ENOTDIR, "")
          end
      end
  end.

Definition mkpath (path : string) (mode : Z) : M (Z * string) :=
  mkpath_rec (S (String.length path)) path mode.
