(* ===== verification/Layout.v ===== *)
(** Where ESFS puts its files: real paths as lists of components.

    The main space lies at [R], the snapshots at [R/snapshots/ID], pointer
    files beside them and the map and dat files below them.  The names of
    files of different kinds, and of different snapshots, never coincide. *)

From S2P Require Import Prelude Posix PosixPath Types Util UtilTheorems UtilLocking.

(** ** Components *)

Definition comp_ok (c : string) : Prop := c <> "" /\ no_slash c = true /\ c <> "." /\ c <> "..".

#[global] Instance comp_ok_dec c : Decision (comp_ok c).
Proof. unfold comp_ok. apply _. Defined.

Lemma no_slash_app s t : no_slash (s +:+ t) = no_slash s && no_slash t.
Proof. induction s as [| c s IH]; [done |]. rewrite append_cons. cbn. by rewrite IH, andb_assoc. Qed.

(** A component with an extension. *)
Lemma comp_ok_ext c e : comp_ok c -> no_slash e = true -> 2 < strlen e -> comp_ok (c +:+ e).
Proof.
  intros (Hc & Hs & _ & _) He Hl. assert (Hlen : 2 < strlen (c +:+ e)) by (rewrite strlen_app; pose proof (strlen_nonneg c); lia).
  split_and!; [| by rewrite no_slash_app, Hs, He | |]; intros E; rewrite E in Hlen; vm_compute in Hlen; done.
Qed.

Lemma split_path_comp c : forall cur t, no_slash c = true ->
  split_path (c +:+ String DIRSEPCH t) cur = (cur +:+ c) :: split_path t "".
Proof.
  induction c as [| a c IH]; intros cur t; [intros _; cbn; by rewrite string_app_nil_r |].
  rewrite append_cons. cbn [no_slash split_path]. intros [Ha Hc]%andb_prop. unfold DIRSEPCH in Ha.
  destruct (Ascii.eqb a _); [done |]. rewrite IH by done. by rewrite string_app_assoc.
Qed.

Lemma split_path_end c : forall cur, no_slash c = true -> split_path c cur = [cur +:+ c].
Proof.
  induction c as [| a c IH]; intros cur; [intros _; cbn; by rewrite string_app_nil_r |].
  cbn [no_slash split_path]. intros [Ha Hc]%andb_prop. unfold DIRSEPCH in Ha.
  destruct (Ascii.eqb a _); [done |]. rewrite IH by done. by rewrite string_app_assoc.
Qed.

Lemma norm_comp acc c : comp_ok c -> norm_step acc c = acc ++ [c].
Proof.
  intros (H1 & _ & H2 & H3). unfold norm_step.
  by rewrite (proj2 (String.eqb_neq _ _) H1), (proj2 (String.eqb_neq _ _) H2), (proj2 (String.eqb_neq _ _) H3).
Qed.

Lemma split_join cs : Forall comp_ok cs -> split_path (join_path cs) "" = "" :: cs.
Proof.
  induction 1 as [| c cs Hc Hcs IH]; [done |]. destruct Hc as (_ & Hs & _).
  change (join_path (c :: cs)) with (String DIRSEPCH (c +:+ join_path cs)). cbn [split_path DIRSEPCH Ascii.eqb]. f_equal.
  change (split_path (c +:+ join_path cs) "" = c :: cs).
  destruct cs as [| d cs]; [cbn [join_path]; by rewrite string_app_nil_r, split_path_end |].
  change (join_path (d :: cs)) with (String DIRSEPCH (d +:+ join_path cs)) in *.
  rewrite split_path_comp by done. cbn in IH. by injection IH as ->.
Qed.

(** Components are what a path is made of. *)
Lemma resolve_join cs : Forall comp_ok cs -> resolve (join_path cs) = cs.
Proof.
  intros H. unfold resolve. rewrite (split_join _ H). cbn [foldl].
  change (norm_step [] "") with (@nil string). change cs with ([] ++ cs) at 2. generalize (@nil string) as acc.
  induction H as [| c cs Hc _ IH]; intros acc; cbn [foldl]; [by rewrite app_nil_r |].
  rewrite norm_comp, IH by done. by rewrite <-app_assoc.
Qed.

Lemma join_app p q : join_path (p ++ q) = join_path p +:+ join_path q.
Proof.
  induction p as [| c p IH]; [done |]. cbn [app join_path]. rewrite IH. by rewrite !string_app_assoc.
Qed.

(** An extension goes to the last component. *)
Lemma join_ext p c e : join_path (p ++ [c]) +:+ e = join_path (p ++ [c +:+ e]).
Proof. rewrite !join_app, string_app_assoc. cbn [join_path]. by rewrite !string_app_nil_r, string_app_assoc. Qed.

Lemma ext_inj s s' e : s +:+ e = s' +:+ e -> s = s'.
Proof.
  revert s'. induction s as [| c s IH]; intros [| c' s'] H; [done | | |].
  - apply (f_equal strlen) in H. rewrite !strlen_app in H. unfold strlen in H. cbn in H. lia.
  - apply (f_equal strlen) in H. rewrite !strlen_app in H. unfold strlen in H. cbn in H. lia.
  - rewrite !append_cons in H. injection H as -> H. by rewrite (IH _ H).
Qed.

(** ** The layout *)

(** The root of a snapshot, its pointer file, the pointer to the latest
    snapshot, and the files it keeps for [C/c]. *)
Definition sn_root (R : path) (id : string) : path := R ++ ["snapshots"; id].
Definition hid_name (R : path) (id : string) : path := R ++ ["snapshots"; id +:+ EXT_HID].
Definition latest_name (R : path) : path := R ++ ["snapshots"; EXT_HID].
Definition sn_file (R : path) (id : string) (C : path) (c e : string) : path := sn_root R id ++ C ++ [c +:+ e].

Record layout (fs : fsdata_t) (R : path) (ids : list string) : Prop := {
  ly_R : Forall comp_ok R;
  ly_ids : Forall comp_ok ids;
  ly_nodup : NoDup ids;
  ly_root : rootdir fs = join_path R;
  ly_rootlen : rootdir_len fs = strlen (rootdir fs);
  ly_dir : sn_dir fs = join_path (R ++ ["snapshots"])
}.

Definition sn_path (R : path) (id : string) : string := join_path (sn_root R id).

Section Names.
Context (R : path) (HR : Forall comp_ok R).

Lemma resolve_hid id h : comp_ok id -> get_hid_path (sn_path R id) = Ok h -> resolve h = hid_name R id.
Proof using HR.
  intros Hid. unfold get_hid_path. case_match; [| done]. intros [= <-]. unfold sn_path, sn_root.
  change ["snapshots"; id] with (["snapshots"] ++ [id]). rewrite app_assoc, join_ext, <-app_assoc. apply resolve_join.
  apply Forall_app. split; [done |]. constructor; [by vm_compute |]. constructor; [| done].
  by apply comp_ok_ext.
Qed.

Lemma resolve_latest fs ids h : layout fs R ids -> get_dir_hid_path (sn_dir fs) = Ok h -> resolve h = latest_name R.
Proof using HR.
  intros []. unfold get_dir_hid_path. case_match; [| done]. intros [= <-]. rewrite ly_dir0.
  assert (E : join_path (R ++ ["snapshots"]) +:+ DIRSEP +:+ EXT_HID = join_path (latest_name R)).
  { unfold latest_name. change ["snapshots"; EXT_HID] with (["snapshots"] ++ [EXT_HID]). rewrite app_assoc.
    rewrite (join_app (R ++ ["snapshots"]) [EXT_HID]). cbn [join_path]. by rewrite string_app_nil_r. }
  rewrite E. apply resolve_join, Forall_app. split; [done |]. repeat constructor; by vm_compute.
Qed.

Lemma sn_file_string id C c e : sn_path R id +:+ join_path (C ++ [c]) +:+ e = join_path (sn_file R id C c e).
Proof.
  unfold sn_path, sn_file. by rewrite join_ext, <-join_app.
Qed.

Lemma resolve_sn_file id C c e :
  comp_ok id -> Forall comp_ok C -> comp_ok c -> no_slash e = true -> 2 < strlen e ->
  resolve (sn_path R id +:+ join_path (C ++ [c]) +:+ e) = sn_file R id C c e.
Proof using HR.
  intros Hid HC Hc He Hl. rewrite sn_file_string. apply resolve_join.
  unfold sn_file, sn_root. repeat (apply Forall_app; split); [done | | done |].
  - constructor; [by vm_compute | by constructor].
  - constructor; [by apply comp_ok_ext | done].
Qed.

Lemma length_sn_file id C c e : length (sn_file R id C c e) = (length R + length C + 3)%nat.
Proof. unfold sn_file, sn_root. rewrite !length_app. cbn. lia. Qed.

(** The files of different kinds and snapshots are different. *)
Lemma sn_file_hid id id' C c e : sn_file R id C c e <> hid_name R id'.
Proof.
  unfold sn_file, sn_root, hid_name. rewrite <-app_assoc. intros H%app_inv_head. cbn in H. injection H as _ H.
  by destruct C.
Qed.

Lemma sn_file_latest id C c e : sn_file R id C c e <> latest_name R.
Proof.
  unfold sn_file, sn_root, latest_name. rewrite <-app_assoc. intros H%app_inv_head. cbn in H. injection H as _ H.
  by destruct C.
Qed.

Lemma sn_file_other id id' C c e e' : id <> id' -> sn_file R id C c e <> sn_file R id' C c e'.
Proof.
  intros Hne. unfold sn_file, sn_root. rewrite <-!app_assoc. intros H%app_inv_head. cbn in H. by injection H.
Qed.

Lemma sn_file_map_dat id id' C c : sn_file R id C c EXT_MAP <> sn_file R id' C c EXT_DAT.
Proof.
  unfold sn_file, sn_root. rewrite <-!app_assoc. intros H%app_inv_head. cbn in H. injection H as _ H.
  apply app_inv_head in H. injection H as H. clear -H. induction c as [| a c IH]; [done |].
  rewrite !append_cons in H. injection H as H. by apply IH.
Qed.

Lemma sn_file_main id C c e : sn_file R id C c e <> R ++ C ++ [c].
Proof.
  unfold sn_file, sn_root. rewrite <-app_assoc. intros H%app_inv_head%(f_equal length).
  rewrite !length_app in H. cbn in H. lia.
Qed.

(** A path of the main space is not under [/snapshots]. *)
Lemma main_not_sn C p q : is_path_in_sn (join_path C) = false -> C <> "snapshots" :: p :: q.
Proof. intros H ->. cbn [join_path] in H. done. Qed.

Lemma hid_main id C : is_path_in_sn (join_path C) = false -> hid_name R id <> R ++ C.
Proof. intros H E%app_inv_head. by eapply main_not_sn. Qed.

Lemma latest_main C : is_path_in_sn (join_path C) = false -> latest_name R <> R ++ C.
Proof. intros H E%app_inv_head. by eapply main_not_sn. Qed.
End Names.
