(* ===== verification/Tree.v ===== *)
(** The directory tree of the underlying system as a whole.

    [os_wf] says that the names form a tree: every name lies in a directory,
    has an inode, and no two names share one (ESFS makes no links).  In such
    a tree a path is looked up by its node alone ([node_at]), and what a
    computation leaves alone can be said path by path ([same_but]).
    On this stand the laws of [mkpath] and of the walk that removes a tree. *)

From S2P Require Import Prelude Posix PosixSpec PosixPath Types Util UtilTheorems Mflock UtilLocking Layout.

(** ** Well-formed trees *)

Definition is_dir (s : os) (p : path) : Prop := exists n, node_at s p = Some n /\ i_isdir n = true.

Record os_wf (s : os) : Prop := {
  wf_root : is_dir s [];
  wf_node : forall p i, os_names s !! p = Some i -> is_Some (os_inodes s !! i);
  wf_parent : forall p c i, os_names s !! (p ++ [c]) = Some i -> is_dir s p;
  wf_comp : forall p i, os_names s !! p = Some i -> Forall comp_ok p;
  wf_inj : forall p q i, os_names s !! p = Some i -> os_names s !! q = Some i -> p = q
}.

(** [os_wf] as a check that runs. *)
Definition is_dir_b (s : os) (p : path) : bool := match node_at s p with Some n => i_isdir n | None => false end.

Definition entry_check (s : os) (p : path) (i : nat) : Prop :=
  is_Some (os_inodes s !! i) /\ Forall comp_ok p /\
  match p with [] => True | _ :: _ => is_dir_b s (take (length p - 1) p) = true end /\
  map_Forall (fun q j => j = i -> q = p) (os_names s).

#[global] Instance entry_check_dec s p i : Decision (entry_check s p i).
Proof. unfold entry_check. destruct p; apply _. Defined.

Lemma is_dir_b_spec s p : is_dir_b s p = true -> is_dir s p.
Proof. unfold is_dir_b. destruct (node_at s p) as [n |] eqn:E; [| done]. intros H. by exists n. Qed.

Lemma os_wf_check s : is_dir_b s [] = true -> map_Forall (entry_check s) (os_names s) -> os_wf s.
Proof.
  intros Hr H. split.
  - by apply is_dir_b_spec.
  - intros p i Hp. apply (H p i Hp).
  - intros p c i Hp. destruct (H _ i Hp) as (_ & _ & Hd & _).
    assert (E : take (length (p ++ [c]) - 1) (p ++ [c]) = p).
    { rewrite length_app. cbn. rewrite Nat.add_sub. apply take_app_length. }
    rewrite E in Hd. apply is_dir_b_spec. by destruct p.
  - intros p i Hp. apply (H p i Hp).
  - intros p q i Hp Hq. destruct (H q i Hq) as (_ & _ & _ & Hinj). by apply (Hinj p i Hp).
Qed.

(** A regular file by name. *)
Definition file_is (s : os) (p : path) (c : list Z) : Prop :=
  exists m, node_at s p = Some (Inode m c) /\ S_ISDIR (st_mode m) = false.

(** Nothing but directories up to and including [p]. *)
Definition clear_path (s : os) (p : path) : Prop :=
  forall q, q `prefix_of` p -> node_at s q = None \/ is_dir s q.

(** The inode number and the node at a path. *)
Definition entry_at (s : os) (p : path) : option (nat * inode) :=
  i ← os_names s !! p; n ← os_inodes s !! i; Some (i, n).

(** All that happens from [s] to [s'] happens at the paths in [T]. *)
Definition same_but (T : path -> Prop) (s s' : os) : Prop := forall p, ~ T p -> entry_at s' p = entry_at s p.

Lemma node_at_Some s p n : node_at s p = Some n <-> exists i, os_names s !! p = Some i /\ os_inodes s !! i = Some n.
Proof. unfold node_at. rewrite bind_Some. done. Qed.

Lemma entry_at_Some s p i n : entry_at s p = Some (i, n) <-> os_names s !! p = Some i /\ os_inodes s !! i = Some n.
Proof.
  unfold entry_at. split.
  - destruct (os_names s !! p) as [j |]; [| done]. cbn. destruct (os_inodes s !! j) as [m |] eqn:E; [| done]. cbn. by intros [= -> ->].
  - intros [-> H]. cbn. by rewrite H.
Qed.

Lemma node_entry s p : node_at s p = snd <$> entry_at s p.
Proof.
  unfold node_at, entry_at. destruct (os_names s !! p) as [i |]; [| done]. cbn. by destruct (os_inodes s !! i).
Qed.

Lemma prefix_snoc {A} (q p : list A) c : q `prefix_of` p ++ [c] -> q = p ++ [c] \/ q `prefix_of` p.
Proof.
  intros [r E]. destruct r as [| x r _] using rev_ind; [left; by rewrite app_nil_r in E |].
  right. rewrite app_assoc in E. apply app_inj_tail in E as [-> _]. by exists r.
Qed.

Section Wf.
Context (s : os) (Hwf : os_wf s).

Lemma wf_none p : node_at s p = None <-> os_names s !! p = None.
Proof using Hwf.
  unfold node_at. split; [| by intros ->]. destruct (os_names s !! p) as [i |] eqn:E; [| done].
  destruct (wf_node _ Hwf _ _ E) as [n Hn]. cbn. by rewrite Hn.
Qed.

Lemma wf_up p c n : node_at s (p ++ [c]) = Some n -> is_dir s p.
Proof using Hwf. intros (i & Hi & _)%node_at_Some. by eapply wf_parent. Qed.

(** The directories above a node, or in a directory. *)
Lemma is_dir_walk p : is_dir s p -> dirs_ok s p.
Proof using Hwf.
  unfold dirs_ok. induction p as [| c p IH] using rev_ind; [done |]. intros (n & Hn & _).
  destruct (wf_up _ _ _ Hn) as (n' & Hn' & Hd). rewrite ancestors_app, walk_app by (apply IH; by exists n').
  cbn. by rewrite Hn', Hd.
Qed.

Lemma in_dir_walk p c : is_dir s p -> dirs_ok s (p ++ [c]).
Proof using Hwf.
  intros Hd. unfold dirs_ok. rewrite ancestors_app, walk_app by by apply is_dir_walk.
  destruct Hd as (n & Hn & Hd). cbn. by rewrite Hn, Hd.
Qed.

Lemma node_walk p n : node_at s p = Some n -> dirs_ok s p.
Proof using Hwf.
  destruct p as [| c p _] using rev_ind; [done |]. intros Hn. apply in_dir_walk. by eapply wf_up.
Qed.

Lemma wf_dir_at p : is_dir s p -> dir_at s p.
Proof using Hwf.
  intros Hd. pose proof (is_dir_walk _ Hd) as Hw. destruct Hd as (n & (i & Hi & Hn)%node_at_Some & Hd).
  exists i, n. split; [| done]. unfold lookup_path. by rewrite Hw, Hi.
Qed.

Lemma wf_file_at p c : file_is s p c <-> exists i, file_at s p i c.
Proof using Hwf.
  split.
  - intros (m & Hn & Hd). pose proof (node_walk _ _ Hn) as Hw. apply node_at_Some in Hn as (i & Hi & Hn).
    exists i. split; [done |]. split; [done |]. by exists m.
  - intros (i & _ & Hi & m & Hn & Hd). exists m. split; [| done]. apply node_at_Some. by exists i.
Qed.

Lemma wf_absent_at p c : is_dir s p -> node_at s (p ++ [c]) = None -> absent_at s (p ++ [c]).
Proof using Hwf. intros Hd Hn. split; [by apply in_dir_walk | by apply wf_none]. Qed.

(** A path whose nodes are directories as far as they exist. *)
Lemma wf_enoent p c : clear_path s p -> node_at s (p ++ [c]) = None -> enoent_at s (p ++ [c]).
Proof using Hwf.
  revert c. induction p as [| d p IH] using rev_ind; intros c Hc Hn.
  - apply absent_enoent, (wf_absent_at []); [apply (wf_root _ Hwf) | done].
  - destruct (Hc (p ++ [d]) (reflexivity _)) as [E | E].
    + destruct (IH d) as (q & Hq & Ha); [| done |].
      * intros q Hq. apply Hc. etransitivity; [done | by apply prefix_app_r].
      * exists q. split; [| done]. etransitivity; [done | by apply prefix_app_r].
    + by apply absent_enoent, wf_absent_at.
Qed.

(** Below a missing name there is nothing. *)
Lemma wf_below p q : node_at s p = None -> p `prefix_of` q -> node_at s q = None.
Proof using Hwf.
  intros Hp [r ->]. induction r as [| c r IH] using rev_ind; [by rewrite app_nil_r |].
  rewrite app_assoc. destruct (node_at s ((p ++ r) ++ [c])) as [n |] eqn:E; [| done].
  apply wf_up in E as (n' & E & _). congruence.
Qed.
End Wf.

Lemma walk_end s ps qs : walk s (ps ++ qs) = Ok tt -> walk s qs = Ok tt.
Proof. induction ps as [| p r IH]; cbn; [done |]. destruct (node_at s p) as [i |]; [| done]. by destruct (i_isdir i). Qed.

Lemma dirs_ok_parent s p c : dirs_ok s (p ++ [c]) -> is_dir s p.
Proof.
  unfold dirs_ok. rewrite ancestors_app. intros H%walk_end. cbn in H.
  destruct (node_at s p) as [n |] eqn:E; [| done]. destruct (i_isdir n) eqn:Ed; [| done]. by exists n.
Qed.

Lemma grows_is_dir s s' p : grows s s' -> is_dir s p -> is_dir s' p.
Proof.
  intros [Hn Hi] (n & (i & Hp & Hin)%node_at_Some & Hd). destruct (Hi _ _ Hin) as (n' & Hin' & Hm).
  exists n'. split; [| unfold i_isdir in *; by rewrite Hm]. apply node_at_Some. exists i. auto.
Qed.

Lemma is_dir_not_file s p c : is_dir s p -> file_is s p c -> False.
Proof. intros (n & Hn & Hd) (m & Hm & Hf). rewrite Hn in Hm. injection Hm as ->. unfold i_isdir in Hd. cbn in Hd. congruence. Qed.

(** ** What keeps a tree well-formed *)

#[global] Instance same_but_refl T : Reflexive (same_but T).
Proof. by intros s p _. Qed.

#[global] Instance same_but_trans T : Transitive (same_but T).
Proof. intros s1 s2 s3 H1 H2 p Hp. by rewrite (H2 p Hp), (H1 p Hp). Qed.

Lemma same_but_weaken (T T' : path -> Prop) s s' : (forall p, T p -> T' p) -> same_but T s s' -> same_but T' s s'.
Proof. intros H Hs p Hp. apply Hs. auto. Qed.

Lemma same_but_node T s s' p : same_but T s s' -> ~ T p -> node_at s' p = node_at s p.
Proof. intros H Hp. by rewrite !node_entry, (H p Hp). Qed.

Lemma same_but_dir T s s' p : same_but T s s' -> ~ T p -> is_dir s p -> is_dir s' p.
Proof. intros H Hp (n & Hn & Hd). exists n. by rewrite (same_but_node _ _ _ _ H Hp). Qed.

Lemma same_but_file T s s' p c : same_but T s s' -> ~ T p -> file_is s p c -> file_is s' p c.
Proof. intros H Hp (m & Hn & Hd). exists m. by rewrite (same_but_node _ _ _ _ H Hp). Qed.

Lemma os_wf_fds s x : os_wf s -> os_wf (set_fds x s).
Proof. intros []. by split. Qed.

Lemma os_wf_same s s' : os_names s' = os_names s -> os_inodes s' = os_inodes s -> os_wf s -> os_wf s'.
Proof. destruct s, s'. cbn. intros -> -> []. by split. Qed.

(** Changing the contents of files. *)
Lemma frame_is_dir touch s s' p : frame touch s s' -> is_dir s p -> is_dir s' p.
Proof.
  intros H (n & (i & Hi & Hn)%node_at_Some & Hd). pose proof (fr_meta _ _ _ H i) as Hm. rewrite Hn in Hm.
  destruct (os_inodes s' !! i) as [n' |] eqn:E; [| done]. injection Hm as Hm.
  exists n'. split; [| unfold i_isdir in *; by rewrite Hm]. apply node_at_Some. exists i. by rewrite (fr_names _ _ _ H).
Qed.

Lemma os_wf_frame touch s s' : frame touch s s' -> os_wf s -> os_wf s'.
Proof.
  intros H []. split; rewrite ?(fr_names _ _ _ H); try done.
  - by eapply frame_is_dir.
  - intros p i Hi. destruct (wf_node0 _ _ Hi) as [n Hn]. pose proof (fr_meta _ _ _ H i) as Hm. rewrite Hn in Hm.
    by destruct (os_inodes s' !! i).
  - intros p c i Hi. eapply frame_is_dir; [done | by eapply wf_parent0].
Qed.

Lemma frame_same_but touch s s' :
  frame touch s s' -> same_but (fun p => exists i, os_names s !! p = Some i /\ touch i) s s'.
Proof.
  intros H p Hp. unfold entry_at. rewrite (fr_names _ _ _ H).
  destruct (os_names s !! p) as [i |] eqn:E; [| done]. cbn. rewrite (fr_inodes _ _ _ H); [done |].
  intros Ht. apply Hp. by exists i.
Qed.

(** Adding a node in a directory. *)
Section Add.
Context (s : os) (Hwf : os_wf s) (p : path) (c : string) (mode : Z).
Context (Hp : is_dir s p) (Hc : comp_ok c) (Hn : node_at s (p ++ [c]) = None).
Let s' := snd (add_node (p ++ [c]) mode s).

Lemma add_node_same : same_but (eq (p ++ [c])) s s'.
Proof using Hwf.
  intros q Hq. unfold s', entry_at, add_node. cbn. rewrite lookup_insert_ne by done.
  destruct (os_names s !! q) as [i |] eqn:E; [| done]. cbn. rewrite lookup_insert_ne; [done |].
  intros <-. destruct (wf_node _ Hwf _ _ E) as [n E']. by rewrite fresh_ino_free in E'.
Qed.

Lemma add_node_new : node_at s' (p ++ [c]) = Some (Inode (new_meta mode) []).
Proof. unfold s', node_at, add_node. cbn. rewrite lookup_insert_eq. cbn. by rewrite lookup_insert_eq. Qed.

Lemma add_node_wf : os_wf s'.
Proof using Hwf Hp Hc Hn.
  assert (Hne : forall q, is_dir s q -> p ++ [c] <> q).
  { intros q (n & Hq & _) <-. congruence. }
  assert (Hdir : forall q, is_dir s q -> is_dir s' q).
  { intros q Hq. eapply same_but_dir; [apply add_node_same | by apply Hne | done]. }
  split.
  - apply Hdir, (wf_root _ Hwf).
  - intros q i. unfold s', add_node. cbn. intros [[_ <-] | [_ Hi]]%lookup_insert_Some; [by rewrite lookup_insert_eq |].
    destruct (wf_node _ Hwf _ _ Hi) as [n E]. rewrite lookup_insert_is_Some. destruct (decide (fresh_ino s = i)); eauto.
  - intros q d i. unfold s', add_node. cbn. intros [[E _] | [_ Hi]]%lookup_insert_Some.
    + apply app_inj_tail in E as [-> _]. by apply Hdir.
    + apply Hdir. by eapply (wf_parent _ Hwf).
  - intros q i. unfold s', add_node. cbn. intros [[<- _] | [_ Hi]]%lookup_insert_Some; [| by eapply (wf_comp _ Hwf)].
    destruct Hp as (n & (j & Hj & _)%node_at_Some & _). apply Forall_app. split; [by eapply (wf_comp _ Hwf) | by constructor].
  - assert (Hfr : forall q, os_names s !! q <> Some (fresh_ino s)).
    { intros q E. destruct (wf_node _ Hwf _ _ E) as [n E']. by rewrite fresh_ino_free in E'. }
    intros q r i. unfold s', add_node. cbn.
    intros [[<- <-] | [_ Hi]]%lookup_insert_Some [[<- E] | [_ Hj]]%lookup_insert_Some; try done.
    + by apply Hfr in Hj.
    + rewrite <-E in Hi. by apply Hfr in Hi.
    + by eapply (wf_inj _ Hwf).
Qed.
End Add.

(** A new node in a tree. *)
Lemma add_tree s p mode :
  os_wf s -> Forall comp_ok p -> absent_at s p ->
  let s' := snd (add_node p mode s) in os_wf s' /\ same_but (eq p) s s'.
Proof.
  intros Hwf Hok [Hd Hn]. apply (wf_none _ Hwf) in Hn. destruct p as [| c p _] using rev_ind.
  { destruct (wf_root _ Hwf) as (n & E & _). congruence. }
  apply dirs_ok_parent in Hd. apply Forall_app in Hok as [_ [Hc _]%Forall_cons]. cbv zeta.
  split; [by apply add_node_wf | by apply add_node_same].
Qed.

(** ** mkdir -p *)

Lemma last_slash_none x : no_slash x = true -> last_slash x = None.
Proof.
  induction x as [| c x IH]; cbn; [done |]. intros [Hc Hx]%andb_prop. rewrite (IH Hx).
  by destruct (Ascii.eqb c DIRSEPCH).
Qed.

Lemma last_slash_app t x : no_slash x = true -> last_slash (t +:+ String DIRSEPCH x) = Some (String.length t).
Proof.
  intros Hx. induction t as [| c t IH]; [| rewrite append_cons; cbn; by rewrite IH].
  change (last_slash (String DIRSEPCH x) = Some 0%nat). cbn. by rewrite last_slash_none.
Qed.

Lemma join_snoc P x : join_path (P ++ [x]) = join_path P +:+ String DIRSEPCH x.
Proof. rewrite join_app. cbn. by rewrite string_app_nil_r. Qed.

Lemma join_length P : (length P <= String.length (join_path P))%nat.
Proof. induction P as [| c P IH]; [done |]. cbn [join_path length]. rewrite !string_length_app. cbn [String.length]. lia. Qed.

Lemma join_pos P : P <> [] -> exists k, String.length (join_path P) = S k.
Proof. intros H. destruct P as [| c P]; [done |]. by eexists. Qed.

Lemma lstat_enoent s name : os_faults s = [] -> enoent_at s (resolve name) -> sys_lstat name s = (Err ENOENT, s).
Proof.
  intros Hf He. unfold sys_lstat. rewrite syscall_ok by done. unfold lookup_path.
  by destruct (enoent_lookup _ _ He) as [-> | [-> ->]].
Qed.

(** From [s] to [s'] directories are made on the way to [P], and [P] is one. *)
Record made_dirs (P : path) (s s' : os) : Prop := {
  md_wf : os_wf s';
  md_faults : os_faults s' = [];
  md_fds : os_fds s' = os_fds s;
  md_dir : is_dir s' P;
  md_names : forall p i, os_names s !! p = Some i -> os_names s' !! p = Some i;
  md_inodes : forall i n, os_inodes s !! i = Some n -> os_inodes s' !! i = Some n;
  md_new : forall p, node_at s p = None -> node_at s' p = None \/ (p `prefix_of` P /\ is_dir s' p)
}.

Lemma made_dirs_old P s s' p n : made_dirs P s s' -> node_at s p = Some n -> node_at s' p = Some n.
Proof.
  intros H (i & Hi & Hn)%node_at_Some. apply node_at_Some. exists i.
  split; [by apply (md_names _ _ _ H) | by apply (md_inodes _ _ _ H)].
Qed.

Lemma made_dirs_is_dir P s s' p : made_dirs P s s' -> is_dir s p -> is_dir s' p.
Proof. intros H (n & Hn & Hd). exists n. split; [by eapply made_dirs_old | done]. Qed.

Lemma made_dirs_same P s s' : made_dirs P s s' -> same_but (fun p => p `prefix_of` P) s s'.
Proof.
  intros H p Hp. destruct (entry_at s p) as [[i n] |] eqn:E.
  - apply entry_at_Some in E as [Hi Hn]. apply entry_at_Some.
    split; [by apply (md_names _ _ _ H) | by apply (md_inodes _ _ _ H)].
  - assert (E' : node_at s p = None) by by rewrite node_entry, E.
    destruct (md_new _ _ _ H p E') as [Hn | [? _]]; [| done]. rewrite node_entry in Hn. by destruct (entry_at s' p).
Qed.

Lemma made_dirs_add P c mode s s' :
  made_dirs P s s' -> comp_ok c -> node_at s (P ++ [c]) = None -> S_ISDIR mode = true ->
  made_dirs (P ++ [c]) s (snd (add_node (P ++ [c]) mode s')).
Proof.
  intros H Hc Hn Hm. pose proof (md_wf _ _ _ H) as Hwf. pose proof (md_dir _ _ _ H) as Hd.
  assert (Hn' : node_at s' (P ++ [c]) = None).
  { destruct (md_new _ _ _ H _ Hn) as [? | [[r E] _]]; [done |].
    apply (f_equal length) in E. rewrite !length_app in E. cbn in E. lia. }
  pose proof (add_node_same s' Hwf P c mode) as Hsame. pose proof (add_node_new s' P c mode) as Hnew.
  assert (Hdir : is_dir (snd (add_node (P ++ [c]) mode s')) (P ++ [c])) by (eexists; split; [exact Hnew | done]).
  split; [by apply add_node_wf | apply H | apply H | done | | |].
  - intros p i Hi. unfold add_node. cbn. rewrite lookup_insert_ne; [by apply (md_names _ _ _ H) |].
    intros <-. apply (md_names _ _ _ H) in Hi. apply (wf_none _ Hwf) in Hn'. congruence.
  - intros i n Hi. unfold add_node. cbn. rewrite lookup_insert_ne; [by apply (md_inodes _ _ _ H) |].
    intros <-. apply (md_inodes _ _ _ H) in Hi. by rewrite fresh_ino_free in Hi.
  - intros p Hp. destruct (decide (P ++ [c] = p)) as [<- | Hne]; [by right |].
    rewrite (same_but_node _ _ _ _ Hsame Hne). destruct (md_new _ _ _ H _ Hp) as [? | [Hpre Hpd]]; [by left | right].
    split; [etransitivity; [done | by apply prefix_app_r] | by eapply same_but_dir].
Qed.

(** [mkpath] makes the directories above a path, below one that exists. *)
Lemma mkpath_rec_spec P : forall x fuel w mode Q,
  os_faults (w_os w) = [] -> os_wf (w_os w) -> Forall comp_ok (P ++ [x]) -> S_ISDIR (Z.lor S_IFDIR mode) = true ->
  is_dir (w_os w) Q -> Q <> [] -> Q `prefix_of` P -> clear_path (w_os w) P -> (length P <= fuel)%nat ->
  exists r first s', mkpath_rec fuel (join_path (P ++ [x])) mode w = Some ((r, first), set_os s' w) /\
    (r = 0 \/ r = 1) /\ made_dirs P (w_os w) s'.
Proof.
  induction P as [| y P IH] using rev_ind; intros x fuel w mode Q Hf Hwf Hok Hmode HQ HQne HQP Hclear Hfuel.
  { destruct HQP as [[|] E]; by destruct Q. }
  rewrite length_app in Hfuel. cbn in Hfuel. destruct fuel as [| fuel]; [lia |].
  pose proof Hok as [HokP [(_ & Hx & _) _]%Forall_cons]%Forall_app. pose proof HokP as [_ [Hy _]%Forall_cons]%Forall_app.
  cbn [mkpath_rec]. rewrite join_snoc, last_slash_app by done.
  destruct (join_pos (P ++ [y])) as [k Ek]; [by destruct P |]. rewrite Ek, <-Ek. cbv iota beta zeta.
  assert (Epre : strncpy (join_path (P ++ [y]) +:+ String DIRSEPCH x) (Z.of_nat (String.length (join_path (P ++ [y])))) = join_path (P ++ [y]))
    by apply strncpy_prefix. rewrite Epre. pose proof (resolve_join _ HokP) as Er.
  destruct (Hclear (P ++ [y]) (reflexivity _)) as [Hn | Hd].
  - assert (HQP' : Q `prefix_of` P).
    { destruct (prefix_snoc _ _ _ HQP) as [-> | ?]; [| done]. destruct HQ as (n & ? & _). congruence. }
    assert (Hclear' : clear_path (w_os w) P).
    { intros q Hq. apply Hclear. etransitivity; [done | by apply prefix_app_r]. }
    assert (He : enoent_at (w_os w) (resolve (join_path (P ++ [y])))) by (rewrite Er; by apply wf_enoent).
    rewrite (st_bind_run _ _ _ _ _ (sys_run _ _ _ _ (lstat_enoent (w_os w) _ Hf He))). cbn [Z.eqb ENOENT Pos.eqb].
    destruct (IH y fuel (set_os (w_os w) w) mode Q) as (r & first & s1 & E & Hr & Hmd); try done; [lia |].
    rewrite (st_bind_run _ _ _ _ _ E). destruct (Z.ltb_spec r 0); [lia |].
    assert (Hmk : made_dirs (P ++ [y]) (w_os w) (snd (add_node (P ++ [y]) (Z.lor S_IFDIR mode) s1))) by by apply made_dirs_add.
    assert (Hab : absent_at s1 (resolve (join_path (P ++ [y])))).
    { rewrite Er. apply wf_absent_at; [apply Hmd | apply Hmd |].
      destruct (md_new _ _ _ Hmd _ Hn) as [? | [[q Eq] _]]; [done |].
      apply (f_equal length) in Eq. rewrite !length_app in Eq. cbn in Eq. lia. }
    assert (Emk : sys_mkdir (join_path (P ++ [y])) mode s1 = (Ok tt, snd (add_node (P ++ [y]) (Z.lor S_IFDIR mode) s1))).
    { unfold sys_mkdir. rewrite syscall_ok by apply (md_faults _ _ _ Hmd). destruct Hab as [Hab1 Hab2]. rewrite Hab1, Hab2. by rewrite Er. }
    rewrite (st_bind_run _ _ _ _ _ (sys_run _ (set_os s1 (set_os (w_os w) w)) _ _ Emk)).
    eexists 1, _, _. split; [done |]. split; [by right | done].
  - destruct (lstat_dir (w_os w) (join_path (P ++ [y])) Hf) as (st & E & Hst); [rewrite Er; by apply wf_dir_at |].
    rewrite (st_bind_run _ _ _ _ _ (sys_run _ _ _ _ E)), Hst. exists 0, "", (w_os w). split; [done |].
    split; [by left |]. split; try done. intros p Hp. by left.
Qed.

Lemma mkpath_spec w P x mode Q :
  os_faults (w_os w) = [] -> os_wf (w_os w) -> Forall comp_ok (P ++ [x]) -> S_ISDIR (Z.lor S_IFDIR mode) = true ->
  is_dir (w_os w) Q -> Q <> [] -> Q `prefix_of` P -> clear_path (w_os w) P ->
  exists r first s', mkpath (join_path (P ++ [x])) mode w = Some ((r, first), set_os s' w) /\
    (r = 0 \/ r = 1) /\ made_dirs P (w_os w) s'.
Proof.
  intros. eapply mkpath_rec_spec; try done. pose proof (join_length (P ++ [x])) as Hl. rewrite length_app in Hl. cbn in Hl. lia.
Qed.

(** Where the last component starts. *)
Lemma last_slash_join P x : P <> [] -> Forall comp_ok (P ++ [x]) ->
  exists k, last_slash (join_path (P ++ [x])) = Some (S k) /\ resolve (strncpy (join_path (P ++ [x])) (Z.of_nat (S k))) = P.
Proof.
  intros HP [HokP [(_ & Hx & _) _]%Forall_cons]%Forall_app. destruct (join_pos P HP) as [k Ek]. exists k.
  rewrite join_snoc, last_slash_app, Ek by done. split; [done |]. rewrite <-Ek.
  assert (E : strncpy (join_path P +:+ String DIRSEPCH x) (Z.of_nat (String.length (join_path P))) = join_path P) by apply strncpy_prefix.
  rewrite E. by apply resolve_join.
Qed.

(** ** rm -r *)

(** [s'] is [s] without what lies at or below the paths [D]. *)
Record removed (D : list path) (s s' : os) : Prop := {
  rm_inodes : os_inodes s' = os_inodes s;
  rm_fds : os_fds s' = os_fds s;
  rm_faults : os_faults s' = os_faults s;
  rm_gone : forall d q : path, d ∈ D -> d `prefix_of` q -> os_names s' !! q = None;
  rm_kept : forall q : path, (forall d, d ∈ D -> ~ d `prefix_of` q) -> os_names s' !! q = os_names s !! q
}.

Lemma removed_nil s : removed [] s s.
Proof. split; try done. intros d q Hd. by apply not_elem_of_nil in Hd. Qed.

Lemma removed_trans D D' s1 s2 s3 : removed D s1 s2 -> removed D' s2 s3 -> removed (D ++ D') s1 s3.
Proof.
  intros [] []. split; try congruence.
  - intros d q Hd Hq. destruct (decide (Exists (fun d' => d' `prefix_of` q) D')) as [(d' & ? & ?)%Exists_exists | Hn].
    + by eapply rm_gone1.
    + apply elem_of_app in Hd as [Hd | Hd]; [| by eapply rm_gone1].
      rewrite rm_kept1; [by eapply rm_gone0 |]. intros d' Hd' Hp. apply Hn, Exists_exists. by exists d'.
  - intros q Hq. rewrite rm_kept1, rm_kept0; [done | |]; intros d Hd; apply Hq, elem_of_app; auto.
Qed.

Lemma removed_node D s s' (q : path) : removed D s s' -> (forall d, d ∈ D -> ~ d `prefix_of` q) -> node_at s' q = node_at s q.
Proof. intros [] Hq. unfold node_at. by rewrite rm_kept0, rm_inodes0. Qed.

Lemma removed_gone D s s' (d q : path) : removed D s s' -> d ∈ D -> d `prefix_of` q -> node_at s' q = None.
Proof. intros [] Hd Hq. unfold node_at. by rewrite (rm_gone0 d q Hd Hq). Qed.

Lemma removed_names D s s' (q : path) i : removed D s s' -> os_names s' !! q = Some i ->
  os_names s !! q = Some i /\ (forall d, d ∈ D -> ~ d `prefix_of` q).
Proof.
  intros H Hq. assert (Hno : forall d, d ∈ D -> ~ d `prefix_of` q).
  { intros d Hd Hp. by rewrite (rm_gone _ _ _ H d q Hd Hp) in Hq. }
  by rewrite <-(rm_kept _ _ _ H q Hno).
Qed.

Lemma removed_wf D s s' : removed D s s' -> [] ∉ D -> os_wf s -> os_wf s'.
Proof.
  intros H HD Hwf. assert (Hdir : forall q, (forall d, d ∈ D -> ~ d `prefix_of` q) -> is_dir s q -> is_dir s' q).
  { intros q Hq (n & Hn & Hd). exists n. by rewrite (removed_node D s s' q H Hq). }
  split.
  - apply Hdir; [| apply (wf_root _ Hwf)]. intros d Hd Hp. apply prefix_nil_inv in Hp. by subst.
  - intros p i (Hi & _)%(removed_names _ _ _ _ _ H). rewrite (rm_inodes _ _ _ H). by eapply wf_node.
  - intros p c i (Hi & Hno)%(removed_names _ _ _ _ _ H). apply Hdir; [| by eapply wf_parent].
    intros d Hd Hp. apply (Hno d Hd). etransitivity; [done | by apply prefix_app_r].
  - intros p i (Hi & _)%(removed_names _ _ _ _ _ H). by eapply wf_comp.
  - intros p q i (Hp & _)%(removed_names _ _ _ _ _ H) (Hq & _)%(removed_names _ _ _ _ _ H). by eapply wf_inj.
Qed.

(** *** The names below a directory *)

Lemma is_child_spec p q : is_child p q = true <-> exists c, q = p ++ [c].
Proof.
  unfold is_child. rewrite andb_true_iff, !bool_decide_eq_true. split.
  - intros [Hl Ht]. rewrite <-(take_drop (length p) q), Ht.
    destruct (drop (length p) q) as [| c [| d r]] eqn:E; [| by exists c |];
      apply (f_equal length) in E; rewrite length_drop in E; cbn in E; lia.
  - intros [c ->]. rewrite length_app. cbn. split; [lia |]. by rewrite take_app_length.
Qed.

Lemma elem_of_children s p q : q ∈ children s p <-> (exists c, q = p ++ [c]) /\ is_Some (os_names s !! q).
Proof.
  unfold children. rewrite list_elem_of_filter, is_child_spec. apply and_iff_compat_l.
  rewrite list_elem_of_fmap. split.
  - intros ([q' i] & -> & Hi%elem_of_map_to_list). by eexists.
  - intros [i Hi]. exists (q, i). split; [done | by apply elem_of_map_to_list].
Qed.

Lemma NoDup_children s p : NoDup (children s p).
Proof. apply NoDup_filter, NoDup_fst_map_to_list. Qed.

Lemma children_nil s p : (forall c, os_names s !! (p ++ [c]) = None) -> children s p = [].
Proof.
  intros H. destruct (children s p) as [| q l] eqn:E; [done |].
  assert (q ∈ children s p) as ((c & ->) & i & Hi)%elem_of_children by (rewrite E; apply list_elem_of_here).
  by rewrite H in Hi.
Qed.

Lemma siblings_apart (p : path) a b q : p ++ [a] `prefix_of` q -> p ++ [b] `prefix_of` q -> a = b.
Proof. intros [r ->] [r' E]. rewrite <-!app_assoc in E. apply app_inv_head in E. by injection E. Qed.

(** *** The walk *)

Lemma nftw_visit_app fn l1 l2 w w1 :
  nftw_visit fn l1 w = Some (0, w1) -> nftw_visit fn (l1 ++ l2) w = nftw_visit fn l2 w1.
Proof.
  revert w. induction l1 as [| p l1 IH]; intros w; cbn [nftw_visit app]; [by intros [= ->] |].
  intros E. apply st_bind_inv in E as (sb & w2 & E1 & E). rewrite (st_bind_run _ _ _ _ _ E1). destruct sb as [sb | e]; [| done].
  apply st_bind_inv in E as (x & w3 & E2 & E). rewrite (st_bind_run _ _ _ _ _ E2). destruct (Z.eqb_spec x 0); [by apply IH | by injection E].
Qed.

(** Removing a leaf. *)
Lemma delete_leaf s (p : path) :
  os_wf s -> (forall c, os_names s !! (p ++ [c]) = None) -> removed [p] s (set_names (delete p (os_names s)) s).
Proof.
  intros Hwf Hleaf. split; try done; cbn.
  - intros d q ->%list_elem_of_singleton [r ->]. destruct r as [| c r]; [rewrite app_nil_r; apply lookup_delete_eq |].
    rewrite lookup_delete_ne.
    2: { intros E. apply (f_equal length) in E. rewrite length_app in E. cbn in E. lia. }
    apply (wf_none _ Hwf), (wf_below _ Hwf (p ++ [c])); [by apply (wf_none _ Hwf) |].
    exists r. by rewrite <-app_assoc.
  - intros q Hq. apply lookup_delete_ne. intros <-. apply (Hq p); [apply list_elem_of_singleton | ]; done.
Qed.

Lemma remove_leaf w p n :
  os_faults (w_os w) = [] -> os_wf (w_os w) -> p <> [] -> node_at (w_os w) p = Some n ->
  (forall c, os_names (w_os w) !! (p ++ [c]) = None) ->
  exists s', nftw_visit univ_rm [p] w = Some (0, set_os s' w) /\ removed [p] (w_os w) s'.
Proof.
  intros Hf Hwf Hne Hn Hleaf. set (s := w_os w) in *. exists (set_names (delete p (os_names s)) s).
  pose proof (node_walk _ Hwf _ _ Hn) as Hw. pose proof Hn as (i & Hi & Hin)%node_at_Some.
  pose proof (resolve_join _ (wf_comp _ Hwf _ _ Hi)) as Er. split.
  - assert (El : sys (sys_lstat (join_path p)) w = Some (Ok (stat_of i n), w)).
    { rewrite (sys_run _ w (Ok (stat_of i n)) s); [by unfold s; destruct w |]. unfold sys_lstat. rewrite syscall_ok by done.
      rewrite Er. unfold lookup_path. fold s. by rewrite Hw, Hi, Hin. }
    cbn [nftw_visit]. rewrite (st_bind_run _ _ _ _ _ El). change (S_ISDIR (st_mode (stat_of i n))) with (i_isdir n). unfold univ_rm.
    assert (E : (if i_isdir n then sys (sys_rmdir (join_path p)) else sys (sys_unlink (join_path p))) w
      = Some (Ok tt, set_os (set_names (delete p (os_names s)) s) w)).
    { destruct (i_isdir n) eqn:Ed; apply sys_run; unfold sys_rmdir, sys_unlink; rewrite syscall_ok by done;
        rewrite Er; unfold lookup_path; fold s; rewrite Hw, Hi, Hin, Ed; [| done].
      cbn [negb]. rewrite decide_False by done. by rewrite children_nil. }
    unfold mbind at 1, ST_bind at 1. by rewrite (st_bind_run _ _ _ _ _ E).
  - by apply delete_leaf.
Qed.

(** The walk was planned on [s0]; below [p] the tree is still as it was then. *)
Definition intact (s0 s : os) (p : path) : Prop := forall q : path, p `prefix_of` q -> os_names s !! q = os_names s0 !! q.

(** All names below [p] lie at most [n] levels deeper. *)
Definition depth_le (s0 : os) (p : path) (n : nat) : Prop :=
  forall q : path, p `prefix_of` q -> is_Some (os_names s0 !! q) -> (length q <= length p + n)%nat.

(** The walk of a list of subtrees, given the walk of each. *)
Lemma remove_subtrees s0 n (p : path) (cs : list path) : forall w,
  (forall c w, c ∈ cs -> os_faults (w_os w) = [] -> os_wf (w_os w) -> intact s0 (w_os w) c ->
     exists s', nftw_visit univ_rm (postorder n s0 c) w = Some (0, set_os s' w) /\ removed [c] (w_os w) s') ->
  (forall c, c ∈ cs -> exists a, c = p ++ [a]) -> NoDup cs ->
  os_faults (w_os w) = [] -> os_wf (w_os w) -> (forall c, c ∈ cs -> intact s0 (w_os w) c) ->
  exists s', nftw_visit univ_rm (flat_map (postorder n s0) cs) w = Some (0, set_os s' w) /\ removed cs (w_os w) s'.
Proof.
  induction cs as [| c cs IH]; intros w Hone Hch Hnd Hf Hwf Hin; cbn [flat_map].
  { exists (w_os w). split; [by destruct w | apply removed_nil]. }
  apply NoDup_cons in Hnd as [Hc Hnd].
  destruct (Hone c w) as (s1 & E1 & Hr1); [apply list_elem_of_here | done | done | apply Hin, list_elem_of_here |].
  rewrite (nftw_visit_app _ _ _ _ _ E1). destruct (Hch c (list_elem_of_here _ _)) as [a ->].
  destruct (IH (set_os s1 w)) as (s2 & E2 & Hr2).
  - intros d w' Hd. apply Hone. by apply list_elem_of_further.
  - intros d Hd. apply Hch. by apply list_elem_of_further.
  - done.
  - cbn. by rewrite (rm_faults _ _ _ Hr1).
  - cbn. eapply removed_wf; [done | | done]. intros ?%list_elem_of_singleton. by destruct p.
  - intros d Hd q Hq. destruct (Hch d (list_elem_of_further _ _ _ Hd)) as [b ->]. cbn.
    rewrite (rm_kept _ _ _ Hr1); [apply (Hin _ (list_elem_of_further _ _ _ Hd)); done |].
    intros e ->%list_elem_of_singleton He. by rewrite (siblings_apart _ _ _ _ He Hq) in Hc.
  - exists s2. split; [done |]. by apply (removed_trans [p ++ [a]] cs _ s1).
Qed.

(** The walk in post-order removes a whole tree. *)
Lemma remove_tree s0 n : forall (p : path) w,
  p <> [] -> os_faults (w_os w) = [] -> os_wf (w_os w) -> intact s0 (w_os w) p -> is_Some (os_names s0 !! p) -> depth_le s0 p n ->
  exists s', nftw_visit univ_rm (postorder n s0 p) w = Some (0, set_os s' w) /\ removed [p] (w_os w) s'.
Proof.
  induction n as [| n IH]; intros p w Hne Hf Hwf Hin Hp Hdep.
  { assert (is_Some (node_at (w_os w) p)) as [nd Hnd].
    { destruct Hp as [i Hi]. rewrite <-(Hin p) in Hi by done. destruct (wf_node _ Hwf _ _ Hi) as [m Hm].
      exists m. apply node_at_Some. eauto. }
    apply (remove_leaf w p nd); [done | done | done | done |]. intros c. rewrite Hin by (by apply prefix_app_r).
    destruct (os_names s0 !! (p ++ [c])) eqn:E; [| done].
    specialize (Hdep (p ++ [c]) ltac:(by apply prefix_app_r) ltac:(by eexists)). rewrite length_app in Hdep. cbn in Hdep. lia. }
  cbn [postorder].
  destruct (remove_subtrees s0 n p (children s0 p) w) as (s1 & E1 & Hr1); [| | apply NoDup_children | done | done | |].
  - intros c w' ((a & ->) & Hs)%elem_of_children Hf' Hwf' Hin'. apply IH; try done; [by destruct p |].
    intros q Hq Hqs. specialize (Hdep q ltac:(etransitivity; [by apply prefix_app_r | done]) Hqs).
    rewrite length_app. cbn. lia.
  - intros c (? & _)%elem_of_children. done.
  - intros c ((a & ->) & _)%elem_of_children q Hq. apply Hin. etransitivity; [by apply prefix_app_r | done].
  - rewrite (nftw_visit_app _ _ _ _ _ E1).
    assert (Hno : forall d, d ∈ children s0 p -> ~ d `prefix_of` p).
    { intros d ((a & ->) & _)%elem_of_children [r E]. apply (f_equal length) in E. rewrite !length_app in E. cbn in E. lia. }
    assert (Hwf1 : os_wf s1).
    { eapply removed_wf; [done | | done]. intros ((a & E) & _)%elem_of_children. by destruct p. }
    assert (is_Some (node_at s1 p)) as [nd Hnd].
    { destruct Hp as [i Hi]. rewrite <-(Hin p) in Hi by done. destruct (wf_node _ Hwf _ _ Hi) as [m Hm].
      exists m. rewrite (removed_node _ _ _ _ Hr1 Hno). apply node_at_Some. eauto. }
    destruct (remove_leaf (set_os s1 w) p nd) as (s2 & E2 & Hr2); [cbn; by rewrite (rm_faults _ _ _ Hr1) | done | done | done | |].
    + intros c. cbn. destruct (os_names s1 !! (p ++ [c])) as [i |] eqn:E; [| done].
      pose proof (removed_names _ _ _ _ _ Hr1 E) as [Hi Hni]. rewrite Hin in Hi by by apply prefix_app_r.
      destruct (Hni (p ++ [c])); [| done]. apply elem_of_children. split; [by exists c | by eexists].
    + exists s2. split; [done |]. pose proof (removed_trans _ _ _ _ _ Hr1 Hr2) as [].
      split; try done.
      * intros d q ->%list_elem_of_singleton. apply rm_gone0. apply elem_of_app. right. apply list_elem_of_singleton. done.
      * intros q Hq. apply rm_kept0. intros d [((a & ->) & _)%elem_of_children | ->%list_elem_of_singleton]%elem_of_app.
        -- intros Hd. apply (Hq p); [by apply list_elem_of_singleton |]. etransitivity; [by apply prefix_app_r | done].
        -- apply Hq. by apply list_elem_of_singleton.
Qed.

(** In a tree, a name lies no deeper than there are names. *)
Lemma wf_prefixes s (p q : path) i : os_wf s -> q `prefix_of` p -> os_names s !! p = Some i -> is_Some (os_names s !! q).
Proof.
  intros Hwf Hq Hp. destruct (os_names s !! q) as [j |] eqn:E; [by eexists |].
  apply (wf_none _ Hwf) in E. pose proof (wf_below _ Hwf _ _ E Hq) as E'. apply (wf_none _ Hwf) in E'. congruence.
Qed.

Lemma wf_depth s p : os_wf s -> depth_le s p (size (os_names s)).
Proof.
  intros Hwf q _ [i Hi]. set (l := (fun k => take k q) <$> seq 0 (S (length q))).
  assert (Hsub : list_to_set l ⊆ dom (os_names s)).
  { intros x Hx. apply elem_of_list_to_set, list_elem_of_fmap in Hx as (k & -> & _).
    apply elem_of_dom. eapply wf_prefixes; [done | apply prefix_take | done]. }
  apply subseteq_size in Hsub. rewrite size_dom, size_list_to_set in Hsub.
  - unfold l in Hsub. rewrite length_fmap, length_seq in Hsub. lia.
  - apply NoDup_fmap_2_strong; [| apply NoDup_seq]. intros x y Hx%elem_of_seq Hy%elem_of_seq E.
    apply (f_equal length) in E. rewrite !length_take in E. lia.
Qed.

(** [recursive_remove] on an existing path. *)
Lemma recursive_remove_spec w p :
  p <> [] -> os_faults (w_os w) = [] -> os_wf (w_os w) -> idle_table (mflocks (w_fs w)) -> is_Some (node_at (w_os w) p) ->
  exists s', recursive_remove (join_path p) w = Some (0, set_os s' w) /\ removed [p] (w_os w) s'.
Proof.
  intros Hne Hf Hwf Hidle [n Hn]. pose proof Hn as (i & Hi & Hin)%node_at_Some. unfold recursive_remove.
  destruct (mflock_there_and_back w (string2locklabel LOCKLABEL_RMDIR) Hidle) as (lid & t & Hlid & El & Hun);
    [pose proof (locklabel_pos LOCKLABEL_RMDIR); lia |].
  rewrite (st_bind_run _ _ _ _ _ El). destruct (Z.ltb_spec lid 0); [lia |].
  set (w1 := wt t w).
  destruct (remove_tree (w_os w) (size (os_names (w_os w))) p w1) as (s' & Er & Hr); [done | done | done | done | by eexists | by apply wf_depth |].
  assert (En : nftw (join_path p) univ_rm w1 = Some (0, set_os s' w1)).
  { unfold nftw. rewrite (st_bind_run st_get _ w1 w1 w1 eq_refl). rewrite (resolve_join _ (wf_comp _ Hwf _ _ Hi)).
    unfold lookup_path. change (w_os w1) with (w_os w). by rewrite (node_walk _ Hwf _ _ Hn : walk _ _ = _), Hi. }
  rewrite (st_bind_run _ _ _ _ _ En). rewrite (st_bind_run _ _ _ _ _ (Hun (set_os s' w1) eq_refl)).
  exists s'. split; [| done]. cbn. by rewrite <-(wt_id (set_os s' w)).
Qed.
