(* ===== verification/Snapshot.v ===== *)
(** [snapshot.c]: the chain of snapshots.

    [ROOT/snapshots/.hid] holds the real path of the latest snapshot and
    [ROOT/snapshots/ID.hid] that of the snapshot before [ID]. *)

From S2P Require Import Prelude Posix Types Util Mflock UtilLocking.

(** [sn_filter_name]: 1 if the name is to be shown, 0 if it is internal. *)
Definition sn_filter_name (name : string) : Z :=
  let plen := strlen name in
  if plen <? EXT_LEN then 1
  else if String.eqb name EXT_HID then 0
  else if String.eqb (str_from (Z.to_nat (plen - EXT_LEN)) name) EXT_HID then 0
  else 1.

(** Creates the snapshot directory if necessary. *)
Definition sn_check_dir : M Z :=
  fsdata ← get_fs;
  st ← sys (sys_lstat (sn_dir fsdata));
  match st with
  | Ok mystat => mret (if S_ISDIR (st_mode mystat) then 0 else 1)
  | Err e =>
      if e =? ENOENT then
        m ← sys (sys_mkdir (sn_dir fsdata) S_IRWXU);
        match m with Ok _ => mret 0 | Err e' => mret (- e') end
      else mret (- e)
  end.

(** The loop of [sn_get_earliest]; [fuel] counts the iterations left. *)
Fixpoint sn_get_earliest_loop (fuel : nat) (p : Z) (snpath prevpointerpath : string) : M (Z * string * string) :=
  match fuel with
  | O => mret (- EIO, snpath, prevpointerpath)
  | S n =>
      match get_hid_path snpath with
      | Err e => mret (- e, snpath, prevpointerpath)
      | Ok pointerpath =>
          '(ret, snpath') ← read_sndir_from_file snpath pointerpath;
          if ret =? 0 then mret (if p =? 0 then 2 else 0, snpath', prevpointerpath)
          else if ret <? 0 then mret (ret, snpath', prevpointerpath)
          else sn_get_earliest_loop n (p + 1) snpath' pointerpath
      end
  end.

(** The earliest snapshot: return value, its real path, and the pointer file
    of the second earliest one. *)
Definition sn_get_earliest : M (Z * string * string) :=
  fsdata ← get_fs;
  if sn_is_any fsdata =? 0 then mret (1, "", "")
  else sn_get_earliest_loop (Z.to_nat MAX_SNAPSHOTS) 0 (sn_lat_dir fsdata) "".

(** The loop of [sn_get_paths_to]: [paths] are the roots found so far, the
    main space first, [cur] is the candidate at index [p = zlen paths], and
    [allocated] the number of steps the array has room for. *)
Fixpoint sn_get_paths_loop (fuel : nat) (allocated : Z) (mysnroot cur : string) (paths : list string)
  : M (Z * list string) :=
  match fuel with
  | O => mret (- EIO, paths)
  | S n =>
      if String.eqb mysnroot cur then mret (0, paths ++ [cur])
      else
        match get_hid_path cur with
        | Err e => mret (- e, paths)
        | Ok pointerpath =>
            let p := zlen paths + 1 in
            room ← (if allocated <=? p then malloc_ else mret true);
            if negb room then mret (- ENOMEM, paths)
            else if MAX_SNAPSHOTS <=? p then mret (- EIO, paths)
            else
              '(ret, next) ← read_sndir_from_file "" pointerpath;
              if ret =? 0 then mret (- EFAULT, paths)
              else if ret <? 0 then mret (ret, paths)
              else sn_get_paths_loop n (if allocated <=? p then allocated * 2 else allocated)
                     mysnroot next (paths ++ [cur])
        end
  end.

Definition new_step (p : string) : sn_steps_t := SnStep p SN_STEPS_NOTOPEN SN_STEPS_NOTOPEN None.

(** Fills in the roots of the main space and of the snapshots from the
    latest one to the one asked for. *)
Definition sn_get_paths_to (mfd : mfd_t) (snpath : snpath_t) : M (Z * mfd_t) :=
  fsdata ← get_fs;
  match is_there snpath with
  | snpath_root => mret (- EFAULT, mfd)
  | _ =>
      if PATH_MAX <=? strlen (sp_id snpath) + strlen (sn_dir fsdata) then mret (- ENAMETOOLONG, mfd)
      else
        let mysnroot := sn_dir fsdata +:+ sp_id snpath in
        m ← malloc_;
        if negb m then mret (- ENOMEM, mfd)
        else
          '(ret, paths) ← sn_get_paths_loop (Z.to_nat MAX_SNAPSHOTS) 4 mysnroot (sn_lat_dir fsdata) [rootdir fsdata];
          if negb (ret =? 0) then mret (ret, mfd)
          else mret (0, set_sn_current (zlen paths - 1) (set_sn_steps (new_step <$> paths) mfd))
  end.

Definition sn_get_latest : M Z :=
  fsdata ← get_fs;
  match get_dir_hid_path (sn_dir fsdata) with
  | Err e => mret (- e)
  | Ok path =>
      '(ret, buf) ← read_sndir_from_file (sn_lat_dir fsdata) path;
      _ ← modify_fs (set_sn_lat_dir buf (sn_lat_dir_len fsdata));
      if ret =? 0 then _ ← modify_fs (set_sn_is_any 0); mret 0
      else if ret <? 0 then mret ret
      else
        _ ← modify_fs (set_sn_is_any 1);
        _ ← modify_fs (set_sn_lat_dir buf ret);
        mret 0
  end.

(** Makes [newpath] the latest snapshot.  On a failed write the descriptor
    stays open, as in the source. *)
Definition sn_set_latest (newpath : string) : M Z :=
  fsdata ← get_fs;
  match get_dir_hid_path (sn_dir fsdata) with
  | Err e => mret (- e)
  | Ok path =>
      o ← sys (sys_open path (Z.lor (Z.lor O_WRONLY O_CREAT) O_TRUNC) S_IRWXU);
      match o with
      | Err e => mret (- e)
      | Ok fd =>
          let len := strlen newpath + 1 in
          r ← sys (sys_pwrite fd (string_bytes newpath ++ [0]) 0);
          match r with
          | Err e => mret (- e)
          | Ok ret =>
              if negb (ret =? len) then mret (- EIO)
              else
                _ ← sys (sys_close fd);
                _ ← modify_fs (set_sn_lat_dir newpath (len - 1));
                _ ← modify_fs (set_sn_is_any 1);
                _ ← modify_fs (fun f => set_sn_number (i32 (sn_number f + 1)) f);
                mret 0
          end
      end
  end.

(** The pointer file from a new snapshot to the one before; 0 or a positive errno. *)
Definition sn_link_previous (path hid : string) : M Z :=
  fsdata ← get_fs;
  o ← sys (sys_open hid (Z.lor (Z.lor O_WRONLY O_CREAT) O_EXCL) S_IRWXU);
  match o with
  | Err e => mret e
  | Ok fd =>
      let len := strlen (sn_lat_dir fsdata) + 1 in
      r ← sys (sys_pwrite fd (string_bytes (sn_lat_dir fsdata) ++ [0]) 0);
      waserror ← (match r with
                  | Err e => mret e
                  | Ok ret =>
                      if negb (ret =? len) then mret EIO
                      else r ← sn_set_latest path; mret (- r)
                  end);
      _ ← sys (sys_close fd);
      _ ← (if negb (waserror =? 0) then _ ← sys (sys_unlink hid); mret tt else mret tt);
      mret waserror
  end.

(** Initialises a new snapshot at the real path [path]. *)
Definition sn_create (path : string) : M Z :=
  m ← sys (sys_mkdir path S_IRWXU);
  match m with
  | Err e => mret (- e)
  | Ok _ =>
      fsdata ← get_fs;
      waserror ← (if negb (sn_is_any fsdata =? 0) then
                    match get_hid_path path with
                    | Err e => mret e
                    | Ok hid => sn_link_previous path hid
                    end
                  else r ← sn_set_latest path; mret (- r));
      if negb (waserror =? 0) then _ ← sys (sys_rmdir path); mret (- waserror)
      else mret 0
  end.

(** Destroys the earliest snapshot. *)
Definition sn_destroy : M Z :=
  '(ret, snpath, prevpointerpath) ← sn_get_earliest;
  if ret <? 0 then mret ret
  else if ret =? 1 then mret (- ENOENT)
  else if ret =? 2 then
    fsdata ← get_fs;
    match get_dir_hid_path (sn_dir fsdata) with
    | Err e => mret (- e)
    | Ok prevpointerpath =>
        u ← sys (sys_unlink prevpointerpath);
        match u with
        | Err e => mret (- e)
        | Ok _ =>
            r ← recursive_remove snpath;
            if negb (r =? 0) then mret r
            else _ ← modify_fs (set_sn_is_any 0); mret 0
        end
    end
  else
    u ← sys (sys_unlink prevpointerpath);
    match u with
    | Err e => mret (- e)
    | Ok _ =>
        r ← recursive_remove snpath;
        if negb (r =? 0) then mret r else mret 0
    end.
