(* ===== verification/SnapshotTheorems.v ===== *)
(** The chain of snapshots on disk.

    [ROOT/snapshots/.hid] names the latest snapshot and [ID.hid] the one
    before [ID].  [chain] says that these pointer files spell out a list of
    snapshots, from the latest to the earliest; the operations of
    [snapshot.c] read that list ([sn_get_latest], [sn_get_earliest],
    [sn_get_paths_to]) and put a new snapshot in front of it ([sn_create]). *)

From S2P Require Import Prelude Posix PosixSpec PosixPath Types Util UtilTheorems Mflock UtilLocking.
From S2P Require Import Layout Tree Snapshot.
From Stdlib Require Import Ascii.

(** ** Strings in files *)

Fixpoint no_nul (s : string) : bool :=
  match s with
  | EmptyString => true
  | String c r => negb (Ascii.eqb c "000"%char) && no_nul r
  end.

Lemma cstring_bytes s rest : no_nul s = true -> cstring (string_bytes s ++ 0 :: rest) = s.
Proof.
  induction s as [| c s IH]; cbn; [done |]. intros [Hc Hs]%andb_prop.
  destruct (Z.eqb_spec (Z.of_N (N_of_ascii c)) 0) as [E | _].
  - assert (N_of_ascii c = 0%N) as E' by lia. rewrite <-(ascii_N_embedding c), E' in Hc. done.
  - by rewrite N2Z.id, ascii_N_embedding, IH.
Qed.

Lemma zlen_string_bytes s : zlen (string_bytes s) = strlen s.
Proof. induction s as [| c s IH]; [done |]. cbn. rewrite zlen_cons, IH. unfold strlen. cbn. lia. Qed.

(** The contents of a pointer file. *)
Definition pointer (target : string) : list Z := string_bytes target ++ [0].

Lemma zlen_pointer t : zlen (pointer t) = strlen t + 1.
Proof. unfold pointer. rewrite zlen_app, zlen_string_bytes. done. Qed.

(** A real path that a pointer file can hold. *)
Definition path_ok (p : string) : Prop := no_nul p = true /\ 0 < strlen p < PATH_MAX.

Lemma file_write_nil d : file_write [] d 0 = d.
Proof.
  unfold file_write. destruct (Z.eqb_spec (zlen d) 0) as [E | E].
  - destruct d; [done | rewrite zlen_cons in E; pose proof (zlen_nonneg d); lia].
  - unfold zdrop, ztake, zeros. cbn. by rewrite drop_nil, app_nil_r.
Qed.

Lemma opened_close s ino flags : set_fds (delete (fresh_fd s) (os_fds (opened s ino flags))) (opened s ino flags) = s.
Proof.
  destruct s as [n i f fl]. unfold opened, set_fds. cbn [os_names os_inodes os_fds os_faults].
  by rewrite delete_insert_id by apply (fresh_fd_free (Os n i f fl)).
Qed.

Lemma set_os_id w : set_os (w_os w) w = w.
Proof. by destruct w. Qed.

(** ** Reading a pointer file changes nothing *)

Lemma read_sndir_file w buf hid ino target :
  os_faults (w_os w) = [] -> file_at (w_os w) (resolve hid) ino (pointer target) -> path_ok target ->
  read_sndir_from_file buf hid w = Some ((strlen target, target), w).
Proof.
  intros Hf Hat [Hn Hl]. unfold read_sndir_from_file.
  rewrite (st_bind_run _ _ _ _ _ (sys_run _ _ _ _ (open_existing (w_os w) hid O_RDONLY 0 ino _ Hf Hat eq_refl))).
  change (has O_RDONLY O_TRUNC) with false. cbv iota.
  set (s1 := opened (w_os w) ino O_RDONLY).
  assert (Hfd : fd_file s1 (fresh_fd (w_os w)) ino (pointer target) O_RDONLY false).
  { apply fd_file_split. split; [apply opened_open_on | apply Hat]. }
  rewrite (st_bind_run _ _ _ _ _ (sys_run _ (set_os s1 w) _ _ (pread_ok s1 _ _ _ _ _ PATH_MAX 0 Hf Hfd ltac:(done) ltac:(done)))).
  rewrite file_read_all by (rewrite zlen_pointer; lia). rewrite zlen_pointer.
  destruct (Z.eqb_spec (strlen target + 1) 0); [lia |]. cbn [orb].
  assert (E : zget (pointer target) (strlen target + 1 - 1) = 0).
  { unfold pointer. rewrite zget_app_r by (rewrite zlen_string_bytes; lia). rewrite zlen_string_bytes.
    by replace (strlen target + 1 - 1 - strlen target) with 0 by lia. }
  rewrite E. cbn [Z.eqb negb].
  rewrite (st_bind_run _ _ _ _ _ (sys_run _ (set_os s1 w) _ _ (close_ok s1 (fresh_fd (w_os w)) _ Hf (lookup_insert_eq _ _ _)))).
  unfold mret, ST_ret. do 2 f_equal.
  - f_equal; [lia |]. unfold pointer. rewrite <-app_assoc. by apply cstring_bytes.
  - unfold s1. cbn [set_os w_os]. rewrite opened_close. by destruct w.
Qed.

Lemma read_sndir_absent w buf hid :
  os_faults (w_os w) = [] -> absent_at (w_os w) (resolve hid) ->
  read_sndir_from_file buf hid w = Some ((0, buf), w).
Proof.
  intros Hf Ha. unfold read_sndir_from_file.
  rewrite (st_bind_run _ _ _ _ _ (sys_run _ _ _ _ (open_absent (w_os w) hid O_RDONLY 0 Hf Ha eq_refl))).
  by rewrite set_os_id.
Qed.

(** ** The chain *)

(** The pointers from [p] on spell out [p :: ps]; [avoid] is the inode of
    the pointer to the latest snapshot. *)
Fixpoint pointers (s : os) (avoid : nat) (p : string) (ps : list string) : Prop :=
  path_ok p /\
  exists hid, get_hid_path p = Ok hid /\
    match ps with
    | [] => absent_at s (resolve hid)
    | q :: r => (exists ino, file_at s (resolve hid) ino (pointer q) /\ ino <> avoid) /\ pointers s avoid q r
    end.

(** The snapshots of the file system, the latest first. *)
Definition chain (s : os) (fs : fsdata_t) (sns : list string) : Prop :=
  exists hid, get_dir_hid_path (sn_dir fs) = Ok hid /\
    match sns with
    | [] => absent_at s (resolve hid)
    | p :: ps => exists il, file_at s (resolve hid) il (pointer p) /\ pointers s il p ps
    end.

Lemma pointers_ok s avoid p ps : pointers s avoid p ps -> path_ok p.
Proof. destruct ps; cbn; by intros [? _]. Qed.

(** What [fsdata] knows of the chain. *)
Definition fs_latest (fs : fsdata_t) (sns : list string) : Prop :=
  match sns with
  | [] => sn_is_any fs = 0
  | p :: _ => sn_is_any fs = 1 /\ sn_lat_dir fs = p /\ sn_lat_dir_len fs = strlen p
  end.

(** [sn_get_latest] finds the head of the chain. *)
Lemma sn_get_latest_spec w sns :
  os_faults (w_os w) = [] -> chain (w_os w) (w_fs w) sns ->
  exists w', sn_get_latest w = Some (0, w') /\ w_os w' = w_os w /\ fs_latest (w_fs w') sns.
Proof.
  intros Hf (hid & Eh & Hc). unfold sn_get_latest. rewrite (st_bind_run get_fs _ w (w_fs w) w eq_refl), Eh.
  destruct sns as [| p ps].
  - rewrite (st_bind_run _ _ _ _ _ (read_sndir_absent w _ hid Hf Hc)). eexists. split; [done |]. done.
  - destruct Hc as (il & Hat & Hp). pose proof (pointers_ok _ _ _ _ Hp) as Hpath. pose proof Hpath as [_ ?].
    rewrite (st_bind_run _ _ _ _ _ (read_sndir_file w _ hid il p Hf Hat Hpath)).
    unfold modify_fs, mbind, ST_bind. cbn. destruct (Z.eqb_spec (strlen p) 0); [lia |].
    destruct (Z.ltb_spec (strlen p) 0); [lia |]. by eexists.
Qed.

(** The last of a nonempty list. *)
Fixpoint earliest (p : string) (ps : list string) : string :=
  match ps with [] => p | q :: r => earliest q r end.

Lemma sn_get_earliest_loop_spec ps : forall w avoid p n fuel prev,
  os_faults (w_os w) = [] -> pointers (w_os w) avoid p ps -> (length ps < fuel)%nat -> 0 <= n ->
  exists prev', sn_get_earliest_loop fuel n p prev w
    = Some ((if decide (n = 0 /\ ps = []) then 2 else 0, earliest p ps, prev'), w) /\
    (forall ps' q, ps = ps' ++ [q] -> get_hid_path (earliest p ps') = Ok prev').
Proof.
  induction ps as [| q r IH]; intros w avoid p n [| fuel] prev Hf Hp Hlen Hn; cbn in Hlen; try lia;
    destruct Hp as (Hpath & hid & Eh & Hp); cbn [sn_get_earliest_loop]; rewrite Eh.
  - rewrite (st_bind_run _ _ _ _ _ (read_sndir_absent w p hid Hf Hp)). cbn. exists prev. split.
    + destruct (Z.eqb_spec n 0), (decide (n = 0 /\ @nil string = [])); tauto.
    + intros ps' x H. by destruct ps'.
  - destruct Hp as [(ino & Hat & _) Hr]. pose proof (pointers_ok _ _ _ _ Hr) as Hq. pose proof Hq as [_ ?].
    rewrite (st_bind_run _ _ _ _ _ (read_sndir_file w p hid ino q Hf Hat Hq)).
    destruct (Z.eqb_spec (strlen q) 0); [lia |]. destruct (Z.ltb_spec (strlen q) 0); [lia |].
    destruct (IH w avoid q (n + 1) fuel hid Hf Hr) as (prev' & E & Hprev); [lia | lia |].
    exists prev'. rewrite E. split.
    + cbn [earliest]. do 4 f_equal. repeat case_decide; destruct_and?; (done || lia).
    + intros [| x ps'] y Hps; cbn in Hps; simplify_eq.
      * destruct fuel as [| fuel]; [cbn in Hlen; lia |]. cbn [sn_get_earliest_loop] in E.
        destruct Hr as (_ & hid' & Eh' & Hr). rewrite Eh', (st_bind_run _ _ _ _ _ (read_sndir_absent w _ hid' Hf Hr)) in E.
        unfold mret, ST_ret in E. by injection E as _ <-.
      * by apply (Hprev ps' y).
Qed.

Lemma sn_get_earliest_spec w p ps :
  os_faults (w_os w) = [] -> chain (w_os w) (w_fs w) (p :: ps) -> fs_latest (w_fs w) (p :: ps) ->
  zlen ps < MAX_SNAPSHOTS ->
  exists prev, sn_get_earliest w = Some ((if decide (ps = []) then 2 else 0, earliest p ps, prev), w) /\
    (forall ps' q, ps = ps' ++ [q] -> get_hid_path (earliest p ps') = Ok prev).
Proof.
  intros Hf (hid & Eh & il & _ & Hp) (Hany & Hlat & _) Hlen.
  unfold sn_get_earliest. rewrite (st_bind_run get_fs _ w (w_fs w) w eq_refl), Hany, Hlat. cbn [Z.eqb].
  destruct (sn_get_earliest_loop_spec ps w il p 0 (Z.to_nat MAX_SNAPSHOTS) "" Hf Hp) as (prev & E & Hprev);
    [unfold zlen in Hlen; lia | done |].
  exists prev. split; [| done]. rewrite E. clear E Hprev Hlen.
  destruct (decide (0 = 0 /\ ps = [])), (decide (ps = [])); (done || tauto).
Qed.

(** ** The way to a snapshot *)

(** The list up to and including [x]. *)
Fixpoint upto (x : string) (l : list string) : option (list string) :=
  match l with
  | [] => None
  | y :: r => if String.eqb x y then Some [y] else cons y <$> upto x r
  end.

Lemma malloc_ok w : os_faults (w_os w) = [] -> malloc_ w = Some (true, w).
Proof. intros H. unfold malloc_, pop_fault. rewrite H. by rewrite set_os_id. Qed.

Lemma sn_get_paths_loop_spec ps : forall w avoid p fuel alloc x acc,
  os_faults (w_os w) = [] -> pointers (w_os w) avoid p ps -> (length ps < fuel)%nat ->
  zlen acc + zlen ps + 1 < MAX_SNAPSHOTS ->
  match upto x (p :: ps) with
  | Some l => sn_get_paths_loop fuel alloc x p acc w = Some ((0, acc ++ l), w)
  | None => exists acc', sn_get_paths_loop fuel alloc x p acc w = Some ((- EFAULT, acc'), w)
  end.
Proof.
  induction ps as [| q r IH]; intros w avoid p [| fuel] alloc x acc Hf Hp Hlen Hmax; cbn in Hlen; try lia;
    destruct Hp as (Hpath & hid & Eh & Hp); cbn [sn_get_paths_loop upto]; (destruct (String.eqb x p); [done |]); rewrite Eh;
    pose proof (zlen_nonneg acc).
  - rewrite (st_bind_run _ _ _ true w) by (destruct (alloc <=? zlen acc + 1); [by apply malloc_ok | done]).
    rewrite zlen_nil in Hmax. destruct (Z.leb_spec MAX_SNAPSHOTS (zlen acc + 1)); [lia |].
    cbn [negb]. rewrite (st_bind_run _ _ _ _ _ (read_sndir_absent w "" hid Hf Hp)). by exists acc.
  - rewrite zlen_cons in Hmax. pose proof (zlen_nonneg r).
    destruct Hp as [(ino & Hat & _) Hr]. pose proof (pointers_ok _ _ _ _ Hr) as Hq. pose proof Hq as [_ ?].
    rewrite (st_bind_run _ _ _ true w) by (destruct (alloc <=? zlen acc + 1); [by apply malloc_ok | done]).
    destruct (Z.leb_spec MAX_SNAPSHOTS (zlen acc + 1)); [lia |]. cbn [negb].
    rewrite (st_bind_run _ _ _ _ _ (read_sndir_file w "" hid ino q Hf Hat Hq)).
    destruct (Z.eqb_spec (strlen q) 0); [lia |]. destruct (Z.ltb_spec (strlen q) 0); [lia |].
    specialize (IH w avoid q fuel (if alloc <=? zlen acc + 1 then alloc * 2 else alloc) x (acc ++ [p]) Hf Hr).
    cbn [upto] in IH. destruct (if String.eqb x q then Some [q] else cons q <$> upto x r) as [l |]; cbn [fmap option_fmap option_map].
    + rewrite IH; [by rewrite <-app_assoc | lia | rewrite zlen_app, zlen_cons, zlen_nil; lia].
    + apply IH; [lia | rewrite zlen_app, zlen_cons, zlen_nil; lia].
Qed.

(** The whole function. *)
Lemma sn_get_paths_to_spec w p ps mfd snpath :
  os_faults (w_os w) = [] -> chain (w_os w) (w_fs w) (p :: ps) -> fs_latest (w_fs w) (p :: ps) ->
  is_there snpath <> snpath_root -> strlen (sp_id snpath) + strlen (sn_dir (w_fs w)) < PATH_MAX ->
  zlen ps + 2 < MAX_SNAPSHOTS ->
  sn_get_paths_to mfd snpath w =
    Some (match upto (sn_dir (w_fs w) +:+ sp_id snpath) (p :: ps) with
          | Some l => (0, set_sn_current (zlen l) (set_sn_steps (new_step <$> rootdir (w_fs w) :: l) mfd))
          | None => (- EFAULT, mfd)
          end, w).
Proof.
  intros Hf (hid & Eh & il & _ & Hp) (Hany & Hlat & _) Ht Hlen Hmax.
  unfold sn_get_paths_to. rewrite (st_bind_run get_fs _ w (w_fs w) w eq_refl).
  assert (Hgo : forall x, match x with snpath_root => None | _ => Some tt end = Some tt ->
    forall A (a b : A), match x with snpath_root => a | _ => b end = b) by by intros [].
  rewrite Hgo by by destruct (is_there snpath).
  destruct (Z.leb_spec PATH_MAX (strlen (sp_id snpath) + strlen (sn_dir (w_fs w)))); [lia |].
  cbv zeta. rewrite (st_bind_run _ _ _ _ _ (malloc_ok w Hf)). cbn [negb]. rewrite Hlat.
  pose proof (sn_get_paths_loop_spec ps w il p (Z.to_nat MAX_SNAPSHOTS) 4 (sn_dir (w_fs w) +:+ sp_id snpath)
                [rootdir (w_fs w)] Hf Hp ltac:(unfold zlen in Hmax; lia) ltac:(rewrite zlen_cons, zlen_nil; lia)) as E.
  destruct (upto _ (p :: ps)) as [l |].
  - rewrite (st_bind_run _ _ _ _ _ E). cbn [Z.eqb negb app]. rewrite zlen_cons. unfold mret, ST_ret.
    by replace (1 + zlen l - 1) with (zlen l) by lia.
  - destruct E as [acc E]. rewrite (st_bind_run _ _ _ _ _ E). done.
Qed.

(** ** Writing files by name *)

(** [s'] is [s] with [d] in the file [p], whose inode is [ino]. *)
Record wrote (s s' : os) (p : path) (ino : nat) (d : list Z) : Prop := {
  wr_at : file_at s' p ino d;
  wr_grows : grows s s';
  wr_faults : os_faults s' = os_faults s;
  wr_others : forall i n, i <> ino -> os_inodes s !! i = Some n -> os_inodes s' !! i = Some n;
  wr_names : forall q, q <> p -> os_names s' !! q = os_names s !! q;
  wr_fds : os_fds s' = os_fds s;
  wr_old : os_names s !! p = Some ino \/ os_inodes s !! ino = None
}.

(** [s'] is [s] with a new node at [p]. *)
Record added (s s' : os) (p : path) : Prop := {
  ad_grows : grows s s';
  ad_faults : os_faults s' = os_faults s;
  ad_others : forall i n, os_inodes s !! i = Some n -> os_inodes s' !! i = Some n;
  ad_names : forall q, q <> p -> os_names s' !! q = os_names s !! q;
  ad_fds : os_fds s' = os_fds s
}.

Lemma added_node s p mode : os_names s !! p = None -> added s (snd (add_node p mode s)) p.
Proof.
  intros Hp. split; [by apply grows_add | done | | | done].
  - intros i n Hi. unfold add_node. cbn. rewrite lookup_insert_ne; [done |]. intros <-. by rewrite fresh_ino_free in Hi.
  - intros q Hq. unfold add_node. cbn. by rewrite lookup_insert_ne.
Qed.

Lemma mkdir_ok s name mode :
  os_faults s = [] -> absent_at s (resolve name) ->
  sys_mkdir name mode s = (Ok tt, snd (add_node (resolve name) (Z.lor S_IFDIR mode) s)).
Proof. intros Hf [Hd Hn]. unfold sys_mkdir. rewrite syscall_ok by done. by rewrite Hd, Hn. Qed.

(** A regular file that holds [c] by name and is open for writing. *)
Lemma write_opened s p ino c acc flags d :
  file_at s p ino c -> Z.land flags O_ACCMODE = acc -> acc <> O_RDONLY -> has flags O_APPEND = false ->
  os_faults s = [] ->
  sys_pwrite (fresh_fd s) d 0 (opened s ino flags)
    = (Ok (zlen d), set_data ino (file_write c d 0) (opened s ino flags)).
Proof.
  intros Hat Ea Hacc Happ Hf. eapply pwrite_ok; [done | | done | done].
  apply fd_file_split. split; [| apply Hat]. rewrite <-Ea, <-Happ. apply opened_open_on.
Qed.

(** Data may be changed before or after opening. *)
Lemma set_data_opened s i d ino flags : set_data i d (opened s ino flags) = opened (set_data i d s) ino flags.
Proof. done. Qed.

Lemma wrote_data s p ino c d : file_at s p ino c -> wrote s (set_data ino d s) p ino d.
Proof.
  intros Hat. split; [by eapply file_at_set_data | apply grows_data | done | | done | done | left; apply Hat].
  intros i n Hi Hn. cbn. by rewrite lookup_alter_ne.
Qed.

Lemma wrote_new s s' p ino d : added s s' p -> file_at s' p ino [] -> os_inodes s !! ino = None ->
  wrote s (set_data ino d s') p ino d.
Proof.
  intros [Hg Hf Ho Hn Hfd] Hat Hnew. split; [by eapply file_at_set_data | | done | | done | done | by right].
  - eapply grows_trans; [done | apply grows_data].
  - intros i n Hi Hx. cbn. rewrite lookup_alter_ne by done. by apply Ho.
Qed.

(** In a tree, only that path changes. *)
Lemma wrote_tree s s' p ino d :
  os_wf s -> Forall comp_ok p -> wrote s s' p ino d -> os_wf s' /\ same_but (eq p) s s' /\ file_is s' p d.
Proof.
  intros Hwf Hok [Hat Hg _ Ho Hn _ Hold].
  assert (Hother : forall q i, q <> p -> os_names s !! q = Some i -> i <> ino).
  { intros q i Hq Hi ->. destruct Hold as [E | E]; [by eapply Hq, wf_inj |].
    destruct (wf_node _ Hwf _ _ Hi) as [n Hn']. congruence. }
  pose proof Hat as (Hd & Hp & m & Hm & Hr). split_and!.
  - split.
    + eapply grows_is_dir; [done | apply (wf_root _ Hwf)].
    + intros q i Hi. destruct (decide (q = p)) as [-> | Hq]; [rewrite Hp in Hi; injection Hi as <-; by eexists |].
      rewrite Hn in Hi by done. destruct (wf_node _ Hwf _ _ Hi) as [n Hn']. destruct (proj2 Hg _ _ Hn') as (n' & ? & _). by eexists.
    + intros q c i Hi. destruct (decide (q ++ [c] = p)) as [<- | Hq]; [by eapply dirs_ok_parent |].
      rewrite Hn in Hi by done. eapply grows_is_dir; [done | by eapply (wf_parent _ Hwf)].
    + intros q i Hi. destruct (decide (q = p)) as [-> | Hq]; [done |]. rewrite Hn in Hi by done. by eapply (wf_comp _ Hwf).
    + intros q r i Hq Hr'. destruct (decide (q = p)) as [-> | Hqp], (decide (r = p)) as [-> | Hrp]; [done | | |].
      * rewrite Hn in Hr' by done. rewrite Hp in Hq. injection Hq as <-. by apply Hother in Hr'.
      * rewrite Hn in Hq by done. rewrite Hp in Hr'. injection Hr' as <-. by apply Hother in Hq.
      * rewrite Hn in Hq, Hr' by done. by eapply (wf_inj _ Hwf).
  - intros q Hq. unfold entry_at. rewrite Hn by done. destruct (os_names s !! q) as [i |] eqn:E; [| done]. cbn.
    destruct (wf_node _ Hwf _ _ E) as [n Hn']. rewrite Hn', (Ho i n); [done | | done]. eapply Hother; [| done]. done.
  - exists m. split; [| done]. apply node_at_Some. by exists ino.
Qed.

(** Writes a pointer into an empty file that has just been opened, and closes it. *)
Lemma write_pointer_file w s p il flags target :
  os_faults s = [] -> file_at s p il [] -> Z.land flags O_ACCMODE = O_WRONLY -> has flags O_APPEND = false ->
  sys (sys_pwrite (fresh_fd s) (pointer target) 0) (set_os (opened s il flags) w)
    = Some (Ok (strlen target + 1), set_os (opened (set_data il (pointer target) s) il flags) w) /\
  sys (sys_close (fresh_fd s)) (set_os (opened (set_data il (pointer target) s) il flags) w)
    = Some (Ok tt, set_os (set_data il (pointer target) s) w).
Proof.
  intros Hf Hat Ha Happ. split.
  - rewrite (sys_run _ (set_os (opened s il flags) w) _ _ (write_opened s p il [] O_WRONLY flags (pointer target) Hat Ha ltac:(done) Happ Hf)).
    by rewrite zlen_pointer, file_write_nil.
  - set (s1 := set_data il (pointer target) s).
    rewrite (sys_run _ (set_os (opened s1 il flags) w) _ _ (close_ok (opened s1 il flags) (fresh_fd s) _ Hf (lookup_insert_eq _ _ _))).
    cbn [set_os w_os]. change (fresh_fd s) with (fresh_fd s1). by rewrite opened_close.
Qed.

(** [fsdata] after a new latest snapshot. *)
Definition fs_new_latest (p : string) (f : fsdata_t) : fsdata_t :=
  set_sn_number (i32 (sn_number f + 1)) (set_sn_is_any 1 (set_sn_lat_dir p (strlen p) f)).

Lemma sn_set_latest_spec w p hid :
  os_faults (w_os w) = [] -> get_dir_hid_path (sn_dir (w_fs w)) = Ok hid ->
  absent_at (w_os w) (resolve hid) \/ (exists il c, file_at (w_os w) (resolve hid) il c) ->
  exists s' il, sn_set_latest p w = Some (0, set_fs (fs_new_latest p (w_fs w)) (set_os s' w)) /\
    wrote (w_os w) s' (resolve hid) il (pointer p) /\
    (forall il' c, file_at (w_os w) (resolve hid) il' c -> il = il').
Proof.
  intros Hf Eh Hcase. unfold sn_set_latest. rewrite (st_bind_run get_fs _ w (w_fs w) w eq_refl), Eh.
  set (flags := Z.lor (Z.lor O_WRONLY O_CREAT) O_TRUNC).
  assert (Hrun : exists s0 il, sys_open hid flags S_IRWXU (w_os w) = (Ok (fresh_fd s0), opened s0 il flags) /\
    os_faults s0 = [] /\ file_at s0 (resolve hid) il [] /\
    wrote (w_os w) (set_data il (pointer p) s0) (resolve hid) il (pointer p) /\
    (forall il' c, file_at (w_os w) (resolve hid) il' c -> il = il')).
  { destruct Hcase as [Ha | (il & c & Hat)].
    - exists (snd (add_node (resolve hid) (Z.lor S_IFREG S_IRWXU) (w_os w))), (fresh_ino (w_os w)). split; [by apply (open_create (w_os w) hid flags S_IRWXU) |].
      split; [done |]. split; [by apply add_node_file_at |]. split.
      + apply wrote_new; [apply added_node; apply Ha | by apply add_node_file_at | apply fresh_ino_free].
      + intros il' c' (_ & Hn & _). destruct Ha. congruence.
    - exists (set_data il [] (w_os w)), il. split; [by apply (open_existing (w_os w) hid flags S_IRWXU il c) |].
      split; [done |]. split; [by eapply file_at_set_data |]. split.
      + pose proof (wrote_data (w_os w) (resolve hid) il c (pointer p) Hat) as Hw.
        replace (set_data il (pointer p) (set_data il [] (w_os w))) with (set_data il (pointer p) (w_os w)); [done |].
        unfold set_data, set_inodes. f_equal. cbn. rewrite alter_alter_eq. apply alter_ext. done.
      + intros il' c' (_ & Hn & _). destruct Hat as (_ & ? & _). congruence. }
  destruct Hrun as (s0 & il & Eo & Hf0 & Hat0 & Hw & Hil).
  destruct (write_pointer_file w s0 (resolve hid) il flags p Hf0 Hat0 eq_refl eq_refl) as [Ew Ec].
  rewrite (st_bind_run _ _ _ _ _ (sys_run _ _ _ _ Eo)). cbv iota zeta.
  rewrite (st_bind_run _ _ _ _ _ Ew). rewrite Z.eqb_refl. cbn [negb]. rewrite (st_bind_run _ _ _ _ _ Ec).
  eexists _, il. split; [| by split].
  unfold modify_fs, mbind, ST_bind, mret, ST_ret, fs_new_latest. by replace (strlen p + 1 - 1) with (strlen p) by lia.
Qed.

(** ** What survives a change *)

Lemma added_file_at s s' p q ino c : added s s' p -> file_at s q ino c -> file_at s' q ino c.
Proof.
  intros [Hg _ Ho _ _] Hat. eapply file_at_grows; [done | done |].
  destruct Hat as (_ & _ & m & Hi & _). rewrite Hi. by apply Ho.
Qed.

Lemma added_absent s s' p q : added s s' p -> q <> p -> absent_at s q -> absent_at s' q.
Proof. intros [Hg _ _ Hn _] Hq [Hd Ha]. split; [by eapply walk_grows | by rewrite Hn]. Qed.

Lemma wrote_file_at s s' p i d q ino c : wrote s s' p i d -> ino <> i -> file_at s q ino c -> file_at s' q ino c.
Proof.
  intros [_ Hg _ Ho _ _ _] Hne Hat. eapply file_at_grows; [done | done |].
  destruct Hat as (_ & _ & m & Hi & _). rewrite Hi. by apply Ho.
Qed.

Lemma wrote_absent s s' p i d q : wrote s s' p i d -> q <> p -> absent_at s q -> absent_at s' q.
Proof. intros [_ Hg _ _ Hn _ _] Hq [Hd Ha]. split; [by eapply walk_grows | by rewrite Hn]. Qed.

Lemma absent_at_fds s x q : absent_at s q -> absent_at (set_fds x s) q.
Proof. intros [Hd Ha]. split; [by eapply walk_grows; [apply grows_fds |] | done]. Qed.

Lemma pointers_move s s' avoid ps : forall p,
  (forall q ino c, ino <> avoid -> file_at s q ino c -> file_at s' q ino c) ->
  (forall q hq, q ∈ p :: ps -> get_hid_path q = Ok hq -> absent_at s (resolve hq) -> absent_at s' (resolve hq)) ->
  pointers s avoid p ps -> pointers s' avoid p ps.
Proof.
  induction ps as [| q r IH]; intros p Hf Ha (Hp & hid & Eh & H); (split; [done |]); exists hid; (split; [done |]).
  - apply (Ha p); [apply list_elem_of_here | done | done].
  - destruct H as [(ino & Hat & Hne) Hr]. split; [exists ino; auto |]. apply IH; [done | | done].
    intros x hx Hx. apply Ha. by apply list_elem_of_further.
Qed.

(** ** Creating a snapshot *)

(** The new snapshot's names are free, and none of the pointer files of the
    chain is in the way. *)
Record new_ok (s : os) (fs : fsdata_t) (sns : list string) (p hid dh : string) : Prop := {
  nw_path : path_ok p;
  nw_hid : get_hid_path p = Ok hid;
  nw_dh : get_dir_hid_path (sn_dir fs) = Ok dh;
  nw_absent : absent_at s (resolve p);
  nw_hid_absent : absent_at s (resolve hid);
  nw_distinct : resolve hid <> resolve p /\ resolve dh <> resolve p /\ resolve dh <> resolve hid;
  nw_chain : forall q hq, q ∈ sns -> get_hid_path q = Ok hq -> resolve hq <> resolve p /\ resolve hq <> resolve hid
}.

(** What creating a snapshot leaves of the tree. *)
Definition created_tree (s s' : os) (p hid dh : path) : Prop :=
  os_wf s -> Forall comp_ok p -> Forall comp_ok hid -> Forall comp_ok dh ->
  os_wf s' /\ same_but (fun q => q = p \/ q = hid \/ q = dh) s s' /\ is_dir s' p.

(** Making the directory. *)
Lemma mkdir_tree s p mode :
  os_wf s -> Forall comp_ok p -> absent_at s p -> S_ISDIR (Z.lor S_IFDIR mode) = true ->
  let s' := snd (add_node p (Z.lor S_IFDIR mode) s) in os_wf s' /\ same_but (eq p) s s' /\ is_dir s' p.
Proof.
  intros Hwf Hok Ha Hm s'. destruct (add_tree s p (Z.lor S_IFDIR mode) Hwf Hok Ha) as [? ?]. split_and!; [done | done |].
  exists (Inode (new_meta (Z.lor S_IFDIR mode)) []). split; [| done].
  unfold s', node_at, add_node. cbn. rewrite lookup_insert_eq. cbn. by rewrite lookup_insert_eq.
Qed.

Lemma sn_create_first w p hid dh :
  os_faults (w_os w) = [] -> chain (w_os w) (w_fs w) [] -> fs_latest (w_fs w) [] ->
  new_ok (w_os w) (w_fs w) [] p hid dh ->
  exists s', sn_create p w = Some (0, set_fs (fs_new_latest p (w_fs w)) (set_os s' w)) /\
    os_faults s' = [] /\ os_fds s' = os_fds (w_os w) /\ chain s' (w_fs w) [p] /\
    created_tree (w_os w) s' (resolve p) (resolve hid) (resolve dh).
Proof.
  intros Hf (dh' & Edh & Hdh) Hany []. rewrite nw_dh0 in Edh. simplify_eq. destruct nw_distinct0 as (D1 & D2 & D3).
  unfold sn_create. rewrite (st_bind_run _ _ _ _ _ (sys_run _ _ _ _ (mkdir_ok (w_os w) p S_IRWXU Hf nw_absent0))).
  set (s1 := snd (add_node (resolve p) (Z.lor S_IFDIR S_IRWXU) (w_os w))).
  pose proof (added_node (w_os w) (resolve p) (Z.lor S_IFDIR S_IRWXU) (proj2 nw_absent0) : added _ s1 _) as Had.
  rewrite (st_bind_run get_fs _ (set_os s1 w) (w_fs w) (set_os s1 w) eq_refl). cbn in Hany. rewrite Hany. cbn [Z.eqb negb].
  destruct (sn_set_latest_spec (set_os s1 w) p dh' Hf nw_dh0) as (s2 & il & E & Hw & _).
  { left. by eapply added_absent. }
  unfold mbind at 1, ST_bind at 1. rewrite (st_bind_run _ _ _ _ _ E). cbn.
  exists s2. split; [done |]. split; [by rewrite (wr_faults _ _ _ _ _ Hw) |].
  split; [etransitivity; [apply (wr_fds _ _ _ _ _ Hw) | apply (ad_fds _ _ _ Had)] |].
  split.
  - exists dh'. split; [done |]. exists il. split; [apply (wr_at _ _ _ _ _ Hw) |].
    split; [done |]. exists hid. split; [done |].
    eapply wrote_absent; [done | by apply not_eq_sym |]. by eapply added_absent.
  - intros Hwf Hp _ Hd. destruct (mkdir_tree _ _ S_IRWXU Hwf Hp nw_absent0 eq_refl : os_wf s1 /\ same_but _ _ s1 /\ _) as (Hwf1 & Hs1 & Hdir).
    destruct (wrote_tree _ _ _ _ _ Hwf1 Hd Hw) as (Hwf2 & Hs2 & _). split_and!; [done | |].
    + intros q Hq. rewrite Hs2, Hs1; [done | |]; intros <-; tauto.
    + by eapply same_but_dir.
Qed.

Lemma set_fds_opened s ino flags x : set_fds x (opened s ino flags) = set_fds x s.
Proof. done. Qed.

Lemma file_at_unopened s ino flags q i c : file_at (opened s ino flags) q i c <-> file_at s q i c.
Proof.
  split; intros H.
  - apply (file_at_fds _ _ _ _ (os_fds s)) in H. rewrite set_fds_opened in H. by destruct s.
  - by apply file_at_fds.
Qed.

(** What linking the new snapshot [p] to the previous one [q] leaves on disk:
    the pointer file [hid] is new, the pointer [dh] to the latest is changed. *)
Record linked (s s' : os) (hid dh : path) (p q : string) (il : nat) : Prop := {
  lk_faults : os_faults s' = [];
  lk_fds : os_fds s' = os_fds s;
  lk_hid : exists ih, file_at s' hid ih (pointer q) /\ ih <> il;
  lk_latest : file_at s' dh il (pointer p);
  lk_kept : forall x ino c, ino <> il -> file_at s x ino c -> file_at s' x ino c;
  lk_absent : forall x, x <> hid -> x <> dh -> absent_at s x -> absent_at s' x;
  lk_tree : os_wf s -> Forall comp_ok hid -> Forall comp_ok dh ->
    os_wf s' /\ same_but (fun x => x = hid \/ x = dh) s s'
}.

Lemma linked_intro s s3 s4 hid dh p q ih il flags :
  os_faults s = [] -> os_inodes s !! ih = None -> ih <> il ->
  wrote s s3 hid ih (pointer q) -> wrote (opened s3 ih flags) s4 dh il (pointer p) ->
  os_fds s3 = os_fds s -> fresh_fd s3 = fresh_fd s ->
  linked s (set_fds (delete (fresh_fd s) (os_fds s4)) s4) hid dh p q il.
Proof.
  intros Hf Hih Hne Hw3 Hw4 Efds Efr. split.
  - cbn. by rewrite (wr_faults _ _ _ _ _ Hw4), <-Hf, <-(wr_faults _ _ _ _ _ Hw3).
  - cbn [os_fds set_fds]. rewrite (wr_fds _ _ _ _ _ Hw4), <-Efr, <-Efds. apply (f_equal os_fds (opened_close s3 ih flags)).
  - exists ih. split; [| done]. apply file_at_fds. eapply wrote_file_at; [exact Hw4 | done |].
    apply file_at_unopened, (wr_at _ _ _ _ _ Hw3).
  - apply file_at_fds, (wr_at _ _ _ _ _ Hw4).
  - intros x ino c Hino Hx. apply file_at_fds. eapply wrote_file_at; [exact Hw4 | done |]. apply file_at_unopened.
    eapply wrote_file_at; [exact Hw3 | | done]. intros ->. destruct Hx as (_ & _ & m & Hi & _). congruence.
  - intros x Hx1 Hx2 Hax. apply absent_at_fds.
    eapply wrote_absent; [exact Hw4 | done | apply absent_at_fds; by eapply wrote_absent; [exact Hw3 | |]].
  - intros Hwf Hh Hd. destruct (wrote_tree _ _ _ _ _ Hwf Hh Hw3) as (Hwf3 & Hs3 & _).
    destruct (wrote_tree _ _ _ _ _ (os_wf_fds _ _ Hwf3 : os_wf (opened s3 ih flags)) Hd Hw4) as (Hwf4 & Hs4 & _).
    split; [by apply os_wf_fds |]. intros x Hx. change (entry_at s4 x = entry_at s x).
    rewrite Hs4 by (intros <-; tauto). change (entry_at s3 x = entry_at s x). apply Hs3. intros <-. tauto.
Qed.

Lemma sn_link_previous_ok w p hid dh q il :
  os_faults (w_os w) = [] -> sn_lat_dir (w_fs w) = q -> get_dir_hid_path (sn_dir (w_fs w)) = Ok dh ->
  absent_at (w_os w) (resolve hid) -> file_at (w_os w) (resolve dh) il (pointer q) ->
  exists s', sn_link_previous p hid w = Some (0, set_fs (fs_new_latest p (w_fs w)) (set_os s' w)) /\
    linked (w_os w) s' (resolve hid) (resolve dh) p q il.
Proof.
  intros Hf Hlat Edh Habs Hdh. set (s1 := w_os w) in *. set (flags := Z.lor (Z.lor O_WRONLY O_CREAT) O_EXCL).
  set (s2 := snd (add_node (resolve hid) (Z.lor S_IFREG S_IRWXU) s1)). set (ih := fresh_ino s1).
  pose proof (add_node_file_at s1 (resolve hid) (Z.lor S_IFREG S_IRWXU) Habs eq_refl : file_at s2 _ ih []) as Hat2.
  pose proof (added_node s1 (resolve hid) (Z.lor S_IFREG S_IRWXU) (proj2 Habs) : added s1 s2 _) as Had2.
  set (s3 := set_data ih (pointer q) s2).
  assert (Hw3 : wrote s1 s3 (resolve hid) ih (pointer q)) by (apply wrote_new; [done | done | apply fresh_ino_free]).
  assert (Hne : ih <> il).
  { intros <-. destruct Hdh as (_ & _ & m & Hi & _). by rewrite (fresh_ino_free s1 : os_inodes s1 !! ih = None) in Hi. }
  assert (Hdh3 : file_at s3 (resolve dh) il (pointer q)) by by eapply wrote_file_at.
  destruct (sn_set_latest_spec (set_os (opened s3 ih flags) w) p dh Hf Edh) as (s4 & il' & E & Hw4 & Hil).
  { right. exists il, (pointer q). by apply file_at_unopened. }
  assert (il' = il) as -> by (eapply Hil; by apply file_at_unopened).
  pose proof (write_pointer_file w s2 (resolve hid) ih flags q Hf Hat2 eq_refl eq_refl) as [Ewr _]. fold s3 in Ewr.
  assert (Hf4 : os_faults s4 = []) by by rewrite (wr_faults _ _ _ _ _ Hw4).
  exists (set_fds (delete (fresh_fd s1) (os_fds s4)) s4). split.
  - unfold sn_link_previous. rewrite (st_bind_run get_fs _ w (w_fs w) w eq_refl).
    rewrite (st_bind_run _ _ _ _ _ (sys_run _ w _ _ (open_create s1 hid flags S_IRWXU Hf Habs eq_refl))).
    cbv zeta. rewrite Hlat. rewrite (st_bind_run _ _ _ _ _ Ewr).
    rewrite (st_bind_run _ _ (set_os (opened s3 ih flags) w) 0 (set_fs (fs_new_latest p (w_fs w)) (set_os s4 w))).
    2: { rewrite Z.eqb_refl. cbn [negb]. rewrite (st_bind_run _ _ _ _ _ E). done. }
    assert (Hfd4 : os_fds s4 !! fresh_fd s1 = Some (OFile ih (Z.land flags O_ACCMODE) (has flags O_APPEND) 0)).
    { rewrite (wr_fds _ _ _ _ _ Hw4). apply lookup_insert_eq. }
    by rewrite (st_bind_run _ _ _ _ _ (sys_run _ (set_fs _ (set_os s4 w)) _ _ (close_ok s4 (fresh_fd s1) _ Hf4 Hfd4))).
  - by apply (linked_intro s1 s3 s4 _ _ _ _ ih il flags); [| apply fresh_ino_free | | | | |].
Qed.

Lemma sn_create_next w p hid dh q ps :
  os_faults (w_os w) = [] -> chain (w_os w) (w_fs w) (q :: ps) -> fs_latest (w_fs w) (q :: ps) ->
  new_ok (w_os w) (w_fs w) (q :: ps) p hid dh ->
  exists s', sn_create p w = Some (0, set_fs (fs_new_latest p (w_fs w)) (set_os s' w)) /\
    os_faults s' = [] /\ os_fds s' = os_fds (w_os w) /\ chain s' (w_fs w) (p :: q :: ps) /\
    created_tree (w_os w) s' (resolve p) (resolve hid) (resolve dh).
Proof.
  intros Hf (dh' & Edh & il0 & Hdh & Hps) (Hany & Hlat & _) []. rewrite nw_dh0 in Edh. injection Edh as <-.
  destruct nw_distinct0 as (D1 & D2 & D3).
  unfold sn_create. rewrite (st_bind_run _ _ _ _ _ (sys_run _ _ _ _ (mkdir_ok (w_os w) p S_IRWXU Hf nw_absent0))).
  set (s1 := snd (add_node (resolve p) (Z.lor S_IFDIR S_IRWXU) (w_os w))).
  pose proof (added_node (w_os w) (resolve p) (Z.lor S_IFDIR S_IRWXU) (proj2 nw_absent0) : added _ s1 _) as Had.
  rewrite (st_bind_run get_fs _ (set_os s1 w) (w_fs w) (set_os s1 w) eq_refl), Hany. cbn [Z.eqb negb]. rewrite nw_hid0.
  destruct (sn_link_previous_ok (set_os s1 w) p hid dh q il0) as (s' & E & []);
    [done | done | done | by eapply added_absent | by eapply added_file_at |].
  rewrite (st_bind_run _ _ _ _ _ E). cbn [Z.eqb negb]. exists s'. split_and!; [done | done | done | |].
  2: { intros Hwf Hp Hh Hd. destruct (mkdir_tree _ _ S_IRWXU Hwf Hp nw_absent0 eq_refl : os_wf s1 /\ same_but _ _ s1 /\ _) as (Hwf1 & Hs1 & Hdir).
       destruct (lk_tree0 Hwf1 Hh Hd) as [Hwf2 Hs2]. split_and!; [done | |].
       - intros x Hx. rewrite Hs2, Hs1; [done | |]; [intros <- | intros [-> | ->]]; tauto.
       - eapply same_but_dir; [done | | done]. intros [E' | E']; [by apply D1 | by apply D2]. }
  exists dh. split; [done |]. exists il0. split; [done |]. split; [done |]. exists hid. split; [done |]. split; [done |].
  apply (pointers_move (w_os w)); [| | done].
  - intros x ino c Hino Hx. apply lk_kept0; [done | by eapply added_file_at].
  - intros x hx Hx Ehx Hax. destruct (nw_chain0 x hx Hx Ehx) as [N1 N2].
    apply lk_absent0; [done | | by eapply added_absent].
    intros E'. rewrite E' in Hax. destruct Hax as [_ Hax], Hdh as (_ & Hdh & _). congruence.
Qed.

(** A new snapshot goes in front of the chain. *)
Lemma sn_create_spec w p hid dh sns :
  os_faults (w_os w) = [] -> chain (w_os w) (w_fs w) sns -> fs_latest (w_fs w) sns ->
  new_ok (w_os w) (w_fs w) sns p hid dh ->
  exists s', sn_create p w = Some (0, set_fs (fs_new_latest p (w_fs w)) (set_os s' w)) /\
    os_faults s' = [] /\ os_fds s' = os_fds (w_os w) /\ chain s' (w_fs w) (p :: sns) /\
    created_tree (w_os w) s' (resolve p) (resolve hid) (resolve dh).
Proof. destruct sns; [apply sn_create_first | apply sn_create_next]. Qed.

(** ** Theorems *)

(** A disk with the snapshots [s2] (the latest) and [s1]. *)
Definition ch_node (mode : Z) (d : list Z) : inode := Inode (Stat 1 1 1 mode 1000 1000 0 0 4096 0 0 0 0) d.
Definition ch_dir : inode := ch_node (Z.lor S_IFDIR S_IRWXU) [].
Definition ch_pointer (target : string) : inode := ch_node (Z.lor S_IFREG S_IRWXU) (pointer target).
Definition ch_os : os :=
  Os {[ [] := 1%nat; ["r"] := 2%nat; ["r"; "snapshots"] := 3%nat; ["r"; "snapshots"; ".hid"] := 4%nat;
        ["r"; "snapshots"; "s1"] := 5%nat; ["r"; "snapshots"; "s2"] := 6%nat; ["r"; "snapshots"; "s2.hid"] := 7%nat ]}
     {[ 1%nat := ch_dir; 2%nat := ch_dir; 3%nat := ch_dir; 4%nat := ch_pointer "/r/snapshots/s2";
        5%nat := ch_dir; 6%nat := ch_dir; 7%nat := ch_pointer "/r/snapshots/s1" ]} ∅ [].
Definition ch_fs : fsdata_t := FsData "/r" 2 "/r/snapshots" 2 "/r/snapshots/s2" 15 1 [] None.
Definition ch_mfd : mfd_t :=
  Mfd mfd_main (MapHeader 0 0 (Stat 0 0 0 0 0 0 0 0 0 0 0 0 0) []) 0 0 0 None 0 0 "" 0 0 0 [].
Definition ch_world : world := World ch_os ch_fs ∅ [] ch_mfd 0.
Definition ch_sns : list string := ["/r/snapshots/s2"; "/r/snapshots/s1"].

Lemma ch_file_at p ino t : walk ch_os (ancestors [] p) = Ok tt -> os_names ch_os !! p = Some ino ->
  os_inodes ch_os !! ino = Some (ch_pointer t) -> file_at ch_os p ino (pointer t).
Proof. intros Hd Hn Hi. split; [done |]. split; [done |]. by eexists. Qed.

Lemma ch_chain : chain ch_os ch_fs ch_sns.
Proof.
  exists "/r/snapshots/.hid". split; [by vm_compute |]. exists 4%nat.
  split; [by apply ch_file_at; vm_compute |]. split; [by vm_compute |].
  exists "/r/snapshots/s2.hid". split; [by vm_compute |]. split.
  - exists 7%nat. split; [by apply ch_file_at; vm_compute | done].
  - split; [by vm_compute |]. exists "/r/snapshots/s1.hid". split; [by vm_compute | by split; vm_compute].
Qed.

(** C21 (snapshot creation): creating a snapshot whose names are free
    returns 0, makes it the latest one in memory and on disk, puts it in
    front of the chain of snapshots, raises the number by which open handles
    notice the change, and leaves no descriptor open. *)
Theorem sn_create_pushes w p hid dh sns :
  os_faults (w_os w) = [] -> chain (w_os w) (w_fs w) sns -> fs_latest (w_fs w) sns ->
  new_ok (w_os w) (w_fs w) sns p hid dh ->
  exists s', sn_create p w = Some (0, set_fs (fs_new_latest p (w_fs w)) (set_os s' w)) /\
    os_faults s' = [] /\ os_fds s' = os_fds (w_os w) /\
    chain s' (fs_new_latest p (w_fs w)) (p :: sns) /\ fs_latest (fs_new_latest p (w_fs w)) (p :: sns).
Proof.
  intros Hf Hc Hl Hn. destruct (sn_create_spec w p hid dh sns Hf Hc Hl Hn) as (s' & E & ? & ? & ? & _).
  exists s'. by split_and!.
Qed.

Lemma ch_new_ok : new_ok ch_os ch_fs ch_sns "/r/snapshots/s3" "/r/snapshots/s3.hid" "/r/snapshots/.hid".
Proof.
  split; try (by vm_compute); try (by split; vm_compute).
  intros q hq Hq Eq. unfold ch_sns in Hq. apply list_elem_of_In in Hq. cbn in Hq.
  destruct Hq as [<- | [<- | []]]; vm_compute in Eq; injection Eq as <-; split; by vm_compute.
Qed.

Lemma sn_create_pushes_witness :
  exists s', sn_create "/r/snapshots/s3" ch_world
      = Some (0, set_fs (fs_new_latest "/r/snapshots/s3" ch_fs) (set_os s' ch_world)) /\
    os_faults s' = [] /\ os_fds s' = os_fds ch_os /\
    chain s' (fs_new_latest "/r/snapshots/s3" ch_fs) ("/r/snapshots/s3" :: ch_sns) /\
    fs_latest (fs_new_latest "/r/snapshots/s3" ch_fs) ("/r/snapshots/s3" :: ch_sns).
Proof.
  apply (sn_create_pushes ch_world "/r/snapshots/s3" "/r/snapshots/s3.hid" "/r/snapshots/.hid" ch_sns);
    [reflexivity | apply ch_chain | by vm_compute | apply ch_new_ok].
Defined.

(** C23 (the way to a snapshot): [sn_get_paths_to] lists the root of the main
    space and then the snapshots from the latest one up to the one asked
    for, and nothing else, when it is in the chain; it returns EFAULT when
    it is not.  Nothing on disk changes. *)
Theorem sn_get_paths_to_prefix w p ps mfd snpath :
  os_faults (w_os w) = [] -> chain (w_os w) (w_fs w) (p :: ps) -> fs_latest (w_fs w) (p :: ps) ->
  is_there snpath <> snpath_root -> strlen (sp_id snpath) + strlen (sn_dir (w_fs w)) < PATH_MAX ->
  zlen ps + 2 < MAX_SNAPSHOTS ->
  sn_get_paths_to mfd snpath w =
    Some (match upto (sn_dir (w_fs w) +:+ sp_id snpath) (p :: ps) with
          | Some l => (0, set_sn_current (zlen l) (set_sn_steps (new_step <$> rootdir (w_fs w) :: l) mfd))
          | None => (- EFAULT, mfd)
          end, w).
Proof. apply sn_get_paths_to_spec. Qed.

Lemma sn_get_paths_to_prefix_witness :
  sn_get_paths_to ch_mfd (SnPath snpath_full "/s1" "/f") ch_world =
    Some ((0, set_sn_current 2 (set_sn_steps (new_step <$> ["/r"; "/r/snapshots/s2"; "/r/snapshots/s1"]) ch_mfd)), ch_world).
Proof.
  apply (sn_get_paths_to_prefix ch_world "/r/snapshots/s2" ["/r/snapshots/s1"] ch_mfd (SnPath snpath_full "/s1" "/f"));
    [reflexivity | apply ch_chain | by vm_compute | discriminate | by vm_compute | by vm_compute].
Defined.
