(* ===== verification/SnapshotDestroy.v ===== *)
(** Removing a snapshot: [sn_destroy] takes the earliest snapshot off the
    chain and its whole tree off the disk, and leaves everything else. *)

From S2P Require Import Prelude Posix PosixSpec PosixPath Types Util UtilTheorems Mflock UtilLocking.
From S2P Require Import Layout Tree Snapshot SnapshotTheorems.

(** ** Names of snapshots *)

(** A name that the listing of [/snapshots] shows. *)
Definition shown (id : string) : Prop := sn_filter_name id = 1.

Lemma hid_not_shown x : ~ shown (x +:+ EXT_HID).
Proof.
  unfold shown, sn_filter_name. rewrite strlen_app. change (strlen EXT_HID) with EXT_LEN.
  pose proof (strlen_nonneg x). destruct (Z.ltb_spec (strlen x + EXT_LEN) EXT_LEN); [lia |].
  case_match; [done |]. replace (strlen x + EXT_LEN - EXT_LEN) with (strlen x) by lia.
  unfold strlen. rewrite Nat2Z.id, str_from_app. done.
Qed.

Section Names.
Context (R : path) (HR : Forall comp_ok R).

Lemma sn_root_ok id : comp_ok id -> Forall comp_ok (sn_root R id).
Proof using HR. intros H. apply Forall_app. split; [done |]. repeat constructor; try apply H; by vm_compute. Qed.

Lemma hid_name_ok id : comp_ok id -> Forall comp_ok (hid_name R id).
Proof using HR.
  intros H. apply Forall_app. split; [done |]. constructor; [by vm_compute |]. constructor; [by apply comp_ok_ext | done].
Qed.

Lemma latest_name_ok : Forall comp_ok (latest_name R).
Proof using HR. apply Forall_app. split; [done |]. repeat constructor; by vm_compute. Qed.

Lemma sn_root_inj id id' : sn_root R id = sn_root R id' -> id = id'.
Proof. intros H%app_inv_head. by injection H. Qed.

Lemma hid_name_inj id id' : hid_name R id = hid_name R id' -> id = id'.
Proof. intros H%app_inv_head. injection H. apply ext_inj. Qed.

Lemma hid_name_latest id : id <> "" -> hid_name R id <> latest_name R.
Proof. intros Hid H%app_inv_head. injection H. intros E. apply Hid. by apply (ext_inj id "" EXT_HID). Qed.

Lemma entry_split (a : string) : R ++ ["snapshots"; a] = (R ++ ["snapshots"]) ++ [a].
Proof. by rewrite <-app_assoc. Qed.

(** The entries of [/snapshots] lie beside each other. *)
Lemma beside a b : R ++ ["snapshots"; a] `prefix_of` R ++ ["snapshots"; b] -> a = b.
Proof. intros [r E]. rewrite <-app_assoc in E. apply app_inv_head in E. by injection E. Qed.

Lemma hid_outside id id' : shown id -> ~ sn_root R id `prefix_of` hid_name R id'.
Proof. intros Hs H%beside. subst. by apply hid_not_shown in Hs. Qed.

Lemma latest_outside id : shown id -> ~ sn_root R id `prefix_of` latest_name R.
Proof. intros Hs H%beside. subst. by apply (hid_not_shown "") in Hs. Qed.
End Names.

(** ** Removing files *)

Lemma file_leaf s p c x : os_wf s -> file_is s p c -> os_names s !! (p ++ [x]) = None.
Proof.
  intros Hwf Hf. destruct (os_names s !! (p ++ [x])) as [i |] eqn:E; [| done].
  destruct (is_dir_not_file s p c); [by eapply wf_parent | done].
Qed.

Lemma unlink_spec w name i c :
  os_faults (w_os w) = [] -> os_wf (w_os w) -> file_at (w_os w) (resolve name) i c ->
  exists s', sys (sys_unlink name) w = Some (Ok tt, set_os s' w) /\ removed [resolve name] (w_os w) s'.
Proof.
  intros Hf Hwf Hat. set (p := resolve name) in *. pose proof Hat as (Hd & Hn & m & Hi & Hr).
  assert (Hfile : file_is (w_os w) p c) by (apply (wf_file_at _ Hwf); by exists i).
  exists (set_names (delete p (os_names (w_os w))) (w_os w)). split.
  - apply sys_run. unfold sys_unlink. rewrite syscall_ok by done. fold p. unfold lookup_path. rewrite Hd, Hn, Hi.
    unfold i_isdir. cbn [i_meta]. by rewrite Hr.
  - apply delete_leaf; [done |]. intros x. by eapply file_leaf.
Qed.

(** What is not removed stays. *)
Lemma removed_file_at D s s' q i c :
  removed D s s' -> os_wf s' -> (forall d, d ∈ D -> ~ d `prefix_of` q) -> file_at s q i c -> file_at s' q i c.
Proof.
  intros H Hwf Hq (_ & Hn & m & Hi & Hr). assert (Hn' : os_names s' !! q = Some i) by by rewrite (rm_kept _ _ _ H).
  assert (Hi' : os_inodes s' !! i = Some (Inode m c)) by by rewrite (rm_inodes _ _ _ H).
  split; [eapply node_walk; [done | apply node_at_Some; eauto] |]. split; [done | by exists m].
Qed.

(** ** The shorter chain *)

(** The pointer file to remove: the one that names the earliest snapshot. *)
Definition last_pointer (R : path) (ids : list string) : path :=
  match last ids with Some id => hid_name R id | None => latest_name R end.

Section Shorter.
Context (R : path) (HR : Forall comp_ok R) (s s' : os) (Hwf : os_wf s') (idz : string) (Hidz : shown idz).
Context (ids : list string) (Hids : Forall comp_ok ids).
Context (Hrm : removed [last_pointer R ids; sn_root R idz] s s').
Context (Hdir : is_dir s' (R ++ ["snapshots"])).

(** A pointer file that stays. *)
Lemma stays x i c :
  last_pointer R ids <> R ++ ["snapshots"; x] -> idz <> x ->
  file_at s (R ++ ["snapshots"; x]) i c -> file_at s' (R ++ ["snapshots"; x]) i c.
Proof using Hwf Hrm.
  intros Hp Hx. apply (removed_file_at _ _ _ _ _ _ Hrm Hwf).
  intros d [-> | ->%list_elem_of_singleton]%elem_of_cons.
  - intros Hpre. apply Hp. unfold last_pointer in *. destruct (last ids) as [y |]; unfold hid_name, latest_name in *;
      by rewrite (beside R _ _ Hpre).
  - intros Hpre. by apply Hx, (beside R _ _ Hpre).
Qed.

Lemma goes : absent_at s' (last_pointer R ids).
Proof using Hwf Hrm Hdir.
  assert (E : node_at s' (last_pointer R ids) = None) by (eapply removed_gone; [done | apply list_elem_of_here | done]).
  unfold last_pointer in *. destruct (last ids) as [y |]; unfold hid_name, latest_name in *;
    rewrite entry_split in *; by apply wf_absent_at.
Qed.

Lemma pointers_shorter avoid l : forall id pre,
  ids = pre ++ id :: l -> NoDup ids ->
  pointers s avoid (sn_path R id) (sn_path R <$> l ++ [idz]) -> pointers s' avoid (sn_path R id) (sn_path R <$> l).
Proof using HR Hwf Hidz Hids Hrm Hdir.
  induction l as [| id' l IH]; intros id pre E Hnd (Hp & hid & Eh & H); (split; [done |]); exists hid; (split; [done |]).
  all: assert (Hid : comp_ok id) by (rewrite E in Hids; by apply Forall_app in Hids as [_ [? _]%Forall_cons]).
  all: pose proof (resolve_hid R HR id hid Hid Eh) as Er.
  - rewrite Er. assert (E' : last_pointer R ids = hid_name R id) by (unfold last_pointer; by rewrite E, last_snoc).
    rewrite <-E'. apply goes.
  - destruct H as [(ino & Hat & Hne) Hr]. split; [| by apply (IH id' (pre ++ [id])); [rewrite <-app_assoc | |]].
    exists ino. split; [| done]. rewrite Er in *. apply stays; [| | done].
    + unfold last_pointer. rewrite E. change (pre ++ id :: id' :: l) with (pre ++ [id] ++ (id' :: l)).
      destruct (last (pre ++ [id] ++ id' :: l)) as [y |] eqn:El.
      * intros Ey%(hid_name_inj R y id). subst y. rewrite app_assoc, last_app in El.
        destruct (last (id' :: l)) as [y |] eqn:El'; [| by apply last_None in El']. injection El as ->.
        rewrite E in Hnd. apply NoDup_app in Hnd as (_ & _ & [Hni _]%NoDup_cons). apply Hni. by apply last_Some_elem_of.
      * by rewrite last_None in El; destruct pre.
    + intros ->. by apply hid_not_shown in Hidz.
Qed.
End Shorter.

Lemma earliest_snoc p l q : earliest p (l ++ [q]) = q.
Proof. revert p. induction l as [| x l IH]; intros p; [done | apply IH]. Qed.

Lemma earliest_fmap R id l : earliest (sn_path R id) (sn_path R <$> l) = sn_path R (default id (last l)).
Proof.
  revert id. induction l as [| x l IH]; intros id; [done |]. rewrite last_cons.
  change (earliest (sn_path R x) (sn_path R <$> l) = sn_path R (default id (from_option Some (Some x) (last l)))).
  rewrite IH. by destruct (last l).
Qed.

Lemma pointers_last s avoid l q : forall p h,
  pointers s avoid p (l ++ [q]) -> get_hid_path (earliest p l) = Ok h -> exists i c, file_at s (resolve h) i c.
Proof.
  induction l as [| x l IH]; intros p h (_ & hid & Eh & (ino & Hat & _) & Hr) E; cbn in E; [| by apply (IH x)].
  rewrite Eh in E. injection E as <-. by eauto.
Qed.

(** ** [sn_destroy] *)

(** A file system with the snapshots [ids], the latest first, each of them in place. *)
Record snapshots_ok (w : world) (R : path) (ids : list string) : Prop := {
  so_faults : os_faults (w_os w) = [];
  so_wf : os_wf (w_os w);
  so_idle : idle_table (mflocks (w_fs w));
  so_layout : layout (w_fs w) R ids;
  so_shown : Forall shown ids;
  so_chain : chain (w_os w) (w_fs w) (sn_path R <$> ids);
  so_latest : fs_latest (w_fs w) (sn_path R <$> ids);
  so_count : zlen ids + 1 < MAX_SNAPSHOTS;
  so_dir : is_dir (w_os w) (R ++ ["snapshots"]);
  so_dirs : Forall (fun id => is_dir (w_os w) (sn_root R id)) ids
}.

(** The data in memory after the removal of the earliest of [ids ++ [idz]]. *)
Definition fs_destroyed (ids : list string) (f : fsdata_t) : fsdata_t :=
  match ids with [] => set_sn_is_any 0 f | _ :: _ => f end.

Lemma layout_init f R ids idz : layout f R (ids ++ [idz]) -> layout f R ids.
Proof.
  intros [HR Hi Hn]. split; try done; [by apply Forall_app in Hi as [? _] | by apply NoDup_app in Hn as (? & _)].
Qed.

Section Destroy.
Context (w : world) (R : path) (ids : list string) (idz : string) (H : snapshots_ok w R (ids ++ [idz])).

(** The pointer file that goes, and the earliest snapshot as [sn_destroy] finds them. *)
Lemma destroy_pointer : exists name i c,
  resolve name = last_pointer R ids /\ file_at (w_os w) (resolve name) i c /\
  match ids with
  | [] => get_dir_hid_path (sn_dir (w_fs w)) = Ok name /\ (exists prev, sn_get_earliest w = Some ((2, sn_path R idz, prev), w))
  | _ :: _ => sn_get_earliest w = Some ((0, sn_path R idz, name), w)
  end.
Proof using H.
  destruct H. pose proof so_chain0 as (dh & Edh & Hc). pose proof so_layout0 as [HR Hok _ _ _ _].
  assert (Hcount : forall l : list string, zlen l <= zlen ids -> zlen l < MAX_SNAPSHOTS).
  { intros l Hl. rewrite zlen_app in so_count0. change (zlen [idz]) with 1 in so_count0. lia. }
  destruct ids as [| id0 r].
  - destruct Hc as (il & Hat & _). exists dh, il, (pointer (sn_path R idz)).
    split; [by eapply resolve_latest |]. split; [done |]. split; [done |].
    destruct (sn_get_earliest_spec w (sn_path R idz) [] so_faults0 so_chain0 so_latest0) as (prev & E & _); [done |].
    exists prev. by rewrite E.
  - cbn [app fmap list_fmap] in *. rewrite fmap_app in *. cbn [fmap list_fmap] in *.
    destruct (sn_get_earliest_spec w _ _ so_faults0 so_chain0 so_latest0) as (prev & E & Hprev).
    { apply Hcount. unfold zlen. rewrite length_app, length_fmap. cbn. lia. }
    specialize (Hprev _ _ eq_refl). rewrite earliest_fmap in Hprev. rewrite earliest_snoc in E.
    destruct Hc as (il & _ & Hp). rewrite <-earliest_fmap in Hprev. destruct (pointers_last _ _ _ _ _ _ Hp Hprev) as (i & c & Hat).
    rewrite earliest_fmap in Hprev. exists prev, i, c. split_and!; [| done |].
    + assert (Hlast : comp_ok (default id0 (last r))).
      { apply Forall_cons in Hok as [? Hok]. apply Forall_app in Hok as [Hok _]. destruct (last r) as [y |] eqn:El; [| done].
        rewrite Forall_forall in Hok. apply Hok. by apply last_Some_elem_of. }
      rewrite (resolve_hid R HR _ _ Hlast Hprev). unfold last_pointer. destruct r as [| y r]; [done |].
      change (id0 :: y :: r) with ([id0] ++ y :: r). rewrite last_app. destruct (last (y :: r)) eqn:El; [done |]. by apply last_None in El.
    + rewrite E. by rewrite decide_False by by destruct (sn_path R <$> r).
Qed.

(** What is not removed. *)
Lemma destroy_keeps_dirs s' :
  removed [last_pointer R ids; sn_root R idz] (w_os w) s' ->
  is_dir s' (R ++ ["snapshots"]) /\ Forall (fun id => is_dir s' (sn_root R id)) ids.
Proof using H.
  intros Hrm. destruct H. apply Forall_app in so_shown0 as [Hsh [Hz _]%Forall_cons].
  pose proof (ly_nodup _ _ _ so_layout0) as (_ & Hnd & _)%NoDup_app.
  assert (Hent : exists x, last_pointer R ids = R ++ ["snapshots"; x +:+ EXT_HID]).
  { unfold last_pointer. destruct (last ids) as [y |]; [by exists y | by exists ""]. }
  destruct Hent as [x Ex].
  assert (Hk : forall q, (forall d, d ∈ [last_pointer R ids; sn_root R idz] -> ~ d `prefix_of` q) -> is_dir (w_os w) q -> is_dir s' q).
  { intros q Hq (n & Hn & Hd). exists n. by rewrite (removed_node _ _ _ _ Hrm Hq). }
  split.
  - apply Hk; [| done]. rewrite Ex. intros d [-> | ->%list_elem_of_singleton]%elem_of_cons [r E];
      apply (f_equal length) in E; unfold sn_root in E; rewrite !length_app in E; cbn in E; lia.
  - apply Forall_app in so_dirs0 as [Hd _]. rewrite Forall_forall in Hd, Hsh |- *. intros id Hid.
    apply Hk; [| by apply Hd]. rewrite Ex. intros d [-> | ->%list_elem_of_singleton]%elem_of_cons Hp%beside.
    + apply (hid_not_shown x). rewrite Hp. by apply Hsh.
    + subst. apply (Hnd _ Hid). by apply list_elem_of_singleton.
Qed.

Lemma destroy_chain s' f :
  removed [last_pointer R ids; sn_root R idz] (w_os w) s' -> os_wf s' -> sn_dir f = sn_dir (w_fs w) ->
  chain s' f (sn_path R <$> ids).
Proof using H.
  intros Hrm Hwf Ef. destruct (destroy_keeps_dirs s' Hrm) as [Hdir _]. destruct H.
  pose proof so_layout0 as [HR [Hok _]%Forall_app Hnd _ _ _]. apply NoDup_app in Hnd as (Hnd & _ & _).
  apply Forall_app in so_shown0 as [_ [Hz _]%Forall_cons].
  destruct so_chain0 as (dh & Edh & Hc). exists dh. rewrite Ef. split; [done |].
  pose proof (resolve_latest R HR _ _ _ so_layout0 Edh) as Er. rewrite Er in *.
  destruct ids as [| id0 r]; [by apply (goes R (w_os w) s' Hwf idz [] Hrm Hdir) |].
  cbn [app fmap list_fmap] in Hc. destruct Hc as (il & Hat & Hp). exists il. split.
  - apply (stays R (w_os w) s' Hwf idz (id0 :: r) Hrm); [| | done].
    + unfold last_pointer. destruct (last (id0 :: r)) as [y |] eqn:El; [| by apply last_None in El].
      apply hid_name_latest. apply last_Some_elem_of in El. rewrite Forall_forall in Hok. by apply Hok in El as [? _].
    + intros ->. by apply (hid_not_shown "") in Hz.
  - by apply (pointers_shorter R HR (w_os w) s' Hwf idz Hz (id0 :: r) Hok Hrm Hdir il r id0 []).
Qed.

Lemma sn_destroy_spec : exists s',
  sn_destroy w = Some (0, set_fs (fs_destroyed ids (w_fs w)) (set_os s' w)) /\
  removed [last_pointer R ids; sn_root R idz] (w_os w) s' /\
  snapshots_ok (set_fs (fs_destroyed ids (w_fs w)) (set_os s' w)) R ids.
Proof using H.
  destruct destroy_pointer as (name & i & c & Ern & Hat & Hrun). pose proof H as [].
  destruct (unlink_spec w name i c so_faults0 so_wf0 Hat) as (s1 & Eu & Hr1). rewrite Ern in Hr1.
  assert (Hne : forall x, last_pointer R ids <> [] /\ sn_root R x <> []).
  { intros x. unfold last_pointer, sn_root. destruct (last ids); by destruct R. }
  assert (Hwf1 : os_wf s1).
  { eapply removed_wf; [done | | done]. intros E%list_elem_of_singleton. by destruct (Hne idz). }
  assert (is_Some (node_at s1 (sn_root R idz))) as Hnode.
  { apply Forall_app in so_dirs0 as [_ [(n & Hn & _) _]%Forall_cons]. apply Forall_app in so_shown0 as [_ [Hz _]%Forall_cons].
    rewrite (removed_node _ _ _ _ Hr1); [by eexists |]. intros d ->%list_elem_of_singleton Hp. unfold last_pointer in Hp.
    destruct (last ids) as [y |]; [apply (hid_not_shown y) | apply (hid_not_shown "")];
      [by rewrite (beside R _ _ Hp) | by rewrite <-(beside R EXT_HID idz Hp) in Hz]. }
  destruct (recursive_remove_spec (set_os s1 w) (sn_root R idz)) as (s2 & Er & Hr2);
    [apply (Hne idz) | cbn; by rewrite (rm_faults _ _ _ Hr1) | done | done | done |].
  pose proof (removed_trans _ _ _ _ _ Hr1 Hr2) as Hr. cbn [app] in Hr. exists s2.
  assert (Hwf2 : os_wf s2).
  { eapply removed_wf; [done | | done]. intros [E | E%list_elem_of_singleton]%elem_of_cons; destruct (Hne idz); congruence. }
  split_and!; [| done |].
  - unfold sn_destroy. destruct ids as [| id0 r].
    + destruct Hrun as (Edh & prev & E). rewrite (st_bind_run _ _ _ _ _ E). cbn [Z.ltb Z.eqb Z.compare Pos.eqb].
      rewrite (st_bind_run get_fs _ w (w_fs w) w eq_refl), Edh, (st_bind_run _ _ _ _ _ Eu).
      change (sn_path R idz) with (join_path (sn_root R idz)). by rewrite (st_bind_run _ _ _ _ _ Er).
    + rewrite (st_bind_run _ _ _ _ _ Hrun). cbn [Z.ltb Z.eqb Z.compare].
      rewrite (st_bind_run _ _ _ _ _ Eu). change (sn_path R idz) with (join_path (sn_root R idz)).
      by rewrite (st_bind_run _ _ _ _ _ Er).
  - destruct (destroy_keeps_dirs s2 Hr) as [Hd Hds].
    set (f := fs_destroyed ids (w_fs w)).
    assert (Hf : mflocks f = mflocks (w_fs w) /\ sn_dir f = sn_dir (w_fs w) /\ rootdir f = rootdir (w_fs w) /\ rootdir_len f = rootdir_len (w_fs w)).
    { unfold f. by destruct ids. }
    destruct Hf as (E1 & E2 & E3 & E4). split; cbn [w_os w_fs set_fs set_os]; try done.
    + by rewrite (rm_faults _ _ _ Hr).
    + by rewrite E1.
    + apply layout_init in so_layout0 as []. split; rewrite ?E2, ?E3, ?E4; done.
    + by apply Forall_app in so_shown0 as [? _].
    + by apply destroy_chain.
    + unfold f. destruct ids as [| id0 r]; [done |]. done.
    + rewrite zlen_app in so_count0. change (zlen [idz]) with 1 in so_count0. lia.
Qed.
End Destroy.

(** ** Theorems *)

(** C22 (snapshot removal): [sn_destroy], when no call fails, takes the
    earliest snapshot off the chain: it returns 0, the snapshots left are
    those before it, in memory and on disk, what has gone from the disk is the
    pointer file that led to the snapshot and the whole tree of the snapshot,
    and no other name, no inode, no descriptor and no entry of the lock table
    has changed. *)
Theorem sn_destroy_pops w R ids idz :
  snapshots_ok w R (ids ++ [idz]) ->
  exists w', sn_destroy w = Some (0, w') /\ snapshots_ok w' R ids /\
    (sn_is_any (w_fs w') = 0 <-> ids = []) /\ mflocks (w_fs w') = mflocks (w_fs w) /\
    os_fds (w_os w') = os_fds (w_os w) /\ os_inodes (w_os w') = os_inodes (w_os w) /\
    (forall q, os_names (w_os w') !! q =
       if decide (last_pointer R ids `prefix_of` q \/ sn_root R idz `prefix_of` q) then None else os_names (w_os w) !! q).
Proof.
  intros H. destruct (sn_destroy_spec w R ids idz H) as (s' & E & Hr & Hok). eexists. split; [exact E |]. split; [exact Hok |].
  split_and!; [| by destruct ids | apply (rm_fds _ _ _ Hr) | apply (rm_inodes _ _ _ Hr) |].
  - cbn. pose proof (so_latest _ _ _ H) as Hl. unfold fs_latest in Hl. destruct ids as [| id r]; [done |].
    cbn in *. destruct Hl as (Hl & _). split; [by rewrite Hl | done].
  - intros q. cbn. case_decide as Hq.
    + destruct Hq as [Hq | Hq]; eapply (rm_gone _ _ _ Hr); eauto; set_solver.
    + apply (rm_kept _ _ _ Hr). intros d [-> | ->%list_elem_of_singleton]%elem_of_cons; tauto.
Qed.

(** Of [s2] and [s1], [s1] goes. *)
Definition ch_idle : world := set_fs (set_mflocks (replicate (Z.to_nat LOCK_NUM) mflock_init_entry) ch_fs) ch_world.

Lemma ch_snapshots_ok : snapshots_ok ch_idle ["r"] (["s2"] ++ ["s1"]).
Proof.
  split.
  - reflexivity.
  - apply os_wf_check; [by vm_compute | apply (bool_decide_unpack _); by vm_compute].
  - apply idle_table_init.
  - split; try reflexivity; [repeat constructor; by vm_compute .. | apply (bool_decide_unpack _); by vm_compute].
  - repeat constructor.
  - exact ch_chain.
  - by vm_compute.
  - by vm_compute.
  - apply is_dir_b_spec. by vm_compute.
  - repeat constructor; apply is_dir_b_spec; by vm_compute.
Qed.

Lemma sn_destroy_pops_witness :
  exists w', sn_destroy ch_idle = Some (0, w') /\ snapshots_ok w' ["r"] ["s2"].
Proof.
  destruct (sn_destroy_pops ch_idle ["r"] ["s2"] "s1" ch_snapshots_ok) as (w' & E & H & _). exists w'. exact (conj E H).
Defined.
