(* ===== verification/Mfd.v ===== *)
(** [mfd.c]: the file handles of ESFS.

    A main handle carries the descriptors of the map and dat files of the
    latest snapshot ([mfd_open_sn] opens or creates them, [mfd_validate]
    renews them after a new snapshot); a handle inside a snapshot carries
    the steps from the main space to that snapshot ([mfd_get_sn_steps]).
    A C function that fills in [*mfd] returns the handle next to its return
    value. *)

From S2P Require Import Prelude Posix Types Util Mflock UtilLocking Snapshot.

(** 0: internal, 1: show, 2: show without the extension. *)
Definition mfd_filter_name (name : string) : Z :=
  let plen := strlen name in
  if plen <=? EXT_LEN then 1
  else
    let ext := str_from (Z.to_nat (plen - EXT_LEN)) name in
    if String.eqb ext EXT_DAT then 0
    else if String.eqb ext EXT_MAP then 2
    else 1.

Definition mfd_save_mapheader (mfd : mfd_t) : M Z :=
  if mapfd mfd <? 0 then mret 0
  else
    r ← sys (sys_pwrite (mapfd mfd) (enc_header (mapheader mfd)) 0);
    mret match r with
         | Err e => - e
         | Ok ret => if negb (ret =? MAPHEADER_S) then - EIO else 0
         end.

(** The return value and the header; a short read overwrites the start of
    the image in memory only. *)
Definition mfd_load_mapheader (maphead : mapheader_t) (fd : Z) : M (Z * mapheader_t) :=
  r ← sys (sys_pread fd MAPHEADER_S 0);
  mret match r with
       | Err e => (- e, maphead)
       | Ok d =>
           let h := dec_header (d ++ zdrop (zlen d) (enc_header maphead)) in
           if negb (zlen d =? MAPHEADER_S) then (- EIO, h)
           else if negb (mh_version h =? ESFS_VERSION) || negb (bool_decide (mh_signature h = ESFS_SIGNATURE))
           then (- EFAULT, h)
           else (0, h)
       end.

(** [MFD_OPEN_DAT_FILE]: [waserror] and the handle. *)
Definition mfd_open_dat (vpath : string) (mfd : mfd_t) : M (Z * mfd_t) :=
  let maphead := mapheader mfd in
  if mh_exists maphead =? 0 then mret (0, set_datfd MFD_FD_ENOENT mfd)
  else if st_size (mh_fstat maphead) =? 0 then mret (0, set_datfd MFD_FD_ZLEN mfd)
  else
    fsdata ← get_fs;
    match get_dat_prefix_path vpath (sn_lat_dir fsdata) (sn_lat_dir_len fsdata) with
    | Err _ => mret (ENAMETOOLONG, mfd)
    | Ok fdat =>
        o ← sys (sys_open fdat (Z.lor (Z.lor (Z.lor O_WRONLY O_CREAT) O_APPEND) O_NOATIME) S_IRWXU);
        mret match o with
             | Err e => (e, mfd)
             | Ok fd_dat => (0, set_datfd fd_dat mfd)
             end
    end.

Section WithLocks.
Context (lock_ unlock_ : Z -> M Z).

(** Part [B] of [mfd_open_sn]: the map file exists and is open as [fd].
    [waserror], [mylock] and the handle. *)
Definition mfd_open_existing (vpath : string) (fd mylock : Z) (mfd : mfd_t) : M (Z * Z * mfd_t) :=
  '(ret, h) ← mfd_load_mapheader (mapheader mfd) fd;
  let mfd := set_mapheader h (set_mapfd fd mfd) in
  if negb (ret =? 0) then mret (- ret, mylock, mfd)
  else
    ret ← unlock_ mylock;
    if negb (ret =? 0) then mret (- ret, mylock, mfd)
    else
      '(waserror, mfd) ← mfd_open_dat vpath mfd;
      mret (waserror, -1, mfd).

(** The header written for a file at the time of its first change: the
    errno, or the header.  When the file does not exist, its [fstat] stays
    what it was in memory. *)
Definition mfd_new_header (fpath : string) (old : mapheader_t) : M (Z * mapheader_t) :=
  st ← sys (sys_lstat fpath);
  mret match st with
       | Ok fs => (0, MapHeader ESFS_VERSION 1 fs ESFS_SIGNATURE)
       | Err e =>
           if e =? ENOENT then (0, MapHeader ESFS_VERSION 0 (mh_fstat old) ESFS_SIGNATURE)
           else (e, MapHeader ESFS_VERSION 1 (mh_fstat old) ESFS_SIGNATURE)
       end.

(** Part [C] of [mfd_open_sn]: the map file has just been created as [fd]. *)
Definition mfd_open_new (vpath fpath : string) (fd mylock : Z) (mfd : mfd_t) : M (Z * Z * mfd_t) :=
  '(e, h) ← mfd_new_header fpath (mapheader mfd);
  let mfd := set_mapheader h (set_mapfd fd mfd) in
  if negb (e =? 0) then mret (e, mylock, mfd)
  else if S_ISDIR (st_mode (mh_fstat h)) then mret (EISDIR, mylock, mfd)
  else
    ret ← mfd_save_mapheader mfd;
    if negb (ret =? 0) then mret (- ret, mylock, mfd)
    else
      ret ← unlock_ mylock;
      if negb (ret =? 0) then mret (- ret, mylock, mfd)
      else
        '(waserror, mfd) ← mfd_open_dat vpath mfd;
        mret (waserror, -1, mfd).

(** Part [A] of [mfd_open_sn], with the lock held. *)
Definition mfd_open_locked (vpath fpath fmap : string) (mylock : Z) (mfd : mfd_t) : M (Z * Z * mfd_t) :=
  o ← sys (sys_open fmap (Z.lor (Z.lor (Z.lor O_RDWR O_CREAT) O_EXCL) O_NOATIME) S_IRWXU);
  match o with
  | Err e =>
      if negb (e =? EEXIST) then mret (e, mylock, mfd)
      else
        o ← sys (sys_open fmap O_RDWR 0);
        match o with
        | Err e => mret (e, mylock, mfd)
        | Ok fd =>
            '(waserror, mylock, mfd) ← mfd_open_existing vpath fd mylock mfd;
            _ ← (if negb (waserror =? 0) then _ ← sys (sys_close fd); mret tt else mret tt);
            mret (waserror, mylock, mfd)
        end
  | Ok fd =>
      '(waserror, mylock, mfd) ← mfd_open_new vpath fpath fd mylock mfd;
      _ ← (if negb (waserror =? 0) then
             _ ← sys (sys_close fd);
             if 0 <=? mylock then _ ← sys (sys_unlink fmap); mret tt else mret tt
           else mret tt);
      mret (waserror, mylock, mfd)
  end.

(** Opens, creating them if necessary, the map and dat files of a file of
    the main space in the latest snapshot. *)
Definition mfd_open_sn (mfd : mfd_t) (vpath : string) (fpath_in : option string) : M (Z * mfd_t) :=
  fsdata ← get_fs;
  match (match fpath_in with None => map_path vpath fsdata | Some p => Ok p end) with
  | Err _ => mret (- ENAMETOOLONG, mfd)
  | Ok fpath_use =>
      let mfd := set_vpath vpath (set_cache 0 (set_locklabel (string2locklabel fpath_use)
                   (set_is_main mfd_main (set_mfd_sn_number (sn_number fsdata) mfd)))) in
      if sn_is_any fsdata =? 0 then mret (0, set_datfd MFD_FD_NOSN (set_mapfd MFD_FD_NOSN mfd))
      else
        match get_map_prefix_path vpath (sn_lat_dir fsdata) (sn_lat_dir_len fsdata) with
        | Err _ => mret (- ENAMETOOLONG, mfd)
        | Ok fmap =>
            '(ret, _) ← mkpath fmap S_IRWXU;
            if ret <? 0 then mret (ret, mfd)
            else
              mylock ← lock_ (locklabel mfd);
              if mylock <? 0 then mret (mylock, mfd)
              else
                '(waserror, mylock, mfd) ← mfd_open_locked vpath fpath_use fmap mylock mfd;
                if 0 <=? mylock then
                  ret ← unlock_ mylock;
                  mret (- (if negb (ret =? 0) then - ret else waserror), mfd)
                else mret (- waserror, mfd)
        end
  end.

Definition mfd_open_sn_rdonly (mfd : mfd_t) : mfd_t :=
  set_is_main mfd_main (set_datfd MFD_FD_RDONLY (set_mapfd MFD_FD_RDONLY mfd)).

(** Closes a descriptor unless it is negative; the errno or [waserror]. *)
Definition close_if_open (fd waserror : Z) : M Z :=
  if 0 <=? fd then
    r ← sys (sys_close fd); mret match r with Err e => e | Ok _ => waserror end
  else mret waserror.

Definition mfd_close_sn (mfd : mfd_t) : M Z :=
  waserror ← close_if_open (datfd mfd) 0;
  waserror ← close_if_open (mapfd mfd) waserror;
  mret (- waserror).

(** Initialises the map and dat files and closes them; [mymfd] is on the stack, uninitialised. *)
Definition mfd_init_sn (vpath fpath : string) : M Z :=
  w ← st_get;
  '(ret, mymfd) ← mfd_open_sn (w_junk_mfd w) vpath (Some fpath);
  if ret =? 0 then mfd_close_sn mymfd else mret ret.

Definition mfd_validate (mfd : mfd_t) : M (Z * mfd_t) :=
  fsdata ← get_fs;
  if sn_number fsdata =? mfd_sn_number mfd then mret (0, mfd)
  else if mapfd mfd =? MFD_FD_RDONLY then mret (0, mfd)
  else
    ret ← mfd_close_sn mfd;
    if negb (ret =? 0) then mret (ret, mfd)
    else
      '(ret, mfd) ← mfd_open_sn mfd (vpath mfd) None;
      if negb (ret =? 0) then mret (ret, mfd)
      else mret (0, set_mfd_sn_number (sn_number fsdata) mfd).

Definition mfd_in_sn_validate (mfd : mfd_t) : M Z :=
  fsdata ← get_fs;
  mret (if sn_number fsdata =? mfd_sn_number mfd then 0 else - EREMCHG).

End WithLocks.
