(* ===== verification/SnSteps.v ===== *)
(** [mfd_get_sn_steps] and [mfd_destroy_sn_steps] of [mfd.c]: the steps from
    the main space to a snapshot, and the files opened on the way. *)

From S2P Require Import Prelude Posix Types Util Mflock Snapshot Mfd.

Definition SN_STEPS_F_FILE : Z := 1.
Definition SN_STEPS_F_DIR : Z := 2.
Definition SN_STEPS_F_TYPE_UNKNOWN : Z := 4.
Definition SN_STEPS_F_FIRSTONLY : Z := 8.
Definition SN_STEPS_F_SKIPOPENDAT : Z := 16.
Definition SN_STEPS_F_SKIPOPENDIR : Z := 32.
Definition SN_STEPS_F_STATDIR : Z := 64.

(** ** Closing *)

(** Closes the descriptors of one step; the last errno, negated. *)
Definition destroy_step (step : sn_steps_t) (waserror : Z) : M Z :=
  e ← close_if_open (step_mapfd step) (- waserror);
  e ← close_if_open (step_datfd step) e;
  e ← close_if_open (match step_dirfd step with Some fd => fd | None => -1 end) e;
  mret (- e).

(** Steps [k - 1] down to 0. *)
Fixpoint destroy_steps_loop (mfd : mfd_t) (k : nat) (waserror : Z) : M Z :=
  match k with
  | O => mret waserror
  | S i =>
      match sn_steps mfd !! i with
      | None => st_stuck
      | Some step => waserror ← destroy_step step waserror; destroy_steps_loop mfd i waserror
      end
  end.

Definition mfd_destroy_sn_steps (mfd : mfd_t) : M Z :=
  if 0 <=? sn_first_file mfd then destroy_steps_loop mfd (Z.to_nat (sn_current mfd + 1)) 0
  else mret 0.

(** ** Opening *)

(** The local variables that live across iterations: the handle, [waserror]
    (negative on error) and [maphead], the header read last. *)
Record steps_st := StepsSt { ss_mfd : mfd_t; ss_err : Z; ss_head : mapheader_t }.

(** How an iteration ends: [break], [continue], or at the end of the body,
    where an error leaves the loop. *)
Inductive ctl := CBreak | CContinue | CEnd.

Definition upd_step (sni : nat) (f : sn_steps_t -> sn_steps_t) (st : steps_st) : steps_st :=
  StepsSt (set_sn_steps (alter f sni (sn_steps (ss_mfd st))) (ss_mfd st)) (ss_err st) (ss_head st).
Definition with_path (x : string) (s : sn_steps_t) : sn_steps_t := SnStep x (step_mapfd s) (step_datfd s) (step_dirfd s).
Definition with_mapfd (x : Z) (s : sn_steps_t) : sn_steps_t := SnStep (step_path s) x (step_datfd s) (step_dirfd s).
Definition with_datfd (x : Z) (s : sn_steps_t) : sn_steps_t := SnStep (step_path s) (step_mapfd s) x (step_dirfd s).
Definition with_dirfd (x : option Z) (s : sn_steps_t) : sn_steps_t := SnStep (step_path s) (step_mapfd s) (step_datfd s) x.
Definition unused_step (s : sn_steps_t) : sn_steps_t := with_datfd SN_STEPS_UNUSED (with_mapfd SN_STEPS_UNUSED s).
Definition ss_set_mfd (m : mfd_t) (st : steps_st) : steps_st := StepsSt m (ss_err st) (ss_head st).
Definition ss_set_err (e : Z) (st : steps_st) : steps_st := StepsSt (ss_mfd st) e (ss_head st).
Definition ss_set_head (h : mapheader_t) (st : steps_st) : steps_st := StepsSt (ss_mfd st) (ss_err st) h.
Definition set_head_fstat (s : stat_t) (m : mfd_t) : mfd_t :=
  set_mapheader (MapHeader (mh_version (mapheader m)) (mh_exists (mapheader m)) s (mh_signature (mapheader m))) m.

(** What the step turns out to be; a directory comes with its stat. *)
Inductive known := KUnknown | KFile | KDir (mystat : stat_t).

(** The type test of a path whose type the caller does not know. *)
Definition steps_known (flags : Z) (path : string) : M (res known) :=
  if has flags SN_STEPS_F_TYPE_UNKNOWN then
    st ← sys (sys_lstat path);
    mret match st with
         | Err e => if e =? ENOENT then Ok KFile else Err e
         | Ok mystat => Ok (if S_ISDIR (st_mode mystat) then KDir mystat else KFile)
         end
  else mret (Ok KUnknown).

(** The stat of the first directory found. *)
Definition steps_dir_first (flags : Z) (sni : nat) (path : string) (k : known) (st : steps_st) : M (ctl * steps_st) :=
  if sn_first_file (ss_mfd st) =? -1 then
    let st := ss_set_mfd (set_sn_first_file (Z.of_nat sni) (ss_mfd st)) st in
    '(brk, st) ←
      (if has flags SN_STEPS_F_STATDIR || has flags SN_STEPS_F_SKIPOPENDIR then
         match k with
         | KDir mystat => mret (false, ss_set_mfd (set_head_fstat mystat (ss_mfd st)) st)
         | _ =>
             r ← sys (sys_lstat path);
             mret match r with
                  | Ok s => (false, ss_set_mfd (set_head_fstat s (ss_mfd st)) st)
                  | Err e => if e =? ENOENT then (false, upd_step sni unused_step st) else (true, ss_set_err (- e) st)
                  end
         end
       else mret (false, st));
    if brk : bool then mret (CBreak, st)
    else mret (if has flags SN_STEPS_F_FIRSTONLY then CBreak else CEnd, st)
  else mret (CEnd, st).

Definition steps_dir (flags : Z) (sni : nat) (path : string) (k : known) (st : steps_st) : M (ctl * steps_st) :=
  if has flags SN_STEPS_F_SKIPOPENDIR then steps_dir_first flags sni path k st
  else
    d ← sys (sys_opendir path);
    match d with
    | Err e =>
        if e =? ENOENT then mret (CContinue, upd_step sni unused_step st)
        else mret (CBreak, ss_set_err (- e) st)
    | Ok dirfd => steps_dir_first flags sni path k (upd_step sni (with_dirfd (Some dirfd)) st)
    end.

(** Opening the dat file of a step, or the main file: [None] goes on. *)
Definition steps_open_data (sni : nat) (path : string) (st : steps_st) : M (option ctl * steps_st) :=
  o ← sys (sys_open path O_RDONLY 0);
  mret match o with
       | Err e =>
           if e =? ENOENT then (Some CContinue, upd_step sni (with_datfd SN_STEPS_UNUSED) st)
           else (Some CBreak, ss_set_err (- e) st)
       | Ok fd => (None, upd_step sni (with_datfd fd) st)
       end.

(** A file in a snapshot: its map, its header and its dat file.  An error in
    the header does not keep the dat file from being opened. *)
Definition steps_file_sn (flags : Z) (sni : nat) (path : string) (st : steps_st) : M (option ctl * steps_st) :=
  match get_map_path path with
  | Err e => mret (Some CBreak, ss_set_err (- e) st)
  | Ok mysnpath =>
      o ← sys (sys_open mysnpath O_RDONLY 0);
      match o with
      | Err e =>
          mret (if e =? ENOENT then (Some CContinue, upd_step sni unused_step st)
                else (Some CBreak, ss_set_err (- e) st))
      | Ok fd =>
          let st := upd_step sni (with_mapfd fd) st in
          '(ret, h) ← mfd_load_mapheader (ss_head st) fd;
          let st := ss_set_head h (if negb (ret =? 0) then ss_set_err ret st else st) in
          if has flags SN_STEPS_F_SKIPOPENDAT then mret (None, st)
          else
            match get_dat_path path with
            | Err e => mret (Some CBreak, ss_set_err (- e) st)
            | Ok mysnpath => steps_open_data sni mysnpath st
            end
      end
  end.

(** The main file. *)
Definition steps_file_main (flags : Z) (sni : nat) (path : string) (st : steps_st) : M (option ctl * steps_st) :=
  let st := upd_step sni (with_mapfd SN_STEPS_MAIN) st in
  let st := ss_set_mfd (set_locklabel (string2locklabel path) (ss_mfd st)) st in
  if has flags SN_STEPS_F_SKIPOPENDAT then mret (None, upd_step sni (with_datfd SN_STEPS_NOTOPEN) st)
  else steps_open_data sni path st.

(** The header of the first file found. *)
Definition steps_file_first (flags : Z) (sni : nat) (path : string) (st : steps_st) : M (ctl * steps_st) :=
  if sn_first_file (ss_mfd st) =? -1 then
    let st := ss_set_mfd (set_sn_first_file (Z.of_nat sni) (ss_mfd st)) st in
    let fin st := mret (if has flags SN_STEPS_F_FIRSTONLY then CBreak else CEnd, st) in
    if 0 <? Z.of_nat sni then fin (ss_set_mfd (set_mapheader (ss_head st) (ss_mfd st)) st)
    else
      r ← sys (sys_lstat path);
      match r with
      | Err e => mret (CBreak, ss_set_err (- e) st)
      | Ok s => fin (ss_set_mfd (set_head_fstat s (ss_mfd st)) st)
      end
  else mret (CEnd, st).

Definition steps_file (flags : Z) (sni : nat) (path : string) (st : steps_st) : M (ctl * steps_st) :=
  '(c, st) ← (if 0 <? Z.of_nat sni then steps_file_sn flags sni path st else steps_file_main flags sni path st);
  match c with
  | Some c => mret (c, st)
  | None => steps_file_first flags sni path st
  end.

(** The body of the loop at step [sni]. *)
Definition steps_body (mypath : string) (flags : Z) (sni : nat) (st : steps_st) : M (ctl * steps_st) :=
  match sn_steps (ss_mfd st) !! sni with
  | None => st_stuck
  | Some step =>
      if PATH_MAX <=? strlen mypath + strlen (step_path step) then mret (CBreak, ss_set_err (- ENAMETOOLONG) st)
      else
        let path := step_path step +:+ mypath in
        let st := upd_step sni (with_path path) st in
        k ← steps_known flags path;
        match k with
        | Err e => mret (CBreak, ss_set_err (- e) st)
        | Ok k =>
            match k, has flags SN_STEPS_F_DIR, has flags SN_STEPS_F_FILE with
            | KDir _, _, _ | _, true, _ => steps_dir flags sni path k st
            | KFile, _, _ | _, _, true => steps_file flags sni path st
            | _, _, _ => mret (CEnd, ss_set_err (- EBADE) st)
            end
        end
  end.

(** Steps [k - 1] down to 0. *)
Fixpoint steps_loop (mypath : string) (flags : Z) (k : nat) (st : steps_st) : M steps_st :=
  match k with
  | O => mret st
  | S sni =>
      '(c, st) ← steps_body mypath flags sni st;
      match c with
      | CBreak => mret st
      | CContinue => steps_loop mypath flags sni st
      | CEnd => if negb (ss_err st =? 0) then mret st else steps_loop mypath flags sni st
      end
  end.

Definition mfd_get_sn_steps (mfd : mfd_t) (snpath : snpath_t) (flags : Z) : M (Z * mfd_t) :=
  fsdata ← get_fs;
  w ← st_get;
  '(ret, mfd) ← sn_get_paths_to (set_mfd_sn_number (sn_number fsdata) mfd) snpath;
  if negb (ret =? 0) then mret (ret, mfd)
  else
    let mypath := match is_there snpath with snpath_full => sp_inpath snpath | _ => "" end in
    let mfd := set_sn_first_file (-1) mfd in
    st ← steps_loop mypath flags (Z.to_nat (sn_current mfd + 1)) (StepsSt mfd 0 (mapheader (w_junk_mfd w)));
    if negb (ss_err st =? 0) then
      _ ← mfd_destroy_sn_steps (ss_mfd st);
      mret (ss_err st, ss_mfd st)
    else mret (0, ss_mfd st).
