(* ===== verification/FuseFd.v ===== *)
(** The FUSE handlers that work on an open handle: [fuse_fd_write.c],
    [fuse_fd_close.c] and the file part of [fuse_fd_read.c].

    [fi->fh] is the address of a handle in [w_mfds]; a handler that is given
    an address with no handle behind it is undefined. *)

From S2P Require Import Prelude Posix Types Util Mflock Block Snapshot Mfd SnSteps.

(** [DFSDATA_MFD]: the handle at an address, and storing it back. *)
Definition get_mfd (fh : Z) : M mfd_t := fun w =>
  match w_mfds w !! fh with Some m => Some (m, w) | None => None end.
Definition put_mfd (fh : Z) (m : mfd_t) : M unit := fun w => Some (tt, set_mfds (<[fh := m]> (w_mfds w)) w).
Definition free_mfd (fh : Z) : M unit := fun w => Some (tt, set_mfds (delete fh (w_mfds w)) w).

Section WithLocks.
Context (lock_ unlock_ : Z -> M Z).

Definition esfs_write (fh : Z) (buf : list Z) (offset : Z) : M Z :=
  mfd ← get_mfd fh;
  match is_main mfd with
  | mfd_main =>
      '(ret, mfd) ← mfd_validate lock_ unlock_ mfd;
      _ ← put_mfd fh mfd;
      if negb (ret =? 0) then mret ret
      else
        '(ret, mfd) ← b_write lock_ unlock_ mfd (zlen buf) offset B_WRITE_DEFAULTS;
        _ ← put_mfd fh mfd;
        if negb (ret =? 0) then mret ret
        else
          r ← sys (sys_pwrite (mainfd mfd) buf offset);
          mret match r with Ok n => i32 n | Err e => - e end
  | _ => mret (- EACCES)
  end.

Definition esfs_ftruncate (fh newsize : Z) : M Z :=
  mfd ← get_mfd fh;
  '(ret, mfd) ← mfd_validate lock_ unlock_ mfd;
  _ ← put_mfd fh mfd;
  if negb (ret =? 0) then mret ret
  else
    '(ret, mfd) ← b_truncate lock_ unlock_ mfd newsize B_WRITE_DEFAULTS;
    _ ← put_mfd fh mfd;
    if negb (ret =? 0) then mret ret
    else
      r ← sys (sys_ftruncate (mainfd mfd) newsize);
      mret match r with Ok _ => 0 | Err e => - e end.

(** The return value and the buffer, of [size] bytes. *)
Definition esfs_read (fh : Z) (buf : list Z) (size offset : Z) : M (Z * list Z) :=
  mfd ← get_mfd fh;
  match is_main mfd with
  | mfd_main =>
      r ← sys (sys_pread (mainfd mfd) size offset);
      mret match r with
           | Ok d => (i32 (zlen d), file_write buf d 0)
           | Err e => (- e, buf)
           end
  | mfd_sn_full =>
      ret ← mfd_in_sn_validate mfd;
      if negb (ret =? 0) then mret (ret, buf)
      else b_read lock_ unlock_ buf mfd size offset
  | _ => mret (- EBADE, buf)
  end.

End WithLocks.

Definition esfs_fgetattr (fh : Z) : M (res stat_t) :=
  mfd ← get_mfd fh;
  match is_main mfd with
  | mfd_sn_full => mret (Ok (mh_fstat (mapheader mfd)))
  | _ => sys (sys_fstat (mainfd mfd))
  end.

Definition esfs_flush : M Z := mret 0.

Definition esfs_release (fh : Z) : M Z :=
  mfd ← get_mfd fh;
  ret ← match is_main mfd with
        | mfd_main =>
            ret ← mfd_close_sn mfd;
            r ← sys (sys_close (mainfd mfd));
            mret match r with Ok _ => ret | Err e => - e end
        | mfd_sn_full => mfd_destroy_sn_steps mfd
        | _ => mret (- EBADE)
        end;
  _ ← free_mfd fh;
  mret ret.

(** A call of [sync] unless the descriptor is negative. *)
Definition sync_if_open (sync : Z -> os -> res unit * os) (fd waserror : Z) : M Z :=
  if 0 <=? fd then
    r ← sys (sync fd); mret match r with Err e => e | Ok _ => waserror end
  else mret waserror.

(** The three descriptors of a handle, through [fsync] or through [fdatasync]. *)
Definition sync_all (sync : Z -> os -> res unit * os) (mfd : mfd_t) : M Z :=
  r ← sys (sync (mainfd mfd));
  waserror ← sync_if_open sync (mapfd mfd) (match r with Err e => e | Ok _ => 0 end);
  waserror ← sync_if_open sync (datfd mfd) waserror;
  mret (- waserror).

Definition esfs_fsync (fh datasync : Z) : M Z :=
  mfd ← get_mfd fh;
  match is_main mfd with
  | mfd_main => if negb (datasync =? 0) then sync_all sys_fdatasync mfd else sync_all sys_fsync mfd
  | _ => mret (- EBADE)
  end.

Definition esfs_releasedir (fh : Z) : M Z :=
  mfd ← get_mfd fh;
  waserror ← match is_main mfd with
             | mfd_main | mfd_sn_root =>
                 match maindir mfd with
                 | None => st_stuck
                 | Some fd => r ← sys (sys_close fd); mret match r with Ok _ => 0 | Err e => - e end
                 end
             | _ => mfd_destroy_sn_steps mfd
             end;
  _ ← free_mfd fh;
  mret waserror.

Definition esfs_fsyncdir : M Z := mret 0.
