(* ===== verification/FuseDir.v ===== *)
(** Listing directories: [readdir] and [_sn_readdir] of [fuse_fd_read.c].

    [filler] is the function of libfuse that takes an entry into the buffer
    it builds for the kernel; [None] is its result other than 0. *)

From S2P Require Import Prelude Posix Types Util Mflock Snapshot Mfd SnSteps FuseFd.

Definition READDIR_F_DEFAULTS : Z := 0.
Definition READDIR_F_SKIP_SNROOT : Z := 1.

Section Readdir.
Context {B : Type} (filler : B -> string -> option stat_t -> option B).

(** ** One directory of the underlying file system *)

(** The [while] loop of [readdir] over a stream, for the names that [keep]
    passes.  A stream ends after at most as many entries as there are names
    in the file system, and the two entries that every directory has. *)
Fixpoint readdir_loop (fuel : nat) (keep : string -> bool) (dir : Z) (buf : B) : M (Z * B) :=
  match fuel with
  | O => st_stuck
  | S n =>
      de ← sys (sys_readdir dir);
      match de with
      | Err e => mret (- e, buf)
      | Ok None => mret (0, buf)
      | Ok (Some d_name) =>
          if negb (keep d_name) then readdir_loop n keep dir buf
          else match filler buf d_name None with
               | None => mret (- ENOMEM, buf)
               | Some buf => readdir_loop n keep dir buf
               end
      end
  end.

Definition dir_fuel : M nat := fun w => Some ((size (os_names (w_os w)) + 3)%nat, w).

(** ** The same directory in all snapshots *)

(** The names seen so far, the room for them, the header last loaded, the
    buffer and the error. *)
Record rd_state := RdState { rd_seen : list string; rd_alloc : Z; rd_head : mapheader_t; rd_buf : B; rd_err : Z }.

Definition rd_fail (e : Z) (st : rd_state) : M (bool * rd_state) :=
  mret (true, RdState (rd_seen st) (rd_alloc st) (rd_head st) (rd_buf st) e).
Definition rd_next (st : rd_state) : M (bool * rd_state) := mret (false, st).
Definition rd_set_head (h : mapheader_t) (st : rd_state) : rd_state :=
  RdState (rd_seen st) (rd_alloc st) h (rd_buf st) (rd_err st).
Definition rd_set_buf (b : B) (st : rd_state) : rd_state :=
  RdState (rd_seen st) (rd_alloc st) (rd_head st) b (rd_err st).

Definition seen (name : string) (st : rd_state) : bool := bool_decide (name ∈ rd_seen st).

(** Stores the name as seen, with more memory if necessary. *)
Definition rd_store (name : string) (st : rd_state) : M (bool * rd_state) :=
  let push alloc := rd_next (RdState (rd_seen st ++ [name]) alloc (rd_head st) (rd_buf st) (rd_err st)) in
  if rd_alloc st <=? zlen (rd_seen st) then
    m ← malloc_;
    if negb m then rd_fail (- ENOMEM) st else push (rd_alloc st * 2)
  else push (rd_alloc st).

(** Gives a name to FUSE and stores it. *)
Definition rd_show (name : string) (st : rd_state) : M (bool * rd_state) :=
  match filler (rd_buf st) name (Some (mh_fstat (rd_head st))) with
  | None => rd_fail (- ENOMEM) st
  | Some b => rd_store name (rd_set_buf b st)
  end.

(** A name that is not that of a map file: shown with its own stat unless
    it was seen. *)
Definition rd_plain (name fpath : string) (st : rd_state) : M (bool * rd_state) :=
  if seen name st then rd_next st
  else
    r ← sys (sys_lstat fpath);
    match r with
    | Err e => rd_fail (- e) st
    | Ok s =>
        let h := rd_head st in
        rd_show name (rd_set_head (MapHeader (mh_version h) (mh_exists h) s (mh_signature h)) st)
    end.

(** A map file: the file is shown with the stat in the header, or not shown
    if it did not exist. *)
Definition rd_map (name fpath : string) (st : rd_state) : M (bool * rd_state) :=
  if seen name st then rd_next st
  else
    o ← sys (sys_open fpath O_RDONLY 0);
    match o with
    | Err e => rd_fail (- e) st
    | Ok fd =>
        '(e, h) ← mfd_load_mapheader (rd_head st) fd;
        let st := rd_set_head h st in
        if negb (e =? 0) then _ ← sys (sys_close fd); rd_fail e st
        else
          c ← sys (sys_close fd);
          match c with
          | Err e => rd_fail (- e) st
          | Ok _ => if mh_exists h =? 1 then rd_show name st else rd_store name st
          end
    end.

(** The body of the inner loop. *)
Definition rd_entry (sni : nat) (path d_name : string) (st : rd_state) : M (bool * rd_state) :=
  if PATH_MAX <? strlen path + 1 + strlen d_name then rd_fail (- ENAMETOOLONG) st
  else
    let fpath := path +:+ DIRSEP +:+ d_name in
    if 0 <? Z.of_nat sni then
      let j := mfd_filter_name d_name in
      if j =? 0 then rd_next st
      else if j =? 2 then rd_map (strncpy d_name (strlen d_name - EXT_LEN)) fpath st
      else rd_plain d_name fpath st
    else rd_plain d_name fpath st.

(** The inner loop, over one directory. *)
Fixpoint rd_dir (fuel : nat) (sni : nat) (path : string) (dir : Z) (st : rd_state) : M rd_state :=
  match fuel with
  | O => st_stuck
  | S n =>
      de ← sys (sys_readdir dir);
      match de with
      | Err e => '(_, st) ← rd_fail (- e) st; mret st
      | Ok None => mret st
      | Ok (Some d_name) =>
          '(stop, st) ← rd_entry sni path d_name st;
          if (stop : bool) then mret st else rd_dir n sni path dir st
      end
  end.

(** The outer loop, from the snapshot being read to the main space; [k] is
    [sni + 1]. *)
Fixpoint rd_steps (mfd : mfd_t) (k : nat) (st : rd_state) : M rd_state :=
  match k with
  | O => mret st
  | S sni =>
      match sn_steps mfd !! sni with
      | None => st_stuck
      | Some step =>
          if step_mapfd step =? SN_STEPS_UNUSED then rd_steps mfd sni st
          else
            match step_dirfd step with
            | None => st_stuck
            | Some dir =>
                fuel ← dir_fuel;
                st ← rd_dir fuel sni (step_path step) dir st;
                if negb (rd_err st =? 0) then mret st else rd_steps mfd sni st
            end
      end
  end.

(** [_sn_readdir]; the map header on the stack is not initialised. *)
Definition sn_readdir (mfd : mfd_t) (flags : Z) (buf : B) : M (Z * B) :=
  m ← malloc_;
  if negb m then mret (- ENOMEM, buf)
  else
    w ← st_get;
    let names := if has flags READDIR_F_SKIP_SNROOT then [str_from 1 SNDIR] else [] in
    st ← rd_steps mfd (Z.to_nat (sn_current mfd + 1)) (RdState names 4 (mapheader (w_junk_mfd w)) buf 0);
    mret (rd_err st, rd_buf st).

Definition esfs_readdir (fh : Z) (buf : B) : M (Z * B) :=
  mfd ← get_mfd fh;
  match is_main mfd with
  | mfd_main =>
      match maindir mfd with
      | None => st_stuck
      | Some dir => fuel ← dir_fuel; readdir_loop fuel (fun _ => true) dir buf
      end
  | mfd_sn_root =>
      match maindir mfd with
      | None => st_stuck
      | Some dir => fuel ← dir_fuel; readdir_loop fuel (fun n => negb (sn_filter_name n =? 0)) dir buf
      end
  | mfd_sn_id => sn_readdir mfd READDIR_F_SKIP_SNROOT buf
  | mfd_sn_full => sn_readdir mfd READDIR_F_DEFAULTS buf
  end.
End Readdir.

Arguments RdState {B}.
Arguments rd_seen {B}.
Arguments rd_alloc {B}.
Arguments rd_head {B}.
Arguments rd_buf {B}.
Arguments rd_err {B}.
