(* ===== verification/SnapshotIsolation.v ===== *)
(** Writers of a file and readers of its snapshots.

    Any number of handles write and truncate one file of the main space
    through [esfs_write] and [esfs_ftruncate] while any number of handles
    read it inside snapshots through [esfs_read].  The abstract system is
    the current contents alone; a reader always gets the contents its
    snapshot stands for.  The concrete system simulates it, for any locks
    that keep the promise of [LockService] and any schedule of failing
    calls.  Reads and writes that are cut short are excluded ([atomic]), and
    the handles are in order: [writer_ok] and [reader_ok] say how. *)

From S2P Require Import Prelude Posix PosixSpec Types Mflock Block CopyOnWrite BlockWrite BlockRead Mfd.
From S2P Require Import FuseFd.

(** ** The abstract system *)

Inductive op :=
| OWrite (fh : Z) (buf : list Z) (off : Z)
| OTruncate (fh : Z) (n : Z)
| ORead (fh : Z) (buf : list Z) (size off : Z).

(** The result of an operation: the C return value and, of a read, the buffer. *)
Inductive outcome :=
| Ret (r : Z)
| Got (r : Z) (buf : list Z).

Section Abstract.
(** [app] tells which writers append, [view] what each reader's snapshot
    holds, and [fl] whether calls may fail at all. *)
Context (fl : Prop) (app : Z -> bool) (view : Z -> list Z).

(** One operation on the contents of the file: it has its effect, or it
    fails and leaves the contents alone. *)
Inductive astep : list Z -> op -> outcome -> list Z -> Prop :=
| AWrite main fh buf off :
    astep main (OWrite fh buf off) (Ret (i32 (zlen buf)))
      (file_write main buf (if app fh then zlen main else off))
| AWriteFail main fh buf off r : fl -> r < 0 -> astep main (OWrite fh buf off) (Ret r) main
| ATruncate main fh n : astep main (OTruncate fh n) (Ret 0) (file_resize main n)
| ATruncateFail main fh n r : fl -> r < 0 -> astep main (OTruncate fh n) (Ret r) main
| ARead main fh buf size off :
    astep main (ORead fh buf size off)
      (Got (read_len (view fh) size off)
           (file_write buf (file_read (view fh) (read_len (view fh) size off) off) 0)) main
| AReadFail main fh buf size off r buf' : fl -> r < 0 -> astep main (ORead fh buf size off) (Got r buf') main.

Inductive asteps : list Z -> list op -> list outcome -> list Z -> Prop :=
| ANil main : asteps main [] [] main
| ACons main main' main'' o ops out outs :
    astep main o out main' -> asteps main' ops outs main'' -> asteps main (o :: ops) (out :: outs) main''.
End Abstract.

Lemma astep_weaken (f f' : Prop) app view main o out main' :
  (f -> f') -> astep f app view main o out main' -> astep f' app view main o out main'.
Proof. intros H []; constructor; auto. Qed.

Lemma asteps_weaken (f f' : Prop) app view main ops outs main' :
  (f -> f') -> asteps f app view main ops outs main' -> asteps f' app view main ops outs main'.
Proof. intros H. induction 1; econstructor; eauto using astep_weaken. Qed.

(** ** The concrete system *)

Section Run.
Context (lock_ unlock_ : Z -> M Z).

Definition run_op (o : op) : M outcome :=
  match o with
  | OWrite fh buf off => r ← esfs_write lock_ unlock_ fh buf off; mret (Ret r)
  | OTruncate fh n => r ← esfs_ftruncate lock_ unlock_ fh n; mret (Ret r)
  | ORead fh buf size off => '(r, buf') ← esfs_read lock_ unlock_ fh buf size off; mret (Got r buf')
  end.

Fixpoint run_ops (ops : list op) : M (list outcome) :=
  match ops with
  | [] => mret []
  | o :: r => out ← run_op o; outs ← run_ops r; mret (out :: outs)
  end.
End Run.

(** ** The invariant *)

Section Inv.
Context (lock_ unlock_ : Z -> M Z) {LS : LockService lock_ unlock_}.
(** The inodes of the main file and of its map and dat files in the latest
    snapshot, the contents at that snapshot, the writers and the readers. *)
Context (im ip id : nat) (old : list Z).
Context (writers : gmap Z bool) (readers : gmap Z (list Z)).

Definition the_files (i : nat) : Prop := i = im \/ i = ip \/ i = id.

(** A main handle open for writing. *)
Record writer_ok (w : world) (map : list Z) (app : bool) (mfd : mfd_t) : Prop := {
  wo_main : is_main mfd = mfd_main;
  wo_number : mfd_sn_number mfd = sn_number (w_fs w);
  wo_mainfd : exists acc, open_on (w_os w) (mainfd mfd) im acc app /\ acc <> O_RDONLY /\ can_save acc old map;
  wo_mapfd : open_on (w_os w) (mapfd mfd) ip O_RDWR false;
  wo_datfd : open_on (w_os w) (datfd mfd) id O_WRONLY true;
  wo_size : st_size (mh_fstat (mapheader mfd)) = zlen old;
  wo_exists : mh_exists (mapheader mfd) = 1;
  wo_cache : cache_ok mfd map;
  wo_label : locklabel mfd <> 0;
  wo_nonneg : 0 <= datfd mfd
}.

(** Open for reading too, as [esfs_open] does it. *)
Lemma writer_rdwr s fd app map : open_on s fd im O_RDWR app ->
  exists acc, open_on s fd im acc app /\ acc <> O_RDONLY /\ can_save acc old map.
Proof. intros H. exists O_RDWR. split_and!; [done | done | by left]. Qed.

(** A handle inside a snapshot: the main file, the latest snapshot, and
    earlier ones down to the one where the file holds [target]. *)
Record reader_ok (w : world) (target : list Z) (mfd : mfd_t) : Prop := {
  rd_full : is_main mfd = mfd_sn_full;
  rd_number : mfd_sn_number mfd = sn_number (w_fs w);
  rd_steps : exists s0 s1 rest vrest accm appm accd,
    sn_steps mfd = s0 :: s1 :: rest /\ length vrest = length rest /\
    (open_on (w_os w) (step_datfd s0) im accm appm /\ accm <> O_WRONLY) /\
    (0 <= step_mapfd s1 /\ open_on (w_os w) (step_mapfd s1) ip O_RDONLY false) /\
    (exists appd, open_on (w_os w) (step_datfd s1) id accd appd /\ accd <> O_WRONLY) /\
    (forall k step v v', rest !! k = Some step -> vrest !! k = Some v -> (old :: vrest) !! k = Some v' ->
       step_ok the_files (w_os w) step v v') /\
    1 <= sn_first_file mfd /\ (old :: vrest) !! Z.to_nat (sn_first_file mfd - 1) = Some target;
  rd_size : st_size (mh_fstat (mapheader mfd)) = zlen target;
  rd_len : zlen target < 2 ^ 62;
  rd_label : locklabel mfd <> 0
}.

Record file_inv (w : world) (main map dat : list Z) : Prop := {
  fi_main : regular (w_os w) im main;
  fi_map : regular (w_os w) ip map;
  fi_dat : regular (w_os w) id dat;
  fi_distinct : im <> ip /\ im <> id /\ ip <> id;
  fi_cow : cow old main map dat;
  fi_old : zlen old < 2 ^ 61;
  fi_align : zlen dat mod BL_S = 0;
  fi_buffer : buffer_ok w;
  fi_idle : lk_idle (mflocks (w_fs w));
  fi_atomic : atomic (w_os w);
  fi_writers : forall fh app, writers !! fh = Some app ->
    exists mfd, w_mfds w !! fh = Some mfd /\ writer_ok w map app mfd;
  fi_readers : forall fh target, readers !! fh = Some target ->
    exists mfd, w_mfds w !! fh = Some mfd /\ reader_ok w target mfd
}.

(** ** Transport along a frame *)

Lemma cache_ok_mono mfd map map' :
  (forall b, 0 <= b -> saved map b -> saved map' b) -> cache_ok mfd map -> cache_ok mfd map'.
Proof. intros Hm Hc b Hb E. apply Hm; [done |]. by apply Hc. Qed.

Lemma fs_stable_number f f' : fs_stable f f' -> sn_number f' = sn_number f.
Proof. intros H. exact (f_equal sn_number H). Qed.

Lemma writer_ok_move touch w w' map map' app mfd :
  frame touch (w_os w) (w_os w') -> fs_stable (w_fs w) (w_fs w') ->
  (forall b, 0 <= b -> saved map b -> saved map' b) ->
  writer_ok w map app mfd -> writer_ok w' map' app mfd.
Proof.
  intros Hf Hs Hm []. split; try done; try (by eapply open_on_frame).
  - by rewrite (fs_stable_number _ _ Hs).
  - destruct wo_mainfd0 as (acc & ? & ? & ?). exists acc. split_and!; [by eapply open_on_frame | done | by eapply can_save_mono].
  - by eapply cache_ok_mono.
Qed.

Lemma reader_ok_move w w' target mfd :
  frame the_files (w_os w) (w_os w') -> fs_stable (w_fs w) (w_fs w') ->
  reader_ok w target mfd -> reader_ok w' target mfd.
Proof.
  intros Hf Hs [Hfull Hnum Hst ? ? ?]. split; try done.
  - by rewrite (fs_stable_number _ _ Hs).
  - destruct Hst as (s0 & s1 & rest & vrest & accm & appm & accd & E & El & [H1 ?] & [? H2] & (appd & H3 & ?) & Hrest & ? & ?).
    exists s0, s1, rest, vrest, accm, appm, accd. split_and!; try done; try (by eapply open_on_frame).
    + exists appd. split; [by eapply open_on_frame | done].
    + intros k step v v' ? ? ?. eapply step_ok_frame; [done |]. by eapply Hrest.
Qed.

(** ** One writer *)

Lemma writer_mfd_ok w main map dat app mfd :
  file_inv w main map dat -> writer_ok w map app mfd -> mfd_ok lk_idle w mfd im ip id old main map dat.
Proof.
  intros [] []. split; try done. split; try (by apply fd_file_split); [| done].
  destruct wo_mainfd0 as (acc & ? & ? & ?). exists acc, app. split; [by apply fd_file_split | done].
Qed.

(** The main file changes under a handle. *)
Lemma mfd_ok_main w mfd main main' map dat :
  mfd_ok lk_idle w mfd im ip id old main map dat -> cow old main' map dat ->
  mfd_ok lk_idle (set_os (set_data im main' (adv (w_os w))) w) mfd im ip id old main' map dat.
Proof.
  intros [[(acc & app & Hm & Hacc) Hp Hd (Hd1 & Hd2 & Hd3)]] Hc.
  assert (Hfr : frame (fun i => i = im) (w_os w) (set_data im main' (adv (w_os w)))).
  { etransitivity; [apply frame_adv | by apply frame_set_data]. }
  split; try done; [| by apply atomic_adv].
  split; [| eapply frame_fd_file; [done | congruence | done].. | done].
  exists acc, app. split; [| done]. cbn. by eapply (fd_file_set_data _ _ _ main).
Qed.

Lemma mfd_ok_adv w mfd main map dat :
  mfd_ok lk_idle w mfd im ip id old main map dat ->
  mfd_ok lk_idle (set_os (adv (w_os w)) w) mfd im ip id old main map dat.
Proof. intros [[]]. split; try done. by apply atomic_adv. Qed.

Lemma mfd_ok_mfds w mfd main map dat x :
  mfd_ok lk_idle w mfd im ip id old main map dat -> mfd_ok lk_idle (set_mfds x w) mfd im ip id old main map dat.
Proof. intros []. by split. Qed.

Lemma mfd_ok_regular w mfd main map dat :
  mfd_ok lk_idle w mfd im ip id old main map dat ->
  regular (w_os w) im main /\ regular (w_os w) ip map /\ regular (w_os w) id dat.
Proof.
  intros [[(acc & app & Hm & _) Hp Hd _]].
  apply fd_file_split in Hm as [_ ?]. apply fd_file_split in Hp as [_ ?]. by apply fd_file_split in Hd as [_ ?].
Qed.

(** The invariant after an operation of the writer [fh]. *)
Lemma file_inv_writer w w' fh app mfd mfd' main main' map map' dat dat' :
  file_inv w main map dat -> writers !! fh = Some app -> w_mfds w !! fh = Some mfd -> writer_ok w map app mfd ->
  frame the_files (w_os w) (w_os w') -> fs_stable (w_fs w) (w_fs w') -> w_mfds w' = <[fh := mfd']> (w_mfds w) ->
  same_mfd mfd mfd' -> mfd_ok lk_idle w' mfd' im ip id old main' map' dat' ->
  (forall b, 0 <= b -> saved map b -> saved map' b) ->
  file_inv w' main' map' dat'.
Proof.
  intros Hi Hw Hm Hok Hf Hs Hmfds Hsame Hok' Hmono.
  destruct (mfd_ok_regular _ _ _ _ _ Hok') as (? & ? & ?). pose proof Hok' as [[]]. destruct Hi.
  split; try done.
  - intros fh' app' Hw'. rewrite Hmfds. destruct (decide (fh = fh')) as [<- | Hne].
    + rewrite lookup_insert_eq. exists mfd'. split; [done |]. simplify_eq.
      assert (E : set_cache 0 mfd' = set_cache 0 mfd) by done.
      pose proof (writer_ok_move the_files w w' map map' app mfd Hf Hs Hmono Hok) as []. split; try done.
      * by rewrite (f_equal is_main E : is_main mfd' = _).
      * by rewrite (f_equal mfd_sn_number E : mfd_sn_number mfd' = _).
      * by rewrite (f_equal mainfd E : mainfd mfd' = _).
      * by rewrite (f_equal mapfd E : mapfd mfd' = _).
      * by rewrite (f_equal datfd E : datfd mfd' = _).
    + rewrite lookup_insert_ne by done. destruct (fi_writers0 _ _ Hw') as (m & ? & ?).
      exists m. split; [done |]. by eapply writer_ok_move.
  - intros fh' target Hr. destruct (fi_readers0 _ _ Hr) as (m & Hm' & Hro). rewrite Hmfds.
    destruct (decide (fh = fh')) as [<- | Hne].
    { simplify_eq. destruct Hok, Hro. congruence. }
    rewrite lookup_insert_ne by done. exists m. split; [done |]. by eapply reader_ok_move.
Qed.

Lemma mfd_validate_same w mfd :
  mfd_sn_number mfd = sn_number (w_fs w) -> mfd_validate lock_ unlock_ mfd w = Some ((0, mfd), w).
Proof.
  intros E. unfold mfd_validate, get_fs, mbind, ST_bind. by rewrite E, Z.eqb_refl.
Qed.

(** What an operation may take from the room left for the dat file. *)
Definition room (dat : list Z) (n : Z) : Prop := zlen dat + n * (zlen old + 2 * BL_S) < 2 ^ 62.

(** Nothing changes but the contents of the three files, the lock table and
    the block buffer. *)
Record touches_only (w w' : world) : Prop := {
  tw_os : frame the_files (w_os w) (w_os w');
  tw_fs : fs_stable (w_fs w) (w_fs w');
  tw_junk : w_junk_mfd w' = w_junk_mfd w
}.

(** The outcome of one operation: the file is still in the invariant, and
    the abstract system can do the same. *)
Definition op_post (w : world) (main dat : list Z) (o : op) (res : option (outcome * world)) : Prop :=
  exists out w' main' map' dat', res = Some (out, w') /\ file_inv w' main' map' dat' /\
    touches_only w w' /\ zlen dat' <= zlen dat + (zlen old + 2 * BL_S) /\
    astep (faulty (w_os w)) (fun fh => default false (writers !! fh)) (fun fh => default [] (readers !! fh))
      main o out main'.

Lemma frame_sn_files s s' : frame (sn_files ip id) s s' -> frame the_files s s'.
Proof. apply frame_weaken. unfold sn_files, the_files. tauto. Qed.

Lemma frame_main_data w d : frame the_files w (set_data im d (adv w)).
Proof. etransitivity; [apply frame_adv | apply frame_set_data; by left]. Qed.

(** Every write and truncation: validation passes, the blocks are saved
    ([save]), and the main file is changed by [last]. *)
Section Saving.
Context (w : world) (main map dat : list Z) (fh : Z) (app : bool) (mfd : mfd_t).
Context (Hi : file_inv w main map dat) (Hw : writers !! fh = Some app).
Context (Hm : w_mfds w !! fh = Some mfd) (Hok : writer_ok w map app mfd).
Context (o : op) (main' : list Z) (r0 : Z).
Context (Hfail : forall r, faulty (w_os w) -> r < 0 ->
  astep (faulty (w_os w)) (fun fh => default false (writers !! fh)) (fun fh => default [] (readers !! fh)) main o (Ret r) main).
Context (Hsucc :
  astep (faulty (w_os w)) (fun fh => default false (writers !! fh)) (fun fh => default [] (readers !! fh)) main o (Ret r0) main').

Let w1 := set_mfds (<[fh := mfd]> (w_mfds w)) w.

Lemma saving_spec off size (save : M (Z * mfd_t)) (last : mfd_t -> M Z) :
  save_post lk_idle w1 mfd im ip id old main map dat off size (save w1) ->
  (forall map' dat', cow old main map' dat' -> range_saved old map' off size -> cow old main' map' dat') ->
  (forall w2 mfd2, atomic (w_os w2) -> (exists acc, fd_file (w_os w2) (mainfd mfd2) im main acc app /\ acc <> O_RDONLY) ->
     last mfd2 w2 = Some (r0, set_os (set_data im main' (adv (w_os w2))) w2) \/
     exists e, 0 < e /\ faulty (w_os w2) /\ last mfd2 w2 = Some (- e, set_os (adv (w_os w2)) w2)) ->
  op_post w main dat o
    ((r ← ('(ret, mfd) ← save; _ ← put_mfd fh mfd; if negb (ret =? 0) then mret ret else last mfd);
      mret (Ret r)) w1).
Proof using Hi Hw Hm Hok Hfail Hsucc.
  intros (r & mfd' & w2 & map' & dat' & E & Hfr & Hok2 & Hsame & Hlen & Hmono & Hpost) Hcow Hlast.
  assert (0 < BL_S) by done. pose proof (zlen_nonneg old).
  unfold mbind at 1, ST_bind at 1. rewrite (st_bind_run _ _ _ _ _ E). cbn beta iota.
  set (w3 := set_mfds (<[fh := mfd']> (w_mfds w2)) w2).
  rewrite (st_bind_run (put_mfd fh mfd') _ w2 tt w3 eq_refl).
  assert (Hmf : w_mfds w3 = <[fh := mfd']> (w_mfds w)).
  { unfold w3. cbn. rewrite (wf_mfds _ _ _ Hfr). cbn. by rewrite insert_insert_eq. }
  assert (Hf3 : frame the_files (w_os w) (w_os w3)) by (apply frame_sn_files, (wf_os _ _ _ Hfr)).
  assert (Hs3 : fs_stable (w_fs w) (w_fs w3)) by apply (wf_fs _ _ _ Hfr).
  assert (Hok3 : mfd_ok lk_idle w3 mfd' im ip id old main map' dat') by by apply mfd_ok_mfds.
  destruct Hpost as [[-> Hrange] | [Hr Hfl]]; cbn [Z.eqb negb].
  2: { destruct (Z.eqb_spec r 0); [lia |]. eexists (Ret r), w3, main, map', dat'. split_and!; [done | | by split; [| | apply (wf_junk_mfd _ _ _ Hfr)] | lia |].
       - by eapply (file_inv_writer w w3 fh app mfd mfd').
       - by apply Hfail. }
  assert (Hmainfd : mainfd mfd' = mainfd mfd).
  { by rewrite (f_equal mainfd (Hsame : set_cache 0 mfd' = set_cache 0 mfd) : mainfd mfd' = _). }
  destruct (Hlast w3 mfd') as [E2 | (e & He & Hfl & E2)].
  { apply (mo_atomic _ _ _ _ _ _ _ _ _ _ Hok3). }
  { destruct (wo_mainfd _ _ _ _ Hok) as (acc & Ho & Ha & _). exists acc. split; [| done].
    apply fd_file_split. split; [| by apply (mfd_ok_regular _ _ _ _ _ Hok3)]. rewrite Hmainfd. by eapply open_on_frame. }
  all: rewrite E2.
  - eexists (Ret r0), _, main', map', dat'. split_and!; [done | | | lia | done].
    + eapply (file_inv_writer w _ fh app mfd mfd'); [done | done | done | done | | done | done | done | | done].
      * etransitivity; [done | apply frame_main_data].
      * apply (mfd_ok_main w3 mfd' main); [done |]. apply Hcow; [| done]. apply (mo_cow _ _ _ _ _ _ _ _ _ _ Hok3).
    + split; [etransitivity; [done | apply frame_main_data] | done | apply (wf_junk_mfd _ _ _ Hfr)].
  - eexists (Ret (- e)), _, main, map', dat'. split_and!; [done | | | lia |].
    + eapply (file_inv_writer w _ fh app mfd mfd'); [done | done | done | done | | done | done | done | | done].
      * etransitivity; [done | apply frame_adv].
      * by apply (mfd_ok_adv w3).
    + split; [etransitivity; [done | apply frame_adv] | done | apply (wf_junk_mfd _ _ _ Hfr)].
    + apply Hfail; [| lia]. by apply (fr_faulty _ _ _ Hf3).
Qed.
End Saving.

Lemma run_write_spec w main map dat fh app buf off :
  file_inv w main map dat -> writers !! fh = Some app ->
  0 <= off -> off + zlen buf < 2 ^ 63 -> room dat 1 ->
  op_post w main dat (OWrite fh buf off) (run_op lock_ unlock_ (OWrite fh buf off) w).
Proof.
  intros Hi Hw Ho Hb Hroom. destruct (fi_writers _ _ _ _ Hi _ _ Hw) as (mfd & Hm & Hok).
  pose proof (zlen_nonneg buf). unfold room in Hroom. pose proof (zlen_nonneg old).
  set (w1 := set_mfds (<[fh := mfd]> (w_mfds w)) w).
  assert (E : run_op lock_ unlock_ (OWrite fh buf off) w =
    (r ← ('(ret, mfd) ← b_write lock_ unlock_ mfd (zlen buf) off B_WRITE_DEFAULTS; _ ← put_mfd fh mfd;
          if negb (ret =? 0) then mret ret
          else r ← sys (sys_pwrite (mainfd mfd) buf off); mret match r with Ok n => i32 n | Err e => - e end);
      mret (Ret r)) w1).
  { unfold run_op, esfs_write. unfold mbind at 1, ST_bind at 1.
    rewrite (st_bind_run (get_mfd fh) _ w mfd w) by (unfold get_mfd; by rewrite Hm).
    rewrite (wo_main _ _ _ _ Hok), (st_bind_run _ _ _ _ _ (mfd_validate_same w mfd (wo_number _ _ _ _ Hok))). done. }
  rewrite E. clear E. eapply (saving_spec w main map dat fh app mfd Hi Hw Hm Hok _ (file_write main buf (if app then zlen main else off)) (i32 (zlen buf))).
  - intros r Hfl Hr. by constructor.
  - assert (app = default false (writers !! fh)) as -> by (by rewrite Hw). constructor.
  - apply b_write_spec; [apply mfd_ok_mfds; by eapply writer_mfd_ok | lia..].
  - intros map' dat' Hc Hs. destruct app; [by apply cow_main_append | by apply cow_main_write].
  - intros w2 mfd2 Ha (acc & Hf & Hacc).
    destruct (sys_pwrite_spec _ Ha _ _ _ _ _ Hf buf off) as [E | (e & He & Hfl & E)]; [done | done | |];
      rewrite (st_bind_run _ _ _ _ _ (sys_run _ _ _ _ E)); [by left | right; by exists e].
Qed.

Lemma run_truncate_spec w main map dat fh app n :
  file_inv w main map dat -> writers !! fh = Some app -> 0 <= n -> room dat 1 ->
  op_post w main dat (OTruncate fh n) (run_op lock_ unlock_ (OTruncate fh n) w).
Proof.
  intros Hi Hw Hn Hroom. destruct (fi_writers _ _ _ _ Hi _ _ Hw) as (mfd & Hm & Hok).
  unfold room in Hroom. pose proof (zlen_nonneg old).
  set (w1 := set_mfds (<[fh := mfd]> (w_mfds w)) w).
  assert (E : run_op lock_ unlock_ (OTruncate fh n) w =
    (r ← ('(ret, mfd) ← b_truncate lock_ unlock_ mfd n B_WRITE_DEFAULTS; _ ← put_mfd fh mfd;
          if negb (ret =? 0) then mret ret
          else r ← sys (sys_ftruncate (mainfd mfd) n); mret match r with Ok _ => 0 | Err e => - e end);
      mret (Ret r)) w1).
  { unfold run_op, esfs_ftruncate. unfold mbind at 1, ST_bind at 1.
    rewrite (st_bind_run (get_mfd fh) _ w mfd w) by (unfold get_mfd; by rewrite Hm).
    by rewrite (st_bind_run _ _ _ _ _ (mfd_validate_same w mfd (wo_number _ _ _ _ Hok))). }
  rewrite E. clear E. eapply (saving_spec w main map dat fh app mfd Hi Hw Hm Hok _ (file_resize main n) 0).
  - intros r Hfl Hr. by constructor.
  - constructor.
  - apply b_truncate_spec; [apply mfd_ok_mfds; by eapply writer_mfd_ok | lia..].
  - intros map' dat' Hc Hs. by apply cow_main_resize.
  - intros w2 mfd2 Ha (acc & Hf & Hacc).
    destruct (sys_ftruncate_spec _ Ha _ _ _ _ _ Hf n) as [E | (e & He & Hfl & E)]; [done | done | |];
      rewrite (st_bind_run _ _ _ _ _ (sys_run _ _ _ _ E)); [by left | right; by exists e].
Qed.

(** ** One reader *)

Lemma reader_read_ok w main map dat target mfd :
  file_inv w main map dat -> reader_ok w target mfd -> exists views, read_ok lk_idle w mfd views target.
Proof.
  intros Hi [Hfull Hnum Hst Hsz Hlen Hlab].
  destruct Hst as (s0 & s1 & rest & vrest & accm & appm & accd & E & El & [H0 ?] & [? H1] & (appd & H2 & ?) & Hrest & Hj & Ht).
  exists (main :: old :: vrest). destruct Hi. split; try done; [| lia |].
  - rewrite E. split; [| | cbn; lia].
    + intros step v [= <-] [= <-]. right. exists im, accm, appm. split; [by apply fd_file_split | done].
    + intros [| k] step v v' Hs Hv Hv'; cbn in Hs, Hv, Hv'; simplify_eq.
      * right; right. split; [done |]. exists ip, map, O_RDONLY, dat.
        split_and!; [by apply fd_file_split | done | by intros [] | done |].
        right. exists id, accd, appd. split_and!; [by apply fd_file_split | done | by intros []].
      * eapply step_ok_quiet. by eapply Hrest.
  - replace (Z.to_nat (sn_first_file mfd)) with (S (Z.to_nat (sn_first_file mfd - 1))) by lia. done.
Qed.

Lemma file_inv_quiet w w' main map dat :
  file_inv w main map dat -> rframe w w' -> lk_idle (mflocks (w_fs w')) -> file_inv w' main map dat.
Proof.
  intros [] [[Hf Hs Hm _ _] Hbuf] Hl.
  assert (Hf' : frame the_files (w_os w) (w_os w')) by (by eapply frame_weaken; [| exact Hf]; intros ? []).
  split; try done; try (by eapply regular_frame; [exact Hf | intros [] |]).
  - unfold buffer_ok. by rewrite Hbuf.
  - by apply (fr_atomic _ _ _ Hf).
  - intros fh app Hw. rewrite Hm. destruct (fi_writers0 _ _ Hw) as (m & ? & ?). exists m. split; [done |].
    by eapply writer_ok_move.
  - intros fh target Hr. rewrite Hm. destruct (fi_readers0 _ _ Hr) as (m & ? & ?). exists m. split; [done |].
    by eapply reader_ok_move.
Qed.

Lemma run_read_spec w main map dat fh target buf size off :
  file_inv w main map dat -> readers !! fh = Some target ->
  0 <= off -> 0 <= size < 2 ^ 31 -> off + size < 2 ^ 63 ->
  op_post w main dat (ORead fh buf size off) (run_op lock_ unlock_ (ORead fh buf size off) w).
Proof.
  intros Hi Hr Ho Hs Hb. destruct (fi_readers _ _ _ _ Hi _ _ Hr) as (mfd & Hm & Hok).
  assert (0 < BL_S) by done. pose proof (zlen_nonneg old).
  destruct (reader_read_ok _ _ _ _ _ _ Hi Hok) as (views & Hro).
  destruct (b_read_spec lock_ unlock_ mfd views target w buf size off Hro Ho Hs Hb)
    as (r & buf' & w' & E & Hfr & Hro' & Hpost).
  assert (Erun : run_op lock_ unlock_ (ORead fh buf size off) w = Some (Got r buf', w')).
  { unfold run_op, esfs_read. unfold mbind at 1, ST_bind at 1.
    rewrite (st_bind_run (get_mfd fh) _ w mfd w) by (unfold get_mfd; by rewrite Hm).
    rewrite (rd_full _ _ _ Hok).
    rewrite (st_bind_run (mfd_in_sn_validate mfd) _ w 0 w).
    2: { unfold mfd_in_sn_validate, get_fs, mbind, ST_bind. by rewrite (rd_number _ _ _ Hok), Z.eqb_refl. }
    cbn [Z.eqb negb]. by rewrite E. }
  rewrite Erun. eexists (Got r buf'), w', main, map, dat. split_and!; [done | | | lia |].
  - eapply file_inv_quiet; [done | done | apply (ro_idle _ _ _ _ _ Hro')].
  - split; [| apply (wf_fs _ _ _ (proj1 Hfr)) | apply (wf_junk_mfd _ _ _ (proj1 Hfr))].
    eapply frame_weaken; [| apply (wf_os _ _ _ (proj1 Hfr))]. intros ? [].
  - assert (target = default [] (readers !! fh)) as -> by (by rewrite Hr).
    destruct Hpost as [[-> ->] | [Hneg Hfl]]; by constructor.
Qed.

(** ** Sequences of operations *)

(** The operation is addressed to one of the handles, with offsets that C's [off_t] can hold. *)
Definition op_ok (o : op) : Prop :=
  match o with
  | OWrite fh buf off => is_Some (writers !! fh) /\ 0 <= off /\ off + zlen buf < 2 ^ 63
  | OTruncate fh n => is_Some (writers !! fh) /\ 0 <= n
  | ORead fh buf size off => is_Some (readers !! fh) /\ 0 <= off /\ 0 <= size < 2 ^ 31 /\ off + size < 2 ^ 63
  end.

Lemma run_op_spec w main map dat o :
  file_inv w main map dat -> op_ok o -> room dat 1 -> op_post w main dat o (run_op lock_ unlock_ o w).
Proof.
  intros Hi Ho Hr. destruct o; cbn in Ho.
  - destruct Ho as ([app ?] & ? & ?). by eapply run_write_spec.
  - destruct Ho as ([app ?] & ?). by eapply run_truncate_spec.
  - destruct Ho as ([target ?] & ? & ? & ?). by eapply run_read_spec.
Qed.

Lemma run_ops_spec ops : forall w main map dat,
  file_inv w main map dat -> Forall op_ok ops -> room dat (zlen ops) ->
  exists outs w' main' map' dat', run_ops lock_ unlock_ ops w = Some (outs, w') /\ file_inv w' main' map' dat' /\
    touches_only w w' /\ zlen dat' <= zlen dat + zlen ops * (zlen old + 2 * BL_S) /\
    asteps (faulty (w_os w)) (fun fh => default false (writers !! fh)) (fun fh => default [] (readers !! fh))
      main ops outs main'.
Proof.
  assert (HBL : 0 < BL_S) by done. pose proof (zlen_nonneg old).
  induction ops as [| o ops IH]; intros w main map dat Hi Hf Hr; cbn [run_ops].
  { exists [], w, main, map, dat. split_and!; [done | done | by split | change (zlen (@nil op)) with 0; lia | constructor]. }
  apply Forall_cons in Hf as [Ho Hf]. unfold room in Hr. rewrite zlen_cons in Hr. pose proof (zlen_nonneg ops).
  destruct (run_op_spec w main map dat o Hi Ho) as (out & w1 & main1 & map1 & dat1 & E & Hi1 & [Hfr Hfs Hj] & Hlen & Hst).
  { unfold room. nia. }
  rewrite (st_bind_run _ _ _ _ _ E).
  destruct (IH w1 main1 map1 dat1 Hi1 Hf) as (outs & w2 & main2 & map2 & dat2 & E2 & Hi2 & [Hfr2 Hfs2 Hj2] & Hlen2 & Hst2).
  { unfold room in *. nia. }
  rewrite (st_bind_run _ _ _ _ _ E2). eexists (out :: outs), w2, main2, map2, dat2.
  split_and!; [done | done | split; [by etransitivity | unfold fs_stable in *; congruence | congruence] | rewrite zlen_cons; lia |]. econstructor; [done |].
  eapply asteps_weaken; [| done]. apply (fr_faulty _ _ _ Hfr).
Qed.
End Inv.

(** ** When nothing fails, the results are determined *)

Section Exact.
Context (app : Z -> bool) (view : Z -> list Z).

(** The contents after an operation, and its result. *)
Definition aexec (main : list Z) (o : op) : outcome * list Z :=
  match o with
  | OWrite fh buf off => (Ret (i32 (zlen buf)), file_write main buf (if app fh then zlen main else off))
  | OTruncate fh n => (Ret 0, file_resize main n)
  | ORead fh buf size off =>
      let n := read_len (view fh) size off in
      (Got n (file_write buf (file_read (view fh) n off) 0), main)
  end.

Fixpoint aexecs (main : list Z) (ops : list op) : list outcome * list Z :=
  match ops with
  | [] => ([], main)
  | o :: r =>
      let '(out, main') := aexec main o in
      let '(outs, main'') := aexecs main' r in (out :: outs, main'')
  end.

Lemma astep_exact main o out main' : astep False app view main o out main' -> aexec main o = (out, main').
Proof. intros H. inversion H; subst; done. Qed.

Lemma asteps_exact main ops outs main' : asteps False app view main ops outs main' -> aexecs main ops = (outs, main').
Proof.
  induction 1 as [| ? ? ? ? ? ? ? H _ IH]; [done |]. cbn. by rewrite (astep_exact _ _ _ _ H), IH.
Qed.
End Exact.

(** Sequences of operations with no failing call. *)
Lemma run_ops_exact (lock_ unlock_ : Z -> M Z) {LS : LockService lock_ unlock_}
    im ip id old writers readers ops w main map dat :
  file_inv lock_ unlock_ im ip id old writers readers w main map dat -> Forall (op_ok writers readers) ops ->
  room old dat (zlen ops) -> os_faults (w_os w) = [] ->
  exists outs w' main' map' dat', run_ops lock_ unlock_ ops w = Some (outs, w') /\
    file_inv lock_ unlock_ im ip id old writers readers w' main' map' dat' /\ touches_only im ip id w w' /\
    zlen dat' <= zlen dat + zlen ops * (zlen old + 2 * BL_S) /\
    aexecs (fun fh => default false (writers !! fh)) (fun fh => default [] (readers !! fh)) main ops = (outs, main').
Proof.
  intros Hi Ho Hr Hf.
  destruct (run_ops_spec lock_ unlock_ im ip id old writers readers ops w main map dat Hi Ho Hr)
    as (outs & w' & main' & map' & dat' & E & Hi' & Ht & Hl & Hs).
  exists outs, w', main', map', dat'. split_and!; [done | done | done | done |]. apply asteps_exact.
  eapply asteps_weaken; [| done]. by apply not_faulty_nil.
Qed.
