(* ===== verification/SmallSystem.v ===== *)
(** A small running system, on which the theorems are instantiated: the
    file [/f] of five bytes, one snapshot [s1] whose map file for [/f] has
    just been created, a handle that may write [/f] and a handle that reads
    [/snapshots/s1/f]. *)

From S2P Require Import Prelude Posix PosixSpec Types Util Mflock Block CopyOnWrite BlockWrite BlockRead.
From S2P Require Import SnapshotTheorems Mfd FuseFd SnapshotIsolation.

Definition sm_old : list Z := [10; 20; 30; 40; 50].

Definition sm_stat (mode size : Z) : stat_t := Stat 1 1 1 mode 1000 1000 0 size 4096 0 0 0 0.
Definition sm_dir : inode := Inode (sm_stat (Z.lor S_IFDIR S_IRWXU) 0) [].
Definition sm_file (d : list Z) : inode := Inode (sm_stat (Z.lor S_IFREG 420) (zlen d)) d.

Definition sm_header : mapheader_t := MapHeader ESFS_VERSION 1 (sm_stat (Z.lor S_IFREG 420) 5) ESFS_SIGNATURE.

Definition sm_names : gmap path nat :=
  {[ [] := 1%nat; ["r"] := 2%nat; ["r"; "f"] := 3%nat; ["r"; "snapshots"] := 4%nat;
     ["r"; "snapshots"; "s1"] := 5%nat; ["r"; "snapshots"; "s1"; "f.map"] := 6%nat;
     ["r"; "snapshots"; "s1"; "f.dat"] := 7%nat; ["r"; "snapshots"; ".hid"] := 8%nat ]}.

Definition sm_inodes : gmap nat inode :=
  {[ 1%nat := sm_dir; 2%nat := sm_dir; 3%nat := sm_file sm_old; 4%nat := sm_dir; 5%nat := sm_dir;
     6%nat := sm_file (enc_header sm_header); 7%nat := sm_file [];
     8%nat := sm_file (pointer "/r/snapshots/s1") ]}.

Definition sm_fds : gmap Z ofile :=
  {[ 3 := OFile 3 O_RDWR false 0; 4 := OFile 6 O_RDWR false 0; 5 := OFile 7 O_WRONLY true 0;
     6 := OFile 3 O_RDONLY false 0; 7 := OFile 6 O_RDONLY false 0; 8 := OFile 7 O_RDONLY false 0 ]}.

Definition sm_os (faults : list fault) : os := Os sm_names sm_inodes sm_fds faults.

Definition sm_fs : fsdata_t :=
  FsData "/r" 2 "/r/snapshots" 1 "/r/snapshots/s1" 15 1
    (replicate (Z.to_nat LOCK_NUM) mflock_init_entry) (Some (zeros BL_S)).

Definition sm_label : Z := Eval vm_compute in string2locklabel "/r/f".

(** The handles at addresses 100 (writer) and 200 (reader). *)
Definition sm_writer : mfd_t := Mfd mfd_main sm_header sm_label 1 3 None 4 5 "/f" 0 0 0 [].
Definition sm_steps : list sn_steps_t :=
  [SnStep "/r/f" SN_STEPS_MAIN 6 None; SnStep "/r/snapshots/s1/f" 7 8 None].
Definition sm_reader : mfd_t := Mfd mfd_sn_full sm_header sm_label 1 0 None 0 0 "" 0 1 1 sm_steps.

Definition sm_world (faults : list fault) : world :=
  World (sm_os faults) sm_fs {[ 100 := sm_writer; 200 := sm_reader ]} [] sm_writer 1.

Definition sm_writers : gmap Z bool := {[ 100 := false ]}.
Definition sm_readers : gmap Z (list Z) := {[ 200 := sm_old ]}.

(** ** The system is in the invariant *)

Lemma sm_open faults fd ino acc app : sm_fds !! fd = Some (OFile ino acc app 0) -> open_on (sm_os faults) fd ino acc app.
Proof. by exists 0. Qed.

Lemma sm_regular faults ino c : sm_inodes !! ino = Some (sm_file c) -> regular (sm_os faults) ino c.
Proof. intros H. eexists. split; [exact H | done]. Qed.

Lemma sm_writer_ok faults : writer_ok 3 6 7 sm_old (sm_world faults) (enc_header sm_header) false sm_writer.
Proof.
  split; try done; try (by apply sm_open).
  - by apply writer_rdwr, sm_open.
  - intros b Hb. cbn. lia.
Qed.

Lemma sm_reader_ok faults : reader_ok 3 6 7 sm_old (sm_world faults) sm_old sm_reader.
Proof.
  split; try done.
  eexists _, _, [], [], O_RDONLY, false, O_RDONLY. split_and!; try done; try (by apply sm_open).
  exists false. split; [by apply sm_open | done].
Qed.

Lemma sm_header_ok : header_ok sm_header.
Proof. unfold header_ok, header_wf, stat_wf. cbn. split_and!; (done || lia). Qed.

Lemma sm_inv faults :
  Forall atomic_fault faults ->
  file_inv mflock_lock mflock_unlock 3 6 7 sm_old sm_writers sm_readers (sm_world faults) sm_old (enc_header sm_header) [].
Proof.
  intros Hf. split; try done; try (by apply sm_regular).
  - by apply cow_fresh; [apply sm_header_ok |].
  - exists (zeros BL_S). split; [done |]. by rewrite zlen_zeros.
  - apply idle_table_init.
  - unfold sm_writers. intros fh app [<- <-]%lookup_singleton_Some. exists sm_writer. split; [done | apply sm_writer_ok].
  - unfold sm_readers. intros fh target [<- <-]%lookup_singleton_Some. exists sm_reader. split; [done | apply sm_reader_ok].
Qed.
