(* ===== verification/IsolationTheorems.v ===== *)
(** The theorems on saving and reading blocks, with instances on the small
    system: what [b_write], [b_truncate] and [b_read] do on their own, and
    snapshot isolation for sequences of operations. *)

From S2P Require Import Prelude Posix PosixSpec Types Util Mflock Block CopyOnWrite BlockWrite BlockRead.
From S2P Require Import Mfd FuseFd SnapshotIsolation SmallSystem.

(** C7 (snapshot isolation): any number of handles write and truncate a file
    while others read it in snapshots.  The handles are in order ([writer_ok],
    [reader_ok]): writers were made since the latest snapshot, of a file that
    existed and was not empty then, and have its map and dat file open;
    readers have the map file of the latest snapshot open.  System calls may
    fail anywhere, and none is cut short ([atomic]).  Then, whatever sequence
    of operations runs, every operation returns, the sequence is one that the
    abstract file system can do (a write or truncation has its effect on the
    current contents or none; a read in a snapshot gives the bytes the file
    had when the snapshot was taken, or fails), operations fail only if some
    call failed, no other file changes, and the copy-on-write invariant holds
    afterwards. *)
Theorem snapshot_isolation (lock_ unlock_ : Z -> M Z) (LS : LockService lock_ unlock_)
    im ip id old writers readers w main map dat ops :
  file_inv lock_ unlock_ im ip id old writers readers w main map dat ->
  Forall (op_ok writers readers) ops ->
  room old dat (zlen ops) ->
  exists outs w' main' map' dat',
    run_ops lock_ unlock_ ops w = Some (outs, w') /\
    file_inv lock_ unlock_ im ip id old writers readers w' main' map' dat' /\
    touches_only im ip id w w' /\
    asteps (faulty (w_os w)) (fun fh => default false (writers !! fh)) (fun fh => default [] (readers !! fh))
      main ops outs main'.
Proof.
  intros Hi Ho Hr. destruct (run_ops_spec lock_ unlock_ im ip id old writers readers ops w main map dat Hi Ho Hr)
    as (outs & w' & main' & map' & dat' & E & Hi' & Ht & _ & Hs).
  by exists outs, w', main', map', dat'.
Qed.

(** A write over the start, a truncation and a read of the whole file in the
    snapshot, with the fifth call failing. *)
Definition sm_ops : list op := [OWrite 100 [1; 2] 1; OTruncate 100 2; ORead 200 (zeros 8) 8 0].
Definition sm_faults : list fault := [NoFault; NoFault; NoFault; NoFault; Fail EIO].

Lemma sm_ops_ok : Forall (op_ok sm_writers sm_readers) sm_ops.
Proof. repeat constructor; cbn; eauto; done. Qed.

Lemma snapshot_isolation_witness :
  exists outs w' main' map' dat',
    run_ops mflock_lock mflock_unlock sm_ops (sm_world sm_faults) = Some (outs, w') /\
    file_inv mflock_lock mflock_unlock 3 6 7 sm_old sm_writers sm_readers w' main' map' dat' /\
    touches_only 3 6 7 (sm_world sm_faults) w' /\
    asteps (faulty (w_os (sm_world sm_faults))) (fun fh => default false (sm_writers !! fh))
      (fun fh => default [] (sm_readers !! fh)) sm_old sm_ops outs main'.
Proof.
  apply (snapshot_isolation mflock_lock mflock_unlock mflock_service 3 6 7 sm_old sm_writers sm_readers
           (sm_world sm_faults) sm_old (enc_header sm_header) []).
  - apply sm_inv. repeat constructor.
  - apply sm_ops_ok.
  - vm_compute. reflexivity.
Defined.

(** Exact results: when no call fails, the results of the operations
    and the final contents are exactly those of the abstract file system,
    computed by [aexecs]. *)
Theorem snapshot_isolation_exact (lock_ unlock_ : Z -> M Z) (LS : LockService lock_ unlock_)
    im ip id old writers readers w main map dat ops :
  file_inv lock_ unlock_ im ip id old writers readers w main map dat ->
  Forall (op_ok writers readers) ops ->
  room old dat (zlen ops) -> os_faults (w_os w) = [] ->
  exists outs w' main' map' dat',
    run_ops lock_ unlock_ ops w = Some (outs, w') /\
    file_inv lock_ unlock_ im ip id old writers readers w' main' map' dat' /\
    aexecs (fun fh => default false (writers !! fh)) (fun fh => default [] (readers !! fh)) main ops = (outs, main').
Proof.
  intros Hi Ho Hr Hf.
  destruct (run_ops_exact lock_ unlock_ im ip id old writers readers ops w main map dat Hi Ho Hr Hf)
    as (outs & w' & main' & map' & dat' & E & Hi' & _ & _ & Hx).
  by exists outs, w', main', map', dat'.
Qed.

Lemma snapshot_isolation_exact_witness :
  exists outs w' main' map' dat',
    run_ops mflock_lock mflock_unlock sm_ops (sm_world []) = Some (outs, w') /\
    file_inv mflock_lock mflock_unlock 3 6 7 sm_old sm_writers sm_readers w' main' map' dat' /\
    (outs, main') = ([Ret 2; Ret 0; Got 5 ([10; 20; 30; 40; 50] ++ zeros 3)], [10; 1]).
Proof.
  destruct (snapshot_isolation_exact mflock_lock mflock_unlock mflock_service 3 6 7 sm_old sm_writers sm_readers
           (sm_world []) sm_old (enc_header sm_header) [] sm_ops) as (outs & w' & main' & map' & dat' & E & Hi & Hx).
  - by apply sm_inv.
  - apply sm_ops_ok.
  - vm_compute. reflexivity.
  - reflexivity.
  - exists outs, w', main', map', dat'. split; [exact E |]. split; [exact Hi |].
    rewrite <-Hx. vm_compute. reflexivity.
Defined.

(** C12 (blocks are saved before they are overwritten): [b_write] on a handle
    open for writing, with its map and dat file open, returns, touches no file
    but the map and dat files, keeps the copy-on-write invariant and every
    block saved before, releases its lock, and returns 0 only when every block
    of the old contents that the range meets is saved; it fails only if a call
    failed.  Any calls may fail on the way, and none is cut short
    ([mo_atomic]); [short_dat_write_is_final] is about a call that is. *)
Theorem b_write_saves (lock_ unlock_ : Z -> M Z) (LS : LockService lock_ unlock_)
    w mfd im ip id old main map dat size off :
  mfd_ok lk_idle w mfd im ip id old main map dat ->
  0 <= off -> 0 <= size -> off + size < 2 ^ 63 -> zlen dat + zlen old + 2 * BL_S < 2 ^ 62 ->
  save_post lk_idle w mfd im ip id old main map dat off size (b_write lock_ unlock_ mfd size off B_WRITE_DEFAULTS w).
Proof. apply b_write_spec. Qed.

Lemma sm_mfd_ok faults :
  Forall atomic_fault faults ->
  mfd_ok lk_idle (sm_world faults) sm_writer 3 6 7 sm_old sm_old (enc_header sm_header) [].
Proof. intros Hf. eapply writer_mfd_ok; [by apply sm_inv | apply sm_writer_ok]. Qed.

Lemma b_write_saves_witness :
  save_post lk_idle (sm_world sm_faults) sm_writer 3 6 7 sm_old sm_old (enc_header sm_header) [] 1 2
    (b_write mflock_lock mflock_unlock sm_writer 2 1 B_WRITE_DEFAULTS (sm_world sm_faults)).
Proof.
  apply (b_write_saves mflock_lock mflock_unlock mflock_service);
    [apply sm_mfd_ok; repeat constructor | lia | lia | lia | by vm_compute].
Defined.

(** Blocks are saved before they are cut off: the same for
    [b_truncate], for everything from the new size on. *)
Theorem b_truncate_saves (lock_ unlock_ : Z -> M Z) (LS : LockService lock_ unlock_)
    w mfd im ip id old main map dat newsize :
  mfd_ok lk_idle w mfd im ip id old main map dat ->
  0 <= newsize -> zlen dat + zlen old + 2 * BL_S < 2 ^ 62 ->
  save_post lk_idle w mfd im ip id old main map dat newsize (zlen old - newsize)
    (b_truncate lock_ unlock_ mfd newsize B_WRITE_DEFAULTS w).
Proof. apply b_truncate_spec. Qed.

Lemma b_truncate_saves_witness :
  save_post lk_idle (sm_world sm_faults) sm_writer 3 6 7 sm_old sm_old (enc_header sm_header) [] 2 (zlen sm_old - 2)
    (b_truncate mflock_lock mflock_unlock sm_writer 2 B_WRITE_DEFAULTS (sm_world sm_faults)).
Proof.
  apply (b_truncate_saves mflock_lock mflock_unlock mflock_service);
    [apply sm_mfd_ok; repeat constructor | lia | by vm_compute].
Defined.

(** C11 (a snapshot reads as the file was): [b_read] on a handle whose steps
    are a chain of snapshots in copy-on-write form changes nothing, releases
    its lock, and returns exactly the part of the old contents that lies in
    the range; it fails only if a call failed.  Calls may fail, and none is
    cut short ([ro_atomic]). *)
Theorem b_read_returns_old (lock_ unlock_ : Z -> M Z) (LS : LockService lock_ unlock_)
    w mfd views old buf size off :
  read_ok lk_idle w mfd views old -> 0 <= off -> 0 <= size < 2 ^ 31 -> off + size < 2 ^ 63 ->
  read_post lk_idle w mfd views old buf (read_len old size off) off (b_read lock_ unlock_ buf mfd size off w).
Proof. apply b_read_spec. Qed.

Lemma b_read_returns_old_witness :
  exists views,
    read_post lk_idle (sm_world sm_faults) sm_reader views sm_old (zeros 4) 4 1
      (b_read mflock_lock mflock_unlock (zeros 4) sm_reader 4 1 (sm_world sm_faults)).
Proof.
  destruct (reader_read_ok mflock_lock mflock_unlock 3 6 7 sm_old sm_writers sm_readers (sm_world sm_faults)
              sm_old (enc_header sm_header) [] sm_old sm_reader) as [views H].
  - apply sm_inv. repeat constructor.
  - apply sm_reader_ok.
  - exists views. apply (b_read_returns_old mflock_lock mflock_unlock mflock_service _ _ views sm_old (zeros 4) 4 1);
      [exact H | lia | lia | lia].
Defined.
