(* ===== verification/FusePath.v ===== *)
(** The FUSE handlers that work on a path: [fuse_path_open.c],
    [fuse_path_write.c] and [fuse_path_read.c].

    [path] is the virtual path; a handler that opens something returns the
    address of the new handle next to its return value. *)

From S2P Require Import Prelude Posix Types Util Mflock Block Snapshot Mfd SnSteps FuseFd.

(** [fi->fh = mfd]: the handle at a new address. *)
Definition new_handle (mfd : mfd_t) : M Z := fun w =>
  let fh := fresh (dom (w_mfds w)) in
  Some (fh, set_mfds (<[fh := mfd]> (w_mfds w)) w).

(** [malloc] of an mfd: what is in it is not known. *)
Definition malloc_mfd : M (option mfd_t) := fun w =>
  match malloc_ w with
  | Some (true, w') => Some (Some (w_junk_mfd w'), w')
  | Some (false, w') => Some (None, w')
  | None => None
  end.

(** [IF_PATH_MAIN_ONLY] *)
Definition if_path_main_only (path : string) (body : string -> M Z) : M Z :=
  fsdata ← get_fs;
  if is_path_in_sn path then mret (- EACCES)
  else match map_path path fsdata with
       | Err _ => mret (- ENAMETOOLONG)
       | Ok fpath => body fpath
       end.

(** [IF_PATH_SN] ... [ELIF_PATH_MAIN]; [ret e] is how the handler returns an errno. *)
Definition if_path_sn {A} (path : string) (ret : Z -> A)
    (sn : snpath_t -> string -> M A) (main : string -> M A) : M A :=
  fsdata ← get_fs;
  match map_path path fsdata with
  | Err _ => mret (ret (- ENAMETOOLONG))
  | Ok fpath =>
      if is_path_in_sn path then
        m ← malloc_;
        if negb m then mret (ret (- ENOMEM)) else sn (snd (decompose_sn_path path)) fpath
      else main fpath
  end.

(** 0, or the errno of a call, negated. *)
Definition neg_errno (r : res unit) : Z := match r with Ok _ => 0 | Err e => - e end.

Section WithLocks.
Context (lock_ unlock_ : Z -> M Z).

(** [_open_truncate_close] after [mfd_open_sn]: saves what a truncation of
    the file will cut off; the positive errno. *)
Definition open_truncate (fpath : string) (newsize : Z) (mfd : mfd_t) : M (Z * mfd_t) :=
  if mapfd mfd =? MFD_FD_NOSN then mret (0, mfd)
  else if mh_exists (mapheader mfd) =? 0 then mret (0, mfd)
  else
    o ← sys (sys_open fpath O_RDONLY 0);
    match o with
    | Err e => mret (if e =? ENOENT then 0 else e, mfd)
    | Ok fd =>
        '(ret, mfd) ← b_truncate lock_ unlock_ (set_mainfd fd mfd) newsize B_WRITE_DEFAULTS;
        _ ← sys (sys_close (mainfd mfd));
        mret (- ret, mfd)
    end.

Definition open_truncate_close (path fpath : string) (newsize : Z) : M Z :=
  w ← st_get;
  '(ret, mfd) ← mfd_open_sn lock_ unlock_ (w_junk_mfd w) path (Some fpath);
  if negb (ret =? 0) then mret ret
  else
    '(waserror, mfd) ← open_truncate fpath newsize mfd;
    ret ← mfd_close_sn mfd;
    mret (if negb (ret =? 0) then ret else - waserror).

(** ** [fuse_path_open.c] *)

Definition esfs_open_sn (flags : Z) (snpath : snpath_t) : M (Z * option Z) :=
  if negb (Z.land flags O_ACCMODE =? O_RDONLY) then mret (- EACCES, None)
  else
    match is_there snpath with
    | snpath_full =>
        m ← malloc_mfd;
        match m with
        | None => mret (- ENOMEM, None)
        | Some mfd =>
            '(snret, mfd) ← mfd_get_sn_steps mfd snpath SN_STEPS_F_FILE;
            if negb (snret =? 0) then mret (snret, None)
            else fh ← new_handle (set_is_main mfd_sn_full mfd); mret (0, Some fh)
        end
    | _ => mret (- EACCES, None)
    end.

(** A file opened for writing only is opened for reading too, so that the
    overwritten blocks can be saved. *)
Definition open_flags (flags : Z) : Z :=
  if Z.land flags O_ACCMODE =? O_WRONLY
  then Z.lor (Z.lxor (Z.lor flags O_ACCMODE) O_ACCMODE) O_RDWR
  else flags.

(** Opens the main file of a handle and publishes the handle. *)
Definition finish_open (fpath : string) (flags mode : Z) (mfd : mfd_t) : M (Z * option Z) :=
  o ← sys (sys_open fpath flags mode);
  match o with
  | Err e => _ ← mfd_close_sn mfd; mret (- e, None)
  | Ok fd => fh ← new_handle (set_is_main mfd_main (set_mainfd fd mfd)); mret (0, Some fh)
  end.

Definition esfs_open_main (path : string) (flags : Z) (fpath : string) : M (Z * option Z) :=
  m ← malloc_mfd;
  match m with
  | None => mret (- ENOMEM, None)
  | Some mfd =>
      if Z.land flags O_ACCMODE =? O_RDONLY then finish_open fpath flags 0 (mfd_open_sn_rdonly mfd)
      else
        '(fd, mfd) ← mfd_open_sn lock_ unlock_ mfd path (Some fpath);
        if fd <? 0 then mret (fd, None)
        else finish_open fpath (open_flags flags) 0 mfd
  end.

Definition esfs_open (path : string) (flags : Z) : M (Z * option Z) :=
  if_path_sn path (fun e => (e, None)) (fun snpath _ => esfs_open_sn flags snpath) (esfs_open_main path flags).

Definition esfs_create_main (path : string) (mode flags : Z) (fpath : string) : M (Z * option Z) :=
  m ← malloc_mfd;
  match m with
  | None => mret (- ENOMEM, None)
  | Some mfd =>
      '(fd, mfd) ← mfd_open_sn lock_ unlock_ mfd path (Some fpath);
      if fd <? 0 then mret (fd, None)
      else
        e ← (if (0 <=? mapfd mfd) && (mh_exists (mapheader mfd) =? 1)
             then open_truncate_close path fpath 0 else mret 0);
        if negb (e =? 0) then _ ← mfd_close_sn mfd; mret (e, None)
        else finish_open fpath (Z.lor (Z.lor flags O_CREAT) O_TRUNC) mode mfd
  end.

Definition esfs_create (path : string) (mode flags : Z) : M (Z * option Z) :=
  fsdata ← get_fs;
  if is_path_in_sn path then mret (- EACCES, None)
  else match map_path path fsdata with
       | Err _ => mret (- ENAMETOOLONG, None)
       | Ok fpath => esfs_create_main path mode flags fpath
       end.

Definition esfs_opendir_sn (fpath : string) (snpath : snpath_t) : M (Z * option Z) :=
  m ← malloc_mfd;
  match m with
  | None => mret (- ENOMEM, None)
  | Some mfd =>
      match is_there snpath with
      | snpath_root =>
          d ← sys (sys_opendir fpath);
          match d with
          | Err _ => mret (- ENOMEM, None)
          | Ok dp => fh ← new_handle (set_is_main mfd_sn_root (set_maindir (Some dp) mfd)); mret (0, Some fh)
          end
      | there =>
          '(waserror, mfd) ← mfd_get_sn_steps mfd snpath SN_STEPS_F_DIR;
          if negb (waserror =? 0) then mret (waserror, None)
          else if sn_first_file mfd =? -1 then
            waserror ← mfd_destroy_sn_steps mfd;
            mret (if negb (waserror =? 0) then waserror else - ENOENT, None)
          else
            let t := match there with snpath_full => mfd_sn_full | _ => mfd_sn_id end in
            fh ← new_handle (set_is_main t mfd); mret (0, Some fh)
      end
  end.

Definition esfs_opendir_main (fpath : string) : M (Z * option Z) :=
  m ← malloc_mfd;
  match m with
  | None => mret (- ENOMEM, None)
  | Some mfd =>
      d ← sys (sys_opendir fpath);
      match d with
      | Err e => mret (- e, None)
      | Ok dp => fh ← new_handle (set_is_main mfd_main (set_maindir (Some dp) mfd)); mret (0, Some fh)
      end
  end.

Definition esfs_opendir (path : string) : M (Z * option Z) :=
  if_path_sn path (fun e => (e, None)) (fun snpath fpath => esfs_opendir_sn fpath snpath) esfs_opendir_main.

(** ** [fuse_path_write.c] *)

(** [mkdir /snapshots/ID] creates a snapshot. *)
Definition esfs_mkdir (path : string) (mode : Z) : M Z :=
  if_path_sn path id
    (fun snpath fpath =>
       match is_there snpath with
       | snpath_id => ret ← sn_create fpath; mret (if negb (ret =? 0) then - EIO else 0)
       | _ => mret (- EFAULT)
       end)
    (fun fpath =>
       ret ← mfd_init_sn lock_ unlock_ path fpath;
       if negb (ret =? 0) then mret ret
       else r ← sys (sys_mkdir fpath mode); mret (neg_errno r)).

(** [rmdir /snapshots] destroys the earliest snapshot. *)
Definition esfs_rmdir (path : string) : M Z :=
  if_path_sn path id
    (fun snpath _ => match is_there snpath with snpath_root => sn_destroy | _ => mret (- EFAULT) end)
    (fun fpath => r ← sys (sys_rmdir fpath); mret (neg_errno r)).

(** Saves the stat of a file, then changes it. *)
Definition save_and (path : string) (op : string -> os -> res unit * os) : M Z :=
  if_path_main_only path (fun fpath =>
    ret ← mfd_init_sn lock_ unlock_ path fpath;
    if negb (ret =? 0) then mret ret
    else r ← sys (op fpath); mret (neg_errno r)).

Definition esfs_chmod (path : string) (mode : Z) : M Z := save_and path (fun fpath => sys_chmod fpath mode).
Definition esfs_chown (path : string) (uid gid : Z) : M Z := save_and path (fun fpath => sys_chown fpath uid gid).

(** SAVE_ON_UTIMENSAT is 0: the times are changed without saving the file. *)
Definition esfs_utimens (path : string) (atim mtim : Z) : M Z :=
  if_path_main_only path (fun fpath => r ← sys (sys_utimens fpath atim mtim); mret (neg_errno r)).

Definition esfs_unlink (path : string) : M Z :=
  if_path_main_only path (fun fpath =>
    ret ← open_truncate_close path fpath 0;
    if negb (ret =? 0) then mret ret
    else r ← sys (sys_unlink fpath); mret (neg_errno r)).

Definition esfs_truncate (path : string) (newsize : Z) : M Z :=
  if_path_main_only path (fun fpath =>
    ret ← open_truncate_close path fpath newsize;
    if negb (ret =? 0) then mret ret
    else r ← sys (sys_truncate fpath newsize); mret (neg_errno r)).

End WithLocks.

(** ** [fuse_path_read.c] *)

Definition STAT_FLAGS : Z :=
  Z.lor (Z.lor (Z.lor SN_STEPS_F_TYPE_UNKNOWN SN_STEPS_F_FIRSTONLY) SN_STEPS_F_SKIPOPENDAT) SN_STEPS_F_SKIPOPENDIR.

(** Does the snapshot show nothing under the path? *)
Definition sn_absent (mfd : mfd_t) : bool :=
  (sn_first_file mfd =? -1) || ((0 <? sn_first_file mfd) && (mh_exists (mapheader mfd) =? 0)).

(** The return value and the stat filled in. *)
Definition esfs_getattr (path : string) : M (Z * option stat_t) :=
  let by_lstat fpath :=
    r ← sys (sys_lstat fpath);
    mret match r with Ok s => (0, Some s) | Err e => (- e, None) end in
  if_path_sn path (fun e => (e, None))
    (fun snpath fpath =>
       match is_there snpath with
       | snpath_full =>
           w ← st_get;
           '(snret, mfd) ← mfd_get_sn_steps (w_junk_mfd w) snpath STAT_FLAGS;
           if negb (snret =? 0) then mret (snret, None)
           else
             ret ← mfd_destroy_sn_steps mfd;
             if sn_absent mfd then mret (- ENOENT, None)
             else mret (ret, Some (mh_fstat (mapheader mfd)))
       | _ => by_lstat fpath
       end)
    by_lstat.

(** [access]: [uid] is the user that the process runs as, [granted] what the
    kernel grants it on a file with a given stat. *)
Definition R_OK : Z := 4.
Definition W_OK : Z := 2.
Definition X_OK : Z := 1.
Definition F_OK : Z := 0.
Definition S_IRUSR : Z := 256.
Definition S_IXUSR : Z := 64.
Definition S_IROTH : Z := 4.
Definition S_IXOTH : Z := 1.

(** The check of the mask against the mode that a snapshot shows. *)
Definition sn_access (uid mask : Z) (st : stat_t) : Z :=
  if mask =? F_OK then 0
  else if has mask W_OK then - EACCES
  else
    let denied r x := (has mask R_OK && negb (has (st_mode st) r)) || (has mask X_OK && negb (has (st_mode st) x)) in
    if uid =? 0 then 0
    else if (if uid =? st_uid st then denied S_IRUSR S_IXUSR else denied S_IROTH S_IXOTH) then - EACCES
    else 0.

Definition esfs_access (uid : Z) (granted : stat_t -> Z -> bool) (path : string) (mask : Z) : M Z :=
  let by_access fpath := r ← sys (sys_access granted fpath mask); mret (neg_errno r) in
  if_path_sn path id
    (fun snpath fpath =>
       match is_there snpath with
       | snpath_full =>
           w ← st_get;
           '(snret, mfd) ← mfd_get_sn_steps (w_junk_mfd w) snpath STAT_FLAGS;
           if negb (snret =? 0) then mret snret
           else
             p ← mfd_destroy_sn_steps mfd;
             let snret := if sn_absent mfd then - ENOENT else sn_access uid mask (mh_fstat (mapheader mfd)) in
             mret (if snret =? 0 then p else snret)
       | _ => by_access fpath
       end)
    by_access.

(** ** Operations that are not supported *)

Definition esfs_readlink : M Z := mret (- ENOTSUP).
Definition esfs_getxattr : M Z := mret (- ENOTSUP).
Definition esfs_listxattr : M Z := mret (- ENOTSUP).
Definition esfs_rename : M Z := mret (- ENOTSUP).
Definition esfs_symlink : M Z := mret (- ENOTSUP).
Definition esfs_link : M Z := mret (- ENOTSUP).
Definition esfs_mknod : M Z := mret (- ENOTSUP).
Definition esfs_setxattr : M Z := mret (- ENOTSUP).
Definition esfs_removexattr : M Z := mret (- ENOTSUP).
