(* ===== verification/Mount.v ===== *)
(** The start and the end of the program: [esfs.c]. *)

From S2P Require Import Prelude Posix Types Util Log Mflock Block Snapshot FusePath.
From Stdlib Require Import Ascii.

Definition esfs_statfs (path : string) : M Z :=
  if_path_main_only path (fun fpath => r ← sys (sys_statvfs fpath); mret (neg_errno r)).

(** [init] only hands the private data on. *)
Definition esfs_init : M fsdata_t := get_fs.

(** [destroy] frees the lock table and the block buffer; closing the log has
    no effect on the tree. *)
Definition esfs_destroy : M unit :=
  _ ← mflock_destroy; _ ← b_destroy_block_buffer; mret tt.

Section Main.
(** The users of the process, [realpath], whether [fopen] can open the log
    file, which is not part of the tree, and [fuse_main], which is given
    the arguments left and whether the handlers are. *)
Context (uid euid : Z) (realpath : string -> option string) (fopen : string -> bool) (fuse_main : list string -> bool -> M Z).

Definition arg (argv : list string) (i : Z) : string := default "" (argv !! Z.to_nat i).
Definition starts_with_hyphen (s : string) : bool := match s with String c _ => Ascii.eqb c "-"%char | _ => false end.

(** The first fields of the fresh [fsdata]; the others are not set yet. *)
Definition new_fsdata (root : string) (f : fsdata_t) : fsdata_t :=
  FsData root (strlen root) (sn_dir f) 0 (sn_lat_dir f) (sn_lat_dir_len f) (sn_is_any f) (mflocks f) (block_buffer f).

(** What [main] does between reading the arguments and [fuse_main]: 0, or 1. *)
Definition mount_checks : M Z :=
  fsdata ← get_fs;
  match map_path SNDIR fsdata with
  | Err _ => mret 1
  | Ok p =>
      _ ← modify_fs (set_sn_dir p);
      r ← sn_check_dir;
      if negb (r =? 0) then mret 1
      else
        r ← sn_get_latest;
        if negb (r =? 0) then mret 1
        else
          r ← b_init_block_buffer;
          if negb (r =? 0) then mret 1
          else
            r ← mflock_init;
            mret (if negb (r =? 0) then 1 else 0)
  end.

(** The arguments without the root directory, and without [--local-log]. *)
Definition mount_args (argv : list string) : list string := ztake (zlen argv - 2) argv ++ [arg argv (zlen argv - 1)].
Definition local_log (argv : list string) : bool := String.eqb (arg argv (zlen argv - 2)) "--local-log".
Definition fuse_args (argv : list string) : list string :=
  let argv := mount_args argv in if local_log argv then mount_args argv else argv.

Definition log_name (argv : list string) : string :=
  if local_log (mount_args argv) then "esfs.log" else "/var/log/esfs.log".

(** The log file is opened when the program is compiled with messages. *)
Definition log_ready (argv : list string) : bool :=
  negb (0 <? DEBUG) || bool_decide (is_Some (log_open fopen (log_name argv))).

Definition esfs_main (argv : list string) : M Z :=
  let argc := zlen argv in
  if (uid =? 0) || (euid =? 0) then mret 1
  else if negb (check_params =? 0) then mret 1
  else if (1 <? argc) && String.eqb (arg argv 1) "-h" then _ ← fuse_main (ztake 2 argv) false; mret 1
  else if (argc <? 3) || starts_with_hyphen (arg argv (argc - 2)) || starts_with_hyphen (arg argv (argc - 1)) then mret 1
  else
    m ← malloc_;
    if negb m then mret 1
    else
      match realpath (arg argv (argc - 2)) with
      | None => mret 1
      | Some root =>
          _ ← modify_fs (new_fsdata root);
          if negb (log_ready argv) then mret 1
          else
            r ← mount_checks;
            if negb (r =? 0) then mret 1 else fuse_main (fuse_args argv) true
      end.
End Main.
