(* ===== verification/Dispatch.v ===== *)
(** The table of handlers [oper] of [esfs.c]: what FUSE calls for each
    request, and what the handler gives back. *)

From S2P Require Import Prelude Posix Types Util Mflock Block Snapshot Mfd SnSteps FuseFd FuseDir FusePath Mount.

(** ** Requests and responses *)

(** A request with the arguments that reach the handler; [fh] is the handle
    in [fuse_file_info], [flags] its flags, [size] the size of a buffer. *)
Inductive request :=
  | RqGetattr (path : string)
  | RqReadlink (path : string)
  | RqMknod (path : string) (mode : Z)
  | RqMkdir (path : string) (mode : Z)
  | RqUnlink (path : string)
  | RqRmdir (path : string)
  | RqSymlink (path link : string)
  | RqRename (path newpath : string)
  | RqLink (path newpath : string)
  | RqChmod (path : string) (mode : Z)
  | RqChown (path : string) (uid gid : Z)
  | RqTruncate (path : string) (newsize : Z)
  | RqOpen (path : string) (flags : Z)
  | RqRead (fh : Z) (buf : list Z) (size off : Z)
  | RqWrite (fh : Z) (buf : list Z) (off : Z)
  | RqStatfs (path : string)
  | RqFlush (fh : Z)
  | RqRelease (fh : Z)
  | RqFsync (fh datasync : Z)
  | RqSetxattr (path name : string)
  | RqGetxattr (path name : string)
  | RqListxattr (path : string)
  | RqRemovexattr (path name : string)
  | RqOpendir (path : string)
  | RqReaddir (fh : Z)
  | RqReleasedir (fh : Z)
  | RqFsyncdir (fh : Z)
  | RqAccess (path : string) (mask : Z)
  | RqCreate (path : string) (mode flags : Z)
  | RqFtruncate (fh newsize : Z)
  | RqFgetattr (fh : Z)
  | RqUtimens (path : string) (atim mtim : Z).

(** The return value, with what the handler stores through its pointers. *)
Inductive response (B : Type) :=
  | RsCode (r : Z)
  | RsHandle (r : Z) (fh : option Z)
  | RsStat (r : Z) (st : option stat_t)
  | RsData (r : Z) (buf : list Z)
  | RsNames (r : Z) (buf : B).
Arguments RsCode {B}.
Arguments RsHandle {B}.
Arguments RsStat {B}.
Arguments RsData {B}.
Arguments RsNames {B}.

(** ** The table *)

Section Dispatch.
Context {B : Type} (filler : B -> string -> option stat_t -> option B) (empty : B).
Context (uid : Z) (granted : stat_t -> Z -> bool).

Abbreviation lk := mflock_lock.
Abbreviation ul := mflock_unlock.

Definition code (m : M Z) : M (response B) := r ← m; mret (RsCode r).
Definition handle (m : M (Z * option Z)) : M (response B) := '(r, fh) ← m; mret (RsHandle r fh).

Definition dispatch (rq : request) : M (response B) :=
  match rq with
  | RqGetattr path => '(r, st) ← esfs_getattr path; mret (RsStat r st)
  | RqReadlink _ => code esfs_readlink
  | RqMknod _ _ => code esfs_mknod
  | RqMkdir path mode => code (esfs_mkdir lk ul path mode)
  | RqUnlink path => code (esfs_unlink lk ul path)
  | RqRmdir path => code (esfs_rmdir path)
  | RqSymlink _ _ => code esfs_symlink
  | RqRename _ _ => code esfs_rename
  | RqLink _ _ => code esfs_link
  | RqChmod path mode => code (esfs_chmod lk ul path mode)
  | RqChown path uid gid => code (esfs_chown lk ul path uid gid)
  | RqTruncate path newsize => code (esfs_truncate lk ul path newsize)
  | RqOpen path flags => handle (esfs_open lk ul path flags)
  | RqRead fh buf size off => '(r, buf) ← esfs_read lk ul fh buf size off; mret (RsData r buf)
  | RqWrite fh buf off => code (esfs_write lk ul fh buf off)
  | RqStatfs path => code (esfs_statfs path)
  | RqFlush _ => code esfs_flush
  | RqRelease fh => code (esfs_release fh)
  | RqFsync fh datasync => code (esfs_fsync fh datasync)
  | RqSetxattr _ _ => code esfs_setxattr
  | RqGetxattr _ _ => code esfs_getxattr
  | RqListxattr _ => code esfs_listxattr
  | RqRemovexattr _ _ => code esfs_removexattr
  | RqOpendir path => handle (esfs_opendir path)
  | RqReaddir fh => '(r, buf) ← esfs_readdir filler fh empty; mret (RsNames r buf)
  | RqReleasedir fh => code (esfs_releasedir fh)
  | RqFsyncdir _ => code esfs_fsyncdir
  | RqAccess path mask => code (esfs_access uid granted path mask)
  | RqCreate path mode flags => handle (esfs_create lk ul path mode flags)
  | RqFtruncate fh newsize => code (esfs_ftruncate lk ul fh newsize)
  | RqFgetattr fh => r ← esfs_fgetattr fh; mret match r with Ok st => RsStat 0 (Some st) | Err e => RsStat (- e) None end
  | RqUtimens path atim mtim => code (esfs_utimens path atim mtim)
  end.

(** Requests served one after the other. *)
Fixpoint serve (rqs : list request) : M (list (response B)) :=
  match rqs with
  | [] => mret []
  | rq :: r => rs ← dispatch rq; rss ← serve r; mret (rs :: rss)
  end.
End Dispatch.
