(* ===== verification/MfdTheorems.v ===== *)
(** The theorems on [mfd.c]: the map header comes back as it was saved, and
    opening a file for writing after a snapshot sets up the copy-on-write
    invariant. *)

From S2P Require Import Prelude Posix PosixSpec PosixPath Types Util UtilTheorems Mflock UtilLocking Layout Tree.
From S2P Require Import Snapshot SnapshotTheorems Block CopyOnWrite BlockWrite BlockRead Mfd FuseFd.
From S2P Require Import SnapshotIsolation SmallSystem FusePath.

(** ** The map header *)

Lemma mfd_save_ok w mfd ip map :
  os_faults (w_os w) = [] -> fd_file (w_os w) (mapfd mfd) ip map O_RDWR false -> 0 <= mapfd mfd ->
  length (mh_signature (mapheader mfd)) = 4%nat ->
  mfd_save_mapheader mfd w
    = Some (0, set_os (set_data ip (file_write map (enc_header (mapheader mfd)) 0) (w_os w)) w).
Proof.
  intros Hf Hfd Hn Hs. unfold mfd_save_mapheader. destruct (Z.ltb_spec (mapfd mfd) 0); [lia |].
  rewrite (st_bind_run _ _ _ _ _ (sys_run _ _ _ _ (pwrite_ok (w_os w) _ ip map O_RDWR _ 0 Hf Hfd ltac:(done) ltac:(done)))).
  by rewrite zlen_enc_header.
Qed.

Lemma file_read_header h map : length (mh_signature h) = 4%nat -> file_read (file_write map (enc_header h) 0) MAPHEADER_S 0 = enc_header h.
Proof.
  intros Hs. pose proof (zlen_enc_header h Hs) as E. pose proof (zlen_nonneg map). unfold MAPHEADER_S in *.
  assert (L : zlen (file_read (file_write map (enc_header h) 0) 160 0) = 160).
  { rewrite zlen_file_read, zlen_file_write, E by lia. cbn [Z.eqb]. lia. }
  apply zlist_eq; [lia |]. rewrite L. intros i Hi.
  rewrite zget_file_read by lia. rewrite zget_file_write_in by lia. f_equal. lia.
Qed.

(** C24 (header round trip): the header that [mfd_save_mapheader] writes is
    the one that [mfd_load_mapheader] reads back from the same file, with
    the version and signature checks passed, and the block pointers stay
    where they are. *)
Theorem mapheader_roundtrip w mfd ip map h0 b :
  os_faults (w_os w) = [] -> fd_file (w_os w) (mapfd mfd) ip map O_RDWR false -> 0 <= mapfd mfd ->
  header_ok (mapheader mfd) -> 0 <= b ->
  exists w' map', mfd_save_mapheader mfd w = Some (0, w') /\
    mfd_load_mapheader h0 (mapfd mfd) w' = Some ((0, mapheader mfd), w') /\
    fd_file (w_os w') (mapfd mfd) ip map' O_RDWR false /\ ptr_at map' b = ptr_at map b.
Proof.
  intros Hf Hfd Hn (Hwf & Hv & Hs) Hb. assert (Hl : length (mh_signature (mapheader mfd)) = 4%nat) by (by rewrite Hs).
  set (map' := file_write map (enc_header (mapheader mfd)) 0). set (s' := set_data ip map' (w_os w)).
  assert (Hfd' : fd_file s' (mapfd mfd) ip map' O_RDWR false) by by eapply fd_file_set_data.
  exists (set_os s' w), map'. split_and!; [by apply mfd_save_ok | | done |].
  - unfold mfd_load_mapheader.
    rewrite (st_bind_run _ _ _ _ _ (sys_run _ (set_os s' w) _ _ (pread_ok s' _ ip map' O_RDWR false MAPHEADER_S 0 Hf Hfd' ltac:(done) ltac:(done)))).
    unfold map'. rewrite file_read_header by done. rewrite dec_enc_header by done.
    rewrite zlen_enc_header by done. rewrite Hv, Hs. done.
  - unfold ptr_at. do 2 f_equal. apply word8_ext. intros i Hi. unfold map'.
    rewrite zget_file_write_out; [done | done |]. right. rewrite zlen_enc_header by done.
    unfold ptr_off, BLP_S. lia.
Qed.

Lemma mapheader_roundtrip_witness :
  exists w' map', mfd_save_mapheader sm_writer (sm_world []) = Some (0, w') /\
    mfd_load_mapheader (mapheader ch_mfd) 4 w' = Some ((0, sm_header), w') /\
    fd_file (w_os w') 4 6 map' O_RDWR false /\ ptr_at map' 0 = ptr_at (enc_header sm_header) 0.
Proof.
  apply (mapheader_roundtrip (sm_world []) sm_writer 6 (enc_header sm_header) (mapheader ch_mfd) 0).
  - reflexivity.
  - apply fd_file_split. split; [by apply sm_open | by apply sm_regular].
  - done.
  - apply sm_header_ok.
  - done.
Defined.

(** ** Opening for writing *)

Section Open.
Context (lock_ unlock_ : Z -> M Z) {LS : LockService lock_ unlock_}.

(** A file of the main space that has not been touched since the latest
    snapshot, in a directory that the snapshot already has; the fields of its
    stat fit their C types. *)
Record open_ready (w : world) (path fpath fmap fdat : string) (im : nat) (old : list Z) : Prop := {
  or_faults : os_faults (w_os w) = [];
  or_idle : lk_idle (mflocks (w_fs w));
  or_buffer : buffer_ok w;
  or_any : sn_is_any (w_fs w) <> 0;
  or_main_space : is_path_in_sn path = false;
  or_fpath : map_path path (w_fs w) = Ok fpath;
  or_fmap : get_map_prefix_path path (sn_lat_dir (w_fs w)) (sn_lat_dir_len (w_fs w)) = Ok fmap;
  or_fdat : get_dat_prefix_path path (sn_lat_dir (w_fs w)) (sn_lat_dir_len (w_fs w)) = Ok fdat;
  or_parent : exists k, last_slash fmap = Some (S k) /\ dir_at (w_os w) (resolve (strncpy fmap (Z.of_nat (S k))));
  or_main : file_at (w_os w) (resolve fpath) im old;
  or_map : absent_at (w_os w) (resolve fmap);
  or_dat : absent_at (w_os w) (resolve fdat);
  or_distinct : resolve fdat <> resolve fmap;
  or_stat : forall n, os_inodes (w_os w) !! im = Some n -> stat_wf (stat_of im n);
  or_size : 0 < zlen old < 2 ^ 61
}.

Lemma mkpath_exists w path mode k :
  os_faults (w_os w) = [] -> last_slash path = Some (S k) -> dir_at (w_os w) (resolve (strncpy path (Z.of_nat (S k)))) ->
  mkpath path mode w = Some ((0, ""), w).
Proof.
  intros Hf Hs Hd. unfold mkpath. cbn [mkpath_rec]. rewrite Hs.
  destruct (lstat_dir (w_os w) _ Hf Hd) as (st & E & Hst).
  rewrite (st_bind_run _ _ _ _ _ (sys_run _ _ _ _ E)), Hst, set_os_id. done.
Qed.

(** A new file with contents [c]: everything else is as before. *)
Record created (s s' : os) (p : path) (ino : nat) (c : list Z) : Prop := {
  cr_faults : os_faults s' = [];
  cr_fresh : os_inodes s !! ino = None;
  cr_file : file_at s' p ino c;
  cr_inodes : forall i n, os_inodes s !! i = Some n -> os_inodes s' !! i = Some n;
  cr_kept : forall q i d, file_at s q i d -> file_at s' q i d;
  cr_absent : forall q, q <> p -> absent_at s q -> absent_at s' q;
  cr_open : forall fd i acc app, open_on s fd i acc app -> open_on s' fd i acc app;
  cr_fds : exists o, os_fds s' = <[fresh_fd s := o]> (os_fds s);
  cr_tree : os_wf s -> Forall comp_ok p -> os_wf s' /\ same_but (eq p) s s'
}.

(** Creating and opening a new file. *)
Lemma create_new s name flags mode :
  os_faults s = [] -> absent_at s (resolve name) -> has flags O_CREAT = true -> S_ISDIR (Z.lor S_IFREG mode) = false ->
  exists s' ino, sys_open name flags mode s = (Ok (fresh_fd s), s') /\ created s s' (resolve name) ino [] /\
    open_on s' (fresh_fd s) ino (Z.land flags O_ACCMODE) (has flags O_APPEND).
Proof.
  intros Hf Ha Hc Hd. set (a := snd (add_node (resolve name) (Z.lor S_IFREG mode) s)).
  pose proof (added_node s (resolve name) (Z.lor S_IFREG mode) (proj2 Ha) : added s a _) as Had.
  exists (opened a (fresh_ino s) flags), (fresh_ino s). split_and!; [by apply open_create | | apply (opened_open_on a)].
  split; [done | apply fresh_ino_free | | | | | | by eexists |].
  - apply file_at_unopened. by apply (add_node_file_at s (resolve name) (Z.lor S_IFREG mode)).
  - intros i n Hi. by apply (ad_others _ _ _ Had).
  - intros q i c H. apply file_at_unopened. by eapply added_file_at.
  - intros q Hq H. apply absent_at_fds. by eapply added_absent.
  - intros fd i acc app H. by apply opened_other.
  - intros Hwf Hok. destruct (add_tree s (resolve name) (Z.lor S_IFREG mode) Hwf Hok Ha : os_wf a /\ same_but _ _ a) as [Hwfa Hsa].
    split; [by apply os_wf_fds | exact Hsa].
Qed.

(** Filling it. *)
Lemma created_data s s' p ino c d : created s s' p ino c -> created s (set_data ino d s') p ino d.
Proof.
  intros [Hf Hn Hat Hin Hk Ha Ho Hfds Htr].
  assert (Hne : forall i n, os_inodes s !! i = Some n -> ino <> i) by (intros; congruence).
  split; try done.
  - by eapply file_at_set_data.
  - intros i n Hi. cbn. rewrite lookup_alter_ne by by eapply Hne. by apply Hin.
  - intros q i e Hq. eapply file_at_grows; [apply (grows_data s') | by apply Hk |].
    destruct Hq as (_ & _ & m & Hi & _). cbn. by rewrite lookup_alter_ne by by eapply Hne.
  - intros q Hq H. destruct (Ha _ Hq H) as [Hd Hno]. split; [by eapply walk_grows; [apply (grows_data s') |] | done].
  - intros Hwf Hok. destruct (Htr Hwf Hok) as [Hwf' Hs']. pose proof (frame_set_data (eq ino) ino d s' eq_refl) as Hfr.
    split; [by eapply os_wf_frame |]. intros q Hq. rewrite (frame_same_but _ _ _ Hfr), (Hs' q Hq); [done |].
    intros (i & Hi & <-). apply Hq. destruct Hat as (_ & Hp & _). by eapply (wf_inj _ Hwf').
Qed.

(** The header of a file that exists, and of one that does not: there the
    [fstat] is what was in memory before. *)
Definition header_of (im : nat) (n : inode) : mapheader_t := MapHeader ESFS_VERSION 1 (stat_of im n) ESFS_SIGNATURE.
Definition header_missing (st : stat_t) : mapheader_t := MapHeader ESFS_VERSION 0 st ESFS_SIGNATURE.

Lemma mfd_new_header_ok w fpath h0 im old n :
  os_faults (w_os w) = [] -> file_at (w_os w) (resolve fpath) im old -> os_inodes (w_os w) !! im = Some n ->
  mfd_new_header fpath h0 w = Some ((0, header_of im n), w).
Proof.
  intros Hf Hat Hn. destruct (lstat_file (w_os w) fpath im old Hf Hat) as (st & n' & E & Hn' & -> & _).
  assert (n' = n) as -> by congruence. unfold mfd_new_header. by rewrite (st_bind_run _ _ _ _ _ (sys_run _ _ _ _ E)), set_os_id.
Qed.

Lemma header_of_ok s im old n : regular s im old -> os_inodes s !! im = Some n -> stat_wf (stat_of im n) ->
  header_ok (header_of im n) /\ header_for old (header_of im n) /\ S_ISDIR (st_mode (stat_of im n)) = false.
Proof. intros (m & Hm & Hr) Hn Hwf. rewrite Hm in Hn. injection Hn as <-. split_and!; [by split_and! | by split | done]. Qed.

Lemma mfd_new_header_missing w fpath h0 :
  os_faults (w_os w) = [] -> absent_at (w_os w) (resolve fpath) ->
  mfd_new_header fpath h0 w = Some ((0, header_missing (mh_fstat h0)), w).
Proof.
  intros Hf [Hd Hn]. assert (E : sys_lstat fpath (w_os w) = (Err ENOENT, w_os w)).
  { unfold sys_lstat. rewrite syscall_ok by done. unfold lookup_path. by rewrite Hd, Hn. }
  unfold mfd_new_header. by rewrite (st_bind_run _ _ _ _ _ (sys_run _ _ _ _ E)), set_os_id.
Qed.

(** The dat file of a file that was not empty. *)
Lemma mfd_open_dat_new w path mfd fdat :
  os_faults (w_os w) = [] -> mh_exists (mapheader mfd) = 1 -> 0 < st_size (mh_fstat (mapheader mfd)) ->
  get_dat_prefix_path path (sn_lat_dir (w_fs w)) (sn_lat_dir_len (w_fs w)) = Ok fdat ->
  absent_at (w_os w) (resolve fdat) ->
  exists s' id, mfd_open_dat path mfd w = Some ((0, set_datfd (fresh_fd (w_os w)) mfd), set_os s' w) /\
    created (w_os w) s' (resolve fdat) id [] /\ open_on s' (fresh_fd (w_os w)) id O_WRONLY true.
Proof.
  intros Hf Hex Hsz Hp Ha.
  destruct (create_new (w_os w) fdat (Z.lor (Z.lor (Z.lor O_WRONLY O_CREAT) O_APPEND) O_NOATIME) S_IRWXU)
    as (s' & id & E & Hc & Ho); [done | done | done | done |].
  exists s', id. split_and!; [| done | done]. unfold mfd_open_dat. rewrite Hex. cbn [Z.eqb].
  destruct (Z.eqb_spec (st_size (mh_fstat (mapheader mfd))) 0); [lia |].
  rewrite (st_bind_run get_fs _ w (w_fs w) w eq_refl), Hp. by rewrite (st_bind_run _ _ _ _ _ (sys_run _ _ _ _ E)).
Qed.

(** What [mfd_open_sn] leaves behind for a file that was not touched before. *)
Record opened_sn (w w' : world) (mfd : mfd_t) (fpath fmap fdat : string) (im ip id : nat) (old : list Z) : Prop := {
  os_world : exists s t, w' = set_fs (set_mflocks t (w_fs w)) (set_os s w) /\ lk_idle t /\ os_faults s = [];
  os_main : file_at (w_os w') (resolve fpath) im old;
  os_map : file_at (w_os w') (resolve fmap) ip (enc_header (mapheader mfd));
  os_dat : file_at (w_os w') (resolve fdat) id [];
  os_fresh : os_inodes (w_os w) !! ip = None /\ os_inodes (w_os w) !! id = None;
  os_kept : forall q i c, file_at (w_os w) q i c -> file_at (w_os w') q i c;
  os_absent : forall q, q <> resolve fmap -> q <> resolve fdat -> absent_at (w_os w) q -> absent_at (w_os w') q;
  os_tree : os_wf (w_os w) -> Forall comp_ok (resolve fmap) -> Forall comp_ok (resolve fdat) ->
    os_wf (w_os w') /\ same_but (fun q => q = resolve fmap \/ q = resolve fdat) (w_os w) (w_os w');
  os_mapfd : open_on (w_os w') (mapfd mfd) ip O_RDWR false;
  os_datfd : open_on (w_os w') (datfd mfd) id O_WRONLY true;
  os_distinct : im <> ip /\ im <> id /\ ip <> id;
  os_header : header_ok (mapheader mfd) /\ header_for old (mapheader mfd);
  os_number : mfd_sn_number mfd = sn_number (w_fs w);
  os_label : locklabel mfd <> 0;
  os_cache : latest_written_block_cache mfd = 0;
  os_nonneg : 0 <= mapfd mfd /\ 0 <= datfd mfd;
  os_created : exists s, created (w_os w) s (resolve fmap) ip (enc_header (mapheader mfd)) /\
    created s (w_os w') (resolve fdat) id [] /\ mapfd mfd = fresh_fd (w_os w) /\ datfd mfd = fresh_fd s
}.

Lemma regular_ne s i j c : regular s i c -> os_inodes s !! j = None -> i <> j.
Proof. intros (m & H & _) H' ->. congruence. Qed.

(** Both files are new. *)
Lemma opened_sn_intro w s2 s3 t fpath fmap fdat im ip id old mfd w' :
  file_at (w_os w) (resolve fpath) im old ->
  created (w_os w) s2 (resolve fmap) ip (enc_header (mapheader mfd)) -> created s2 s3 (resolve fdat) id [] ->
  open_on s2 (mapfd mfd) ip O_RDWR false -> open_on s3 (datfd mfd) id O_WRONLY true ->
  header_ok (mapheader mfd) -> header_for old (mapheader mfd) -> lk_idle t ->
  mfd_sn_number mfd = sn_number (w_fs w) -> locklabel mfd <> 0 -> latest_written_block_cache mfd = 0 ->
  mapfd mfd = fresh_fd (w_os w) -> datfd mfd = fresh_fd s2 -> w' = set_fs (set_mflocks t (w_fs w)) (set_os s3 w) ->
  opened_sn w w' mfd fpath fmap fdat im ip id old.
Proof.
  intros Hmain Hc2 Hc3 Hm Hd Hh Hfor Ht Hnum Hlab Hca Hn1 Hn2 ->. pose proof (cr_kept _ _ _ _ _ Hc2 _ _ _ Hmain) as Hmain2.
  split; cbn; try done.
  - exists s3, t. split_and!; [done | done | apply Hc3].
  - by apply (cr_kept _ _ _ _ _ Hc3).
  - apply (cr_kept _ _ _ _ _ Hc3), (cr_file _ _ _ _ _ Hc2).
  - apply (cr_file _ _ _ _ _ Hc3).
  - split; [apply Hc2 |]. destruct (os_inodes (w_os w) !! id) as [n |] eqn:E; [| done].
    apply (cr_inodes _ _ _ _ _ Hc2) in E. rewrite (cr_fresh _ _ _ _ _ Hc3) in E. done.
  - intros q i c Hq. by apply (cr_kept _ _ _ _ _ Hc3), (cr_kept _ _ _ _ _ Hc2).
  - intros q Hq1 Hq2 Hq. by apply (cr_absent _ _ _ _ _ Hc3), (cr_absent _ _ _ _ _ Hc2).
  - intros Hwf Hm1 Hd1. destruct (cr_tree _ _ _ _ _ Hc2 Hwf Hm1) as [Hwf2 Hs2].
    destruct (cr_tree _ _ _ _ _ Hc3 Hwf2 Hd1) as [Hwf3 Hs3]. split; [done |].
    intros q Hq. rewrite Hs3, Hs2; [done | |]; intros <-; tauto.
  - by apply (cr_open _ _ _ _ _ Hc3).
  - split_and!; [eapply regular_ne; [apply Hmain | apply Hc2] | eapply regular_ne; [apply Hmain2 | apply Hc3] |
      eapply regular_ne; [apply (cr_file _ _ _ _ _ Hc2) | apply Hc3]].
  - rewrite Hn1, Hn2. pose proof (fresh_fd_ge (w_os w)). pose proof (fresh_fd_ge s2). lia.
  - by exists s2.
Qed.

(** What is known of a lock that is held: it can be released. *)
Definition releases (lid : Z) (t : list mflock_t) : Prop :=
  forall w, mflocks (w_fs w) = t -> exists t', lk_idle t' /\ unlock_ lid w = Some (0, set_fs (set_mflocks t' (w_fs w)) w).

(** The part of [mfd_open_sn] that runs with the lock held, on a new map file
    with the header [h]. *)
Lemma mfd_open_new_run w path fpath fmap mfd lid t h :
  os_faults (w_os w) = [] -> absent_at (w_os w) (resolve fmap) -> releases lid t ->
  (forall w1 ip, created (w_os w) (w_os w1) (resolve fmap) ip [] -> mfd_new_header fpath (mapheader mfd) w1 = Some ((0, h), w1)) ->
  header_ok h -> S_ISDIR (st_mode (mh_fstat h)) = false ->
  exists s ip t', lk_idle t' /\ created (w_os w) s (resolve fmap) ip (enc_header h) /\
    open_on s (fresh_fd (w_os w)) ip O_RDWR false /\
    forall mfd' w', mfd_open_dat path (set_mapheader h (set_mapfd (fresh_fd (w_os w)) mfd))
        (set_fs (set_mflocks t' (w_fs w)) (set_os s w)) = Some ((0, mfd'), w') ->
      mfd_open_locked unlock_ path fpath fmap lid mfd (set_fs (set_mflocks t (w_fs w)) w) = Some ((0, -1, mfd'), w').
Proof.
  intros Hf Ha Hun Hnew Hh Hmode. set (w1 := set_fs (set_mflocks t (w_fs w)) w).
  destruct (create_new (w_os w) fmap (Z.lor (Z.lor (Z.lor O_RDWR O_CREAT) O_EXCL) O_NOATIME) S_IRWXU)
    as (s1 & ip & E1 & Hc1 & Ho1); [done | done | done | done |].
  pose proof (Hnew (set_os s1 w1) ip Hc1) as Eh. set (fdm := fresh_fd (w_os w)) in *. set (mfd1 := set_mapheader h (set_mapfd fdm mfd)).
  assert (Hfdm : 0 <= fdm) by (pose proof (fresh_fd_ge (w_os w)); unfold fdm; lia).
  set (s2 := set_data ip (enc_header h) s1). pose proof (created_data _ _ _ _ _ (enc_header h) Hc1 : created _ s2 _ _ _) as Hc2.
  assert (Es : mfd_save_mapheader mfd1 (set_os s1 w1) = Some (0, set_os s2 w1)).
  { rewrite (mfd_save_ok (set_os s1 w1) mfd1 ip []); [by rewrite file_write_nil | apply Hc1 | | done | apply Hh].
    apply fd_file_split. split; [done | apply (cr_file _ _ _ _ _ Hc1)]. }
  destruct (Hun (set_os s2 w1) eq_refl) as (t' & Ht' & Eun).
  exists s2, ip, t'. split_and!; [done | done | done |]. intros mfd' w' Ed. unfold mfd_open_locked.
  rewrite (st_bind_run _ _ _ _ _ (sys_run _ w1 _ _ E1)). unfold mfd_open_new.
  unfold mbind at 1, ST_bind at 1. rewrite (st_bind_run _ _ _ _ _ Eh). cbn [Z.eqb negb]. rewrite Hmode.
  rewrite (st_bind_run _ _ _ _ _ Es). cbn [Z.eqb negb]. rewrite (st_bind_run _ _ _ _ _ Eun). cbn [Z.eqb negb].
  by rewrite (st_bind_run _ _ _ _ _ Ed).
Qed.

(** [mfd_open_sn] in a directory that is there, up to the part with the lock held. *)
Lemma mfd_open_sn_run w path fpath fmap mfd0 (P : mfd_t -> world -> Prop) :
  os_faults (w_os w) = [] -> lk_idle (mflocks (w_fs w)) -> sn_is_any (w_fs w) <> 0 ->
  get_map_prefix_path path (sn_lat_dir (w_fs w)) (sn_lat_dir_len (w_fs w)) = Ok fmap ->
  (exists k, last_slash fmap = Some (S k) /\ dir_at (w_os w) (resolve (strncpy fmap (Z.of_nat (S k))))) ->
  (forall mfd lid t, releases lid t -> locklabel mfd <> 0 -> mfd_sn_number mfd = sn_number (w_fs w) ->
     latest_written_block_cache mfd = 0 -> mapheader mfd = mapheader mfd0 ->
     exists w' mfd', mfd_open_locked unlock_ path fpath fmap lid mfd (set_fs (set_mflocks t (w_fs w)) w) = Some ((0, -1, mfd'), w') /\
       P mfd' w') ->
  exists w' mfd, mfd_open_sn lock_ unlock_ mfd0 path (Some fpath) w = Some ((0, mfd), w') /\ P mfd w'.
Proof.
  intros Hf Hidle Hany Hfm (k & Hk & Hdir) Hl. unfold mfd_open_sn. rewrite (st_bind_run get_fs _ w (w_fs w) w eq_refl).
  destruct (Z.eqb_spec (sn_is_any (w_fs w)) 0); [done |]. rewrite Hfm.
  rewrite (st_bind_run _ _ _ _ _ (mkpath_exists w fmap S_IRWXU k Hf Hk Hdir)).
  cbn [Z.ltb Z.compare]. set (mfd1 := set_vpath path _).
  assert (Hlab : locklabel mfd1 <> 0) by (cbn; pose proof (locklabel_pos fpath); lia).
  destruct (lk_lock_ok w (locklabel mfd1) Hidle Hlab) as (lid & t & Hlid & El & Hun).
  rewrite (st_bind_run _ _ _ _ _ El). destruct (Z.ltb_spec lid 0); [lia |].
  destruct (Hl mfd1 lid t Hun Hlab eq_refl eq_refl eq_refl) as (w' & mfd & E & Ho).
  rewrite (st_bind_run _ _ _ _ _ E). cbn. by eauto.
Qed.

(** A file that is there and was not touched since the snapshot. *)
Lemma mfd_open_locked_new w path fpath fmap fdat im old mfd lid t :
  open_ready w path fpath fmap fdat im old -> releases lid t ->
  locklabel mfd <> 0 -> mfd_sn_number mfd = sn_number (w_fs w) -> latest_written_block_cache mfd = 0 ->
  exists w' mfd', mfd_open_locked unlock_ path fpath fmap lid mfd (set_fs (set_mflocks t (w_fs w)) w)
    = Some ((0, -1, mfd'), w') /\ exists ip idt, opened_sn w w' mfd' fpath fmap fdat im ip idt old.
Proof.
  intros [] Hun Hlab Hnum Hca. pose proof or_main0 as (_ & _ & m & Hm & _).
  destruct (header_of_ok _ im old _ ltac:(apply or_main0) Hm (or_stat0 _ Hm)) as (Hh & Hfor & Hmode).
  destruct (mfd_open_new_run w path fpath fmap mfd lid t (header_of im (Inode m old))) as (s2 & ip & t' & Ht' & Hc2 & Ho2 & Hrun); try done.
  { intros w1 ip Hc. eapply mfd_new_header_ok; [apply Hc | by apply (cr_kept _ _ _ _ _ Hc) | by apply (cr_inodes _ _ _ _ _ Hc)]. }
  set (mfd1 := set_mapheader (header_of im (Inode m old)) (set_mapfd (fresh_fd (w_os w)) mfd)) in *.
  destruct (mfd_open_dat_new (set_fs (set_mflocks t' (w_fs w)) (set_os s2 w)) path mfd1 fdat) as (s3 & idt & Ed & Hc3 & Ho3);
    [apply Hc2 | apply Hfor | cbn -[zlen]; lia | done | by apply (cr_absent _ _ _ _ _ Hc2) |].
  eexists _, _. split; [by eapply Hrun |]. exists ip, idt.
  by eapply (opened_sn_intro w s2 s3 t').
Qed.

Lemma mfd_open_sn_new w path fpath fmap fdat im old mfd0 :
  open_ready w path fpath fmap fdat im old ->
  exists w' mfd, mfd_open_sn lock_ unlock_ mfd0 path (Some fpath) w = Some ((0, mfd), w') /\
    exists ip id, opened_sn w w' mfd fpath fmap fdat im ip id old.
Proof.
  intros H. pose proof H as []. apply (mfd_open_sn_run w path fpath fmap mfd0 (fun mfd w' => exists ip id, opened_sn w w' mfd fpath fmap fdat im ip id old)); try done.
  intros mfd lid t Hun Hlab Hnum Hca _. by apply mfd_open_locked_new.
Qed.

(** Flags that FUSE passes to open for writing: no creation or truncation. *)
Definition write_flags (flags : Z) : Prop :=
  (Z.land flags O_ACCMODE = O_WRONLY \/ Z.land flags O_ACCMODE = O_RDWR) /\
  has flags O_CREAT = false /\ has flags O_TRUNC = false.

Lemma small_bits k m : 2 <= k -> m = 2 \/ m = 3 -> Z.testbit m k = false.
Proof. intros Hk Hm. apply Z.bits_above_log2; destruct Hm; subst; cbn; lia. Qed.

(** The bits that opening for reading as well leaves alone. *)
Lemma open_flags_has flags k : 2 <= k -> has (open_flags flags) (2 ^ k) = has flags (2 ^ k).
Proof.
  intros Hk. rewrite !has_bit by lia. unfold open_flags. case_match; [| done].
  rewrite Z.lor_spec, Z.lxor_spec, Z.lor_spec.
  unfold O_ACCMODE, O_RDWR. rewrite (small_bits k 2), (small_bits k 3) by lia. by rewrite orb_false_r, xorb_false_r, orb_false_r.
Qed.

Lemma open_flags_acc flags :
  Z.land flags O_ACCMODE = O_WRONLY \/ Z.land flags O_ACCMODE = O_RDWR -> Z.land (open_flags flags) O_ACCMODE = O_RDWR.
Proof.
  unfold open_flags. intros [H | H]; rewrite H.
  - change (O_WRONLY =? O_WRONLY) with true. cbv iota. apply Z.bits_inj'. intros n Hn.
    rewrite Z.land_spec, Z.lor_spec, Z.lxor_spec, Z.lor_spec.
    destruct (decide (n = 0)) as [-> | ?]; [by destruct (Z.testbit flags 0) |].
    destruct (decide (n = 1)) as [-> | ?]; [by destruct (Z.testbit flags 1) |].
    unfold O_ACCMODE, O_RDWR. rewrite (small_bits n 2), (small_bits n 3) by lia. by rewrite andb_false_r.
  - change (O_RDWR =? O_WRONLY) with false. done.
Qed.

(** The invariant of [SnapshotIsolation], once the main file is open too. *)
Lemma opened_sn_inv w w' mfd fpath fmap fdat im ip id old flags fh :
  opened_sn w w' mfd fpath fmap fdat im ip id old -> zlen old < 2 ^ 61 -> buffer_ok w -> write_flags flags ->
  let mfd' := set_is_main mfd_main (set_mainfd (fresh_fd (w_os w')) mfd) in
  file_inv lock_ unlock_ im ip id old {[ fh := has flags O_APPEND ]} ∅
    (set_mfds (<[fh := mfd']> (w_mfds w')) (set_os (opened (w_os w') im (open_flags flags)) w'))
    old (enc_header (mapheader mfd)) [].
Proof.
  intros [(s & t & -> & Ht & Hf) Hmain Hmap Hdat Hfresh Hkept Habs Htree Hmfd Hdfd Hdist (Hhd & Hex & Hsz) Hnum Hlab Hca [Hn1 Hn2] _] Hold Hbuf (Hacc & _) mfd'.
  cbn [w_os set_os set_fs set_mfds] in *.
  split; try done.
  - apply Hmain.
  - apply Hmap.
  - apply Hdat.
  - by apply cow_fresh.
  - unfold atomic. cbn. by rewrite Hf.
  - intros fh' app [<- <-]%lookup_singleton_Some. exists mfd'. split; [cbn; by rewrite lookup_insert_eq |].
    split; try done; cbn -[opened].
    + apply writer_rdwr. rewrite <-(open_flags_acc flags Hacc). rewrite <-(open_flags_has flags 10 ltac:(lia) : has (open_flags flags) O_APPEND = has flags O_APPEND).
      apply opened_open_on.
    + by apply opened_other.
    + by apply opened_other.
    + intros b Hb. cbn. rewrite Hca. lia.
Qed.

(** What the first opening for writing changes on disk: two new files, and
    nothing else. *)
Record opened_disk (w w' : world) (fmap fdat : string) (ip id : nat) (map : list Z) : Prop := {
  od_map : file_at (w_os w') (resolve fmap) ip map;
  od_dat : file_at (w_os w') (resolve fdat) id [];
  od_fresh : os_inodes (w_os w) !! ip = None /\ os_inodes (w_os w) !! id = None;
  od_kept : forall q i c, file_at (w_os w) q i c -> file_at (w_os w') q i c;
  od_absent : forall q, q <> resolve fmap -> q <> resolve fdat -> absent_at (w_os w) q -> absent_at (w_os w') q;
  od_tree : os_wf (w_os w) -> Forall comp_ok (resolve fmap) -> Forall comp_ok (resolve fdat) ->
    os_wf (w_os w') /\ same_but (fun q => q = resolve fmap \/ q = resolve fdat) (w_os w) (w_os w');
  od_fs : exists t, w_fs w' = set_mflocks t (w_fs w) /\ lk_idle t;
  od_faults : os_faults (w_os w') = []
}.

Lemma opened_sn_disk w w' mfd fpath fmap fdat im ip id old fh m flags :
  opened_sn w w' mfd fpath fmap fdat im ip id old ->
  opened_disk w (set_mfds (<[fh := m]> (w_mfds w')) (set_os (opened (w_os w') im flags) w')) fmap fdat ip id
    (enc_header (mapheader mfd)).
Proof.
  intros [(s & t & -> & Ht & Hf) Hmain Hmap Hdat Hfresh Hkept Habs Htree _ _ _ _ _ _ _ _ _]. cbn [w_os set_os set_fs set_mfds] in *.
  split; cbn -[opened].
  - by apply file_at_unopened.
  - by apply file_at_unopened.
  - done.
  - intros q i c Hq. by apply file_at_unopened, Hkept.
  - intros q H1 H2 Hq. by apply absent_at_fds, Habs.
  - intros Hwf H1 H2. destruct (Htree Hwf H1 H2) as [Hwf' Hs']. split; [by apply os_wf_fds | exact Hs'].
  - by exists t.
  - done.
Qed.

(** Opening a file of the main space for writing. *)
Lemma esfs_open_write_spec w path fpath fmap fdat im old flags :
  open_ready w path fpath fmap fdat im old -> write_flags flags ->
  exists w' fh ip id map, esfs_open lock_ unlock_ path flags w = Some ((0, Some fh), w') /\
    file_inv lock_ unlock_ im ip id old {[ fh := has flags O_APPEND ]} ∅ w' old map [] /\
    opened_disk w w' fmap fdat ip id map.
Proof.
  intros H Hfl. pose proof H as []. pose proof Hfl as (Hacc & Hcr & Htr). unfold esfs_open, if_path_sn.
  rewrite (st_bind_run get_fs _ w (w_fs w) w eq_refl), or_fpath0, or_main_space0. unfold esfs_open_main.
  assert (Em : malloc_mfd w = Some (Some (w_junk_mfd w), w)) by (unfold malloc_mfd; by rewrite malloc_ok).
  rewrite (st_bind_run _ _ _ _ _ Em).
  destruct (Z.eqb_spec (Z.land flags O_ACCMODE) O_RDONLY) as [E | _].
  { rewrite E in Hacc. by destruct Hacc. }
  destruct (mfd_open_sn_new w path fpath fmap fdat im old (w_junk_mfd w) H) as (w1 & mfd & E & ip & id & Ho).
  rewrite (st_bind_run _ _ _ _ _ E). cbn [Z.ltb Z.compare]. unfold finish_open.
  assert (Hf1 : os_faults (w_os w1) = []) by (destruct (os_world _ _ _ _ _ _ _ _ _ _ Ho) as (s & t & -> & _ & ?); done).
  pose proof (open_existing (w_os w1) fpath (open_flags flags) 0 im old Hf1 (os_main _ _ _ _ _ _ _ _ _ _ Ho)) as Eo.
  rewrite (open_flags_has flags 6 ltac:(lia) : has _ O_CREAT = has flags O_CREAT), Hcr in Eo.
  rewrite (open_flags_has flags 9 ltac:(lia) : has _ O_TRUNC = has flags O_TRUNC), Htr in Eo.
  rewrite (st_bind_run _ _ _ _ _ (sys_run _ _ _ _ (Eo eq_refl))).
  eexists _, _, ip, id, _. split; [done |]. split; [| apply (opened_sn_disk w w1 mfd fpath fmap fdat im ip id old); done].
  apply (opened_sn_inv w w1 mfd fpath fmap fdat im ip id old flags); [done | lia | done | done].
Qed.
End Open.
