(* ===== verification/Descriptors.v ===== *)
(** Which descriptors a handle owns.

    [owned fds s0 s] accounts for the descriptor table of [s] against the one
    of [s0]: the descriptors of [fds] have been opened since, each once, and
    the others are as they were.  Closing the steps of a snapshot handle gives
    the table of [s0] back. *)

From S2P Require Import Prelude Posix PosixSpec PosixPath Types Util Mfd SnSteps.

Record owned (fds : list Z) (s0 s : os) : Prop := {
  ow_nodup : NoDup fds;
  ow_mine : forall fd, fd ∈ fds -> 0 <= fd /\ os_fds s0 !! fd = None /\ is_Some (os_fds s !! fd);
  ow_rest : forall fd, fd ∉ fds -> of_key <$> os_fds s !! fd = of_key <$> os_fds s0 !! fd
}.

#[global] Instance owned_perm : Proper ((≡ₚ) ==> (=) ==> (=) ==> iff) owned.
Proof.
  intros l l' Hl s0 ? <- s ? <-. assert (Hin : forall fd, fd ∈ l <-> fd ∈ l') by (intros fd; by rewrite Hl).
  split; intros []; split; try (by rewrite <-Hl) || (by rewrite Hl); intros fd Hfd.
  - apply ow_mine0. by rewrite Hin.
  - apply ow_rest0. by rewrite Hin.
  - apply ow_mine0. by rewrite <-Hin.
  - apply ow_rest0. by rewrite <-Hin.
Qed.

Lemma owned_nil s : owned [] s s.
Proof. split; [constructor | | done]. intros fd H. by apply not_elem_of_nil in H. Qed.

(** Opening, reading and closing. *)
Lemma owned_open fds s0 s ino flags : owned fds s0 s -> owned (fresh_fd s :: fds) s0 (opened s ino flags).
Proof.
  intros []. pose proof (fresh_fd_free s) as Hfr. pose proof (fresh_fd_ge s) as Hge.
  assert (Hni : fresh_fd s ∉ fds) by (intros Hin; destruct (ow_mine0 _ Hin) as (_ & _ & [? ?]); congruence).
  split; [by constructor | |].
  - intros fd [-> | Hin]%elem_of_cons; cbn.
    + rewrite lookup_insert_eq. split_and!; [lia | | by eexists]. pose proof (ow_rest0 _ Hni) as E. rewrite Hfr in E.
      by destruct (os_fds s0 !! fresh_fd s).
    + rewrite lookup_insert_ne by (by intros <-). by apply ow_mine0.
  - intros fd [Hne Hin]%not_elem_of_cons. cbn. rewrite lookup_insert_ne by done. by apply ow_rest0.
Qed.

Lemma owned_frame touch fds s0 s s' : frame touch s s' -> owned fds s0 s -> owned fds s0 s'.
Proof.
  intros Hf []. split; [done | |].
  - intros fd Hin. destruct (ow_mine0 _ Hin) as (? & ? & [o Ho]). split_and!; [done | done |].
    pose proof (fr_fds _ _ _ Hf fd) as E. rewrite Ho in E. by destruct (os_fds s' !! fd).
  - intros fd Hin. rewrite (fr_fds _ _ _ Hf). by apply ow_rest0.
Qed.

Lemma owned_delete fd fds s0 s : owned (fd :: fds) s0 s -> owned fds s0 (set_fds (delete fd (os_fds s)) s).
Proof.
  intros []. apply NoDup_cons in ow_nodup0 as [Hni Hnd]. split; [done | |].
  - intros fd' Hin. cbn. rewrite lookup_delete_ne by (by intros <-). apply ow_mine0. by apply list_elem_of_further.
  - intros fd' Hin. cbn. destruct (decide (fd' = fd)) as [-> | Hne].
    + rewrite lookup_delete_eq. destruct (ow_mine0 fd (list_elem_of_here _ _)) as (_ & -> & _). done.
    + rewrite lookup_delete_ne by done. apply ow_rest0. by apply not_elem_of_cons.
Qed.

(** ** Closing *)

(** The descriptors among some numbers: negative ones stand for none. *)
Definition real_fds (l : list Z) : list Z := filter (fun fd => 0 <= fd) l.

Definition step_fds (step : sn_steps_t) : list Z :=
  real_fds [step_mapfd step; step_datfd step; match step_dirfd step with Some fd => fd | None => -1 end].

Lemma step_fds_two p a b : 0 <= a -> 0 <= b -> step_fds (SnStep p a b None) = [a; b].
Proof. intros Ha Hb. unfold step_fds, real_fds. cbn [step_mapfd step_datfd step_dirfd]. rewrite !filter_cons.
  by do 2 rewrite decide_True by done. Qed.

Lemma step_fds_one p a b : a < 0 -> 0 <= b -> step_fds (SnStep p a b None) = [b].
Proof.
  intros Ha Hb. unfold step_fds, real_fds. cbn [step_mapfd step_datfd step_dirfd].
  rewrite !filter_cons. rewrite (decide_False (P := 0 <= a)) by lia. by rewrite decide_True.
Qed.

Lemma step_fds_map p a b : 0 <= a -> b < 0 -> step_fds (SnStep p a b None) = [a].
Proof.
  intros Ha Hb. unfold step_fds, real_fds. cbn [step_mapfd step_datfd step_dirfd].
  rewrite !filter_cons. rewrite decide_True by done. by rewrite (decide_False (P := 0 <= b)) by lia.
Qed.

Lemma step_fds_none p a b : a < 0 -> b < 0 -> step_fds (SnStep p a b None) = [].
Proof.
  intros Ha Hb. unfold step_fds, real_fds. cbn [step_mapfd step_datfd step_dirfd].
  rewrite !filter_cons. by rewrite !decide_False by lia.
Qed.

Lemma close_if_open_ok w fd e :
  os_faults (w_os w) = [] -> (0 <= fd -> is_Some (os_fds (w_os w) !! fd)) ->
  close_if_open fd e w = Some (e, set_os (set_fds (if 0 <=? fd then delete fd (os_fds (w_os w)) else os_fds (w_os w)) (w_os w)) w).
Proof.
  intros Hf Ho. unfold close_if_open. destruct (Z.leb_spec 0 fd).
  - destruct (Ho ltac:(lia)) as [o Hfd]. by rewrite (st_bind_run _ _ _ _ _ (sys_run _ _ _ _ (close_ok (w_os w) fd o Hf Hfd))).
  - by destruct w as [[] ? ? ? ? ?].
Qed.

Lemma close_owned w fd e L s0 :
  os_faults (w_os w) = [] -> owned (real_fds [fd] ++ L) s0 (w_os w) ->
  exists x, close_if_open fd e w = Some (e, set_os (set_fds x (w_os w)) w) /\ owned L s0 (set_fds x (w_os w)).
Proof.
  intros Hf Ho. unfold real_fds in Ho. rewrite filter_cons in Ho. eexists. split.
  - apply close_if_open_ok; [done |]. intros Hge. rewrite decide_True in Ho by done. apply Ho, list_elem_of_here.
  - destruct (Z.leb_spec 0 fd).
    + rewrite decide_True in Ho by done. by apply owned_delete.
    + rewrite decide_False in Ho by lia. destruct (w_os w). exact Ho.
Qed.

Lemma real_fds_cons a b l : real_fds (a :: b :: l) = real_fds [a] ++ real_fds (b :: l).
Proof. unfold real_fds. rewrite !(filter_cons _ a). by case_decide. Qed.

Lemma destroy_step_owned w step L s0 :
  os_faults (w_os w) = [] -> owned (step_fds step ++ L) s0 (w_os w) ->
  exists x, destroy_step step 0 w = Some (0, set_os (set_fds x (w_os w)) w) /\ owned L s0 (set_fds x (w_os w)).
Proof.
  intros Hf Ho. unfold step_fds in Ho. rewrite 2!real_fds_cons, <-!app_assoc in Ho. unfold destroy_step.
  destruct (close_owned w (step_mapfd step) (- 0) _ s0 Hf Ho) as (x1 & E1 & H1). rewrite (st_bind_run _ _ _ _ _ E1).
  destruct (close_owned (set_os (set_fds x1 (w_os w)) w) (step_datfd step) (- 0) _ s0 Hf H1) as (x2 & E2 & H2). rewrite (st_bind_run _ _ _ _ _ E2).
  destruct (close_owned (set_os (set_fds x2 (w_os w)) w) (match step_dirfd step with Some fd => fd | None => -1 end) (- 0) _ s0 Hf H2)
    as (x3 & E3 & H3). rewrite (st_bind_run _ _ _ _ _ E3). by exists x3.
Qed.

Lemma destroy_steps_owned mfd L s0 k : forall w,
  os_faults (w_os w) = [] -> (k <= length (sn_steps mfd))%nat ->
  owned (concat (step_fds <$> take k (sn_steps mfd)) ++ L) s0 (w_os w) ->
  exists x, destroy_steps_loop mfd k 0 w = Some (0, set_os (set_fds x (w_os w)) w) /\ owned L s0 (set_fds x (w_os w)).
Proof.
  induction k as [| k IH]; intros w Hf Hk Ho.
  - exists (os_fds (w_os w)). destruct w as [[] ? ? ? ? ?]. done.
  - destruct (lookup_lt_is_Some_2 (sn_steps mfd) k Hk) as [step Hs]. rewrite (take_S_r _ _ _ Hs), fmap_app, concat_app in Ho.
    cbn [fmap list_fmap concat] in Ho. rewrite app_nil_r in Ho.
    rewrite (Permutation_app_comm (concat _) (step_fds step)), <-app_assoc in Ho.
    destruct (destroy_step_owned w step _ s0 Hf Ho) as (x & E & H1).
    destruct (IH (set_os (set_fds x (w_os w)) w) Hf ltac:(lia) H1) as (x' & E' & H').
    exists x'. cbn [destroy_steps_loop]. by rewrite Hs, (st_bind_run _ _ _ _ _ E).
Qed.

(** Every descriptor of the steps. *)
Definition steps_fds (mfd : mfd_t) : list Z := concat (step_fds <$> sn_steps mfd).

Lemma mfd_destroy_owned w mfd s0 :
  os_faults (w_os w) = [] -> 0 <= sn_first_file mfd -> sn_current mfd + 1 = zlen (sn_steps mfd) ->
  owned (steps_fds mfd) s0 (w_os w) ->
  exists x, mfd_destroy_sn_steps mfd w = Some (0, set_os (set_fds x (w_os w)) w) /\ owned [] s0 (set_fds x (w_os w)).
Proof.
  intros Hf H1 Hc Ho. unfold mfd_destroy_sn_steps. destruct (Z.leb_spec 0 (sn_first_file mfd)); [| lia].
  rewrite Hc. unfold zlen. rewrite Nat2Z.id. apply destroy_steps_owned; [done | done |].
  rewrite firstn_all, app_nil_r. exact Ho.
Qed.
