(* ===== verification/SnStepsTheorems.v ===== *)
(** Opening a file inside a snapshot: [mfd_get_sn_steps] turns the files that
    the snapshots have on disk into a handle from which [b_read] reads the
    contents of the file at that snapshot. *)

From S2P Require Import Prelude Posix PosixSpec PosixPath Types Util UtilTheorems Mflock Snapshot.
From S2P Require Import SnapshotTheorems Block CopyOnWrite BlockWrite BlockRead Mfd SnSteps FuseFd.
From S2P Require Import SnapshotIsolation SmallSystem FusePath MfdTheorems Descriptors.

(** ** What is on disk *)

(** What one snapshot has on disk for a file at the real path [path]: no map
    file, and the file was the same at the next snapshot; or a map file and a
    dat file in the copy-on-write invariant; or a map file that says that
    there was no such file. *)
Definition step_disk (s : os) (path : string) (v v' : option (list Z)) : Prop :=
  exists fmap fdat, get_map_path path = Ok fmap /\ get_dat_path path = Ok fdat /\
    ((enoent_at s (resolve fmap) /\ v = v') \/
     (exists c ip id map dat, v = Some c /\ file_at s (resolve fmap) ip map /\ file_at s (resolve fdat) id dat /\
        cow c (contents v') map dat) \/
     (v = None /\ exists ip map, file_at s (resolve fmap) ip map /\ gone_map map /\ enoent_at s (resolve fdat))).

(** The file in the main space. *)
Definition main_disk (s : os) (path : string) (v : option (list Z)) : Prop :=
  match v with Some c => exists im, file_at s (resolve path) im c | None => enoent_at s (resolve path) end.

(** The main file and the files of the snapshots at [roots], the main space
    first; [views] is what the file is at each of them, if it exists. *)
Record disk_ok (s : os) (inpath : string) (roots : list string) (views : list (option (list Z))) : Prop := {
  dk_len : length views = length roots;
  dk_main : forall r v, roots !! 0%nat = Some r -> views !! 0%nat = Some v ->
    main_disk s (r +:+ inpath) v;
  dk_step : forall k r v v', roots !! S k = Some r -> views !! S k = Some v -> views !! k = Some v' ->
    step_disk s (r +:+ inpath) v v';
  dk_fit : forall k r, roots !! k = Some r -> strlen inpath + strlen r < PATH_MAX
}.

(** ** Opening more descriptors *)

Record more_fds (s s' : os) : Prop := {
  mf_names : os_names s' = os_names s;
  mf_inodes : os_inodes s' = os_inodes s;
  mf_faults : os_faults s' = os_faults s;
  mf_fds : forall fd o, os_fds s !! fd = Some o -> os_fds s' !! fd = Some o
}.

#[global] Instance more_fds_refl : Reflexive more_fds.
Proof. by split. Qed.

#[global] Instance more_fds_trans : Transitive more_fds.
Proof. intros s1 s2 s3 [] []. split; [congruence.. | auto]. Qed.

Lemma more_fds_opened s ino flags : more_fds s (opened s ino flags).
Proof.
  split; try done. intros fd o H. assert (fresh_fd s <> fd) by (intros <-; by rewrite fresh_fd_free in H).
  unfold opened. cbn [os_fds set_fds]. by rewrite lookup_insert_ne.
Qed.

Lemma more_fds_eq s s' : more_fds s s' -> s' = set_fds (os_fds s') s.
Proof. destruct s, s'. intros []. cbn in *. by subst. Qed.

Lemma more_fds_file_at s s' p ino c : more_fds s s' -> file_at s p ino c -> file_at s' p ino c.
Proof. intros H Hat. rewrite (more_fds_eq _ _ H). by apply file_at_fds. Qed.

Lemma more_fds_absent s s' p : more_fds s s' -> absent_at s p -> absent_at s' p.
Proof. intros H Hat. rewrite (more_fds_eq _ _ H). by apply absent_at_fds. Qed.

Lemma more_fds_enoent s s' p : more_fds s s' -> enoent_at s p -> enoent_at s' p.
Proof. intros H (q & Hq & Hat). exists q. split; [done | by eapply more_fds_absent]. Qed.

Lemma more_fds_fd_file s s' fd ino c acc app : more_fds s s' -> fd_file s fd ino c acc app -> fd_file s' fd ino c acc app.
Proof. intros [] (pos & m & H & Hi & Hd). exists pos, m. rewrite mf_inodes0. auto. Qed.

Lemma more_fds_step s s' step v v' : more_fds s s' -> step_ok quiet s step v v' -> step_ok quiet s' step v v'.
Proof.
  intros H [? | [? | (? & ip & map & acc & dat & Hm & ? & ? & ? & Hd)]]; [by left | by right; left | right; right].
  split; [done |]. exists ip, map, acc, dat. split_and!; [by eapply more_fds_fd_file | done | done | done |].
  destruct Hd as [-> | (id & acc' & app & Hd & ? & ?)]; [by left | right].
  exists id, acc', app. split_and!; [by eapply more_fds_fd_file | done | done].
Qed.

Lemma more_fds_step_disk s s' path v v' : more_fds s s' -> step_disk s path v v' -> step_disk s' path v v'.
Proof.
  intros H (fmap & fdat & ? & ? & Hc). exists fmap, fdat. split_and!; [done | done |].
  destruct Hc as [[? ?] | [(c & ip & id & map & dat & ? & ? & ? & ?) | (? & ip & map & ? & ? & ?)]].
  - left. split; [by eapply more_fds_enoent | done].
  - right; left. exists c, ip, id, map, dat. split_and!; try done; by eapply more_fds_file_at.
  - right; right. split; [done |]. exists ip, map. split_and!; [by eapply more_fds_file_at | done | by eapply more_fds_enoent].
Qed.

Lemma more_fds_disk s s' inpath roots views : more_fds s s' -> disk_ok s inpath roots views -> disk_ok s' inpath roots views.
Proof.
  intros H []. split; try done.
  - intros r v Hr Hv. pose proof (dk_main0 r v Hr Hv) as Hm. destruct v; cbn in *; [| by eapply more_fds_enoent].
    destruct Hm as [im ?]. exists im. by eapply more_fds_file_at.
  - intros k r v v' Hr Hv Hv'. eapply more_fds_step_disk; [done | by eapply dk_step0].
Qed.

(** Opening an existing file for reading. *)
Lemma open_rdonly w name ino c :
  os_faults (w_os w) = [] -> file_at (w_os w) (resolve name) ino c ->
  exists s', sys (sys_open name O_RDONLY 0) w = Some (Ok (fresh_fd (w_os w)), set_os s' w) /\
    more_fds (w_os w) s' /\ fd_file s' (fresh_fd (w_os w)) ino c O_RDONLY false /\
    (forall L s0, owned L s0 (w_os w) -> owned (fresh_fd (w_os w) :: L) s0 s').
Proof.
  intros Hf Hat. exists (opened (w_os w) ino O_RDONLY). split_and!; [| | | intros L s0; apply owned_open].
  - apply sys_run. exact (open_existing (w_os w) name O_RDONLY 0 ino c Hf Hat eq_refl).
  - apply more_fds_opened.
  - apply fd_file_split. split; [apply opened_open_on | apply Hat].
Qed.

(** Loading a good header. *)
Lemma load_header_ok w h0 fd ip map h :
  os_faults (w_os w) = [] -> fd_file (w_os w) fd ip map O_RDONLY false ->
  file_read map MAPHEADER_S 0 = enc_header h -> header_ok h ->
  mfd_load_mapheader h0 fd w = Some ((0, h), w).
Proof.
  intros Hf Hfd Hr (Hwf & Hv & Hs). unfold mfd_load_mapheader.
  rewrite (st_bind_run _ _ _ _ _ (sys_run _ w _ _ (pread_ok (w_os w) fd ip map O_RDONLY false MAPHEADER_S 0 Hf Hfd ltac:(done) ltac:(done)))).
  rewrite Hr, dec_enc_header, zlen_enc_header, Hv, Hs by (done || by rewrite Hs). by rewrite set_os_id.
Qed.

(** ** The loop *)

Section Steps.
Context (inpath : string) (roots : list string) (views : list (option (list Z))) (target : list Z) (num : Z) (s0 : os).

(** Steps [k] and up are done, the ones below are as [sn_get_paths_to] left them. *)
Record steps_inv (s : os) (k : nat) (st : steps_st) : Prop := {
  si_len : length (sn_steps (ss_mfd st)) = length roots;
  si_todo : forall j, (j < k)%nat -> sn_steps (ss_mfd st) !! j = new_step <$> roots !! j;
  si_done : forall j step v v', (k <= S j)%nat -> sn_steps (ss_mfd st) !! S j = Some step ->
    views !! S j = Some v -> views !! j = Some v' -> step_ok quiet s step (contents v) (contents v');
  si_first :
    (sn_first_file (ss_mfd st) = -1 /\ views !! (k - 1)%nat = Some (Some target)) \/
    (0 <= sn_first_file (ss_mfd st) /\ views !! Z.to_nat (sn_first_file (ss_mfd st)) = Some (Some target) /\
       st_size (mh_fstat (mapheader (ss_mfd st))) = zlen target);
  si_err : ss_err st = 0;
  si_number : mfd_sn_number (ss_mfd st) = num;
  si_current : sn_current (ss_mfd st) = zlen roots - 1;
  si_fds : owned (concat (step_fds <$> drop k (sn_steps (ss_mfd st)))) s0 s
}.

Lemma steps_known_file path w : steps_known SN_STEPS_F_FILE path w = Some (Ok KUnknown, w).
Proof. done. Qed.

(** Changing step [sni] of the handle. *)
Lemma upd_step_lookup sni f st j :
  sn_steps (ss_mfd (upd_step sni f st)) !! j =
    if decide (sni = j) then f <$> sn_steps (ss_mfd st) !! j else sn_steps (ss_mfd st) !! j.
Proof.
  cbn. case_decide; [subst; apply list_lookup_alter_eq | by apply list_lookup_alter_ne].
Qed.

(** A finished step moves the invariant down. *)
Lemma steps_inv_next s s' k st st' step' :
  steps_inv s (S (S k)) st -> more_fds s s' ->
  (forall j, sn_steps (ss_mfd st') !! j =
     if decide (S k = j) then Some step' else sn_steps (ss_mfd st) !! j) ->
  (forall v v', views !! S k = Some v -> views !! k = Some v' -> step_ok quiet s' step' (contents v) (contents v')) ->
  length (sn_steps (ss_mfd st')) = length roots ->
  (sn_first_file (ss_mfd st') = -1 /\ views !! k = Some (Some target)) \/
  (0 <= sn_first_file (ss_mfd st') /\ views !! Z.to_nat (sn_first_file (ss_mfd st')) = Some (Some target) /\
     st_size (mh_fstat (mapheader (ss_mfd st'))) = zlen target) ->
  ss_err st' = 0 -> mfd_sn_number (ss_mfd st') = num -> sn_current (ss_mfd st') = sn_current (ss_mfd st) ->
  (forall L, owned L s0 s -> owned (step_fds step' ++ L) s0 s') -> steps_inv s' (S k) st'.
Proof.
  intros [] Hm Hl Hs Hlen Hf He Hnum Hcur Hown. split; try done; [| | | by rewrite Hcur |].
  - intros j Hj. rewrite Hl, decide_False by lia. apply si_todo0. lia.
  - intros j step v v' Hj Hst Hv Hv'. rewrite Hl in Hst. case_decide as E.
    + injection E as <-. simplify_eq. by apply Hs.
    + eapply more_fds_step; [done |]. apply (si_done0 j); (done || lia).
  - replace (S k - 1)%nat with k by lia. done.
  - rewrite (drop_S _ step') by (by rewrite Hl, decide_True). cbn [fmap list_fmap concat].
    assert (Ed : drop (S (S k)) (sn_steps (ss_mfd st')) = drop (S (S k)) (sn_steps (ss_mfd st))); [| rewrite Ed; by apply Hown].
    apply list_eq. intros j. by rewrite !lookup_drop, Hl, decide_False by lia.
Qed.

(** The path of the step is completed. *)
Lemma steps_body_path s k st r w :
  steps_inv s (S k) st -> roots !! k = Some r -> strlen inpath + strlen r < PATH_MAX ->
  steps_body inpath SN_STEPS_F_FILE k st w =
    steps_file SN_STEPS_F_FILE k (r +:+ inpath) (upd_step k (with_path (r +:+ inpath)) st) w.
Proof.
  intros [] Hr Hfit. unfold steps_body. rewrite (si_todo0 k) by lia. rewrite Hr. cbn [fmap option_fmap option_map].
  change (step_path (new_step r)) with r. destruct (Z.leb_spec PATH_MAX (strlen inpath + strlen r)); [lia |]. done.
Qed.

(** A snapshot on the way that has no map file. *)
Lemma steps_body_absent w k st r v fmap :
  os_faults (w_os w) = [] -> steps_inv (w_os w) (S (S k)) st ->
  roots !! S k = Some r -> strlen inpath + strlen r < PATH_MAX -> views !! S k = Some v -> views !! k = Some v ->
  get_map_path (r +:+ inpath) = Ok fmap -> enoent_at (w_os w) (resolve fmap) ->
  exists st', steps_body inpath SN_STEPS_F_FILE (S k) st w = Some ((CContinue, st'), w) /\ steps_inv (w_os w) (S k) st'.
Proof.
  intros Hf Hi Hr Hfit Hv Hv' Em Hab. rewrite (steps_body_path _ _ _ r _ Hi Hr Hfit).
  set (path := r +:+ inpath) in *. set (st1 := upd_step (S k) (with_path path) st).
  pose proof (si_todo _ _ _ Hi (S k) ltac:(lia)) as Hst. rewrite Hr in Hst. cbn in Hst.
  unfold steps_file, steps_file_sn. destruct (Z.ltb_spec 0 (Z.of_nat (S k))); [| lia]. rewrite Em.
  rewrite (st_bind_run _ _ _ (Some CContinue, upd_step (S k) unused_step st1) (set_os (w_os w) w)).
  2: { by rewrite (st_bind_run _ _ _ _ _ (sys_run _ _ _ _ (open_enoent (w_os w) fmap O_RDONLY 0 Hf Hab eq_refl))). }
  rewrite set_os_id. eexists. split; [done |].
  eapply (steps_inv_next _ _ _ _ _ (unused_step (with_path path (new_step r)))); [done | done | | | | | | apply (si_number _ _ _ Hi) | done | done].
  - intros j. unfold st1. rewrite !upd_step_lookup. case_decide; [subst; by rewrite Hst | done].
  - intros ? ? ? ?. simplify_eq. by right; left.
  - cbn. rewrite !length_alter. apply (si_len _ _ _ Hi).
  - destruct (si_first _ _ _ Hi) as [[? E] | ?]; [left | by right]. split; [done |].
    cbn in E. congruence.
  - apply (si_err _ _ _ Hi).
Qed.

(** Recording the first file found. *)
Lemma steps_first_mapped s s2 k st st3 r step v v' path w :
  steps_inv s (S (S k)) st -> roots !! S k = Some r -> views !! S k = Some (Some v) -> views !! k = Some v' ->
  more_fds s s2 -> step_ok quiet s2 step v (contents v') ->
  (forall j, sn_steps (ss_mfd st3) !! j = if decide (S k = j) then Some step else sn_steps (ss_mfd st) !! j) ->
  length (sn_steps (ss_mfd st3)) = length roots ->
  sn_first_file (ss_mfd st3) = sn_first_file (ss_mfd st) -> mapheader (ss_mfd st3) = mapheader (ss_mfd st) ->
  ss_err st3 = ss_err st -> mfd_sn_number (ss_mfd st3) = mfd_sn_number (ss_mfd st) -> sn_current (ss_mfd st3) = sn_current (ss_mfd st) ->
  (forall L, owned L s0 s -> owned (step_fds step ++ L) s0 s2) ->
  st_size (mh_fstat (ss_head st3)) = zlen v ->
  exists st', steps_file_first SN_STEPS_F_FILE (S k) path st3 w = Some ((CEnd, st'), w) /\ steps_inv s2 (S k) st'.
Proof.
  intros Hi Hr Hv Hv' Hfds Hok Hlk Hl3 Eff Emh Eer Enum Ecur Hown Hsz. unfold steps_file_first. rewrite Eff.
  destruct (Z.eqb_spec (sn_first_file (ss_mfd st)) (-1)) as [Hfirst | Hfirst].
  - destruct (Z.ltb_spec 0 (Z.of_nat (S k))); [| lia]. eexists. split; [done |].
    eapply (steps_inv_next s s2 k st); [done | done | exact Hlk | by intros; simplify_eq | done | | | | done | exact Hown];
      [| by rewrite <-(si_err _ _ _ Hi) | by rewrite <-(si_number _ _ _ Hi)].
    right. cbn [ss_set_mfd ss_mfd set_mapheader set_sn_first_file sn_first_file mapheader].
    destruct (si_first _ _ _ Hi) as [[_ E] | [? _]]; [| lia]. cbn in E.
    split; [lia |]. rewrite Nat2Z.id, E. split; [done |]. cbn. congruence.
  - eexists. split; [done |].
    eapply (steps_inv_next s s2 k st); [done | done | exact Hlk | by intros; simplify_eq | done | | | | done | exact Hown];
      [| by rewrite <-(si_err _ _ _ Hi) | by rewrite <-(si_number _ _ _ Hi)].
    right. rewrite Eff, Emh. destruct (si_first _ _ _ Hi) as [[? _] | ?]; [lia | done].
Qed.

(** A snapshot on the way that has the files. *)
Lemma steps_body_mapped w k st r v v' fmap fdat ip id map dat :
  os_faults (w_os w) = [] -> steps_inv (w_os w) (S (S k)) st ->
  roots !! S k = Some r -> strlen inpath + strlen r < PATH_MAX -> views !! S k = Some (Some v) -> views !! k = Some v' ->
  get_map_path (r +:+ inpath) = Ok fmap -> get_dat_path (r +:+ inpath) = Ok fdat ->
  file_at (w_os w) (resolve fmap) ip map -> file_at (w_os w) (resolve fdat) id dat -> cow v (contents v') map dat ->
  exists st' s', steps_body inpath SN_STEPS_F_FILE (S k) st w = Some ((CEnd, st'), set_os s' w) /\
    more_fds (w_os w) s' /\ steps_inv s' (S k) st'.
Proof.
  intros Hf Hi Hr Hfit Hv Hv' Em Ed Hmap Hdat Hcow. rewrite (steps_body_path _ _ _ r _ Hi Hr Hfit).
  set (path := r +:+ inpath) in *. set (st1 := upd_step (S k) (with_path path) st).
  pose proof (si_todo _ _ _ Hi (S k) ltac:(lia)) as Hst. rewrite Hr in Hst. cbn in Hst.
  destruct (cow_header _ _ _ _ Hcow) as (h & [Hrd Hh] & _ & Hsz).
  destruct (open_rdonly w fmap ip map Hf Hmap) as (s1 & E1 & Hm1 & Hfd1 & Hw1).
  assert (Hf1 : os_faults s1 = []) by by rewrite (mf_faults _ _ Hm1).
  set (fdm := fresh_fd (w_os w)) in *. set (st2 := upd_step (S k) (with_mapfd fdm) st1).
  destruct (open_rdonly (set_os s1 w) fdat id dat Hf1 (more_fds_file_at _ _ _ _ _ Hm1 Hdat)) as (s2 & E2 & Hm2 & Hfd2 & Hw2).
  set (fdd := fresh_fd (w_os (set_os s1 w))) in *. set (st3 := upd_step (S k) (with_datfd fdd) (ss_set_head h st2)).
  assert (Ef : steps_file_sn SN_STEPS_F_FILE (S k) path st1 w = Some ((None, st3), set_os s2 w)).
  { unfold steps_file_sn. rewrite Em, (st_bind_run _ _ _ _ _ E1).
    rewrite (st_bind_run _ _ _ _ _ (load_header_ok (set_os s1 w) (ss_head st2) fdm ip map h Hf1 Hfd1 Hrd Hh)).
    cbn [Z.eqb negb]. change (has SN_STEPS_F_FILE SN_STEPS_F_SKIPOPENDAT) with false. cbv iota. rewrite Ed.
    unfold steps_open_data. by rewrite (st_bind_run _ _ _ _ _ E2). }
  unfold steps_file. destruct (Z.ltb_spec 0 (Z.of_nat (S k))); [| lia]. rewrite (st_bind_run _ _ _ _ _ Ef). cbv iota.
  set (step := with_datfd fdd (with_mapfd fdm (with_path path (new_step r)))).
  assert (Hok : step_ok quiet s2 step v (contents v')).
  { right; right. cbn. split; [pose proof (fresh_fd_ge (w_os w)); unfold fdm; lia |].
    exists ip, map, O_RDONLY, dat. split_and!; [by eapply more_fds_fd_file | done | by intros [] | done |].
    right. exists id, O_RDONLY, false. split_and!; [done | done | by intros []]. }
  assert (Hlk : forall j, sn_steps (ss_mfd st3) !! j = if decide (S k = j) then Some step else sn_steps (ss_mfd st) !! j).
  { intros j. unfold st3, st2, st1. rewrite upd_step_lookup. cbn [ss_set_head ss_mfd]. rewrite !upd_step_lookup.
    case_decide; [subst; by rewrite Hst | done]. }
  assert (Hfds : more_fds (w_os w) s2) by (by etransitivity).
  destruct (steps_first_mapped (w_os w) s2 k st st3 r step v v' path) with (w := set_os s2 w) as (st' & E3 & Hi3); try done.
  { cbn. rewrite !length_alter. apply (si_len _ _ _ Hi). }
  { intros L HL. assert (Es : step_fds step = [fdm; fdd]).
    { apply (step_fds_two path); unfold fdm, fdd; [pose proof (fresh_fd_ge (w_os w)) | pose proof (fresh_fd_ge s1)]; cbn in *; lia. }
    rewrite Es. change ([fdm; fdd] ++ L) with (fdm :: fdd :: L). rewrite (perm_swap fdd fdm L). by apply Hw2, Hw1. }
  rewrite E3. by exists st', s2.
Qed.

(** A snapshot on the way at which the file did not exist. *)
Lemma steps_body_gone w k st r fmap fdat ip map :
  os_faults (w_os w) = [] -> steps_inv (w_os w) (S (S k)) st ->
  roots !! S k = Some r -> strlen inpath + strlen r < PATH_MAX -> views !! S k = Some None ->
  get_map_path (r +:+ inpath) = Ok fmap -> get_dat_path (r +:+ inpath) = Ok fdat ->
  file_at (w_os w) (resolve fmap) ip map -> gone_map map -> enoent_at (w_os w) (resolve fdat) ->
  exists st' s', steps_body inpath SN_STEPS_F_FILE (S k) st w = Some ((CContinue, st'), set_os s' w) /\
    more_fds (w_os w) s' /\ steps_inv s' (S k) st'.
Proof.
  intros Hf Hi Hr Hfit Hv Em Ed Hmap (h & [Hrd Hh] & _) Hab. rewrite (steps_body_path _ _ _ r _ Hi Hr Hfit).
  set (path := r +:+ inpath) in *. set (st1 := upd_step (S k) (with_path path) st).
  pose proof (si_todo _ _ _ Hi (S k) ltac:(lia)) as Hst. rewrite Hr in Hst. cbn in Hst.
  destruct (open_rdonly w fmap ip map Hf Hmap) as (s1 & E1 & Hm1 & Hfd1 & Hw1).
  assert (Hf1 : os_faults s1 = []) by by rewrite (mf_faults _ _ Hm1).
  set (fdm := fresh_fd (w_os w)) in *. set (st2 := upd_step (S k) (with_mapfd fdm) st1).
  set (st3 := upd_step (S k) (with_datfd SN_STEPS_UNUSED) (ss_set_head h st2)).
  assert (Ef : steps_file_sn SN_STEPS_F_FILE (S k) path st1 w = Some ((Some CContinue, st3), set_os s1 w)).
  { unfold steps_file_sn. rewrite Em, (st_bind_run _ _ _ _ _ E1).
    rewrite (st_bind_run _ _ _ _ _ (load_header_ok (set_os s1 w) (ss_head st2) fdm ip map h Hf1 Hfd1 Hrd Hh)).
    cbn [Z.eqb negb]. change (has SN_STEPS_F_FILE SN_STEPS_F_SKIPOPENDAT) with false. cbv iota. rewrite Ed.
    unfold steps_open_data.
    by rewrite (st_bind_run _ _ _ _ _ (sys_run _ (set_os s1 w) _ _ (open_enoent s1 fdat O_RDONLY 0 Hf1 (more_fds_enoent _ _ _ Hm1 Hab) eq_refl))). }
  unfold steps_file. destruct (Z.ltb_spec 0 (Z.of_nat (S k))); [| lia]. rewrite (st_bind_run _ _ _ _ _ Ef). cbv iota.
  exists st3, s1. split_and!; [done | done |].
  set (step := SnStep path fdm SN_STEPS_UNUSED None).
  eapply (steps_inv_next _ _ _ _ _ step); [done | done | | | | | apply (si_err _ _ _ Hi) | apply (si_number _ _ _ Hi) | done |].
  - intros j. unfold st3, st2, st1. rewrite upd_step_lookup. cbn [ss_set_head ss_mfd]. rewrite !upd_step_lookup.
    case_decide; [subst; by rewrite Hst | done].
  - intros v v' Hv1 _. rewrite Hv in Hv1. injection Hv1 as <-. by left.
  - cbn. rewrite !length_alter. apply (si_len _ _ _ Hi).
  - destruct (si_first _ _ _ Hi) as [[? E] | ?]; [| by right]. cbn in E. congruence.
  - intros L HL. unfold step. rewrite (step_fds_map path fdm SN_STEPS_UNUSED) by (unfold fdm; pose proof (fresh_fd_ge (w_os w)); (done || lia)).
    by apply Hw1.
Qed.

(** A snapshot on the way. *)
Lemma steps_body_sn w k st :
  os_faults (w_os w) = [] -> disk_ok (w_os w) inpath roots views -> steps_inv (w_os w) (S (S k)) st ->
  (S k < length roots)%nat ->
  exists c st' s', steps_body inpath SN_STEPS_F_FILE (S k) st w = Some ((c, st'), set_os s' w) /\
    (c = CContinue \/ c = CEnd) /\ more_fds (w_os w) s' /\ steps_inv s' (S k) st'.
Proof.
  intros Hf Hd Hi Hk. destruct (lookup_lt_is_Some_2 roots (S k) Hk) as [r Hr].
  destruct (lookup_lt_is_Some_2 views (S k)) as [v Hv]; [by rewrite (dk_len _ _ _ _ Hd) |].
  destruct (lookup_lt_is_Some_2 views k) as [v' Hv']; [rewrite (dk_len _ _ _ _ Hd); lia |].
  pose proof (dk_fit _ _ _ _ Hd _ _ Hr) as Hfit.
  destruct (dk_step _ _ _ _ Hd k r v v' Hr Hv Hv') as (fmap & fdat & Em & Ed & Hc).
  destruct Hc as [[Hab <-] | [(c & ip & id & map & dat & -> & Hmap & Hdat & Hcow) | (-> & ip & map & Hmap & Hg & Hab)]].
  - destruct (steps_body_absent w k st r v fmap) as (st' & E & Hi'); try done.
    exists CContinue, st', (w_os w). rewrite set_os_id. split_and!; [done | by left | done | done].
  - destruct (steps_body_mapped w k st r c v' fmap fdat ip id map dat) as (st' & s' & E & Hm & Hi'); try done.
    exists CEnd, st', s'. split_and!; [done | by right | done | done].
  - destruct (steps_body_gone w k st r fmap fdat ip map) as (st' & s' & E & Hm & Hi'); try done.
    exists CContinue, st', s'. split_and!; [done | by left | done | done].
Qed.

(** What the handle is at the end. *)
Record steps_final (s : os) (st : steps_st) : Prop := {
  sf_chain : chain_ok s (sn_steps (ss_mfd st)) (contents <$> views);
  sf_first : 0 <= sn_first_file (ss_mfd st);
  sf_target : views !! Z.to_nat (sn_first_file (ss_mfd st)) = Some (Some target);
  sf_size : st_size (mh_fstat (mapheader (ss_mfd st))) = zlen target;
  sf_label : locklabel (ss_mfd st) <> 0;
  sf_err : ss_err st = 0;
  sf_number : mfd_sn_number (ss_mfd st) = num;
  sf_current : sn_current (ss_mfd st) + 1 = zlen (sn_steps (ss_mfd st));
  sf_fds : owned (steps_fds (ss_mfd st)) s0 s
}.

(** The handle once the main file, or its absence, is recorded in step 0. *)
Lemma steps_main_done s s' st mfd step v :
  length views = length roots -> steps_inv s 1 st -> more_fds s s' ->
  (forall j, sn_steps mfd !! j = if decide (0%nat = j) then Some step else sn_steps (ss_mfd st) !! j) ->
  length (sn_steps mfd) = length (sn_steps (ss_mfd st)) -> sn_current mfd = sn_current (ss_mfd st) ->
  views !! 0%nat = Some v ->
  contents v = [] \/ (exists im, fd_file s' (step_datfd step) im (contents v) O_RDONLY false) ->
  (forall L, owned L s0 s -> owned (step_fds step ++ L) s0 s') ->
  chain_ok s' (sn_steps mfd) (contents <$> views) /\ sn_current mfd + 1 = zlen (sn_steps mfd) /\ owned (steps_fds mfd) s0 s'.
Proof.
  intros Hvl Hi Hm Hl Hlen Hcur Hv Hmain Hw. split_and!.
  - split.
    + intros step0 v0 Hs0 Hv0. rewrite Hl, decide_True in Hs0 by done. rewrite list_lookup_fmap, Hv in Hv0. simplify_eq/=.
      destruct Hmain as [? | [im ?]]; [by left | right]. by exists im, O_RDONLY, false.
    + intros j step0 x x' Hs0 Hx Hx'. rewrite Hl, decide_False in Hs0 by done.
      apply list_lookup_fmap_Some in Hx as (y & -> & Hx). apply list_lookup_fmap_Some in Hx' as (y' & -> & Hx').
      eapply more_fds_step; [done |]. apply (si_done _ _ _ Hi j); (done || lia).
    + by rewrite length_fmap, Hlen, (si_len _ _ _ Hi).
  - rewrite Hcur, (si_current _ _ _ Hi). unfold zlen. rewrite Hlen, (si_len _ _ _ Hi). lia.
  - unfold steps_fds. rewrite <-(drop_0 (sn_steps mfd)), (drop_S _ step) by by rewrite Hl.
    assert (Ed : drop 1 (sn_steps mfd) = drop 1 (sn_steps (ss_mfd st))).
    { apply list_eq. intros j. by rewrite !lookup_drop, Hl, decide_False by lia. }
    rewrite Ed. cbn [fmap list_fmap concat]. apply Hw, (si_fds _ _ _ Hi).
Qed.

(** Step 0 with the lock label of the main file and a data descriptor. *)
Definition main_step (path : string) (fd : Z) (st : steps_st) : steps_st :=
  let st := upd_step 0 (with_mapfd SN_STEPS_MAIN) (upd_step 0 (with_path path) st) in
  upd_step 0 (with_datfd fd) (ss_set_mfd (set_locklabel (string2locklabel path) (ss_mfd st)) st).

Lemma main_step_lookup path fd st r j : sn_steps (ss_mfd st) !! 0%nat = Some (new_step r) ->
  sn_steps (ss_mfd (main_step path fd st)) !! j =
    if decide (0%nat = j) then Some (SnStep path SN_STEPS_MAIN fd None) else sn_steps (ss_mfd st) !! j.
Proof.
  intros Hst. unfold main_step. rewrite upd_step_lookup. cbn [ss_set_mfd ss_mfd set_locklabel sn_steps].
  rewrite !upd_step_lookup. case_decide; [subst; by rewrite Hst | done].
Qed.

(** The main file, the last step. *)
Lemma steps_body_main w st r im c :
  os_faults (w_os w) = [] -> disk_ok (w_os w) inpath roots views -> steps_inv (w_os w) 1 st ->
  roots !! 0%nat = Some r -> views !! 0%nat = Some (Some c) -> file_at (w_os w) (resolve (r +:+ inpath)) im c ->
  exists st' s', steps_body inpath SN_STEPS_F_FILE 0 st w = Some ((CEnd, st'), set_os s' w) /\
    more_fds (w_os w) s' /\ steps_final s' st'.
Proof.
  intros Hf Hd Hi Hr Hv Hmain. rewrite (steps_body_path _ _ _ r _ Hi Hr (dk_fit _ _ _ _ Hd _ _ Hr)).
  set (path := r +:+ inpath) in *. pose proof (si_todo _ _ _ Hi 0%nat ltac:(lia)) as Hst. rewrite Hr in Hst. cbn in Hst.
  destruct (open_rdonly w path im c Hf Hmain) as (s1 & E1 & Hm1 & Hfd1 & Hw1). set (fd := fresh_fd (w_os w)) in *.
  assert (Hf1 : os_faults s1 = []) by by rewrite (mf_faults _ _ Hm1). set (st3 := main_step path fd st).
  assert (Ef : steps_file_main SN_STEPS_F_FILE 0 path (upd_step 0 (with_path path) st) w = Some ((None, st3), set_os s1 w)).
  { unfold steps_file_main. change (has SN_STEPS_F_FILE SN_STEPS_F_SKIPOPENDAT) with false. cbv iota zeta.
    unfold steps_open_data. by rewrite (st_bind_run _ _ _ _ _ E1). }
  unfold steps_file. change (0 <? Z.of_nat 0) with false. cbv iota. rewrite (st_bind_run _ _ _ _ _ Ef). cbv iota.
  destruct (steps_main_done (w_os w) s1 st (ss_mfd st3) (SnStep path SN_STEPS_MAIN fd None) (Some c)) as (Hch & Hcur & Hfds);
    [apply Hd | done | done | intros j; by eapply main_step_lookup | cbn; by rewrite !length_alter | done | done | right; by exists im | |].
  { rewrite step_fds_one by (done || (unfold fd; pose proof (fresh_fd_ge (w_os w)); lia)). intros L. apply Hw1. }
  assert (Hlab : locklabel (ss_mfd st3) <> 0) by (cbn; pose proof (locklabel_pos path); lia).
  unfold steps_file_first.
  destruct (Z.eqb_spec (sn_first_file (ss_mfd st3)) (-1)) as [Hfirst | Hfirst]; cbn in Hfirst.
  - destruct (lstat_file s1 path im c Hf1 (more_fds_file_at _ _ _ _ _ Hm1 Hmain)) as (ls & n & El & _ & _ & Hsz & _).
    change (0 <? Z.of_nat 0) with false. cbv iota zeta.
    rewrite (st_bind_run _ _ _ _ _ (sys_run _ (set_os s1 w) _ _ El)).
    eexists _, s1. split_and!; [done | done |].
    destruct (si_first _ _ _ Hi) as [[_ E] | [? _]]; [| lia]. cbn in E. rewrite E in Hv. injection Hv as <-.
    split; try done; [apply (si_err _ _ _ Hi) | apply (si_number _ _ _ Hi)].
  - eexists _, s1. split_and!; [done | done |].
    destruct (si_first _ _ _ Hi) as [[? _] | (? & ? & ?)]; [lia |]. split; try done; [apply (si_err _ _ _ Hi) | apply (si_number _ _ _ Hi)].
Qed.

(** No main file: everything is in the snapshots. *)
Lemma steps_body_main_gone w st r :
  os_faults (w_os w) = [] -> disk_ok (w_os w) inpath roots views -> steps_inv (w_os w) 1 st ->
  roots !! 0%nat = Some r -> views !! 0%nat = Some None -> enoent_at (w_os w) (resolve (r +:+ inpath)) ->
  exists st', steps_body inpath SN_STEPS_F_FILE 0 st w = Some ((CContinue, st'), w) /\ steps_final (w_os w) st'.
Proof.
  intros Hf Hd Hi Hr Hv Hab. rewrite (steps_body_path _ _ _ r _ Hi Hr (dk_fit _ _ _ _ Hd _ _ Hr)).
  set (path := r +:+ inpath) in *. pose proof (si_todo _ _ _ Hi 0%nat ltac:(lia)) as Hst. rewrite Hr in Hst. cbn in Hst.
  set (st3 := main_step path SN_STEPS_UNUSED st).
  assert (Ef : steps_file_main SN_STEPS_F_FILE 0 path (upd_step 0 (with_path path) st) w = Some ((Some CContinue, st3), w)).
  { unfold steps_file_main. change (has SN_STEPS_F_FILE SN_STEPS_F_SKIPOPENDAT) with false. cbv iota zeta. unfold steps_open_data.
    rewrite (st_bind_run _ _ _ _ _ (sys_run _ _ _ _ (open_enoent (w_os w) path O_RDONLY 0 Hf Hab eq_refl))). by rewrite set_os_id. }
  unfold steps_file. change (0 <? Z.of_nat 0) with false. cbv iota. rewrite (st_bind_run _ _ _ _ _ Ef). cbv iota.
  destruct (steps_main_done (w_os w) (w_os w) st (ss_mfd st3) (SnStep path SN_STEPS_MAIN SN_STEPS_UNUSED None) None) as (Hch & Hcur & Hfds);
    [apply Hd | done | done | intros j; by eapply main_step_lookup | cbn; by rewrite !length_alter | done | done | by left | |].
  { by rewrite step_fds_none by done. }
  exists st3. split; [done |]. destruct (si_first _ _ _ Hi) as [[_ E] | (? & ? & ?)]; [cbn in E; congruence |].
  split; try done; [cbn; pose proof (locklabel_pos path); lia | apply (si_err _ _ _ Hi) | apply (si_number _ _ _ Hi)].
Qed.

(** One round of the loop that does not break. *)
Lemma steps_loop_next flags sni st c st' w w' :
  steps_body inpath flags sni st w = Some ((c, st'), w') -> c = CContinue \/ c = CEnd -> ss_err st' = 0 ->
  steps_loop inpath flags (S sni) st w = steps_loop inpath flags sni st' w'.
Proof.
  intros E Hc He. cbn [steps_loop]. rewrite (st_bind_run _ _ _ _ _ E).
  destruct Hc as [-> | ->]; [done |]. by rewrite He.
Qed.

Lemma steps_loop_spec k : forall w st,
  os_faults (w_os w) = [] -> disk_ok (w_os w) inpath roots views -> steps_inv (w_os w) (S k) st -> (k < length roots)%nat ->
  exists st' s', steps_loop inpath SN_STEPS_F_FILE (S k) st w = Some (st', set_os s' w) /\
    more_fds (w_os w) s' /\ steps_final s' st'.
Proof.
  induction k as [| k IH]; intros w st Hf Hd Hi Hk.
  - destruct (lookup_lt_is_Some_2 roots 0 Hk) as [r Hr].
    destruct (lookup_lt_is_Some_2 views 0) as [v Hv]; [by rewrite (dk_len _ _ _ _ Hd) |].
    pose proof (dk_main _ _ _ _ Hd r v Hr Hv) as Hmain. destruct v as [c |]; cbn in Hmain.
    + destruct Hmain as [im Hmain]. destruct (steps_body_main w st r im c Hf Hd Hi Hr Hv Hmain) as (st' & s' & E & Hm & Hfin).
      rewrite (steps_loop_next _ _ _ _ _ _ _ E) by (by right || apply (sf_err _ _ Hfin)). by exists st', s'.
    + destruct (steps_body_main_gone w st r Hf Hd Hi Hr Hv Hmain) as (st' & E & Hfin).
      rewrite (steps_loop_next _ _ _ _ _ _ _ E) by (by left || apply (sf_err _ _ Hfin)). exists st', (w_os w). by rewrite set_os_id.
  - destruct (steps_body_sn w k st Hf Hd Hi Hk) as (c & st1 & s1 & E & Hc & Hm & Hi1).
    rewrite (steps_loop_next _ _ _ _ _ _ _ E Hc (si_err _ _ _ Hi1)).
    destruct (IH (set_os s1 w) st1) as (st' & s' & E' & Hm' & Hfin);
      [by rewrite <-Hf; apply (mf_faults _ _ Hm) | by apply (more_fds_disk (w_os w)) | done | lia |].
    exists st', s'. split_and!; [done | by etransitivity | done].
Qed.
End Steps.

(** ** Opening *)

(** A path inside a snapshot of the chain, with the files on disk that the
    snapshots up to it have for it. *)
Record sn_ready (w : world) (path id inpath : string) (sns l : list string) (views : list (option (list Z)))
    (target : option (list Z)) : Prop := {
  sr_faults : os_faults (w_os w) = [];
  sr_chain : chain (w_os w) (w_fs w) sns;
  sr_latest : fs_latest (w_fs w) sns;
  sr_count : zlen sns + 1 < MAX_SNAPSHOTS;
  sr_path : is_path_in_sn path = true /\ is_Some (match map_path path (w_fs w) with Ok p => Some p | Err _ => None end);
  sr_parts : snd (decompose_sn_path path) = SnPath snpath_full id inpath;
  sr_id : strlen id + strlen (sn_dir (w_fs w)) < PATH_MAX;
  sr_upto : upto (sn_dir (w_fs w) +:+ id) sns = Some l;
  sr_disk : disk_ok (w_os w) inpath (rootdir (w_fs w) :: l) views;
  sr_target : views !! length l = Some target;
  sr_len : zlen (contents target) < 2 ^ 62
}.

Lemma mfd_get_sn_steps_spec w mfd path id inpath sns l views target :
  sn_ready w path id inpath sns l views (Some target) ->
  exists mfd' s', mfd_get_sn_steps mfd (SnPath snpath_full id inpath) SN_STEPS_F_FILE w = Some ((0, mfd'), set_os s' w) /\
    more_fds (w_os w) s' /\ chain_ok s' (sn_steps mfd') (contents <$> views) /\ 0 <= sn_first_file mfd' /\
    views !! Z.to_nat (sn_first_file mfd') = Some (Some target) /\ st_size (mh_fstat (mapheader mfd')) = zlen target /\
    locklabel mfd' <> 0 /\ mfd_sn_number mfd' = sn_number (w_fs w) /\
    sn_current mfd' + 1 = zlen (sn_steps mfd') /\ owned (steps_fds mfd') (w_os w) s'.
Proof.
  intros []. unfold mfd_get_sn_steps. rewrite (st_bind_run get_fs _ w (w_fs w) w eq_refl), (st_bind_run st_get _ w w w eq_refl).
  destruct sns as [| p ps]; [done |]. set (mfd1 := set_mfd_sn_number (sn_number (w_fs w)) mfd).
  rewrite (st_bind_run _ _ _ _ _ (sn_get_paths_to_spec w p ps mfd1 (SnPath snpath_full id inpath) sr_faults0 sr_chain0
            sr_latest0 ltac:(done) sr_id0 ltac:(rewrite zlen_cons in sr_count0; lia))).
  cbn [sp_id is_there sp_inpath]. rewrite sr_upto0. cbn [Z.eqb negb].
  set (mfd2 := set_sn_first_file (-1) _). set (st := StepsSt mfd2 0 _).
  change (sn_current mfd2) with (zlen l). replace (Z.to_nat (zlen l + 1)) with (S (length l)) by (unfold zlen; lia).
  assert (Hi : steps_inv (rootdir (w_fs w) :: l) views target (sn_number (w_fs w)) (w_os w) (w_os w) (S (length l)) st).
  { assert (Est : sn_steps (ss_mfd st) = new_step <$> rootdir (w_fs w) :: l) by done.
    split; rewrite ?Est; try done.
    - by rewrite length_fmap.
    - intros j _. apply list_lookup_fmap.
    - intros j step v v' Hj Hs. apply lookup_lt_Some in Hs. rewrite length_fmap in Hs. cbn in Hs. lia.
    - left. by replace (S (length l) - 1)%nat with (length l) by lia.
    - rewrite zlen_cons. change (sn_current (ss_mfd st)) with (zlen l). lia.
    - rewrite drop_ge by by rewrite length_fmap. apply owned_nil. }
  destruct (steps_loop_spec inpath _ views target _ _ (length l) w st sr_faults0 sr_disk0 Hi ltac:(cbn; lia)) as (st' & s' & E & Hm & []).
  rewrite (st_bind_run _ _ _ _ _ E), sf_err0. cbn [Z.eqb negb].
  exists (ss_mfd st'), s'. by split_and!.
Qed.

Section OpenSn.
Context (lock_ unlock_ : Z -> M Z) {LS : LockService lock_ unlock_}.

(** What opening a handle on a snapshot leaves: the handle, and descriptors
    that it owns. *)
Record opened_reader (w w' : world) (fh : Z) (mfd : mfd_t) : Prop := {
  rd_world : exists s', w' = set_mfds (<[fh := mfd]> (w_mfds w)) (set_os s' w) /\ more_fds (w_os w) s';
  rd_fresh : w_mfds w !! fh = None;
  rd_current : sn_current mfd + 1 = zlen (sn_steps mfd);
  rd_first : 0 <= sn_first_file mfd;
  rd_owned : owned (steps_fds mfd) (w_os w) (w_os w')
}.

(** The handle that opening a file of a snapshot gives. *)
Lemma esfs_open_sn_spec w path id inpath sns l views target flags :
  sn_ready w path id inpath sns l views (Some target) -> lk_idle (mflocks (w_fs w)) ->
  Z.land flags O_ACCMODE = O_RDONLY ->
  exists w' fh mfd, esfs_open lock_ unlock_ path flags w = Some ((0, Some fh), w') /\
    w_mfds w' !! fh = Some mfd /\ is_main mfd = mfd_sn_full /\ mfd_sn_number mfd = sn_number (w_fs w') /\
    os_faults (w_os w') = [] /\ opened_reader w w' fh mfd /\ read_ok lk_idle w' mfd (contents <$> views) target.
Proof.
  intros H Hidle Hfl. pose proof H as []. destruct sr_path0 as [Hsn [fpath Hfp]].
  unfold esfs_open, if_path_sn. rewrite (st_bind_run get_fs _ w (w_fs w) w eq_refl), Hsn.
  destruct (map_path path (w_fs w)) as [p |]; [| done].
  rewrite (st_bind_run _ _ _ _ _ (malloc_ok w sr_faults0)). cbn [negb]. rewrite sr_parts0.
  unfold esfs_open_sn. rewrite Hfl, Z.eqb_refl. cbn [negb is_there].
  assert (Em : malloc_mfd w = Some (Some (w_junk_mfd w), w)) by (unfold malloc_mfd; by rewrite malloc_ok).
  rewrite (st_bind_run _ _ _ _ _ Em).
  destruct (mfd_get_sn_steps_spec w (w_junk_mfd w) path id inpath sns l views target H)
    as (mfd & s' & E & Hm & Hch & Hfirst & Ht & Hsz & Hlab & Hnum & Hcur & Hown).
  rewrite (st_bind_run _ _ _ _ _ E). cbn [Z.eqb negb].
  assert (Hf' : os_faults s' = []) by (rewrite <-sr_faults0; apply (mf_faults _ _ Hm)).
  eexists _, _, (set_is_main mfd_sn_full mfd). split; [done |]. split_and!; try done.
  - cbn. apply lookup_insert_eq.
  - split; try done; [by exists s' |]. apply not_elem_of_dom, is_fresh.
  - split; try done; [by rewrite list_lookup_fmap; cbn; rewrite Ht |]. unfold atomic. cbn. by rewrite Hf'.
Qed.

(** Reading through it. *)
Lemma esfs_read_sn_spec w fh mfd views target buf size off :
  w_mfds w !! fh = Some mfd -> is_main mfd = mfd_sn_full -> mfd_sn_number mfd = sn_number (w_fs w) ->
  os_faults (w_os w) = [] -> read_ok lk_idle w mfd views target ->
  0 <= off -> 0 <= size < 2 ^ 31 -> off + size < 2 ^ 63 ->
  exists w', esfs_read lock_ unlock_ fh buf size off w
    = Some ((read_len target size off, file_write buf (file_read target (read_len target size off) off) 0), w') /\
    rframe w w' /\ read_ok lk_idle w' mfd views target.
Proof.
  intros Hm Hfull Hnum Hf Hro Ho Hs Hb. unfold esfs_read.
  rewrite (st_bind_run (get_mfd fh) _ w mfd w) by (unfold get_mfd; by rewrite Hm). rewrite Hfull.
  rewrite (st_bind_run (mfd_in_sn_validate mfd) _ w 0 w).
  2: { unfold mfd_in_sn_validate, get_fs, mbind, ST_bind. by rewrite Hnum, Z.eqb_refl. }
  cbn [Z.eqb negb].
  destruct (b_read_spec lock_ unlock_ mfd views target w buf size off Hro Ho Hs Hb) as (r & buf' & w' & -> & Hfr & Hro' & Hpost).
  destruct Hpost as [[-> ->] | [_ Hfl]]; [by exists w' | by destruct (not_faulty_nil _ Hf)].
Qed.
End OpenSn.
