(* ===== verification/SnStat.v ===== *)
(** [getattr] of a file inside a snapshot: the search for its steps stops at
    the first snapshot that has a map file for it, or at the main file, and
    the stat found there is that of the file at the snapshot, or the error
    says that there was no such file; every descriptor opened on the way is
    closed again. *)

From S2P Require Import Prelude Posix PosixSpec PosixPath Types Util UtilTheorems Mflock Snapshot Tree.
From S2P Require Import SnapshotTheorems Block CopyOnWrite BlockWrite BlockRead Mfd SnSteps FuseFd.
From S2P Require Import SnapshotIsolation FusePath MfdTheorems Descriptors SnStepsTheorems.

(** ** The path of a step *)

(** Nothing in a snapshot has the name of the file itself, unless it is another file. *)
Definition plain_at (s : os) (p : path) : Prop := enoent_at s p \/ exists i c, file_at s p i c.

Lemma steps_known_plain flags path w :
  os_faults (w_os w) = [] -> has flags SN_STEPS_F_TYPE_UNKNOWN = true -> plain_at (w_os w) (resolve path) ->
  steps_known flags path w = Some (Ok KFile, w).
Proof.
  intros Hf Hfl Hp. unfold steps_known. rewrite Hfl. destruct Hp as [He | (i & c & Hat)].
  - rewrite (st_bind_run _ _ _ _ _ (sys_run _ w _ _ (lstat_enoent (w_os w) path Hf He))). by rewrite set_os_id.
  - destruct (lstat_file (w_os w) path i c Hf Hat) as (st & n & E & _ & _ & _ & Hd).
    rewrite (st_bind_run _ _ _ _ _ (sys_run _ w _ _ E)), Hd. by rewrite set_os_id.
Qed.

(** ** The loop *)

Section Stat.
Context (inpath : string) (roots : list string) (views : list (option (list Z))) (target : option (list Z)).

(** Nothing found in the steps from [k] on: the file has not changed since. *)
Record stat_inv (k : nat) (st : steps_st) : Prop := {
  ti_len : length (sn_steps (ss_mfd st)) = length roots;
  ti_todo : forall j, (j < k)%nat -> sn_steps (ss_mfd st) !! j = new_step <$> roots !! j;
  ti_fds : Forall (fun step => step_fds step = []) (sn_steps (ss_mfd st));
  ti_first : sn_first_file (ss_mfd st) = -1;
  ti_view : views !! (k - 1)%nat = Some target;
  ti_err : ss_err st = 0;
  ti_current : sn_current (ss_mfd st) = zlen roots - 1
}.

(** The file was found, or found to be missing: its map file says so, or
    there is no main file. *)
Record stat_found (s0 s : os) (st : steps_st) : Prop := {
  tf_first : 0 <= sn_first_file (ss_mfd st);
  tf_result :
    match target with
    | Some c => ss_err st = 0 /\ (sn_first_file (ss_mfd st) = 0 \/ mh_exists (mapheader (ss_mfd st)) = 1) /\
        st_size (mh_fstat (mapheader (ss_mfd st))) = zlen c
    | None => (ss_err st = 0 /\ 0 < sn_first_file (ss_mfd st) /\ mh_exists (mapheader (ss_mfd st)) = 0) \/ ss_err st = - ENOENT
    end;
  tf_current : sn_current (ss_mfd st) + 1 = zlen (sn_steps (ss_mfd st));
  tf_fds : owned (steps_fds (ss_mfd st)) s0 s
}.

Lemma no_fds_concat (l : list sn_steps_t) : Forall (fun step => step_fds step = []) l -> concat (step_fds <$> l) = [].
Proof. induction 1 as [| x l Hx _ IH]; [done |]. cbn [fmap list_fmap concat]. by rewrite Hx. Qed.

Lemma no_fds_alter (l : list sn_steps_t) f i :
  Forall (fun step => step_fds step = []) l -> (forall x, l !! i = Some x -> step_fds (f x) = []) ->
  Forall (fun step => step_fds step = []) (alter f i l).
Proof.
  intros Hl Hf. apply Forall_lookup. intros j x Hx. destruct (decide (i = j)) as [<- | Hne].
  - rewrite list_lookup_alter_eq in Hx. destruct (l !! i) as [y |] eqn:E; [| done]. injection Hx as <-. by apply Hf.
  - rewrite list_lookup_alter_ne in Hx by done. by apply (Forall_lookup_1 _ _ _ _ Hl Hx).
Qed.

(** One step that has descriptors among steps that have none. *)
Lemma one_step_fds (l : list sn_steps_t) f i x :
  Forall (fun step => step_fds step = []) l -> l !! i = Some x -> concat (step_fds <$> alter f i l) = step_fds (f x).
Proof.
  intros Hl (l1 & l2 & -> & ->)%list_elem_of_split_length. apply Forall_app in Hl as [H1 [_ H2]%Forall_cons].
  rewrite alter_app_r_alt, Nat.sub_diag by lia. cbn [alter list_alter].
  rewrite fmap_app, concat_app. cbn [fmap list_fmap concat]. by rewrite !no_fds_concat, app_nil_r.
Qed.

Lemma stat_body_path k st r w :
  os_faults (w_os w) = [] -> stat_inv (S k) st -> roots !! k = Some r -> strlen inpath + strlen r < PATH_MAX ->
  plain_at (w_os w) (resolve (r +:+ inpath)) ->
  steps_body inpath STAT_FLAGS k st w = steps_file STAT_FLAGS k (r +:+ inpath) (upd_step k (with_path (r +:+ inpath)) st) w.
Proof.
  intros Hf [] Hr Hfit Hp. unfold steps_body. rewrite (ti_todo0 k) by lia. rewrite Hr. cbn [fmap option_fmap option_map].
  change (step_path (new_step r)) with r. destruct (Z.leb_spec PATH_MAX (strlen inpath + strlen r)); [lia |]. cbv zeta.
  rewrite (st_bind_run _ _ _ _ _ (steps_known_plain STAT_FLAGS (r +:+ inpath) w Hf eq_refl Hp)). done.
Qed.

(** A snapshot on the way that has no map file. *)
Lemma stat_body_absent w k st r fmap :
  os_faults (w_os w) = [] -> stat_inv (S (S k)) st -> roots !! S k = Some r -> strlen inpath + strlen r < PATH_MAX ->
  plain_at (w_os w) (resolve (r +:+ inpath)) -> views !! k = views !! S k ->
  get_map_path (r +:+ inpath) = Ok fmap -> enoent_at (w_os w) (resolve fmap) ->
  exists st', steps_body inpath STAT_FLAGS (S k) st w = Some ((CContinue, st'), w) /\ stat_inv (S k) st'.
Proof.
  intros Hf Hi Hr Hfit Hp Hv Em Hab. rewrite (stat_body_path _ _ r _ Hf Hi Hr Hfit Hp).
  set (path := r +:+ inpath) in *. set (st1 := upd_step (S k) (with_path path) st).
  unfold steps_file, steps_file_sn. destruct (Z.ltb_spec 0 (Z.of_nat (S k))); [| lia]. rewrite Em.
  rewrite (st_bind_run _ _ _ (Some CContinue, upd_step (S k) unused_step st1) (set_os (w_os w) w)).
  2: { by rewrite (st_bind_run _ _ _ _ _ (sys_run _ _ _ _ (open_enoent (w_os w) fmap O_RDONLY 0 Hf Hab eq_refl))). }
  rewrite set_os_id. eexists. split; [done |]. pose proof (ti_todo _ _ Hi (S k) ltac:(lia)) as Hst. rewrite Hr in Hst. cbn in Hst.
  pose proof Hi as []. split; try done; cbn.
  - by rewrite !length_alter.
  - intros j Hj. rewrite !list_lookup_alter_ne by lia. apply ti_todo0. lia.
  - apply no_fds_alter; [apply no_fds_alter; [done |] |]; intros x; [rewrite Hst | rewrite list_lookup_alter_eq, Hst]; by intros [= <-].
  - rewrite Nat.sub_0_r, Hv. done.
Qed.

(** A snapshot on the way that has a map file: the search ends here. *)
Lemma stat_body_mapped w k st r fmap ip map h :
  os_faults (w_os w) = [] -> stat_inv (S (S k)) st -> roots !! S k = Some r -> strlen inpath + strlen r < PATH_MAX ->
  plain_at (w_os w) (resolve (r +:+ inpath)) ->
  get_map_path (r +:+ inpath) = Ok fmap -> file_at (w_os w) (resolve fmap) ip map -> map_header map h ->
  match target with Some c => header_for c h | None => mh_exists h = 0 end ->
  exists st' s', steps_body inpath STAT_FLAGS (S k) st w = Some ((CBreak, st'), set_os s' w) /\
    more_fds (w_os w) s' /\ stat_found (w_os w) s' st'.
Proof.
  intros Hf Hi Hr Hfit Hp Em Hmap [Hrd Hh] Ht. rewrite (stat_body_path _ _ r _ Hf Hi Hr Hfit Hp).
  set (path := r +:+ inpath) in *. set (st1 := upd_step (S k) (with_path path) st).
  pose proof (ti_todo _ _ Hi (S k) ltac:(lia)) as Hst. rewrite Hr in Hst. cbn in Hst.
  destruct (open_rdonly w fmap ip map Hf Hmap) as (s1 & E1 & Hm1 & Hfd1 & Hw1).
  assert (Hf1 : os_faults s1 = []) by by rewrite (mf_faults _ _ Hm1).
  set (fdm := fresh_fd (w_os w)) in *. set (st2 := upd_step (S k) (with_mapfd fdm) st1).
  assert (Ef : steps_file_sn STAT_FLAGS (S k) path st1 w = Some ((None, ss_set_head h st2), set_os s1 w)).
  { unfold steps_file_sn. rewrite Em, (st_bind_run _ _ _ _ _ E1).
    rewrite (st_bind_run _ _ _ _ _ (load_header_ok (set_os s1 w) (ss_head st2) fdm ip map h Hf1 Hfd1 Hrd Hh)).
    cbn [Z.eqb negb]. by change (has STAT_FLAGS SN_STEPS_F_SKIPOPENDAT) with true. }
  unfold steps_file. destruct (Z.ltb_spec 0 (Z.of_nat (S k))); [| lia]. rewrite (st_bind_run _ _ _ _ _ Ef). cbv iota.
  pose proof Hi as []. unfold steps_file_first. change (sn_first_file (ss_mfd (ss_set_head h st2))) with (sn_first_file (ss_mfd st)).
  rewrite ti_first0. cbn [Z.eqb Pos.eqb]. destruct (Z.ltb_spec 0 (Z.of_nat (S k))); [| lia].
  change (has STAT_FLAGS SN_STEPS_F_FIRSTONLY) with true. eexists _, s1. split_and!; [done | done |].
  split; cbn -[steps_fds]; [lia | | |].
  - destruct target; [destruct Ht; auto | left; auto].
  - unfold zlen. rewrite !length_alter, ti_len0, ti_current0. unfold zlen. lia.
  - unfold steps_fds. cbn [sn_steps set_mapheader set_sn_first_file ss_set_mfd ss_mfd ss_set_head st2 st1 upd_step set_sn_steps].
    assert (Hnf : Forall (fun step => step_fds step = []) (alter (with_path path) (S k) (sn_steps (ss_mfd st)))).
    { apply no_fds_alter; [done |]. intros x. rewrite Hst. by intros [= <-]. }
    rewrite (one_step_fds _ _ _ (with_path path (new_step r)) Hnf) by by rewrite list_lookup_alter_eq, Hst.
    assert (E : step_fds (with_mapfd fdm (with_path path (new_step r))) = [fdm]).
    { apply (step_fds_map path); [unfold fdm; pose proof (fresh_fd_ge (w_os w)); lia | done]. }
    rewrite E. apply Hw1, owned_nil.
Qed.

(** The main file, which may be missing. *)
Lemma stat_body_main w st r :
  os_faults (w_os w) = [] -> stat_inv 1 st -> roots !! 0%nat = Some r -> strlen inpath + strlen r < PATH_MAX ->
  main_disk (w_os w) (r +:+ inpath) target ->
  exists st', steps_body inpath STAT_FLAGS 0 st w = Some ((CBreak, st'), w) /\ stat_found (w_os w) (w_os w) st'.
Proof.
  intros Hf Hi Hr Hfit Hat. rewrite (stat_body_path _ _ r _ Hf Hi Hr Hfit).
  2: { destruct target as [c |]; cbn in Hat; [destruct Hat as [im Hat]; right; by exists im, c | by left]. }
  set (path := r +:+ inpath) in *. pose proof (ti_todo _ _ Hi 0%nat ltac:(lia)) as Hst. rewrite Hr in Hst. cbn in Hst.
  pose proof Hi as [].
  unfold steps_file, steps_file_main. change (0 <? Z.of_nat 0) with false. change (has STAT_FLAGS SN_STEPS_F_SKIPOPENDAT) with true. cbv iota zeta.
  rewrite (st_bind_run (mret _) _ w _ w eq_refl). unfold steps_file_first. cbn [ss_mfd ss_set_mfd upd_step set_sn_steps set_locklabel sn_first_file].
  rewrite ti_first0. cbn [Z.eqb Pos.eqb]. change (0 <? Z.of_nat 0) with false. cbv iota zeta.
  assert (Hfds : forall m, sn_steps m = sn_steps (ss_mfd (main_step path SN_STEPS_NOTOPEN st)) -> sn_current m = sn_current (ss_mfd st) ->
    sn_current m + 1 = zlen (sn_steps m) /\ owned (steps_fds m) (w_os w) (w_os w)).
  { intros m Em Ec. rewrite Ec, ti_current0. unfold steps_fds. rewrite Em. split.
    - cbn. unfold zlen. rewrite !length_alter, ti_len0. lia.
    - rewrite no_fds_concat; [apply owned_nil |]. apply Forall_lookup. intros j x Hj.
      rewrite (main_step_lookup path SN_STEPS_NOTOPEN st r j Hst) in Hj. case_decide.
      + injection Hj as <-. by apply step_fds_none.
      + by apply (Forall_lookup_1 _ _ _ _ ti_fds0 Hj). }
  destruct target as [c |] eqn:Et; cbn in Hat.
  - destruct Hat as [im Hat]. destruct (lstat_file (w_os w) path im c Hf Hat) as (ls & n & El & _ & _ & Hsz & _).
    rewrite (st_bind_run _ _ _ _ _ (sys_run _ w _ _ El)), set_os_id. change (has STAT_FLAGS SN_STEPS_F_FIRSTONLY) with true.
    eexists. split; [done |].
    split; [cbn; lia | rewrite Et; cbn; auto | refine (proj1 (Hfds _ _ _)); done | refine (proj2 (Hfds _ _ _)); done].
  - rewrite (st_bind_run _ _ _ _ _ (sys_run _ w _ _ (lstat_enoent (w_os w) path Hf Hat))), set_os_id.
    eexists. split; [done |].
    split; [cbn; lia | rewrite Et; cbn; auto | refine (proj1 (Hfds _ _ _)); done | refine (proj2 (Hfds _ _ _)); done].
Qed.

(** A snapshot on the way, with a map file or without. *)
Lemma stat_body_sn w k st :
  os_faults (w_os w) = [] -> disk_ok (w_os w) inpath roots views -> stat_inv (S (S k)) st -> (S k < length roots)%nat ->
  (forall r, roots !! S k = Some r -> plain_at (w_os w) (resolve (r +:+ inpath))) ->
  (exists st', steps_body inpath STAT_FLAGS (S k) st w = Some ((CContinue, st'), w) /\ stat_inv (S k) st') \/
  (exists st' s', steps_body inpath STAT_FLAGS (S k) st w = Some ((CBreak, st'), set_os s' w) /\
     more_fds (w_os w) s' /\ stat_found (w_os w) s' st').
Proof.
  intros Hf Hd Hi Hk Hp. destruct (lookup_lt_is_Some_2 roots (S k) Hk) as [r Hr].
  destruct (lookup_lt_is_Some_2 views (S k)) as [v Hv]; [by rewrite (dk_len _ _ _ _ Hd) |].
  destruct (lookup_lt_is_Some_2 views k) as [v' Hv']; [rewrite (dk_len _ _ _ _ Hd); lia |].
  pose proof (dk_fit _ _ _ _ Hd _ _ Hr) as Hfit. pose proof (ti_view _ _ Hi) as Ht. cbn in Ht. rewrite Hv in Ht. injection Ht as Ht.
  destruct (dk_step _ _ _ _ Hd k r v v' Hr Hv Hv') as (fmap & fdat & Em & _ & Hc).
  destruct Hc as [[Hab <-] | [(c & ip & id & map & dat & Ev & Hmap & _ & Hcow) | (Ev & ip & map & Hmap & (h & Hh & Hex) & _)]].
  - left. apply (stat_body_absent w k st r fmap); auto. congruence.
  - right. destruct (cow_header _ _ _ _ Hcow) as (h & Hh & Hfor).
    apply (stat_body_mapped w k st r fmap ip map h); auto. by rewrite <-Ht, Ev.
  - right. apply (stat_body_mapped w k st r fmap ip map h); auto. by rewrite <-Ht, Ev.
Qed.

Lemma stat_loop_spec k : forall w st,
  os_faults (w_os w) = [] -> disk_ok (w_os w) inpath roots views -> stat_inv (S k) st -> (k < length roots)%nat ->
  (forall j r, roots !! S j = Some r -> plain_at (w_os w) (resolve (r +:+ inpath))) ->
  exists st' s', steps_loop inpath STAT_FLAGS (S k) st w = Some (st', set_os s' w) /\
    more_fds (w_os w) s' /\ stat_found (w_os w) s' st'.
Proof.
  induction k as [| k IH]; intros w st Hf Hd Hi Hk Hp; cbn [steps_loop].
  - destruct (lookup_lt_is_Some_2 roots 0 Hk) as [r Hr]. pose proof (ti_view _ _ Hi) as Hv. cbn in Hv.
    destruct (stat_body_main w st r Hf Hi Hr (dk_fit _ _ _ _ Hd _ _ Hr) (dk_main _ _ _ _ Hd r _ Hr Hv)) as (st' & E & H).
    exists st', (w_os w). rewrite (st_bind_run _ _ _ _ _ E), set_os_id. by split_and!.
  - destruct (stat_body_sn w k st Hf Hd Hi Hk (Hp k)) as [(st1 & E & Hi1) | (st1 & s1 & E & Hm & H)];
      rewrite (st_bind_run _ _ _ _ _ E).
    + apply IH; (done || lia).
    + by exists st1, s1.
Qed.
End Stat.

(** ** The handler *)

(** The snapshots up to the one of the path have no directory in the place of the file. *)
Definition sn_plain (w : world) (inpath : string) (l : list string) : Prop :=
  Forall (fun r => plain_at (w_os w) (resolve (r +:+ inpath))) l.

(** Every descriptor is as it was. *)
Definition fds_back (s : os) (x : gmap Z ofile) : Prop :=
  forall fd, of_key <$> x !! fd = of_key <$> os_fds s !! fd.

(** What a caller that wants a stat gets: a handle to close, or ENOENT with
    everything closed already. *)
Lemma mfd_get_sn_steps_stat w mfd path id inpath sns l views target :
  sn_ready w path id inpath sns l views target -> sn_plain w inpath l ->
  (exists mfd' s', mfd_get_sn_steps mfd (SnPath snpath_full id inpath) STAT_FLAGS w = Some ((0, mfd'), set_os s' w) /\
     more_fds (w_os w) s' /\ 0 <= sn_first_file mfd' /\
     match target with
     | Some c => sn_absent mfd' = false /\ st_size (mh_fstat (mapheader mfd')) = zlen c
     | None => sn_absent mfd' = true
     end /\ sn_current mfd' + 1 = zlen (sn_steps mfd') /\ owned (steps_fds mfd') (w_os w) s') \/
  (target = None /\ exists mfd' x, mfd_get_sn_steps mfd (SnPath snpath_full id inpath) STAT_FLAGS w
     = Some ((- ENOENT, mfd'), set_os (set_fds x (w_os w)) w) /\ fds_back (w_os w) x).
Proof.
  intros [] Hp. unfold mfd_get_sn_steps. rewrite (st_bind_run get_fs _ w (w_fs w) w eq_refl), (st_bind_run st_get _ w w w eq_refl).
  destruct sns as [| p ps]; [done |]. set (mfd1 := set_mfd_sn_number (sn_number (w_fs w)) mfd).
  rewrite (st_bind_run _ _ _ _ _ (sn_get_paths_to_spec w p ps mfd1 (SnPath snpath_full id inpath) sr_faults sr_chain
            sr_latest ltac:(done) sr_id ltac:(rewrite zlen_cons in sr_count; lia))).
  cbn [sp_id is_there sp_inpath]. rewrite sr_upto. cbn [Z.eqb negb].
  set (mfd2 := set_sn_first_file (-1) _). set (st := StepsSt mfd2 0 _).
  change (sn_current mfd2) with (zlen l). replace (Z.to_nat (zlen l + 1)) with (S (length l)) by (unfold zlen; lia).
  assert (Hi : stat_inv (rootdir (w_fs w) :: l) views target (S (length l)) st).
  { assert (Est : sn_steps (ss_mfd st) = new_step <$> rootdir (w_fs w) :: l) by done.
    split; rewrite ?Est; try done.
    - by rewrite length_fmap.
    - intros j _. apply list_lookup_fmap.
    - apply Forall_fmap, Forall_forall. intros x _. reflexivity.
    - by replace (S (length l) - 1)%nat with (length l) by lia.
    - rewrite zlen_cons. change (sn_current (ss_mfd st)) with (zlen l). lia. }
  destruct (stat_loop_spec inpath _ views target (length l) w st sr_faults sr_disk Hi ltac:(cbn; lia)) as (st' & s' & E & Hm & []).
  { intros j r Hj. exact (Forall_lookup_1 _ _ _ _ Hp Hj). }
  rewrite (st_bind_run _ _ _ _ _ E). unfold sn_absent.
  assert (Hf' : os_faults s' = []) by (rewrite <-sr_faults; apply (mf_faults _ _ Hm)).
  destruct target as [c |].
  - left. destruct tf_result0 as (-> & Hex & Hsz). cbn [Z.eqb negb]. exists (ss_mfd st'), s'. split_and!; try done.
    destruct (Z.eqb_spec (sn_first_file (ss_mfd st')) (-1)); [lia |]. destruct Hex as [-> | ->]; [done | apply andb_false_r].
  - destruct tf_result0 as [(-> & Hpos & Hex) | ->].
    + left. cbn [Z.eqb negb]. exists (ss_mfd st'), s'. split_and!; try done. rewrite Hex.
      destruct (Z.ltb_spec 0 (sn_first_file (ss_mfd st'))); [| lia]. apply orb_true_r.
    + right. split; [done |]. cbn [Z.eqb negb ENOENT].
      destruct (mfd_destroy_owned (set_os s' w) (ss_mfd st') (w_os w) Hf' tf_first0 tf_current0 tf_fds0) as (x & Ed & Hx).
      change (negb (- ENOENT =? 0)) with true. cbv iota. rewrite (st_bind_run _ _ _ _ _ Ed).
      exists (ss_mfd st'), x. split; [cbn [w_os set_os]; by rewrite (more_fds_eq _ _ Hm) |].
      intros fd. apply (ow_rest _ _ _ Hx), not_elem_of_nil.
Qed.

(** The answer of [getattr] and what it leaves. *)
Lemma esfs_getattr_sn_spec w path id inpath sns l views target :
  sn_ready w path id inpath sns l views target -> sn_plain w inpath l ->
  exists r st x, esfs_getattr path w = Some ((r, st), set_os (set_fds x (w_os w)) w) /\ fds_back (w_os w) x /\
    match target with
    | Some c => r = 0 /\ exists a, st = Some a /\ st_size a = zlen c
    | None => r = - ENOENT /\ st = None
    end.
Proof.
  intros H Hp. pose proof H as []. destruct sr_path as [Hsn [fpath Hfp]].
  unfold esfs_getattr, if_path_sn. rewrite (st_bind_run get_fs _ w (w_fs w) w eq_refl), Hsn.
  destruct (map_path path (w_fs w)) as [p |]; [| done].
  rewrite (st_bind_run _ _ _ _ _ (malloc_ok w sr_faults)). cbn [negb]. rewrite sr_parts. cbn [is_there].
  rewrite (st_bind_run st_get _ w w w eq_refl).
  destruct (mfd_get_sn_steps_stat w (w_junk_mfd w) path id inpath sns l views target H Hp)
    as [(mfd & s' & E & Hm & Hfirst & Hab & Hcur & Hown) | (-> & mfd & x & E & Hx)]; rewrite (st_bind_run _ _ _ _ _ E).
  - cbn [Z.eqb negb]. assert (Hf' : os_faults s' = []) by (rewrite <-sr_faults; apply (mf_faults _ _ Hm)).
    destruct (mfd_destroy_owned (set_os s' w) mfd (w_os w) Hf' Hfirst Hcur Hown) as (x & Ed & Hx).
    rewrite (st_bind_run _ _ _ _ _ Ed). cbn [w_os set_os]. rewrite (more_fds_eq _ _ Hm).
    assert (Hb : fds_back (w_os w) x) by (intros fd; apply (ow_rest _ _ _ Hx), not_elem_of_nil).
    destruct target as [c |]; [destruct Hab as [-> Hsz] | rewrite Hab]; eexists _, _, x; (split; [done |]); (split; [done |]); [| done].
    split; [done |]. by eexists.
  - exists (- ENOENT), None, x. done.
Qed.
