(* ===== verification/PassedOver.v ===== *)
(** Files about which the snapshots up to the one being read keep no blocks:
    [mfd_get_sn_steps] passes over a snapshot that has no map file for a
    file, and over one that has a map file and no dat file, and does not
    remember either as the first file.  The handle then reads the main file,
    whatever it holds by the time of the read, or nothing at all. *)

From S2P Require Import Prelude Posix PosixSpec PosixPath Types Util UtilTheorems Mflock Snapshot Tree.
From S2P Require Import SnapshotTheorems Block CopyOnWrite BlockWrite BlockRead Mfd SnSteps FuseFd.
From S2P Require Import SnapshotIsolation SmallSystem FusePath MfdTheorems Descriptors SnStepsTheorems SnStat.

(** ** What is on disk *)

(** A snapshot has no map file for the file at the real path [path]: the file
    has not been opened for writing since. *)
Definition untouched_at (s : os) (path : string) : Prop :=
  exists fmap, get_map_path path = Ok fmap /\ enoent_at s (resolve fmap).

(** A snapshot has a map file with the header [h], and no dat file. *)
Definition no_dat_at (s : os) (path : string) (h : mapheader_t) : Prop :=
  exists fmap fdat ip map, get_map_path path = Ok fmap /\ get_dat_path path = Ok fdat /\
    file_at s (resolve fmap) ip map /\ map_header map h /\ enoent_at s (resolve fdat).

Definition passed_over (s : os) (path : string) : Prop := untouched_at s path \/ exists h, no_dat_at s path h.

Lemma more_fds_passed s s' path : more_fds s s' -> passed_over s path -> passed_over s' path.
Proof.
  intros H [(fmap & ? & ?) | (h & fmap & fdat & ip & map & ? & ? & ? & ? & ?)]; [left | right].
  - exists fmap. split; [done | by eapply more_fds_enoent].
  - exists h, fmap, fdat, ip, map. split_and!; [done | done | by eapply more_fds_file_at | done | by eapply more_fds_enoent].
Qed.

(** ** The loop *)

Section Loop.
Context (inpath : string) (roots : list string) (num : Z) (h0 : mapheader_t).

(** Nothing found in the steps from [k] on. *)
Record skip_inv (k : nat) (st : steps_st) : Prop := {
  sk_len : length (sn_steps (ss_mfd st)) = length roots;
  sk_todo : forall j, (j < k)%nat -> sn_steps (ss_mfd st) !! j = new_step <$> roots !! j;
  sk_first : sn_first_file (ss_mfd st) = -1;
  sk_err : ss_err st = 0;
  sk_head : mapheader (ss_mfd st) = h0;
  sk_number : mfd_sn_number (ss_mfd st) = num
}.

Lemma skip_inv_next k st st' :
  skip_inv (S k) st -> (forall j, (j < k)%nat -> sn_steps (ss_mfd st') !! j = sn_steps (ss_mfd st) !! j) ->
  length (sn_steps (ss_mfd st')) = length (sn_steps (ss_mfd st)) ->
  sn_first_file (ss_mfd st') = sn_first_file (ss_mfd st) -> ss_err st' = ss_err st ->
  mapheader (ss_mfd st') = mapheader (ss_mfd st) -> mfd_sn_number (ss_mfd st') = mfd_sn_number (ss_mfd st) ->
  skip_inv k st'.
Proof.
  intros [] Hj Hl Hf He Hh Hn. split; try congruence. intros j Hlt. rewrite Hj by done. apply sk_todo0. lia.
Qed.

Lemma skip_body_path k st r w :
  skip_inv (S k) st -> roots !! k = Some r -> strlen inpath + strlen r < PATH_MAX ->
  steps_body inpath SN_STEPS_F_FILE k st w =
    steps_file SN_STEPS_F_FILE k (r +:+ inpath) (upd_step k (with_path (r +:+ inpath)) st) w.
Proof.
  intros [] Hr Hfit. unfold steps_body. rewrite (sk_todo0 k) by lia. rewrite Hr. cbn [fmap option_fmap option_map].
  change (step_path (new_step r)) with r. destruct (Z.leb_spec PATH_MAX (strlen inpath + strlen r)); [lia |]. done.
Qed.

(** A snapshot that is passed over. *)
Lemma skip_body w k st r :
  os_faults (w_os w) = [] -> skip_inv (S (S k)) st -> roots !! S k = Some r -> strlen inpath + strlen r < PATH_MAX ->
  passed_over (w_os w) (r +:+ inpath) ->
  exists st' s', steps_body inpath SN_STEPS_F_FILE (S k) st w = Some ((CContinue, st'), set_os s' w) /\
    more_fds (w_os w) s' /\ skip_inv (S k) st'.
Proof.
  intros Hf Hi Hr Hfit Hp. rewrite (skip_body_path _ _ r _ Hi Hr Hfit).
  set (path := r +:+ inpath) in *. set (st1 := upd_step (S k) (with_path path) st).
  unfold steps_file. destruct (Z.ltb_spec 0 (Z.of_nat (S k))); [| lia].
  assert (Hnext : forall st', (forall j, (j < S k)%nat -> sn_steps (ss_mfd st') !! j = sn_steps (ss_mfd st) !! j) ->
    length (sn_steps (ss_mfd st')) = length (sn_steps (ss_mfd st)) ->
    (sn_first_file (ss_mfd st'), ss_err st', mapheader (ss_mfd st'), mfd_sn_number (ss_mfd st'))
      = (sn_first_file (ss_mfd st), ss_err st, mapheader (ss_mfd st), mfd_sn_number (ss_mfd st)) -> skip_inv (S k) st').
  { intros st' ? ? [= ? ? ? ?]. by eapply skip_inv_next. }
  destruct Hp as [(fmap & Em & Hab) | (h & fmap & fdat & ip & map & Em & Ed & Hmap & [Hrd Hh] & Hab)].
  - exists (upd_step (S k) unused_step st1), (w_os w).
    assert (Ef : steps_file_sn SN_STEPS_F_FILE (S k) path st1 w = Some ((Some CContinue, upd_step (S k) unused_step st1), set_os (w_os w) w)).
    { unfold steps_file_sn. rewrite Em.
      by rewrite (st_bind_run _ _ _ _ _ (sys_run _ _ _ _ (open_enoent (w_os w) fmap O_RDONLY 0 Hf Hab eq_refl))). }
    rewrite (st_bind_run _ _ _ _ _ Ef). split_and!; [done | done |]. apply Hnext; [| cbn; by rewrite !length_alter | done].
    intros j Hj. unfold st1. rewrite !upd_step_lookup. by rewrite !decide_False by lia.
  - destruct (open_rdonly w fmap ip map Hf Hmap) as (s1 & E1 & Hm1 & Hfd1 & _).
    assert (Hf1 : os_faults s1 = []) by by rewrite (mf_faults _ _ Hm1).
    set (st2 := upd_step (S k) (with_mapfd (fresh_fd (w_os w))) st1).
    set (st3 := upd_step (S k) (with_datfd SN_STEPS_UNUSED) (ss_set_head h st2)).
    assert (Ef : steps_file_sn SN_STEPS_F_FILE (S k) path st1 w = Some ((Some CContinue, st3), set_os s1 w)).
    { unfold steps_file_sn. rewrite Em, (st_bind_run _ _ _ _ _ E1).
      rewrite (st_bind_run _ _ _ _ _ (load_header_ok (set_os s1 w) (ss_head st2) _ ip map h Hf1 Hfd1 Hrd Hh)).
      cbn [Z.eqb negb]. change (has SN_STEPS_F_FILE SN_STEPS_F_SKIPOPENDAT) with false. cbv iota. rewrite Ed.
      unfold steps_open_data.
      by rewrite (st_bind_run _ _ _ _ _ (sys_run _ (set_os s1 w) _ _ (open_enoent s1 fdat O_RDONLY 0 Hf1 (more_fds_enoent _ _ _ Hm1 Hab) eq_refl))). }
    rewrite (st_bind_run _ _ _ _ _ Ef). exists st3, s1. split_and!; [done | done |].
    apply Hnext; [| cbn; by rewrite !length_alter | done].
    intros j Hj. unfold st3, st2, st1. rewrite upd_step_lookup. cbn [ss_set_head ss_mfd]. rewrite !upd_step_lookup.
    by rewrite !decide_False by lia.
Qed.

(** What the handle is at the end: on the main file with the inode [im], or on nothing. *)
Definition ends_at_main (s : os) (im : nat) (c : list Z) (mfd : mfd_t) : Prop :=
  sn_first_file mfd = 0 /\ st_size (mh_fstat (mapheader mfd)) = zlen c /\ locklabel mfd <> 0 /\
  exists step, sn_steps mfd !! 0%nat = Some step /\ open_on s (step_datfd step) im O_RDONLY false.
Definition ends_nowhere (mfd : mfd_t) : Prop := sn_first_file mfd = -1 /\ mapheader mfd = h0.
Definition skip_end (s : os) (main : option (nat * list Z)) (mfd : mfd_t) : Prop :=
  mfd_sn_number mfd = num /\ match main with Some (im, c) => ends_at_main s im c mfd | None => ends_nowhere mfd end.

Definition main_at (s : os) (p : path) (main : option (nat * list Z)) : Prop :=
  match main with Some (im, c) => file_at s p im c | None => enoent_at s p end.

Lemma skip_main w st r main :
  os_faults (w_os w) = [] -> skip_inv 1 st -> roots !! 0%nat = Some r -> strlen inpath + strlen r < PATH_MAX ->
  main_at (w_os w) (resolve (r +:+ inpath)) main ->
  exists c st' s', steps_body inpath SN_STEPS_F_FILE 0 st w = Some ((c, st'), set_os s' w) /\
    (c = CContinue \/ c = CEnd) /\ more_fds (w_os w) s' /\ ss_err st' = 0 /\ skip_end s' main (ss_mfd st').
Proof.
  intros Hf Hi Hr Hfit Hmain. rewrite (skip_body_path _ _ r _ Hi Hr Hfit).
  set (path := r +:+ inpath) in *. pose proof Hi as [].
  pose proof (sk_todo0 0%nat ltac:(lia)) as Hst. rewrite Hr in Hst. cbn in Hst.
  unfold steps_file, steps_file_main. change (0 <? Z.of_nat 0) with false. change (has SN_STEPS_F_FILE SN_STEPS_F_SKIPOPENDAT) with false.
  cbv iota zeta. destruct main as [[im c] |]; cbn in Hmain.
  - destruct (open_rdonly w path im c Hf Hmain) as (s1 & E1 & Hm1 & Hfd1 & _). set (fd := fresh_fd (w_os w)) in *.
    assert (Hf1 : os_faults s1 = []) by by rewrite (mf_faults _ _ Hm1). set (st3 := main_step path fd st).
    rewrite (st_bind_run _ _ w (None, st3) (set_os s1 w)) by (unfold steps_open_data; by rewrite (st_bind_run _ _ _ _ _ E1)).
    cbv iota. unfold steps_file_first. change (sn_first_file (ss_mfd st3)) with (sn_first_file (ss_mfd st)). rewrite sk_first0.
    cbn [Z.eqb Pos.eqb]. change (0 <? Z.of_nat 0) with false. cbv iota zeta.
    destruct (lstat_file s1 path im c Hf1 (more_fds_file_at _ _ _ _ _ Hm1 Hmain)) as (ls & n & El & _ & _ & Hsz & _).
    rewrite (st_bind_run _ _ _ _ _ (sys_run _ (set_os s1 w) _ _ El)).
    eexists _, _, s1. split_and!; [done | by right | done | done |]. split; [done |].
    split_and!; [done | done | cbn; pose proof (locklabel_pos path); lia |].
    exists (SnStep path SN_STEPS_MAIN fd None). split; [| by apply fd_file_split in Hfd1 as [? _]].
    exact (main_step_lookup path fd st r 0 Hst).
  - rewrite (st_bind_run _ _ w (Some CContinue, main_step path SN_STEPS_UNUSED st) w).
    2: { unfold steps_open_data.
      rewrite (st_bind_run _ _ _ _ _ (sys_run _ _ _ _ (open_enoent (w_os w) path O_RDONLY 0 Hf Hmain eq_refl))). by rewrite set_os_id. }
    eexists _, _, (w_os w). rewrite set_os_id. split_and!; [done | by left | done | done |]. by split_and!.
Qed.

Lemma skip_loop main k : forall w st,
  os_faults (w_os w) = [] -> skip_inv (S k) st -> (k < length roots)%nat ->
  (forall r, r ∈ roots -> strlen inpath + strlen r < PATH_MAX) ->
  (forall j r, roots !! S j = Some r -> passed_over (w_os w) (r +:+ inpath)) ->
  (forall r, roots !! 0%nat = Some r -> main_at (w_os w) (resolve (r +:+ inpath)) main) ->
  exists st' s', steps_loop inpath SN_STEPS_F_FILE (S k) st w = Some (st', set_os s' w) /\
    more_fds (w_os w) s' /\ ss_err st' = 0 /\ skip_end s' main (ss_mfd st').
Proof.
  induction k as [| k IH]; intros w st Hf Hi Hk Hfit Hp Hm; destruct (lookup_lt_is_Some_2 roots _ Hk) as [r Hr];
    pose proof (Hfit r (list_elem_of_lookup_2 _ _ _ Hr)) as Hfr.
  - destruct (skip_main w st r main Hf Hi Hr Hfr (Hm r Hr)) as (c & st' & s' & E & Hc & Hmf & He & Hend).
    rewrite (steps_loop_next inpath _ _ _ _ _ _ _ E Hc He). by exists st', s'.
  - destruct (skip_body w k st r Hf Hi Hr Hfr (Hp k r Hr)) as (st1 & s1 & E & Hm1 & Hi1).
    rewrite (steps_loop_next inpath _ _ _ _ _ _ _ E (or_introl eq_refl) (sk_err _ _ Hi1)).
    destruct (IH (set_os s1 w) st1) as (st' & s' & E' & Hm' & He & Hend); try done.
    + by rewrite <-Hf; apply (mf_faults _ _ Hm1).
    + lia.
    + intros j q Hq. by eapply more_fds_passed, Hp.
    + intros q Hq. pose proof (Hm q Hq) as H. destruct main as [[im c] |]; cbn in *; [by eapply more_fds_file_at | by eapply more_fds_enoent].
    + exists st', s'. split_and!; [done | by etransitivity | done | done].
Qed.
End Loop.

(** ** Opening *)

(** A path inside a snapshot of the chain; [l] are the snapshots from the
    latest one to that of the path. *)
Record sn_chained (w : world) (path id inpath : string) (sns l : list string) : Prop := {
  sc_faults : os_faults (w_os w) = [];
  sc_chain : chain (w_os w) (w_fs w) sns;
  sc_latest : fs_latest (w_fs w) sns;
  sc_count : zlen sns + 1 < MAX_SNAPSHOTS;
  sc_path : is_path_in_sn path = true /\ is_Some (match map_path path (w_fs w) with Ok p => Some p | Err _ => None end);
  sc_parts : snd (decompose_sn_path path) = SnPath snpath_full id inpath;
  sc_id : strlen id + strlen (sn_dir (w_fs w)) < PATH_MAX;
  sc_upto : upto (sn_dir (w_fs w) +:+ id) sns = Some l;
  sc_fit : forall r, r ∈ rootdir (w_fs w) :: l -> strlen inpath + strlen r < PATH_MAX
}.

(** What the search for the steps needs of it. *)
Record sn_found (w : world) (path id inpath : string) (l : list string) : Prop := {
  sd_faults : os_faults (w_os w) = [];
  sd_path : is_path_in_sn path = true /\ is_Some (match map_path path (w_fs w) with Ok p => Some p | Err _ => None end);
  sd_parts : snd (decompose_sn_path path) = SnPath snpath_full id inpath;
  sd_roots : forall mfd, sn_get_paths_to mfd (SnPath snpath_full id inpath) w
    = Some ((0, set_sn_current (zlen l) (set_sn_steps (new_step <$> rootdir (w_fs w) :: l) mfd)), w);
  sd_fit : forall r, r ∈ rootdir (w_fs w) :: l -> strlen inpath + strlen r < PATH_MAX
}.

Lemma sn_chained_found w path id inpath sns l : sn_chained w path id inpath sns l -> sn_found w path id inpath l.
Proof.
  intros []. split; try done. intros mfd. destruct sns as [| p ps]; [done |].
  rewrite (sn_get_paths_to_spec w p ps mfd (SnPath snpath_full id inpath) sc_faults0 sc_chain0 sc_latest0 ltac:(done) sc_id0
    ltac:(rewrite zlen_cons in sc_count0; lia)). cbn [sp_id]. by rewrite sc_upto0.
Qed.

Lemma sn_ready_chained w path id inpath sns l views target :
  sn_ready w path id inpath sns l views target -> sn_chained w path id inpath sns l.
Proof.
  intros []. split; try done. intros r [k Hk]%list_elem_of_lookup. exact (dk_fit _ _ _ _ sr_disk _ _ Hk).
Qed.

(** The handle that [open] gives. *)
Record opened_passed (w w' : world) (fh : Z) (main : option (nat * list Z)) (mfd : mfd_t) : Prop := {
  op_world : exists s', w' = set_mfds (<[fh := mfd]> (w_mfds w)) (set_os s' w) /\ more_fds (w_os w) s';
  op_full : is_main mfd = mfd_sn_full;
  op_end : skip_end (sn_number (w_fs w)) (mapheader (w_junk_mfd w)) (w_os w') main mfd
}.

Lemma op_handle w w' fh main mfd : opened_passed w w' fh main mfd -> w_mfds w' !! fh = Some mfd.
Proof. intros [(s' & -> & _) _ _]. cbn. apply lookup_insert_eq. Qed.

Lemma open_passed_over (lock_ unlock_ : Z -> M Z) w path id inpath l main flags :
  sn_found w path id inpath l -> Forall (fun r => passed_over (w_os w) (r +:+ inpath)) l ->
  main_at (w_os w) (resolve (rootdir (w_fs w) +:+ inpath)) main -> Z.land flags O_ACCMODE = O_RDONLY ->
  exists w' fh mfd, esfs_open lock_ unlock_ path flags w = Some ((0, Some fh), w') /\ opened_passed w w' fh main mfd.
Proof.
  intros [Hf [Hsn [fpath Hfp]] Hparts Hroots Hfit] Hp Hmain Hfl.
  unfold esfs_open, if_path_sn. rewrite (st_bind_run get_fs _ w (w_fs w) w eq_refl), Hsn.
  destruct (map_path path (w_fs w)) as [p |]; [| done].
  rewrite (st_bind_run _ _ _ _ _ (malloc_ok w Hf)). cbn [negb]. rewrite Hparts.
  unfold esfs_open_sn. rewrite Hfl, Z.eqb_refl. cbn [negb is_there].
  rewrite (st_bind_run malloc_mfd _ w (Some (w_junk_mfd w)) w) by (unfold malloc_mfd; by rewrite malloc_ok).
  set (num := sn_number (w_fs w)). set (h0 := mapheader (w_junk_mfd w)).
  assert (E : exists mfd s', mfd_get_sn_steps (w_junk_mfd w) (SnPath snpath_full id inpath) SN_STEPS_F_FILE w = Some ((0, mfd), set_os s' w) /\
    more_fds (w_os w) s' /\ skip_end num h0 s' main mfd).
  { unfold mfd_get_sn_steps. rewrite (st_bind_run get_fs _ w (w_fs w) w eq_refl), (st_bind_run st_get _ w w w eq_refl).
    rewrite (st_bind_run _ _ _ _ _ (Hroots _)). cbn [Z.eqb negb is_there sp_inpath].
    set (mfd2 := set_sn_first_file (-1) _). set (st := StepsSt mfd2 0 _).
    change (sn_current mfd2) with (zlen l). replace (Z.to_nat (zlen l + 1)) with (S (length l)) by (unfold zlen; lia).
    assert (Hi : skip_inv (rootdir (w_fs w) :: l) num h0 (S (length l)) st).
    { split; try done; [by rewrite <-(length_fmap new_step) |]. intros j _. exact (list_lookup_fmap new_step (rootdir (w_fs w) :: l) j). }
    destruct (skip_loop inpath _ num h0 main (length l) w st Hf Hi ltac:(cbn; lia) Hfit) as (st' & s' & E & Hm & He & Hend).
    - intros j r Hr. exact (Forall_lookup_1 _ _ _ _ Hp Hr).
    - by intros r [= <-].
    - exists (ss_mfd st'), s'. rewrite (st_bind_run _ _ _ _ _ E), He. done. }
  destruct E as (mfd & s' & E & Hm & Hend). rewrite (st_bind_run _ _ _ _ _ E). cbn [Z.eqb negb].
  eexists _, _, (set_is_main mfd_sn_full mfd). split; [done |]. split; [by exists s' | done |].
  by destruct main as [[im c] |].
Qed.

(** ** Reading *)

(** The size in the header matters only for where it cuts the range. *)
Lemma st_bind_ext {W A B} (m m' : ST W A) (f f' : A -> ST W B) w :
  m w = m' w -> (forall a w', f a w' = f' a w') -> (m ≫= f) w = (m' ≫= f') w.
Proof. intros E Hf. unfold mbind, ST_bind. rewrite E. destruct (m' w) as [[a w'] |]; [apply Hf | done]. Qed.

Section Head.
Context (lock_ unlock_ : Z -> M Z) (h : mapheader_t) (mfd : mfd_t).

Lemma b_read_sni_head k : forall lock b to len from buf w,
  b_read_sni lock_ unlock_ (set_mapheader h mfd) k lock b to len from buf w = b_read_sni lock_ unlock_ mfd k lock b to len from buf w.
Proof.
  induction k as [| k IH]; intros lock b to len from buf w; [done |]. cbn [b_read_sni].
  apply st_bind_ext; [done |]. intros lock' w1. apply st_bind_ext; [done |]. intros [e buf'] w2. destruct (e =? 0); [apply IH | done].
Qed.

Lemma b_read_loop_head n : forall b to off size buf w,
  b_read_loop lock_ unlock_ (set_mapheader h mfd) n b to off size buf w = b_read_loop lock_ unlock_ mfd n b to off size buf w.
Proof.
  induction n as [| n IH]; intros b to off size buf w; [done |]. cbn [b_read_loop].
  destruct (b_read_part _ _ _ _ _) as [from len]. apply st_bind_ext; [apply b_read_sni_head |].
  intros [[r |] buf'] w1; [done | apply IH].
Qed.

(** The part of the range below a size. *)
Definition cut_len (n size off : Z) : Z := Z.max 0 (Z.min size (n - off)).

Lemma b_read_cut size off buf w :
  let n := st_size (mh_fstat (mapheader mfd)) in
  0 <= n <= st_size (mh_fstat h) -> st_size (mh_fstat h) < 2 ^ 62 -> 0 <= off -> 0 <= size -> off + size < 2 ^ 63 ->
  b_read lock_ unlock_ buf mfd size off w = b_read lock_ unlock_ buf (set_mapheader h mfd) (cut_len n size off) off w.
Proof.
  intros n Hn Hh Ho Hs Hb. unfold b_read. change (mapheader (set_mapheader h mfd)) with h. fold n.
  assert (Hz : cut_len n size off = 0 \/ (cut_len n size off = Z.min size (n - off) /\ 0 < size /\ off < n)) by (unfold cut_len; lia).
  destruct (Z.eqb_spec size 0) as [-> | ?].
  { replace (cut_len n 0 off) with 0 by (unfold cut_len; lia). done. }
  rewrite !(u64_small n), !(u64_small (off + size)) by lia.
  destruct (Z.ltb_spec n (off + size)); [destruct (Z.leb_spec n off) |].
  - replace (cut_len n size off) with 0 by (unfold cut_len; lia). done.
  - rewrite (u64_small (n - off)) by lia. replace (cut_len n size off) with (n - off) by (unfold cut_len; lia).
    destruct (Z.eqb_spec (n - off) 0); [lia |]. rewrite !u64_small by lia.
    destruct (Z.ltb_spec (st_size (mh_fstat h)) (off + (n - off))); [lia |].
    destruct (B_CALC_BLOCKS off (n - off)). by rewrite b_read_loop_head.
  - replace (cut_len n size off) with size by (unfold cut_len; lia).
    destruct (Z.eqb_spec size 0); [lia |]. rewrite !u64_small by lia.
    destruct (Z.ltb_spec (st_size (mh_fstat h)) (off + size)); [lia |].
    destruct (B_CALC_BLOCKS off size). by rewrite b_read_loop_head.
Qed.
End Head.

(** A stat of a given size. *)
Definition sized (n : Z) : mapheader_t := MapHeader 0 1 (Stat 0 0 0 0 0 0 0 n 0 0 0 0 0) [].

Section ReadMain.
Context (lock_ unlock_ : Z -> M Z) {LS : LockService lock_ unlock_}.

(** The handle on the main file reads what the main file holds at the time,
    up to the size that it had when it was opened. *)
Lemma read_main_now w fh mfd im c now buf size off :
  w_mfds w !! fh = Some mfd -> is_main mfd = mfd_sn_full -> mfd_sn_number mfd = sn_number (w_fs w) ->
  os_faults (w_os w) = [] -> lk_idle (mflocks (w_fs w)) ->
  ends_at_main (w_os w) im c mfd -> regular (w_os w) im now -> zlen c <= zlen now < 2 ^ 62 ->
  0 <= off -> 0 <= size < 2 ^ 31 -> off + size < 2 ^ 63 ->
  exists w', esfs_read lock_ unlock_ fh buf size off w
    = Some ((read_len c size off, file_write buf (file_read now (read_len c size off) off) 0), w') /\ rframe w w'.
Proof using LS.
  intros Hm Hfull Hnum Hf Hi (Hfirst & Hsz & Hlab & step & Hst & Hon) Hreg Hlen Ho Hs Hb. pose proof (zlen_nonneg c).
  unfold esfs_read. rewrite (st_bind_run (get_mfd fh) _ w mfd w) by (unfold get_mfd; by rewrite Hm). rewrite Hfull.
  rewrite (st_bind_run (mfd_in_sn_validate mfd) _ w 0 w).
  2: { unfold mfd_in_sn_validate, get_fs, mbind, ST_bind. by rewrite Hnum, Z.eqb_refl. }
  cbn [Z.eqb negb]. rewrite (b_read_cut lock_ unlock_ (sized (zlen now))) by (rewrite ?Hsz; cbn -[zlen Z.pow]; lia).
  rewrite Hsz. change (cut_len (zlen c) size off) with (read_len c size off). set (n := read_len c size off).
  assert (Hn : 0 <= n < 2 ^ 31 /\ (n = 0 \/ off + n <= zlen c)) by (unfold n, read_len; lia).
  set (mfd' := set_mapheader (sized (zlen now)) mfd). set (views := now :: replicate (length (sn_steps mfd) - 1) []).
  assert (Hro : read_ok lk_idle w mfd' views now).
  { split; try done.
    - split.
      + intros step' v Hs0 [= <-]. cbn in Hs0. rewrite Hst in Hs0. injection Hs0 as <-. right. exists im, O_RDONLY, false.
        split; [by apply fd_file_split | done].
      + intros k step' v v' _ [-> _]%lookup_replicate _. by left.
      + cbn. rewrite length_replicate. destruct (sn_steps mfd); [done | cbn; lia].
    - cbn. by rewrite Hfirst.
    - cbn. by rewrite Hfirst.
    - cbn -[zlen Z.pow]. lia.
    - unfold atomic. by rewrite Hf. }
  destruct (b_read_spec lock_ unlock_ mfd' views now w buf n off Hro Ho (proj1 Hn) ltac:(lia)) as (r & buf' & w' & -> & Hfr & _ & Hpost).
  destruct Hpost as [[-> ->] | [_ Hfl]]; [| by destruct (not_faulty_nil _ Hf)].
  replace (read_len now n off) with n by (unfold read_len; lia). by exists w'.
Qed.
End ReadMain.

(** The handle on nothing: the size is what was in memory, and nothing is read. *)
Section ReadNowhere.
Context (lock_ unlock_ : Z -> M Z).

Lemma b_read_loop_nowhere mfd off size buf n : forall b w,
  sn_first_file mfd = -1 -> 0 <= off -> 1 <= size < 2 ^ 31 -> off + size < 2 ^ 62 ->
  off / BL_S <= b -> b + Z.of_nat n = (off + size - 1) / BL_S + 1 ->
  b_read_loop lock_ unlock_ mfd n b (copied off size b) off size buf w = Some ((size, buf), w).
Proof.
  induction n as [| n IH]; intros b w Hf Ho Hs Hb Hlo Hn.
  { replace b with ((off + size - 1) / BL_S + 1) by lia. rewrite copied_end by lia. cbn [b_read_loop]. by rewrite i32_small by lia. }
  cbn [b_read_loop]. destruct (b_read_part_eq off size b (S n =? 1)%nat) as (from & E & _ & _ & _ & _); [lia.. | |].
  { destruct n; cbn; split; intros; (done || lia). }
  rewrite E, Hf. change (Z.to_nat (-1 + 1)) with 0%nat. cbn [b_read_sni].
  rewrite (st_bind_run (mret _) _ w _ w eq_refl). cbv iota.
  replace (copied off size b + (copied off size (b + 1) - copied off size b)) with (copied off size (b + 1)) by lia.
  apply IH; (done || lia).
Qed.

(** How many bytes are reported, by the size in memory. *)
Definition junk_len (n size off : Z) : Z := if n <? 0 then size else cut_len n size off.

Lemma read_nowhere w fh mfd buf size off :
  w_mfds w !! fh = Some mfd -> is_main mfd = mfd_sn_full -> mfd_sn_number mfd = sn_number (w_fs w) -> sn_first_file mfd = -1 ->
  - 2 ^ 63 <= st_size (mh_fstat (mapheader mfd)) < 2 ^ 63 ->
  0 <= off -> 0 <= size < 2 ^ 31 -> off + size < 2 ^ 62 ->
  esfs_read lock_ unlock_ fh buf size off w = Some ((junk_len (st_size (mh_fstat (mapheader mfd))) size off, buf), w).
Proof.
  intros Hm Hfull Hnum Hfirst Hn Ho Hs Hb.
  unfold esfs_read. rewrite (st_bind_run (get_mfd fh) _ w mfd w) by (unfold get_mfd; by rewrite Hm). rewrite Hfull.
  rewrite (st_bind_run (mfd_in_sn_validate mfd) _ w 0 w).
  2: { unfold mfd_in_sn_validate, get_fs, mbind, ST_bind. by rewrite Hnum, Z.eqb_refl. }
  cbn [Z.eqb negb]. unfold b_read. set (n := st_size (mh_fstat (mapheader mfd))) in *. unfold junk_len.
  assert (Hgo : forall k, 1 <= k <= size -> (let '(bo, bn) := B_CALC_BLOCKS off k in
    b_read_loop lock_ unlock_ mfd (Z.to_nat bn) bo 0 off k buf) w = Some ((k, buf), w)).
  { intros k Hk. rewrite calc_blocks_eq by lia.
    pose proof (Z.div_le_mono off (off + k - 1) BL_S ltac:(done) ltac:(lia)).
    pose proof (b_read_loop_nowhere mfd off k buf (Z.to_nat ((off + k - 1) / BL_S - off / BL_S + 1)) (off / BL_S) w Hfirst) as L.
    rewrite copied_first in L by lia. apply L; lia. }
  destruct (Z.eqb_spec size 0) as [-> | ?].
  { replace (cut_len n 0 off) with 0 by (unfold cut_len; lia). by destruct (n <? 0). }
  rewrite (u64_small (off + size)) by lia. destruct (Z.ltb_spec n 0) as [Hneg | Hpos].
  - replace (u64 n) with (n + 2 ^ 64) by (unfold u64; apply (Z.mod_unique _ _ (-1)); lia).
    destruct (Z.ltb_spec (n + 2 ^ 64) (off + size)); [lia |]. apply Hgo. lia.
  - rewrite (u64_small n) by lia. destruct (Z.ltb_spec n (off + size)); [destruct (Z.leb_spec n off) |].
    + by replace (cut_len n size off) with 0 by (unfold cut_len; lia).
    + rewrite (u64_small (n - off)) by lia. replace (cut_len n size off) with (n - off) by (unfold cut_len; lia). apply Hgo. lia.
    + replace (cut_len n size off) with size by (unfold cut_len; lia). apply Hgo. lia.
Qed.
End ReadNowhere.

(** ** Looking *)

(** [getattr] stops at a snapshot with a map file, whether there is a dat
    file or not, and gives the size in its header. *)
Lemma mfd_get_sn_steps_mapped w mfd path id inpath l p h c :
  sn_found w path id inpath (l ++ [p]) -> no_dat_at (w_os w) (p +:+ inpath) h -> header_for c h ->
  plain_at (w_os w) (resolve (p +:+ inpath)) ->
  exists mfd' s', mfd_get_sn_steps mfd (SnPath snpath_full id inpath) STAT_FLAGS w = Some ((0, mfd'), set_os s' w) /\
    os_faults s' = [] /\ stat_found (Some c) (w_os w) s' (StepsSt mfd' 0 h).
Proof.
  intros [Hf _ _ Hroots Hfit] (fmap & fdat & ip & map & Em & _ & Hmap & Hh & _) Hfor Hp. unfold mfd_get_sn_steps.
  rewrite (st_bind_run get_fs _ w (w_fs w) w eq_refl), (st_bind_run st_get _ w w w eq_refl), (st_bind_run _ _ _ _ _ (Hroots _)).
  cbn [Z.eqb negb is_there sp_inpath]. set (roots := rootdir (w_fs w) :: l ++ [p]) in *.
  set (mfd2 := set_sn_first_file (-1) _). set (st := StepsSt mfd2 0 _). change (sn_current mfd2) with (zlen (l ++ [p])).
  replace (Z.to_nat (zlen (l ++ [p]) + 1)) with (S (S (length l))) by (unfold zlen; rewrite length_app; cbn; lia).
  assert (Hi : stat_inv roots (replicate (S (S (length l))) (Some c)) (Some c) (S (S (length l))) st).
  { split; try done.
    - by rewrite <-(length_fmap new_step).
    - intros j _. exact (list_lookup_fmap new_step roots j).
    - apply Forall_fmap, Forall_forall. intros x _. reflexivity.
    - apply lookup_replicate_2. lia.
    - unfold roots. rewrite zlen_cons. change (sn_current (ss_mfd st)) with (zlen (l ++ [p])). lia. }
  assert (Hr : roots !! S (length l) = Some p) by exact (list_lookup_middle l [] p (length l) eq_refl).
  destruct (stat_body_mapped inpath roots (replicate (S (S (length l))) (Some c)) (Some c) w (length l) st p fmap ip map h)
    as (st' & s' & E & Hm & [Hfirst (Herr & Hex & Hsz) Hcur Hfds]); try done.
  { by apply Hfit, (list_elem_of_lookup_2 _ _ _ Hr). }
  exists (ss_mfd st'), s'. cbn [steps_loop].
  assert (El : (steps_body inpath STAT_FLAGS (S (length l)) st ≫= fun x => let '(ct, st0) := x in
    match ct with CBreak => mret st0 | CContinue => steps_loop inpath STAT_FLAGS (S (length l)) st0
    | CEnd => if negb (ss_err st0 =? 0) then mret st0 else steps_loop inpath STAT_FLAGS (S (length l)) st0 end) w = Some (st', set_os s' w))
    by by rewrite (st_bind_run _ _ _ _ _ E).
  rewrite (st_bind_run _ _ _ _ _ El), Herr. split_and!; [done | by rewrite (mf_faults _ _ Hm) |].
  by split.
Qed.

Lemma getattr_mapped w path id inpath l p h c :
  sn_found w path id inpath (l ++ [p]) -> no_dat_at (w_os w) (p +:+ inpath) h -> header_for c h ->
  plain_at (w_os w) (resolve (p +:+ inpath)) ->
  exists st w', esfs_getattr path w = Some ((0, Some st), w') /\ st_size st = zlen c.
Proof.
  intros Hfound Hnd Hfor Hp. pose proof Hfound as [Hf [Hsn [fpath Hfp]] Hparts _ _].
  unfold esfs_getattr, if_path_sn. rewrite (st_bind_run get_fs _ w (w_fs w) w eq_refl), Hsn.
  destruct (map_path path (w_fs w)) as [q |]; [| done].
  rewrite (st_bind_run _ _ _ _ _ (malloc_ok w Hf)). cbn [negb]. rewrite Hparts. cbn [is_there].
  rewrite (st_bind_run st_get _ w w w eq_refl).
  destruct (mfd_get_sn_steps_mapped w (w_junk_mfd w) path id inpath l p h c Hfound Hnd Hfor Hp)
    as (mfd & s' & E & Hf' & [Hfirst (_ & Hex & Hsz) Hcur Hfds]). cbn [ss_mfd] in *.
  rewrite (st_bind_run _ _ _ _ _ E). cbn [Z.eqb negb].
  destruct (mfd_destroy_owned (set_os s' w) mfd (w_os w) Hf' Hfirst Hcur Hfds) as (x & Ed & _).
  rewrite (st_bind_run _ _ _ _ _ Ed). unfold sn_absent.
  destruct (Z.eqb_spec (sn_first_file mfd) (-1)); [lia |].
  destruct Hex as [-> | ->]; [| rewrite andb_false_r]; eexists _, _; done.
Qed.
