(* ===== verification/FuseDirTheorems.v ===== *)
(** What a listing of a directory in a snapshot shows. *)

From S2P Require Import Prelude Posix PosixSpec PosixPath Types Util UtilTheorems Mflock Snapshot SnapshotTheorems.
From S2P Require Import Block CopyOnWrite Mfd SnSteps FuseFd FuseDir SnStepsTheorems SnStat SmallSystem.

(** ** The abstract listing *)

(** What an entry says of a name: its stat, or that it does not exist.
    [None] says nothing. *)
Definition info : Type := option (string * option stat_t).

(** The first word on a name is the last. *)
Definition take_info (acc : list string * list (string * stat_t)) (i : info) : list string * list (string * stat_t) :=
  match i with
  | None => acc
  | Some (n, x) =>
      if decide (n ∈ acc.1) then acc
      else (acc.1 ++ [n], match x with Some st => acc.2 ++ [(n, st)] | None => acc.2 end)
  end.

Definition listing (skip : list string) (its : list info) : list (string * stat_t) := snd (foldl take_info (skip, []) its).

Fixpoint first_info (n : string) (its : list info) : option (option stat_t) :=
  match its with
  | [] => None
  | Some (m, x) :: r => if decide (m = n) then Some x else first_info n r
  | None :: r => first_info n r
  end.

Lemma take_info_spec its : forall seen out n st,
  (n, st) ∈ snd (foldl take_info (seen, out) its) <-> (n, st) ∈ out \/ ((n ∉ seen) /\ first_info n its = Some (Some st)).
Proof.
  induction its as [| [[m x] |] its IH]; intros seen out n st; cbn [foldl first_info take_info fst snd].
  - split; [by left | by intros [? | [_ ?]]].
  - case_decide as Hm; rewrite IH.
    + case_decide; [subst; tauto | done].
    + rewrite elem_of_app, list_elem_of_singleton. case_decide as Hmn; [subst m |].
      * destruct x as [s |]; [rewrite elem_of_app, list_elem_of_singleton |].
        -- split; [intros [[? | [= ->]] | [[] ?]]; tauto | intros [? | [? [= ->]]]; tauto].
        -- split; [intros [? | [[] ?]]; tauto | by intros [? | [? [=]]]; left].
      * destruct x as [s |]; [rewrite elem_of_app, list_elem_of_singleton |]; [| intuition congruence].
        assert ((n, st) <> (m, s)) by congruence. intuition congruence.
  - apply IH.
Qed.

Lemma take_info_nodup its : forall seen out,
  NoDup (fst <$> out) -> (forall p, p ∈ out -> p.1 ∈ seen) -> NoDup (fst <$> snd (foldl take_info (seen, out) its)).
Proof.
  induction its as [| [[m x] |] its IH]; intros seen out Hn Hs; cbn [foldl take_info fst snd]; [done | | by apply IH].
  case_decide as Hm; [by apply IH |]. apply IH.
  - destruct x; [| done]. rewrite fmap_app. apply NoDup_app. split_and!; [done | | apply NoDup_singleton].
    intros y (p & -> & Hp)%list_elem_of_fmap. cbn. rewrite list_elem_of_singleton. intros E. apply Hm. rewrite <-E. by apply Hs.
  - intros p Hp. apply elem_of_app. destruct x; [| left; by apply Hs].
    apply elem_of_app in Hp as [? | ->%list_elem_of_singleton]; [left; by apply Hs | right; by apply list_elem_of_singleton].
Qed.

(** ** What is on disk *)

(** The entry [d] of the directory [path] at step [sni]. *)
Definition describes (s : os) (sni : nat) (path d : string) (i : info) : Prop :=
  let fpath := path +:+ DIRSEP +:+ d in
  let j := if decide (sni = 0%nat) then 1 else mfd_filter_name d in
  strlen path + 1 + strlen d < PATH_MAX /\
  ((j = 0 /\ i = None) \/
   (j = 1 /\ exists ino n, lookup_path s (resolve fpath) = Ok ino /\ os_inodes s !! ino = Some n /\
      i = Some (d, Some (stat_of ino n))) \/
   (j = 2 /\ exists ip map h, file_at s (resolve fpath) ip map /\ map_header map h /\
      i = Some (strncpy d (strlen d - EXT_LEN), if mh_exists h =? 1 then Some (mh_fstat h) else None))).

(** One step of the handle: an open directory at its start, or nothing. *)
Definition step_lists (s : os) (sni : nat) (step : sn_steps_t) (its : list info) : Prop :=
  (step_mapfd step = SN_STEPS_UNUSED /\ its = []) \/
  (step_mapfd step <> SN_STEPS_UNUSED /\ exists dir ino acc app,
     step_dirfd step = Some dir /\ os_fds s !! dir = Some (OFile ino acc app 0) /\ is_Some (os_inodes s !! ino) /\
     Forall2 (describes s sni (step_path step)) (dir_entries s ino) its).

(** The steps of a handle, with what each of them says. *)
Record dirs_ok (s : os) (mfd : mfd_t) (itss : list (list info)) : Prop := {
  do_len : length itss = length (sn_steps mfd) /\ zlen (sn_steps mfd) = sn_current mfd + 1;
  do_step : forall k step its, sn_steps mfd !! k = Some step -> itss !! k = Some its -> step_lists s k step its;
  do_distinct : forall k k' step step' d, sn_steps mfd !! k = Some step -> sn_steps mfd !! k' = Some step' ->
    step_dirfd step = Some d -> step_dirfd step' = Some d -> k = k'
}.

Lemma lookup_path_fds s x p : lookup_path (set_fds x s) p = lookup_path s p.
Proof.
  unfold lookup_path. assert (E : forall ps, walk (set_fds x s) ps = walk s ps).
  { induction ps as [| q ps IH]; cbn; [done |]. unfold node_at. cbn. destruct (_ ≫= _) as [i |]; [| done]. by destruct (i_isdir i). }
  by rewrite E.
Qed.

Lemma describes_fds s x sni path d i : describes s sni path d i -> describes (set_fds x s) sni path d i.
Proof.
  intros [Hl [H | [(Hj & ino & n & Hp & Hn & Hi) | (Hj & ip & map & h & Hat & Hh & Hi)]]]; (split; [done |]).
  - by left.
  - right; left. split; [done |]. exists ino, n. by rewrite lookup_path_fds.
  - right; right. split; [done |]. exists ip, map, h. split; [by apply file_at_fds | done].
Qed.

(** ** The loops *)

Section Loops.
Context {B : Type} (filler : B -> string -> option stat_t -> option B) (put : B -> string -> option stat_t -> B).
(** The buffer of FUSE takes every entry. *)
Context (Hfill : forall b n x, filler b n x = Some (put b n x)).
Context (buf0 : B).

Definition put_all (out : list (string * stat_t)) : B := foldl (fun b '(n, st) => put b n (Some st)) buf0 out.

(** The state of the loops and the abstract listing. *)
Definition agrees (st : rd_state) (acc : list string * list (string * stat_t)) : Prop :=
  rd_seen st = acc.1 /\ rd_buf st = put_all acc.2 /\ rd_err st = 0.

Lemma seen_agrees st acc n : agrees st acc -> seen n st = bool_decide (n ∈ acc.1).
Proof. intros (E & _). unfold seen. by rewrite E. Qed.

Lemma rd_store_ok w n st acc out :
  os_faults (w_os w) = [] -> agrees st (acc, out) ->
  exists st', rd_store n st w = Some ((false, st'), w) /\ agrees st' (acc ++ [n], out).
Proof.
  intros Hf (E1 & E2 & E3). cbn in E1, E2. unfold rd_store, rd_next, agrees. case_match.
  - rewrite (st_bind_run _ _ _ _ _ (malloc_ok w Hf)). cbn [negb]. eexists. split; [done |]. cbn. by rewrite E1.
  - eexists. split; [done |]. cbn. by rewrite E1.
Qed.

Lemma rd_show_ok w n st acc out :
  os_faults (w_os w) = [] -> agrees st (acc, out) ->
  exists st', rd_show filler n st w = Some ((false, st'), w) /\
    agrees st' (acc ++ [n], out ++ [(n, mh_fstat (rd_head st))]).
Proof using Hfill.
  intros Hf (E1 & E2 & E3). unfold rd_show. rewrite Hfill. apply rd_store_ok; [done |].
  split; [done |]. split; [| done]. cbn. unfold put_all. rewrite foldl_app. cbn. by rewrite E2.
Qed.

(** One entry. *)
Lemma rd_entry_ok w sni path d i st acc :
  os_faults (w_os w) = [] -> describes (w_os w) sni path d i -> agrees st acc ->
  exists st', rd_entry filler sni path d st w = Some ((false, st'), w) /\ agrees st' (take_info acc i).
Proof using Hfill.
  intros Hf [Hl H] Ha. destruct acc as [sn out]. unfold rd_entry. destruct (Z.ltb_spec PATH_MAX (strlen path + 1 + strlen d)); [lia |].
  set (fpath := path +:+ DIRSEP +:+ d) in *.
  assert (Hplain : forall ino n, lookup_path (w_os w) (resolve fpath) = Ok ino -> os_inodes (w_os w) !! ino = Some n ->
    exists st', rd_plain filler d fpath st w = Some ((false, st'), w) /\
      agrees st' (take_info (sn, out) (Some (d, Some (stat_of ino n))))).
  { intros ino n Hp Hn. unfold rd_plain. rewrite (seen_agrees _ _ _ Ha). cbn [fst take_info].
    destruct (decide (d ∈ sn)) as [Hd | Hd]; [rewrite bool_decide_true by done; by exists st |].
    rewrite bool_decide_false by done.
    assert (El : sys_lstat fpath (w_os w) = (Ok (stat_of ino n), w_os w)).
    { unfold sys_lstat. rewrite syscall_ok by done. by rewrite Hp, Hn. }
    rewrite (st_bind_run _ _ _ _ _ (sys_run _ _ _ _ El)), set_os_id.
    by apply (rd_show_ok w d (rd_set_head (MapHeader _ _ (stat_of ino n) _) st) sn out). }
  destruct (decide (sni = 0%nat)) as [-> | Hsni].
  { destruct H as [[? _] | [(_ & ino & n & Hp & Hn & ->) | [? _]]]; [done | by apply Hplain | done]. }
  destruct (Z.ltb_spec 0 (Z.of_nat sni)); [| lia].
  destruct H as [[-> ->] | [(-> & ino & n & Hp & Hn & ->) | (-> & ip & map & h & Hat & [Hh Hok] & ->)]]; cbn [Z.eqb].
  - by exists st.
  - by apply Hplain.
  - set (name := strncpy d (strlen d - EXT_LEN)). unfold rd_map. rewrite (seen_agrees _ _ _ Ha). cbn [fst take_info].
    destruct (decide (name ∈ sn)) as [Hd | Hd]; [rewrite bool_decide_true by done; by exists st |].
    rewrite bool_decide_false by done.
    set (s1 := opened (w_os w) ip O_RDONLY). cbn [Pos.eqb].
    rewrite (st_bind_run _ _ _ _ _ (sys_run _ _ _ _ (open_existing (w_os w) fpath O_RDONLY 0 ip map Hf Hat eq_refl))).
    change (has O_RDONLY O_TRUNC) with false. cbv iota. fold s1.
    assert (Hfd : fd_file s1 (fresh_fd (w_os w)) ip map O_RDONLY false).
    { apply fd_file_split. split; [apply opened_open_on | apply Hat]. }
    rewrite (st_bind_run _ _ _ _ _ (load_header_ok (set_os s1 w) (rd_head st) _ ip map h Hf Hfd Hh Hok)). cbn [Z.eqb negb].
    assert (Hin : os_fds s1 !! fresh_fd (w_os w) = Some (OFile ip (Z.land O_RDONLY O_ACCMODE) (has O_RDONLY O_APPEND) 0))
      by (unfold s1, opened; cbn; by rewrite lookup_insert_eq).
    rewrite (st_bind_run _ _ _ _ _ (sys_run _ (set_os s1 w) _ _ (close_ok s1 _ _ Hf Hin))).
    unfold s1. rewrite opened_close. change (set_os (w_os w) (set_os (opened (w_os w) ip O_RDONLY) w)) with (set_os (w_os w) w).
    rewrite set_os_id. destruct (mh_exists h =? 1).
    + by apply (rd_show_ok w name (rd_set_head h st) sn out).
    + by apply (rd_store_ok w name (rd_set_head h st) sn out).
Qed.
(** Reading an entry of a stream moves its position. *)
Lemma readdir_ok s dir ino acc app pos :
  os_faults s = [] -> os_fds s !! dir = Some (OFile ino acc app pos) -> is_Some (os_inodes s !! ino) ->
  sys_readdir dir s = match dir_entries s ino !! Z.to_nat pos with
                      | Some c => (Ok (Some c), set_pos dir (pos + 1) s)
                      | None => (Ok None, s)
                      end.
Proof.
  intros Hf Hd [n Hn]. unfold sys_readdir. rewrite syscall_ok by done. unfold fd_node. rewrite Hd. cbn. rewrite Hn. cbn. done.
Qed.

Lemma set_pos_keys s fd pos fd' : of_key <$> os_fds (set_pos fd pos s) !! fd' = of_key <$> os_fds s !! fd'.
Proof.
  cbn. destruct (decide (fd = fd')) as [<- | Hne]; [| by rewrite lookup_alter_ne].
  rewrite lookup_alter_eq. by destruct (os_fds s !! fd) as [[] |].
Qed.

(** One directory. *)
Lemma rd_dir_ok sni path dir its : forall w ino ac ap pos fuel st acc,
  os_faults (w_os w) = [] -> os_fds (w_os w) !! dir = Some (OFile ino ac ap pos) -> is_Some (os_inodes (w_os w) !! ino) ->
  0 <= pos -> Forall2 (describes (w_os w) sni path) (drop (Z.to_nat pos) (dir_entries (w_os w) ino)) its ->
  (length its < fuel)%nat -> agrees st acc ->
  exists st' x, rd_dir filler fuel sni path dir st w = Some (st', set_os (set_fds x (w_os w)) w) /\
    (forall fd, fd <> dir -> x !! fd = os_fds (w_os w) !! fd) /\ fds_back (w_os w) x /\ agrees st' (foldl take_info acc its).
Proof using Hfill.
  induction its as [| i its IH]; intros w ino ac ap pos fuel st acc Hf Hd Hn Hpos Hall Hfu Ha;
    (destruct fuel as [| fuel]; [cbn in Hfu; lia |]); cbn [rd_dir foldl].
  - apply Forall2_nil_inv_r in Hall. assert (E : dir_entries (w_os w) ino !! Z.to_nat pos = None).
    { apply lookup_ge_None. apply (f_equal length) in Hall. rewrite length_drop in Hall.
      change (length (@nil string)) with 0%nat in Hall. lia. }
    pose proof (readdir_ok (w_os w) dir ino ac ap pos Hf Hd Hn) as Er. rewrite E in Er.
    rewrite (st_bind_run _ _ _ _ _ (sys_run _ _ _ _ Er)). exists st, (os_fds (w_os w)). split_and!; [| done | done | done].
    by destruct (w_os w).
  - apply Forall2_cons_inv_r in Hall as (d & ds & Hdesc & Hall & Eds).
    assert (E : dir_entries (w_os w) ino !! Z.to_nat pos = Some d).
    { rewrite <-(Nat.add_0_r (Z.to_nat pos)), <-lookup_drop. by rewrite Eds. }
    pose proof (readdir_ok (w_os w) dir ino ac ap pos Hf Hd Hn) as Er. rewrite E in Er.
    rewrite (st_bind_run _ _ _ _ _ (sys_run _ _ _ _ Er)). set (s1 := set_pos dir (pos + 1) (w_os w)). set (w1 := set_os s1 w).
    destruct (rd_entry_ok w1 sni path d i st acc Hf (describes_fds _ _ _ _ _ _ Hdesc) Ha) as (st1 & E1 & Ha1).
    rewrite (st_bind_run _ _ _ _ _ E1). cbv iota.
    destruct (IH w1 ino ac ap (pos + 1) fuel st1 (take_info acc i)) as (st' & x & E2 & Hx & Hk & Ha2).
    + done.
    + cbn. by rewrite lookup_alter_eq, Hd.
    + done.
    + lia.
    + change (dir_entries (w_os w1) ino) with (dir_entries (w_os w) ino).
      replace (Z.to_nat (pos + 1)) with (Z.to_nat pos + 1)%nat by lia. rewrite <-drop_drop, Eds. cbn.
      eapply Forall2_impl; [done |]. intros. by apply describes_fds.
    + cbn in Hfu. lia.
    + done.
    + exists st', x. split_and!; [done | | | done].
      * intros fd Hfd. rewrite Hx by done. cbn. by rewrite lookup_alter_ne.
      * intros fd. rewrite Hk. apply set_pos_keys.
Qed.

Lemma length_dir_entries s ino : (length (dir_entries s ino) <= size (os_names s) + 2)%nat.
Proof.
  unfold dir_entries. cbn [length]. rewrite <-length_map_to_list, <-(length_fmap fst (map_to_list (os_names s))).
  induction (fst <$> map_to_list (os_names s)) as [| q l IH]; [done |]. cbn. destruct (entry_in s ino q); cbn in *; lia.
Qed.

(** Reading one directory does not disturb the others. *)
Lemma step_lists_fds s x k step its dir :
  (forall fd, fd <> dir -> x !! fd = os_fds s !! fd) -> step_dirfd step <> Some dir ->
  step_lists s k step its -> step_lists (set_fds x s) k step its.
Proof.
  intros Hx Hne [? | (Hu & d & ino & ac & ap & Hd & Hfd & Hn & Hall)]; [by left |]. right. split; [done |].
  exists d, ino, ac, ap. split_and!; [done | | done |].
  - cbn. rewrite Hx; [done | congruence].
  - change (dir_entries (set_fds x s) ino) with (dir_entries s ino).
    eapply Forall2_impl; [done |]. intros. by apply describes_fds.
Qed.

(** All the steps. *)
Lemma rd_steps_ok mfd itss k : forall w st acc,
  os_faults (w_os w) = [] -> (k <= length (sn_steps mfd))%nat -> length itss = length (sn_steps mfd) ->
  (forall j step its, (j < k)%nat -> sn_steps mfd !! j = Some step -> itss !! j = Some its -> step_lists (w_os w) j step its) ->
  (forall j j' step step' d, sn_steps mfd !! j = Some step -> sn_steps mfd !! j' = Some step' ->
     step_dirfd step = Some d -> step_dirfd step' = Some d -> j = j') ->
  agrees st acc ->
  exists st' x, rd_steps filler mfd k st w = Some (st', set_os (set_fds x (w_os w)) w) /\ fds_back (w_os w) x /\
    agrees st' (foldl take_info acc (concat (rev (take k itss)))).
Proof using Hfill.
  induction k as [| k IH]; intros w st acc Hf Hk Hlen Hst Hdi Ha; cbn [rd_steps].
  { exists st, (os_fds (w_os w)). split_and!; [by destruct w as [[] ? ? ? ? ?] | done | done]. }
  destruct (lookup_lt_is_Some_2 (sn_steps mfd) k Hk) as [step Hs]. destruct (lookup_lt_is_Some_2 itss k) as [its Hi]; [lia |].
  rewrite Hs, (take_S_r _ _ _ Hi), rev_app_distr. cbn [rev app concat]. rewrite foldl_app.
  destruct (Hst k step its ltac:(lia) Hs Hi) as [[Hu ->] | (Hu & dir & ino & ac & ap & Hd & Hfd & Hn & Hall)].
  - rewrite Hu, Z.eqb_refl. cbn [foldl]. apply (IH w); (done || lia || (intros; by eapply Hst; [lia | |])).
  - rewrite (proj2 (Z.eqb_neq _ _) Hu), Hd.
    rewrite (st_bind_run dir_fuel _ w (size (os_names (w_os w)) + 3)%nat w eq_refl).
    destruct (rd_dir_ok k (step_path step) dir its w ino ac ap 0 (size (os_names (w_os w)) + 3)%nat st acc)
      as (st1 & x & E1 & Hx & Hk1 & Ha1); try done.
    { pose proof (length_dir_entries (w_os w) ino). apply Forall2_length in Hall. lia. }
    rewrite (st_bind_run _ _ _ _ _ E1), (proj2 (proj2 Ha1)). cbn [Z.eqb negb].
    destruct (IH (set_os (set_fds x (w_os w)) w) st1 (foldl take_info acc its)) as (st2 & x2 & E2 & Hk2 & Ha2); [done | lia | done | | done | done |].
    2: { exists st2, x2. split_and!; [done | | done]. intros fd. rewrite (Hk2 fd). apply Hk1. }
    intros j step' its' Hj Hs' Hi'. apply (step_lists_fds _ _ _ _ _ dir); [done | | by eapply Hst; [lia | |]].
    intros Hd'. pose proof (Hdi _ _ _ _ _ Hs Hs' Hd Hd'). lia.
Qed.

End Loops.

(** [_sn_readdir] as a whole; only positions of descriptors change. *)
Lemma sn_readdir_spec {B} (filler : B -> string -> option stat_t -> option B) put w mfd itss flags buf :
  (forall b n x, filler b n x = Some (put b n x)) ->
  os_faults (w_os w) = [] -> dirs_ok (w_os w) mfd itss ->
  let skip := if has flags READDIR_F_SKIP_SNROOT then ["snapshots"] else [] in
  exists x out, sn_readdir filler mfd flags buf w
      = Some ((0, foldl (fun b '(n, st) => put b n (Some st)) buf out), set_os (set_fds x (w_os w)) w) /\
    fds_back (w_os w) x /\ NoDup (fst <$> out) /\
    forall n st, (n, st) ∈ out <-> (n ∉ skip) /\ first_info n (concat (rev itss)) = Some (Some st).
Proof.
  intros Hfill Hf [[Hlen Hcur] Hst Hdi] skip. unfold sn_readdir.
  rewrite (st_bind_run _ _ _ _ _ (malloc_ok w Hf)). cbn [negb]. rewrite (st_bind_run st_get _ w w w eq_refl).
  change (if has flags READDIR_F_SKIP_SNROOT then [str_from 1 SNDIR] else []) with skip.
  assert (Hk : Z.to_nat (sn_current mfd + 1) = length (sn_steps mfd)) by (unfold zlen in Hcur; lia). rewrite Hk.
  destruct (rd_steps_ok filler put Hfill buf mfd itss (length (sn_steps mfd)) w
              (RdState skip 4 (mapheader (w_junk_mfd w)) buf 0) (skip, [])) as (st' & x & E & Hx & _ & E2 & E3); try done.
  { intros j step its _ Hs Hi. by apply Hst. }
  rewrite (st_bind_run _ _ _ _ _ E), E2, E3. rewrite <-Hlen, firstn_all in *.
  exists x, (listing skip (concat (rev itss))). split_and!; [done | done | |].
  - apply take_info_nodup; [apply NoDup_nil_2 | by intros ? ?%not_elem_of_nil].
  - intros n st. unfold listing. rewrite take_info_spec. split; [intros [?%not_elem_of_nil | ?]; done | by right].
Qed.

(** ** Theorem *)

(** C13 (a directory in a snapshot): reading a directory of a snapshot, when
    no call fails and FUSE takes every entry, returns 0 and gives FUSE each
    name at most once; a name is given, with the stat recorded there, if
    and only if the first of the snapshots from the one being read to the
    latest, and then the main space, that has information on it says that
    it exists, and it is not the snapshot directory itself. *)
Theorem snapshot_listing {B} (filler : B -> string -> option stat_t -> option B) put w mfd itss flags buf :
  (forall b n x, filler b n x = Some (put b n x)) ->
  os_faults (w_os w) = [] -> dirs_ok (w_os w) mfd itss ->
  let skip := if has flags READDIR_F_SKIP_SNROOT then ["snapshots"] else [] in
  exists w' out, sn_readdir filler mfd flags buf w = Some ((0, foldl (fun b '(n, st) => put b n (Some st)) buf out), w') /\
    NoDup (fst <$> out) /\
    forall n st, (n, st) ∈ out <-> (n ∉ skip) /\ first_info n (concat (rev itss)) = Some (Some st).
Proof.
  intros Hfill Hf Hd skip. destruct (sn_readdir_spec filler put w mfd itss flags buf Hfill Hf Hd) as (x & out & E & _ & Hn & Ho).
  eexists _, out. split_and!; [exact E | exact Hn | exact Ho].
Qed.

(** The small system with another file [g], made after the snapshot, and the
    root of the snapshot open. *)
Definition l_header : mapheader_t := MapHeader ESFS_VERSION 0 (sm_stat 0 0) ESFS_SIGNATURE.
Definition l_os : os :=
  Os (<[["r"; "g"] := 9%nat]> (<[["r"; "snapshots"; "s1"; "g.map"] := 10%nat]> sm_names))
     (<[9%nat := sm_file [1]]> (<[10%nat := sm_file (enc_header l_header)]> sm_inodes))
     {[ 10 := OFile 2 O_RDONLY false 0; 11 := OFile 5 O_RDONLY false 0 ]} [].
Definition l_steps : list sn_steps_t :=
  [SnStep "/r" SN_STEPS_NOTOPEN SN_STEPS_NOTOPEN (Some 10); SnStep "/r/snapshots/s1" SN_STEPS_NOTOPEN SN_STEPS_NOTOPEN (Some 11)].
Definition l_mfd : mfd_t := Mfd mfd_sn_id sm_header sm_label 1 0 None 0 0 "" 0 1 1 l_steps.
Definition l_world : world := World l_os sm_fs {[ 300 := l_mfd ]} [] sm_writer 1.

Definition l_stat (ino : nat) : option stat_t := stat_of ino <$> os_inodes l_os !! ino.
Definition l_infos : list (list info) :=
  [[Some (".", l_stat 2); Some ("..", l_stat 1); Some ("snapshots", l_stat 4); Some ("g", l_stat 9); Some ("f", l_stat 3)];
   [Some (".", l_stat 5); Some ("..", l_stat 4); None; Some ("g", None); Some ("f", Some (mh_fstat sm_header))]].

Lemma l_plain path d ino n :
  strlen path + 1 + strlen d < PATH_MAX -> os_inodes l_os !! ino = Some n ->
  lookup_path l_os (resolve (path +:+ DIRSEP +:+ d)) = Ok ino ->
  forall sni, sni = 0%nat \/ mfd_filter_name d = 1 -> describes l_os sni path d (Some (d, l_stat ino)).
Proof.
  intros Hl Hn Hp sni Hj. split; [done |]. right; left. split; [case_decide; [done | tauto] |].
  exists ino, n. split_and!; [done | done |]. unfold l_stat. by rewrite Hn.
Qed.

Lemma l_map d ino h x :
  strlen "/r/snapshots/s1" + 1 + strlen d < PATH_MAX -> mfd_filter_name d = 2 ->
  file_at l_os (resolve ("/r/snapshots/s1/" +:+ d)) ino (enc_header h) -> header_ok h ->
  x = Some (strncpy d (strlen d - EXT_LEN), if mh_exists h =? 1 then Some (mh_fstat h) else None) ->
  describes l_os 1 "/r/snapshots/s1" d x.
Proof.
  intros Hl Hj Hat Hh ->. split; [done |]. right; right. split; [done |]. exists ino, (enc_header h), h.
  split; [done |]. split; [| done]. split; [| done]. apply file_read_all. rewrite zlen_enc_header; [done |]. apply Hh.
Qed.

Lemma l_dirs_ok : dirs_ok l_os l_mfd l_infos.
Proof.
  split; [done | |].
  - intros [| [| k]] step its [= <-] [= <-]; right; (split; [done |]).
    + exists 10, 2%nat, O_RDONLY, false. split_and!; [done | done | by eexists |].
      replace (dir_entries l_os 2) with ["."; ".."; "snapshots"; "g"; "f"] by by vm_compute.
      do 5 (constructor; [eapply l_plain; [by vm_compute | reflexivity | by vm_compute | by left] |]). constructor.
    + exists 11, 5%nat, O_RDONLY, false. split_and!; [done | done | by eexists |].
      replace (dir_entries l_os 5) with ["."; ".."; "f.dat"; "g.map"; "f.map"] by by vm_compute.
      do 2 (constructor; [eapply l_plain; [by vm_compute | reflexivity | by vm_compute | by right] |]).
      constructor; [by split; [vm_compute | left] |].
      constructor; [apply (l_map "g.map" 10 l_header); [by vm_compute | by vm_compute | | | done] |].
      { split; [by vm_compute |]. split; [by vm_compute |]. by eexists. }
      { unfold header_ok, header_wf, stat_wf. cbn. split_and!; (done || lia). }
      constructor; [apply (l_map "f.map" 6 sm_header); [by vm_compute | by vm_compute | | apply sm_header_ok | done] | constructor].
      split; [by vm_compute |]. split; [by vm_compute |]. by eexists.
  - intros k k' step step' d H1 H2. destruct k as [| [| k]], k' as [| [| k']]; cbn in H1, H2; simplify_eq; cbn; congruence.
Qed.

(** The file made after the snapshot is not shown; the other one is, with the
    stat that it had. *)
Lemma snapshot_listing_witness :
  exists w' out,
    sn_readdir (fun b n x => Some (b ++ [(n, x)])) l_mfd READDIR_F_SKIP_SNROOT [] l_world
      = Some ((0, foldl (fun b '(n, st) => b ++ [(n, Some st)]) [] out), w') /\
    ("f", mh_fstat sm_header) ∈ out /\ forall st, ("g", st) ∈ out -> False.
Proof.
  destruct (snapshot_listing (fun b n x => Some (b ++ [(n, x)])) (fun b n x => b ++ [(n, x)]) l_world l_mfd l_infos
              READDIR_F_SKIP_SNROOT []) as (w' & out & E & _ & H); [done | done | apply l_dirs_ok |].
  change (if has READDIR_F_SKIP_SNROOT READDIR_F_SKIP_SNROOT then ["snapshots"] else []) with ["snapshots"] in H.
  exists w', out. split; [exact E |]. split.
  - apply H. split; [by intros ?%list_elem_of_singleton | vm_compute; reflexivity].
  - intros st Hin. apply H in Hin as [_ Hg]. vm_compute in Hg. discriminate.
Defined.
