(* ===== verification/DirSteps.v ===== *)
(** Opening a directory inside a snapshot: [mfd_get_sn_steps] opens the
    directory in every snapshot on the way that has it, and in the main
    space, and what a listing shows is what these directories say. *)

From S2P Require Import Prelude Posix PosixSpec PosixPath Types Util UtilTheorems Mflock Snapshot Tree.
From S2P Require Import SnapshotTheorems Block CopyOnWrite Mfd SnSteps FuseFd FuseDir FusePath Descriptors.
From S2P Require Import SnStepsTheorems SnStat FuseDirTheorems.

(** ** One directory *)

(** A directory that is there, or is missing. *)
Definition dir_disk (s : os) (path : string) : Prop := enoent_at s (resolve path) \/ dir_at s (resolve path).

Lemma opendir_ok w name :
  os_faults (w_os w) = [] -> dir_at (w_os w) (resolve name) ->
  exists ino n, lookup_path (w_os w) (resolve name) = Ok ino /\ os_inodes (w_os w) !! ino = Some n /\ i_isdir n = true /\
    sys (sys_opendir name) w = Some (Ok (fresh_fd (w_os w)), set_os (opened (w_os w) ino O_RDONLY) w).
Proof.
  intros Hf (ino & n & Hl & Hn & Hd). exists ino, n. split_and!; [done | done | done |].
  apply sys_run. unfold sys_opendir. rewrite syscall_ok by done. by rewrite Hl, Hn, Hd.
Qed.

Lemma enoent_path s p : enoent_at s p -> lookup_path s p = Err ENOENT.
Proof. intros H. unfold lookup_path. destruct (enoent_lookup _ _ H) as [-> | [-> ->]]; done. Qed.

Lemma opendir_enoent w name :
  os_faults (w_os w) = [] -> enoent_at (w_os w) (resolve name) -> sys (sys_opendir name) w = Some (Err ENOENT, w).
Proof.
  intros Hf He. rewrite <-(set_os_id w) at 2. apply sys_run. unfold sys_opendir. rewrite syscall_ok by done.
  by rewrite (enoent_path _ _ He).
Qed.

Lemma more_fds_lookup s s' p : more_fds s s' -> lookup_path s' p = lookup_path s p.
Proof. intros H. rewrite (more_fds_eq _ _ H). apply lookup_path_fds. Qed.

Lemma more_fds_dir s s' p : more_fds s s' -> dir_at s p -> dir_at s' p.
Proof. intros H (ino & n & ? & ? & ?). exists ino, n. rewrite (more_fds_lookup _ _ _ H), (mf_inodes _ _ H). done. Qed.

(** A step that is done: not used, or with a stream at its start. *)
Definition step_dir (s : os) (path : string) (step : sn_steps_t) : Prop :=
  (enoent_at s (resolve path) /\ step = SnStep path SN_STEPS_UNUSED SN_STEPS_UNUSED None) \/
  (exists fd ino n, step = SnStep path SN_STEPS_NOTOPEN SN_STEPS_NOTOPEN (Some fd) /\ 0 <= fd /\
     os_fds s !! fd = Some (OFile ino O_RDONLY false 0) /\ lookup_path s (resolve path) = Ok ino /\ os_inodes s !! ino = Some n).

Lemma more_fds_step_dir s s' path step : more_fds s s' -> step_dir s path step -> step_dir s' path step.
Proof.
  intros H [[? ->] | (fd & ino & n & -> & ? & Hfd & Hl & Hn)]; [left; split; [by eapply more_fds_enoent | done] | right].
  exists fd, ino, n. rewrite (more_fds_lookup _ _ _ H), (mf_inodes _ _ H). split_and!; try done. by apply (mf_fds _ _ H).
Qed.

Lemma step_fds_dir p fd : 0 <= fd -> step_fds (SnStep p SN_STEPS_NOTOPEN SN_STEPS_NOTOPEN (Some fd)) = [fd].
Proof. intros H. unfold step_fds, real_fds. cbn [step_mapfd step_datfd step_dirfd]. rewrite !filter_cons.
  rewrite 2!(decide_False (P := 0 <= SN_STEPS_NOTOPEN)) by (unfold SN_STEPS_NOTOPEN; lia). by rewrite decide_True. Qed.

(** ** The loop *)

Section Steps.
Context (mypath : string) (roots : list string) (s0 : os).

(** Steps [k] and up are done. *)
Record dir_inv (s : os) (k : nat) (st : steps_st) : Prop := {
  di_len : length (sn_steps (ss_mfd st)) = length roots;
  di_todo : forall j, (j < k)%nat -> sn_steps (ss_mfd st) !! j = new_step <$> roots !! j;
  di_done : forall j r step, (k <= j)%nat -> roots !! j = Some r -> sn_steps (ss_mfd st) !! j = Some step ->
    step_dir s (r +:+ mypath) step;
  di_first : sn_first_file (ss_mfd st) = -1 \/ 0 <= sn_first_file (ss_mfd st);
  di_found : forall r, k = 0%nat -> roots !! 0%nat = Some r -> dir_at s (resolve (r +:+ mypath)) -> 0 <= sn_first_file (ss_mfd st);
  di_err : ss_err st = 0;
  di_current : sn_current (ss_mfd st) = zlen roots - 1;
  di_fds : owned (concat (step_fds <$> drop k (sn_steps (ss_mfd st)))) s0 s
}.

(** A finished step moves the invariant down. *)
Lemma dir_inv_next s s' k st st' r step' :
  dir_inv s (S k) st -> more_fds s s' -> roots !! k = Some r ->
  (forall j, sn_steps (ss_mfd st') !! j = if decide (k = j) then Some step' else sn_steps (ss_mfd st) !! j) ->
  length (sn_steps (ss_mfd st')) = length (sn_steps (ss_mfd st)) -> step_dir s' (r +:+ mypath) step' ->
  (sn_first_file (ss_mfd st') = sn_first_file (ss_mfd st) /\ ~ dir_at s' (resolve (r +:+ mypath))) \/ 0 <= sn_first_file (ss_mfd st') ->
  ss_err st' = 0 -> sn_current (ss_mfd st') = sn_current (ss_mfd st) ->
  (forall L, owned L s0 s -> owned (step_fds step' ++ L) s0 s') -> dir_inv s' k st'.
Proof.
  intros [] Hm Hr Hl Hlen Hst Hf He Hcur Hown. split; try done.
  - congruence.
  - intros j Hj. rewrite Hl, decide_False by lia. apply di_todo0. lia.
  - intros j r' step Hj Hr' Hs. rewrite Hl in Hs. case_decide as E; [subst; by simplify_eq |].
    eapply more_fds_step_dir; [done |]. apply (di_done0 j); (done || lia).
  - destruct Hf as [[-> _] | ?]; [done | by right].
  - intros r' -> Hr' Hd. simplify_eq. destruct Hf as [[_ Hn] | ?]; [by destruct (Hn Hd) | done].
  - by rewrite Hcur.
  - rewrite (drop_S _ step') by (by rewrite Hl, decide_True). cbn [fmap list_fmap concat].
    assert (Ed : drop (S k) (sn_steps (ss_mfd st')) = drop (S k) (sn_steps (ss_mfd st))); [| rewrite Ed; by apply Hown].
    apply list_eq. intros j. by rewrite !lookup_drop, Hl, decide_False by lia.
Qed.

Lemma dir_body w k st r :
  os_faults (w_os w) = [] -> dir_inv (w_os w) (S k) st -> roots !! k = Some r -> strlen mypath + strlen r < PATH_MAX ->
  dir_disk (w_os w) (r +:+ mypath) ->
  exists c st' s', steps_body mypath SN_STEPS_F_DIR k st w = Some ((c, st'), set_os s' w) /\ (c = CContinue \/ c = CEnd) /\
    more_fds (w_os w) s' /\ dir_inv s' k st'.
Proof.
  intros Hf Hi Hr Hfit Hd. pose proof Hi as []. pose proof (di_todo0 k ltac:(lia)) as Hst. rewrite Hr in Hst. cbn in Hst.
  unfold steps_body. rewrite Hst. change (step_path (new_step r)) with r.
  destruct (Z.leb_spec PATH_MAX (strlen mypath + strlen r)); [lia |]. set (path := r +:+ mypath) in *.
  set (st1 := upd_step k (with_path path) st).
  rewrite (st_bind_run _ _ w (Ok KUnknown) w) by done. change (has SN_STEPS_F_DIR SN_STEPS_F_DIR) with true. cbv iota.
  unfold steps_dir. change (has SN_STEPS_F_DIR SN_STEPS_F_SKIPOPENDIR) with false. cbv iota. destruct Hd as [He | Hd].
  - rewrite (st_bind_run _ _ _ _ _ (opendir_enoent w path Hf He)). cbn [Z.eqb ENOENT Pos.eqb].
    eexists CContinue, _, (w_os w). rewrite set_os_id. split_and!; [done | by left | done |].
    eapply (dir_inv_next _ _ _ _ _ r (SnStep path SN_STEPS_UNUSED SN_STEPS_UNUSED None)); [done | done | done | | | | | done | done |].
    + intros j. unfold st1. rewrite !upd_step_lookup. case_decide; [subst; by rewrite Hst | done].
    + cbn. by rewrite !length_alter.
    + by left.
    + left. split; [done |]. intros (ino & n & Hl & _). pose proof (enoent_path _ _ He). unfold path in *. congruence.
    + by rewrite step_fds_none.
  - destruct (opendir_ok w path Hf Hd) as (ino & n & Hl & Hn & Hdir & E). rewrite (st_bind_run _ _ _ _ _ E).
    set (fd := fresh_fd (w_os w)) in *. set (s1 := opened (w_os w) ino O_RDONLY) in *. set (st2 := upd_step k (with_dirfd (Some fd)) st1).
    pose proof (more_fds_opened (w_os w) ino O_RDONLY) as Hm. pose proof (fresh_fd_ge (w_os w)) as Hge. fold s1 in Hm. fold fd in Hge.
    assert (Hnext : forall st', sn_steps (ss_mfd st') = sn_steps (ss_mfd st2) -> 0 <= sn_first_file (ss_mfd st') ->
      ss_err st' = ss_err st -> sn_current (ss_mfd st') = sn_current (ss_mfd st) -> dir_inv s1 k st').
    { intros st' Es Hfi Her Hcu.
      eapply (dir_inv_next _ _ _ _ _ r (SnStep path SN_STEPS_NOTOPEN SN_STEPS_NOTOPEN (Some fd))); [done | done | done | | | | by right | congruence | done |].
      - intros j. rewrite Es. unfold st2, st1. rewrite !upd_step_lookup. case_decide; [subst; by rewrite Hst | done].
      - rewrite Es. cbn. by rewrite !length_alter.
      - right. exists fd, ino, n. rewrite (more_fds_lookup _ _ _ Hm). split_and!; try done; [lia |]. unfold s1, opened. cbn. by rewrite lookup_insert_eq.
      - intros L HL. rewrite step_fds_dir by lia. by apply owned_open. }
    unfold steps_dir_first. destruct (Z.eqb_spec (sn_first_file (ss_mfd st2)) (-1)) as [Hfirst | Hfirst].
    + eexists CEnd, _, s1. split_and!; [done | by right | done |]. apply Hnext; [done | cbn; lia | done | done].
    + eexists CEnd, _, s1. split_and!; [done | by right | done |]. apply Hnext; try done.
      cbn in Hfirst |- *. destruct di_first0; [done | done].
Qed.

Lemma more_fds_dir_disk s s' path : more_fds s s' -> dir_disk s path -> dir_disk s' path.
Proof. intros H [? | ?]; [left; by eapply more_fds_enoent | right; by eapply more_fds_dir]. Qed.

Lemma dir_loop k : forall w st,
  os_faults (w_os w) = [] -> dir_inv (w_os w) k st -> (k <= length roots)%nat ->
  (forall j r, roots !! j = Some r -> strlen mypath + strlen r < PATH_MAX /\ dir_disk (w_os w) (r +:+ mypath)) ->
  exists st' s', steps_loop mypath SN_STEPS_F_DIR k st w = Some (st', set_os s' w) /\ more_fds (w_os w) s' /\ dir_inv s' 0 st'.
Proof.
  induction k as [| k IH]; intros w st Hf Hi Hk Hr.
  - exists st, (w_os w). by rewrite set_os_id.
  - destruct (lookup_lt_is_Some_2 roots k Hk) as [r Er]. destruct (Hr k r Er) as [Hfit Hd].
    destruct (dir_body w k st r Hf Hi Er Hfit Hd) as (c & st1 & s1 & E & Hc & Hm & Hi1).
    rewrite (steps_loop_next _ _ _ _ _ _ _ _ E Hc (di_err _ _ _ Hi1)).
    destruct (IH (set_os s1 w) st1) as (st' & s' & E' & Hm' & Hfin); [by rewrite <-Hf; apply (mf_faults _ _ Hm) | done | lia | |].
    + intros j r' Hj. destruct (Hr j r' Hj) as [? ?]. split; [done | by eapply more_fds_dir_disk].
    + exists st', s'. split_and!; [done | by etransitivity | done].
Qed.
End Steps.

(** ** Opening *)

(** A path of a directory inside a snapshot of the chain, or of the root of
    the snapshot; the snapshots up to it have the directory or do not. *)
Record dir_ready (w : world) (path id mypath : string) (t : mfd_types) (sns l : list string) : Prop := {
  dr_faults : os_faults (w_os w) = [];
  dr_chain : chain (w_os w) (w_fs w) sns;
  dr_latest : fs_latest (w_fs w) sns;
  dr_count : zlen sns + 1 < MAX_SNAPSHOTS;
  dr_path : is_path_in_sn path = true /\ is_Some (match map_path path (w_fs w) with Ok p => Some p | Err _ => None end);
  dr_parts : (t = mfd_sn_full /\ snd (decompose_sn_path path) = SnPath snpath_full id mypath) \/
    (t = mfd_sn_id /\ mypath = "" /\ exists x, snd (decompose_sn_path path) = SnPath snpath_id id x);
  dr_id : strlen id + strlen (sn_dir (w_fs w)) < PATH_MAX;
  dr_upto : upto (sn_dir (w_fs w) +:+ id) sns = Some l;
  dr_dirs : forall j r, (rootdir (w_fs w) :: l) !! j = Some r -> strlen mypath + strlen r < PATH_MAX /\ dir_disk (w_os w) (r +:+ mypath);
  dr_main : dir_at (w_os w) (resolve (rootdir (w_fs w) +:+ mypath))
}.

(** A handle with the directory open at every step that has it. *)
Record dir_steps (s0 s : os) (mypath : string) (roots : list string) (mfd : mfd_t) : Prop := {
  ds_len : length (sn_steps mfd) = length roots;
  ds_step : forall j r step, roots !! j = Some r -> sn_steps mfd !! j = Some step -> step_dir s (r +:+ mypath) step;
  ds_first : 0 <= sn_first_file mfd;
  ds_current : sn_current mfd + 1 = zlen (sn_steps mfd);
  ds_fds : owned (steps_fds mfd) s0 s
}.

Lemma mfd_get_sn_steps_dir w mfd path id mypath t sns l :
  dir_ready w path id mypath t sns l ->
  exists mfd' s', mfd_get_sn_steps mfd (snd (decompose_sn_path path)) SN_STEPS_F_DIR w = Some ((0, mfd'), set_os s' w) /\
    more_fds (w_os w) s' /\ dir_steps (w_os w) s' mypath (rootdir (w_fs w) :: l) mfd'.
Proof.
  intros []. unfold mfd_get_sn_steps. rewrite (st_bind_run get_fs _ w (w_fs w) w eq_refl), (st_bind_run st_get _ w w w eq_refl).
  destruct sns as [| p ps]; [done |]. set (mfd1 := set_mfd_sn_number (sn_number (w_fs w)) mfd).
  set (sp := snd (decompose_sn_path path)) in *.
  assert (Hsp : is_there sp <> snpath_root /\ sp_id sp = id /\ match is_there sp with snpath_full => sp_inpath sp | _ => "" end = mypath).
  { destruct dr_parts0 as [[_ ->] | (_ & -> & x & ->)]; done. }
  destruct Hsp as (Hroot & Hid & Hmy). rewrite <-Hid in dr_id0, dr_upto0.
  rewrite (st_bind_run _ _ _ _ _ (sn_get_paths_to_spec w p ps mfd1 sp dr_faults0 dr_chain0
            dr_latest0 Hroot dr_id0 ltac:(rewrite zlen_cons in dr_count0; lia))).
  rewrite dr_upto0, Hmy. cbn [Z.eqb negb]. set (mfd2 := set_sn_first_file (-1) _). set (st := StepsSt mfd2 0 _).
  change (sn_current mfd2) with (zlen l). replace (Z.to_nat (zlen l + 1)) with (S (length l)) by (unfold zlen; lia).
  assert (Hi : dir_inv mypath (rootdir (w_fs w) :: l) (w_os w) (w_os w) (S (length l)) st).
  { assert (Est : sn_steps (ss_mfd st) = new_step <$> rootdir (w_fs w) :: l) by done.
    split; rewrite ?Est; try done.
    - by rewrite length_fmap.
    - intros j _. apply list_lookup_fmap.
    - intros j r step Hj Hr. apply lookup_lt_Some in Hr. cbn in Hr. lia.
    - by left.
    - rewrite zlen_cons. change (sn_current (ss_mfd st)) with (zlen l). lia.
    - rewrite drop_ge by by rewrite length_fmap. apply owned_nil. }
  destruct (dir_loop mypath _ (w_os w) (S (length l)) w st dr_faults0 Hi ltac:(cbn; lia) dr_dirs0) as (st' & s' & E & Hm & []).
  rewrite (st_bind_run _ _ _ _ _ E), di_err0. cbn [Z.eqb negb]. exists (ss_mfd st'), s'. split_and!; [done | done |].
  split; try done.
  - intros j r step Hr. apply di_done0; [lia | done].
  - apply (di_found0 _ eq_refl eq_refl). by eapply more_fds_dir.
  - rewrite di_current0. unfold zlen. rewrite di_len0. lia.
Qed.

(** The handle that opening a directory of a snapshot gives. *)
Lemma esfs_opendir_sn_spec w path id mypath t sns l :
  dir_ready w path id mypath t sns l ->
  exists w' fh mfd, esfs_opendir path w = Some ((0, Some fh), w') /\ w_mfds w' !! fh = Some mfd /\ is_main mfd = t /\
    os_faults (w_os w') = [] /\ opened_reader w w' fh mfd /\ dir_steps (w_os w) (w_os w') mypath (rootdir (w_fs w) :: l) mfd.
Proof.
  intros H. pose proof H as []. destruct dr_path0 as [Hsn [fpath Hfp]].
  unfold esfs_opendir, if_path_sn. rewrite (st_bind_run get_fs _ w (w_fs w) w eq_refl), Hsn.
  destruct (map_path path (w_fs w)) as [p |]; [| done].
  rewrite (st_bind_run _ _ _ _ _ (malloc_ok w dr_faults0)). cbn [negb].
  assert (Em : malloc_mfd w = Some (Some (w_junk_mfd w), w)) by (unfold malloc_mfd; by rewrite malloc_ok).
  unfold esfs_opendir_sn. rewrite (st_bind_run _ _ _ _ _ Em).
  destruct (mfd_get_sn_steps_dir w (w_junk_mfd w) path id mypath t sns l H) as (mfd & s' & E & Hm & Hds).
  assert (Hf' : os_faults s' = []) by (rewrite <-dr_faults0; apply (mf_faults _ _ Hm)).
  assert (Hgo : forall T, T = t -> exists w' fh mfd', (fh ← new_handle (set_is_main T mfd); mret (0, Some fh)) (set_os s' w) = Some ((0, Some fh), w') /\
    w_mfds w' !! fh = Some mfd' /\ is_main mfd' = t /\ os_faults (w_os w') = [] /\ opened_reader w w' fh mfd' /\
    dir_steps (w_os w) (w_os w') mypath (rootdir (w_fs w) :: l) mfd').
  { intros T ->. eexists _, _, (set_is_main t mfd). split; [done |]. destruct Hds. split_and!; try done.
    - cbn. apply lookup_insert_eq.
    - split; try done; [by exists s' |]. apply not_elem_of_dom, is_fresh. }
  assert (Hfirst : (sn_first_file mfd =? -1) = false) by (apply Z.eqb_neq; pose proof (ds_first _ _ _ _ _ Hds); lia).
  destruct dr_parts0 as [[Ht Ep] | (Ht & _ & x & Ep)]; rewrite Ep in E |- *; cbn [is_there];
    rewrite (st_bind_run _ _ _ _ _ E); cbn [Z.eqb negb]; rewrite Hfirst; by apply Hgo.
Qed.

(** ** Listing *)

(** What the directory at a step says. *)
Definition dir_lists (s : os) (sni : nat) (path : string) (its : list info) : Prop :=
  (enoent_at s (resolve path) /\ its = []) \/
  (exists ino n, lookup_path s (resolve path) = Ok ino /\ os_inodes s !! ino = Some n /\
     Forall2 (describes s sni path) (dir_entries s ino) its).

Lemma concat_apart {A} (ls : list (list A)) : NoDup (concat ls) -> forall k k' l l' x,
  ls !! k = Some l -> ls !! k' = Some l' -> x ∈ l -> x ∈ l' -> k = k'.
Proof.
  induction ls as [| l0 ls IH]; [done |]. cbn [concat]. intros (Hn & Hd & Hc)%NoDup_app k k' l l' x Hk Hk' Hx Hx'.
  assert (Hin : forall j y m, ls !! j = Some m -> y ∈ m -> y ∈ concat ls).
  { intros j y m Hj Hy. apply list_elem_of_In, in_concat. exists m. split; [apply list_elem_of_In; by eapply list_elem_of_lookup_2 | by apply list_elem_of_In]. }
  destruct k as [| k], k' as [| k']; cbn in Hk, Hk'; simplify_eq; [done | | |].
  - destruct (Hd x Hx). by apply (Hin k' x l').
  - destruct (Hd x Hx'). by apply (Hin k x l).
  - f_equal. by eapply IH.
Qed.

Lemma dir_steps_ok s0 s mypath roots mfd itss :
  dir_steps s0 s mypath roots mfd -> length itss = length roots ->
  (forall j r its, roots !! j = Some r -> itss !! j = Some its -> dir_lists s j (r +:+ mypath) its) -> dirs_ok s mfd itss.
Proof.
  intros [] Hlen Hl. split.
  - split; [congruence | done].
  - intros k step its Hs Hi. destruct (lookup_lt_is_Some_2 roots k) as [r Hr]; [rewrite <-Hlen; by eapply lookup_lt_Some |].
    destruct (ds_step0 k r step Hr Hs) as [[He ->] | (fd & ino & n & -> & Hge & Hfd & Hp & Hn)];
      destruct (Hl k r its Hr Hi) as [[He' ->] | (ino' & n' & Hp' & Hn' & Hall)].
    + by left.
    + by rewrite (enoent_path _ _ He) in Hp'.
    + by rewrite (enoent_path _ _ He') in Hp.
    + right. split; [done |]. exists fd, ino, O_RDONLY, false. rewrite Hp in Hp'. injection Hp' as <-. split_and!; [done | done | by eexists | done].
  - intros k k' step step' d Hs Hs' Hd Hd'.
    apply (concat_apart (step_fds <$> sn_steps mfd) (ow_nodup _ _ _ ds_fds0) k k' (step_fds step) (step_fds step') d);
      [by rewrite list_lookup_fmap, Hs | by rewrite list_lookup_fmap, Hs' | |].
    + destruct (lookup_lt_is_Some_2 roots k) as [r Hr]; [rewrite <-ds_len0; by eapply lookup_lt_Some |].
      destruct (ds_step0 k r step Hr Hs) as [[_ ->] | (fd & ino & n & -> & Hge & _)]; [done |]. cbn in Hd. simplify_eq.
      rewrite step_fds_dir by done. apply list_elem_of_here.
    + destruct (lookup_lt_is_Some_2 roots k') as [r Hr]; [rewrite <-ds_len0; by eapply lookup_lt_Some |].
      destruct (ds_step0 k' r step' Hr Hs') as [[_ ->] | (fd & ino & n & -> & Hge & _)]; [done |]. cbn in Hd'. simplify_eq.
      rewrite step_fds_dir by done. apply list_elem_of_here.
Qed.
