(* ===== verification/Survival.v ===== *)
(** What is written in the main space does not show in a snapshot: opening a
    file for writing, changing it in any way and reading it in a snapshot,
    all from paths, through the handlers that FUSE calls. *)

From S2P Require Import Prelude Posix PosixSpec PosixPath Types Util UtilTheorems Mflock UtilLocking.
From S2P Require Import Snapshot SnapshotTheorems Layout Block CopyOnWrite BlockWrite BlockRead Mfd SnSteps.
From S2P Require Import FuseFd SnapshotIsolation SmallSystem FusePath MfdTheorems SnStepsTheorems.

(** ** Changes to an open file *)

(** A change made through a handle. *)
Inductive wop :=
| WWrite (buf : list Z) (off : Z)
| WTruncate (n : Z).

Definition on_handle (fh : Z) (o : wop) : op :=
  match o with WWrite buf off => OWrite fh buf off | WTruncate n => OTruncate fh n end.

Definition wop_ok (o : wop) : Prop :=
  match o with WWrite buf off => 0 <= off /\ off + zlen buf < 2 ^ 63 | WTruncate n => 0 <= n end.

Lemma on_handle_ok fh app ops : Forall wop_ok ops -> Forall (op_ok {[ fh := app ]} ∅) (on_handle fh <$> ops).
Proof.
  intros H. apply Forall_fmap. eapply Forall_impl; [done |].
  intros [buf off | n] Ho; cbn in *; rewrite lookup_singleton_eq; (split; [by eexists | done]).
Qed.

(** ** What stays on disk *)

(** From [w] to [w'] only the file [im] changes, and files appear only at
    [new]. *)
Record kept (im : nat) (new : path -> Prop) (w w' : world) : Prop := {
  kp_fs : fs_stable (w_fs w) (w_fs w');
  kp_faults : os_faults (w_os w') = [];
  kp_file : forall q i c, i <> im -> file_at (w_os w) q i c -> file_at (w_os w') q i c;
  kp_absent : forall q, ~ new q -> absent_at (w_os w) q -> absent_at (w_os w') q
}.

Lemma frame_grows touch s s' : frame touch s s' -> grows s s'.
Proof.
  intros H. split; [intros p i Hp; by rewrite (fr_names _ _ _ H) |]. intros i n Hn.
  pose proof (fr_meta _ _ _ H i) as Hm. rewrite Hn in Hm. cbn in Hm.
  destruct (os_inodes s' !! i) as [n' |]; [| done]. injection Hm as Hm. by exists n'.
Qed.

Lemma frame_file_at touch s s' q i c c' :
  frame touch s s' -> file_at s q i c -> regular s' i c' -> file_at s' q i c'.
Proof.
  intros H (Hd & Hn & _) Hr. split; [by eapply walk_grows; [eapply frame_grows |] |].
  split; [by rewrite (fr_names _ _ _ H) | done].
Qed.

Lemma frame_absent_at touch s s' q : frame touch s s' -> absent_at s q -> absent_at s' q.
Proof.
  intros H [Hd Hn]. split; [by eapply walk_grows; [eapply frame_grows |] | by rewrite (fr_names _ _ _ H)].
Qed.

Lemma opened_kept (lock_ unlock_ : Z -> M Z) {LS : LockService lock_ unlock_} w w1 w2 fmap fdat im ip id map :
  opened_disk lock_ unlock_ w w1 fmap fdat ip id map -> touches_only im ip id w1 w2 ->
  kept im (fun q => q = resolve fmap \/ q = resolve fdat) w w2.
Proof.
  intros [_ _ [Hip Hid] Hkept Habs _ (t & E & _) Hnf] [Hf Hs]. split.
  - unfold fs_stable in *. by rewrite Hs, E.
  - by apply (fr_nofault _ _ _ Hf).
  - intros q i c Hi Hq. assert (i <> ip /\ i <> id) as [? ?].
    { destruct Hq as (_ & _ & m & Hm & _). split; intros ->; congruence. }
    pose proof (Hkept _ _ _ Hq) as Hq1. eapply frame_file_at; [done | done |].
    eapply regular_frame; [done | | apply Hq1]. unfold the_files. tauto.
  - intros q Hq Ha. eapply frame_absent_at; [done |]. apply Habs; [tauto | tauto | done].
Qed.

(** The global data that do not change. *)
Lemma fs_stable_fields f f' : fs_stable f f' ->
  rootdir f' = rootdir f /\ rootdir_len f' = rootdir_len f /\ sn_dir f' = sn_dir f /\ sn_is_any f' = sn_is_any f /\
  sn_lat_dir f' = sn_lat_dir f /\ sn_lat_dir_len f' = sn_lat_dir_len f.
Proof. destruct f, f'. intros [=]. by subst. Qed.

(** ** The snapshots stay as they are *)

(** The inode has no other name. *)
Definition sole_name (s : os) (im : nat) (p : path) : Prop := forall q, os_names s !! q = Some im -> q = p.

Lemma sole_ne s im p q i c : sole_name s im p -> file_at s q i c -> q <> p -> i <> im.
Proof. intros Hs (_ & Hn & _) Hq ->. by apply Hq, Hs. Qed.

Lemma upto_prefix x l l' : upto x l = Some l' -> exists r, l = l' ++ r.
Proof.
  revert l'. induction l as [| y l IH]; intros l'; cbn; [done |]. case_match.
  - intros [= <-]. by exists l.
  - destruct (upto x l) as [l'' |]; [| done]. intros [= <-]. destruct (IH _ eq_refl) as [r ->]. by exists r.
Qed.

Section Kept.
Context (R : path) (HR : Forall comp_ok R) (C : path) (c : string) (HC : Forall comp_ok C) (Hc : comp_ok c).
Context (Hmain : is_path_in_sn (join_path (C ++ [c])) = false).
Context (id0 : string) (Hid0 : comp_ok id0).
Context (w w' : world) (im : nat).
Context (Hk : kept im (fun q => q = sn_file R id0 C c EXT_MAP \/ q = sn_file R id0 C c EXT_DAT) w w').
Context (Hsole : sole_name (w_os w) im (R ++ C ++ [c])).

Lemma kept_pointers il ids : forall id,
  Forall comp_ok (id :: ids) -> pointers (w_os w) il (sn_path R id) (sn_path R <$> ids) ->
  pointers (w_os w') il (sn_path R id) (sn_path R <$> ids).
Proof using HR Hmain Hk Hsole.
  induction ids as [| id' ids IH]; intros id [Hid Hids]%Forall_cons (Hp & hid & Eh & H); (split; [done |]); exists hid;
    (split; [done |]); pose proof (resolve_hid R HR id hid Hid Eh) as Eres.
  - apply (kp_absent _ _ _ _ Hk); [| done]. rewrite Eres. intros [E | E]; by apply eq_sym, sn_file_hid in E.
  - destruct H as [(ino & Hat & Hne) Hr]. split; [| by apply IH].
    exists ino. split; [| done]. apply (kp_file _ _ _ _ Hk); [| done].
    eapply sole_ne; [done | done |]. rewrite Eres. by apply hid_main.
Qed.

Lemma kept_chain ids :
  layout (w_fs w) R (id0 :: ids) -> chain (w_os w) (w_fs w) (sn_path R <$> id0 :: ids) ->
  chain (w_os w') (w_fs w') (sn_path R <$> id0 :: ids).
Proof using HR Hmain Hk Hsole.
  intros Hl (hid & Eh & il & Hat & Hp). destruct (fs_stable_fields _ _ (kp_fs _ _ _ _ Hk)) as (_ & _ & Ed & _).
  exists hid. rewrite Ed. split; [done |]. exists il. split; [| by apply kept_pointers; [apply (ly_ids _ _ _ Hl) |]].
  apply (kp_file _ _ _ _ Hk); [| done]. eapply sole_ne; [done | done |].
  rewrite (resolve_latest R HR _ _ _ Hl Eh). by apply latest_main.
Qed.

(** The names that a snapshot's files have. *)
Lemma map_dat_names id fmap fdat :
  comp_ok id -> get_map_path (sn_path R id +:+ join_path (C ++ [c])) = Ok fmap ->
  get_dat_path (sn_path R id +:+ join_path (C ++ [c])) = Ok fdat ->
  resolve fmap = sn_file R id C c EXT_MAP /\ resolve fdat = sn_file R id C c EXT_DAT.
Proof using HR HC Hc.
  intros Hid Em Ed. unfold get_map_path, get_dat_path in Em, Ed. case_match; [| done].
  injection Em as <-. injection Ed as <-. rewrite !string_app_assoc. split; by apply resolve_sn_file.
Qed.

(** The files of another snapshot. *)
Lemma kept_no_file id e : id <> id0 -> enoent_at (w_os w) (sn_file R id C c e) -> enoent_at (w_os w') (sn_file R id C c e).
Proof using Hk.
  intros Hne (q & Hq & Ha). assert (Hlen : forall i e', q = sn_file R i C c e' -> i = id).
  { intros i e' ->. apply prefix_length_eq in Hq; [| by rewrite !length_sn_file]. destruct (decide (i = id)) as [? | Hi]; [done |].
    by apply (sn_file_other R i id C c e' e) in Hi. }
  exists q. split; [done |]. apply (kp_absent _ _ _ _ Hk); [| done].
  intros [E | E]; apply Hlen in E; by rewrite E in Hne.
Qed.

Lemma kept_step_disk id v v' :
  comp_ok id -> id <> id0 -> step_disk (w_os w) (sn_path R id +:+ join_path (C ++ [c])) v v' ->
  step_disk (w_os w') (sn_path R id +:+ join_path (C ++ [c])) v v'.
Proof using HR HC Hc Hk Hsole.
  intros Hid Hne (fmap & fdat & Em & Ed & H). exists fmap, fdat. split_and!; [done | done |].
  destruct (map_dat_names id fmap fdat Hid Em Ed) as [Er Er'].
  assert (Hfile : forall p e ip c', resolve p = sn_file R id C c e -> file_at (w_os w) (resolve p) ip c' -> file_at (w_os w') (resolve p) ip c').
  { intros p e ip c' Ep Hp. apply (kp_file _ _ _ _ Hk); [| done]. eapply sole_ne; [done | done |]. rewrite Ep. apply sn_file_main. }
  destruct H as [[Ha Hv] | [(c' & ip & id' & map & dat & Hv & Hmap & Hdat & Hcow) | (Hv & ip & map & Hmap & Hg & Ha)]]; [left | right; left | right; right].
  - split; [| done]. rewrite Er in *. by apply kept_no_file.
  - exists c', ip, id', map, dat. split_and!; try done; by eapply Hfile.
  - split; [done |]. exists ip, map. split_and!; [by eapply Hfile | done |]. rewrite Er' in *. by apply kept_no_file.
Qed.
End Kept.

(** ** The snapshot after the changes *)

Section Ready.
Context (lock_ unlock_ : Z -> M Z) {LS : LockService lock_ unlock_}.
Context (R : path) (ids : list string) (id0 : string) (C : path) (c : string).
Context (HC : Forall comp_ok C) (Hc : comp_ok c).
Context (w : world) (Hl : layout (w_fs w) R (id0 :: ids)).
Abbreviation inpath := (join_path (C ++ [c])).
Abbreviation sns := (sn_path R <$> id0 :: ids).
Context (fpath fmap fdat : string) (im : nat) (old : list Z).
Context (Hopen : open_ready lock_ unlock_ w inpath fpath fmap fdat im old).
Context (Hsole : sole_name (w_os w) im (R ++ C ++ [c])).
Context (path id : string) (l : list string) (views : list (option (list Z))) (target : option (list Z)).
Context (Hsn : sn_ready w path id inpath sns l views target).

Let HR : Forall comp_ok R := ly_R _ _ _ Hl.
Let Hid0 : comp_ok id0 := Forall_inv (ly_ids _ _ _ Hl).

(** The names that [open] computes. *)
Lemma open_names :
  resolve fpath = R ++ C ++ [c] /\ resolve fmap = sn_file R id0 C c EXT_MAP /\ resolve fdat = sn_file R id0 C c EXT_DAT.
Proof using Hl Hopen Hsn HC Hc.
  destruct Hopen. destruct (sr_latest _ _ _ _ _ _ _ _ Hsn) as (_ & Elat & Elen). cbn in Elat, Elen.
  rewrite Elen, Elat in or_fmap, or_fdat. rewrite (map_prefix_path_Ok _ _ _ or_fmap), (dat_prefix_path_Ok _ _ _ or_fdat).
  rewrite (map_path_Ok _ _ _ (ly_rootlen _ _ _ Hl) or_fpath), (ly_root _ _ _ Hl).
  split_and!; [| by apply resolve_sn_file..].
  rewrite <-join_app. apply resolve_join. repeat (apply Forall_app; split); [apply HR | done | by constructor].
Qed.

Lemma root_name : resolve (rootdir (w_fs w) +:+ inpath) = R ++ C ++ [c].
Proof using Hl HC Hc.
  rewrite (ly_root _ _ _ Hl), <-join_app. apply resolve_join.
  repeat (apply Forall_app; split); [apply (ly_R _ _ _ Hl) | done | by constructor].
Qed.

(** Before the changes, the file has its old contents in the main space and
    in the latest snapshot. *)
Lemma views_head : exists l' rest, l = sn_path R id0 :: l' /\ views = Some old :: Some old :: rest.
Proof using Hl Hopen Hsn HC Hc.
  destruct (open_names) as (Ef & Em & Ed). pose proof Hsn as [].
  assert (exists l', l = sn_path R id0 :: l') as [l' ->].
  { cbn in sr_upto. case_match; [injection sr_upto as <-; by exists [] |].
    destruct (upto _ _) as [l' |]; [| done]. injection sr_upto as <-. by exists l'. }
  pose proof (dk_len _ _ _ _ sr_disk) as Hlen. destruct views as [| v0 [| v1 rest]]; [done | done |].
  exists l', rest. split; [done |].
  pose proof (dk_main _ _ _ _ sr_disk _ v0 eq_refl eq_refl) as H0.
  assert (v0 = Some old) as ->.
  { pose proof (or_main _ _ _ _ _ _ _ _ _ Hopen) as H1. rewrite Ef in H1. destruct v0 as [c0 |]; cbn in H0; rewrite root_name in H0.
    - destruct H0 as (im' & _ & Hn & m & Hi & _), H1 as (_ & Hn' & m' & Hi' & _). congruence.
    - by destruct (file_not_enoent _ _ _ _ H1 H0). }
  destruct (dk_step _ _ _ _ sr_disk 0%nat _ v1 (Some old) eq_refl eq_refl eq_refl) as (fm & fd & Em' & Ed' & H).
  assert (Hno : forall ip map, ~ file_at (w_os w) (resolve fm) ip map); [| destruct H as [[_ ->] | [(c1 & ip & idt & map & dat & _ & Hmap & _) | (_ & ip & map & Hmap & _)]];
    [done | by apply Hno in Hmap | by apply Hno in Hmap]].
  intros ip map Hmap. unfold get_map_path in Em'. case_match; [| done]. injection Em' as <-.
  rewrite string_app_assoc, resolve_sn_file, <-Em in Hmap by done.
  destruct Hmap as (_ & Hn & _). destruct (or_map _ _ _ _ _ _ _ _ _ Hopen) as [_ Hn']. congruence.
Qed.

(** After them, the snapshot is still readable with the same contents. *)
Lemma sn_ready_kept w1 w2 ip idt writers readers map1 main' map' dat' :
  opened_disk lock_ unlock_ w w1 fmap fdat ip idt map1 -> touches_only im ip idt w1 w2 ->
  file_inv lock_ unlock_ im ip idt old writers readers w2 main' map' dat' ->
  sn_ready w2 path id inpath sns l (Some main' :: tail views) target.
Proof using Hl Hopen Hsn Hsole HC Hc.
  intros Hod Ht Hi. destruct open_names as (Ef & Em & Ed). destruct views_head as (l' & rest & El & Ev).
  pose proof (opened_kept lock_ unlock_ w w1 w2 fmap fdat im ip idt map1 Hod Ht) as Hk. rewrite Em, Ed in Hk.
  destruct (fs_stable_fields _ _ (kp_fs _ _ _ _ Hk)) as (E1 & E2 & E3 & E4 & E5 & E6).
  pose proof Hsn as []. pose proof (or_main_space _ _ _ _ _ _ _ _ _ Hopen) as Hms. destruct Ht as [Hfr _].
  split; rewrite ?E1, ?E2, ?E3; try done.
  - apply (kp_faults _ _ _ _ Hk).
  - by apply (kept_chain R HR C c Hms id0 w w2 im).
  - unfold fs_latest in *. cbn in *. by rewrite E4, E5, E6.
  - unfold map_path in *. by rewrite E1, E2.
  - split.
    + pose proof (dk_len _ _ _ _ sr_disk) as Hlen. by rewrite Ev in Hlen |- *.
    + intros r v [= <-] [= <-]. unfold main_disk. rewrite root_name, <-Ef. exists im.
      eapply frame_file_at; [done | apply (od_kept _ _ _ _ _ _ _ _ _ Hod), (or_main _ _ _ _ _ _ _ _ _ Hopen) |
        apply (fi_main _ _ _ _ _ _ _ _ _ _ _ _ Hi)].
    + intros k r v v' Hr Hv Hv'. rewrite El in Hr. rewrite Ev in Hv, Hv'. rewrite El, Ev in sr_disk.
      destruct k as [| k].
      * injection Hr as <-. injection Hv as <-. injection Hv' as <-.
        destruct (dk_step _ _ _ _ sr_disk 0%nat _ _ _ eq_refl eq_refl eq_refl) as (fm & fd & Em' & Ed' & _).
        exists fm, fd. split_and!; [done | done |]. right; left. exists old, ip, idt, map', dat'.
        destruct (map_dat_names R HR C c HC Hc id0 fm fd Hid0 Em' Ed') as [-> ->]. rewrite <-Em, <-Ed. split_and!; [done | | |].
        -- eapply frame_file_at; [done | apply (od_map _ _ _ _ _ _ _ _ _ Hod) | apply (fi_map _ _ _ _ _ _ _ _ _ _ _ _ Hi)].
        -- eapply frame_file_at; [done | apply (od_dat _ _ _ _ _ _ _ _ _ Hod) | apply (fi_dat _ _ _ _ _ _ _ _ _ _ _ _ Hi)].
        -- apply (fi_cow _ _ _ _ _ _ _ _ _ _ _ _ Hi).
      * destruct (upto_prefix _ _ _ sr_upto) as [r0 E0]. rewrite El in E0. injection E0 as E0. cbn in Hr.
        change (sn_path R <$> ids = l' ++ r0) in E0.
        assert (Hr' : (sn_path R <$> ids) !! k = Some r) by (rewrite E0; by apply lookup_app_l_Some).
        apply list_lookup_fmap_Some in Hr' as (idk & -> & Hidk%list_elem_of_lookup_2).
        pose proof (ly_ids _ _ _ Hl) as [_ Hids]%Forall_cons. rewrite Forall_forall in Hids.
        pose proof (ly_nodup _ _ _ Hl) as [Hn0 _]%NoDup_cons.
        apply (kept_step_disk R HR C c HC Hc id0 w w2 im Hk Hsole); [by apply Hids | by intros -> |].
        by apply (dk_step _ _ _ _ sr_disk (S k)).
    + apply (dk_fit _ _ _ _ sr_disk).
  - rewrite El, Ev in *. done.
Qed.
End Ready.

(** ** A small disk *)

(** The small system before anything is opened: the snapshot [s1] exists and
    has no files for [/f] yet. *)
Definition e_names : gmap path nat :=
  {[ [] := 1%nat; ["r"] := 2%nat; ["r"; "f"] := 3%nat; ["r"; "snapshots"] := 4%nat;
     ["r"; "snapshots"; "s1"] := 5%nat; ["r"; "snapshots"; ".hid"] := 8%nat ]}.
Definition e_inodes : gmap nat inode :=
  {[ 1%nat := sm_dir; 2%nat := sm_dir; 3%nat := sm_file sm_old; 4%nat := sm_dir; 5%nat := sm_dir;
     8%nat := sm_file (pointer "/r/snapshots/s1") ]}.
Definition e_world : world := World (Os e_names e_inodes ∅ []) sm_fs ∅ [] sm_writer 1.

Lemma e_open_ready :
  open_ready mflock_lock mflock_unlock e_world "/f" "/r/f" "/r/snapshots/s1/f.map" "/r/snapshots/s1/f.dat" 3 sm_old.
Proof.
  split.
  - reflexivity.
  - apply idle_table_init.
  - exists (zeros BL_S). split; [reflexivity |]. by rewrite zlen_zeros.
  - discriminate.
  - reflexivity.
  - by vm_compute.
  - by vm_compute.
  - by vm_compute.
  - exists 14%nat. split; [by vm_compute |]. eexists 5%nat, sm_dir. split_and!; by vm_compute.
  - split; [by vm_compute |]. split; [by vm_compute |]. eexists. split; [reflexivity | by vm_compute].
  - by split; vm_compute.
  - by split; vm_compute.
  - by vm_compute.
  - intros n [= <-]. unfold stat_wf. cbn. split_and!; (done || lia).
  - by vm_compute.
Qed.

Lemma e_sn_ready : sn_ready e_world "/snapshots/s1/f" "/s1" "/f" ["/r/snapshots/s1"] ["/r/snapshots/s1"]
  [Some sm_old; Some sm_old] (Some sm_old).
Proof.
  split; [reflexivity | | by vm_compute | by vm_compute | | by vm_compute | by vm_compute | by vm_compute | | reflexivity |
    by vm_compute].
  - exists "/r/snapshots/.hid". split; [by vm_compute |]. exists 8%nat. split.
    + split; [by vm_compute |]. split; [by vm_compute |]. by eexists.
    + split; [by vm_compute |]. exists "/r/snapshots/s1.hid". split; [by vm_compute | by split; vm_compute].
  - split; [by vm_compute |]. vm_compute. by eexists.
  - split; [reflexivity | | |].
    + intros r v [= <-] [= <-]. exists 3%nat. split; [by vm_compute |]. split; [by vm_compute |]. by eexists.
    + intros [| k] r v v' Hr Hv Hv'; [| done]. cbn in Hr, Hv, Hv'. simplify_eq.
      exists "/r/snapshots/s1/f.map", "/r/snapshots/s1/f.dat". split; [by vm_compute |]. split; [by vm_compute |].
      left. split; [apply absent_enoent; by split; vm_compute | done].
    + intros [| [| k]] r Hr; [injection Hr as <-; by vm_compute .. | done].
Qed.

Lemma e_layout : layout (w_fs e_world) ["r"] ["s1"].
Proof. split; try by vm_compute. all: repeat constructor; (by vm_compute) || set_solver. Qed.

Lemma e_sole : sole_name (w_os e_world) 3 ["r"; "f"].
Proof.
  intros q H. change (e_names !! q = Some 3%nat) in H. unfold e_names in H.
  repeat (apply lookup_insert_Some in H as [[<- ?] | [_ H]]; [done |]). by apply lookup_singleton_Some in H as [<- ?].
Qed.

(** ** Theorem *)


