(* ===== verification/WorldType.v ===== *)
(** The shape that the state has at all times: a well-formed tree of names,
    descriptors on inodes that exist, and global data in their ranges.

    [keeps root dir m] says that [m] preserves it.  Here are the system calls,
    the lock table and the changes of the global data; the handlers follow in
    [Returns] and the files on progress, together with the proof that they
    return. *)

From S2P Require Import Prelude Posix PosixSpec PosixPath Types Util UtilTheorems Mflock UtilLocking Layout Tree Block.
From S2P Require Import Snapshot SnapshotTheorems Mfd SnSteps FuseFd FuseDir SnapshotDestroy FusePath Mount Dispatch SmallSystem Survival.

(** ** The operating system *)

(** The names form a tree; every descriptor has an inode and a position in it. *)
Record os_ok (s : os) : Prop := {
  ok_wf : os_wf s;
  ok_fds : forall fd o, os_fds s !! fd = Some o -> is_Some (os_inodes s !! of_ino o) /\ 0 <= of_pos o
}.

Definition os_keeps {A} (f : os -> res A * os) : Prop := forall s, os_ok s -> os_ok (snd (f s)).

Lemma os_ok_faults x s : os_ok s -> os_ok (set_faults x s).
Proof. intros [[] Hf]. by split; [split |]. Qed.

Lemma pop_fault_ok s : os_ok s -> os_ok (snd (pop_fault s)).
Proof. intros H. unfold pop_fault. destruct (os_faults s); [done | by apply os_ok_faults]. Qed.

Lemma syscall_keeps {A} (body : os -> res A * os) : os_keeps body -> os_keeps (syscall body).
Proof.
  intros H s Hs. unfold syscall. pose proof (pop_fault_ok s Hs) as Hp. destruct (pop_fault s) as [[] s']; cbn in *; auto; by apply H.
Qed.

Lemma syscall_io_keeps {A} n (body : Z -> os -> res A * os) :
  (forall k, 0 <= k \/ k = n -> os_keeps (body k)) -> os_keeps (syscall_io n body).
Proof.
  intros H s Hs. unfold syscall_io. pose proof (pop_fault_ok s Hs) as Hp. destruct (pop_fault s) as [[] s']; cbn in *; auto; apply H; (done || lia).
Qed.

(** *** Changes *)

(** What happens to inodes, as long as directories stay directories. *)
Lemma os_ok_inode s i g :
  os_ok s -> (forall n, os_inodes s !! i = Some n -> i_isdir (g n) = i_isdir n) -> os_ok (set_inodes (alter g i (os_inodes s)) s).
Proof.
  intros [Hwf Hf] Hg.
  assert (Hino : forall j, is_Some (os_inodes s !! j) -> is_Some (alter g i (os_inodes s) !! j)).
  { intros j [n Hn]. rewrite lookup_alter. case_decide; subst; rewrite Hn; by eexists. }
  assert (Hdir : forall p, is_dir s p -> is_dir (set_inodes (alter g i (os_inodes s)) s) p).
  { intros p (n & (j & Hj & Hn)%node_at_Some & Hd). destruct (decide (i = j)) as [-> | Hne].
    - exists (g n). split; [| by rewrite Hg]. apply node_at_Some. exists j. split; [done |]. cbn. by rewrite lookup_alter_eq, Hn.
    - exists n. split; [| done]. apply node_at_Some. exists j. split; [done |]. cbn. by rewrite lookup_alter_ne. }
  destruct Hwf. split; [split; cbn; eauto |]. cbn. intros fd o Ho. destruct (Hf fd o Ho). eauto.
Qed.

Lemma os_ok_data s i d : os_ok s -> os_ok (set_data i d s).
Proof. intros H. by apply os_ok_inode. Qed.

Lemma os_ok_fd s fd o : os_ok s -> is_Some (os_inodes s !! of_ino o) -> 0 <= of_pos o -> os_ok (set_fds (<[fd := o]> (os_fds s)) s).
Proof.
  intros [Hwf Hf] Ho Hp. split; [by apply os_wf_fds |]. cbn. intros fd' o' [[_ <-] | [_ H]]%lookup_insert_Some; eauto.
Qed.

Lemma os_ok_pos s fd pos : os_ok s -> 0 <= pos -> os_ok (set_pos fd pos s).
Proof.
  intros [Hwf Hf] Hpos. unfold set_pos. split; [by apply os_wf_fds |]. cbn. intros fd' o' H. rewrite lookup_alter in H. case_decide; [subst | by eapply Hf].
  destruct (os_fds s !! fd') as [o |] eqn:E; [| done]. injection H as <-. split; [exact (proj1 (Hf fd' o E)) | done].
Qed.

Lemma os_ok_close s fd : os_ok s -> os_ok (set_fds (delete fd (os_fds s)) s).
Proof. intros [Hwf Hf]. split; [by apply os_wf_fds |]. cbn. intros fd' o [_ H]%lookup_delete_Some. eauto. Qed.

(** The components of a resolved path are proper. *)
Lemma split_path_slash s : forall cur, no_slash cur = true -> Forall (fun c => no_slash c = true) (split_path s cur).
Proof.
  induction s as [| a s IH]; intros cur Hc; cbn; [by constructor |]. destruct (Ascii.eqb a DIRSEPCH) eqn:E; unfold DIRSEPCH in E; rewrite E.
  - constructor; [done | by apply IH].
  - apply IH. rewrite no_slash_app, Hc. cbn. unfold DIRSEPCH. by rewrite E.
Qed.

Lemma resolve_ok name : Forall comp_ok (resolve name).
Proof.
  unfold resolve. pose proof (split_path_slash name "" eq_refl) as H. assert (Hacc : Forall comp_ok (@nil string)) by constructor.
  revert Hacc. generalize (@nil string) as acc. induction H as [| c cs Hc _ IH]; intros acc Hacc; cbn; [done |]. apply IH. unfold norm_step.
  destruct (String.eqb_spec c ""); [done |]. destruct (String.eqb_spec c "."); [done |]. destruct (String.eqb_spec c "..").
  - destruct acc as [| x acc _] using rev_ind; [done |]. rewrite removelast_last. by apply Forall_app in Hacc as [? _].
  - apply Forall_app. split; [done |]. by repeat constructor.
Qed.

Lemma os_ok_add s p mode : os_ok s -> Forall comp_ok p -> absent_at s p ->
  os_ok (snd (add_node p mode s)) /\ is_Some (os_inodes (snd (add_node p mode s)) !! fst (add_node p mode s)).
Proof.
  intros [Hwf Hf] Hp Ha. destruct (add_tree s p mode Hwf Hp Ha) as [Hwf' _]. split; [split; [done |] |]; cbn.
  - intros fd o Ho. destruct (Hf fd o Ho) as [Hi Hpos]. split; [| done].
    destruct (decide (fresh_ino s = of_ino o)) as [<- |]; [rewrite lookup_insert_eq; by eexists |]. by rewrite lookup_insert_ne.
  - rewrite lookup_insert_eq. by eexists.
Qed.

Lemma os_ok_delete s (p : path) : os_ok s -> p <> [] -> (forall c, os_names s !! (p ++ [c]) = None) -> os_ok (set_names (delete p (os_names s)) s).
Proof.
  intros [Hwf Hf] Hne Hl. split; [| done]. eapply removed_wf; [by apply delete_leaf | | done].
  intros E%list_elem_of_singleton. by subst.
Qed.

(** *** The calls *)

Lemma alloc_keeps s ino flags : os_ok s -> is_Some (os_inodes s !! ino) -> os_ok (snd (alloc_fd ino flags s)).
Proof. intros H Hi. by apply os_ok_fd. Qed.

Lemma fd_node_ino s fd o i : fd_node s fd = Some (o, i) -> os_inodes s !! of_ino o = Some i.
Proof.
  unfold fd_node. destruct (os_fds s !! fd) as [o' |]; [| done]. cbn. destruct (os_inodes s !! of_ino o') as [i' |] eqn:E; [| done].
  by intros [= <- <-].
Qed.

Lemma fd_node_pos s fd o i : os_ok s -> fd_node s fd = Some (o, i) -> 0 <= of_pos o.
Proof.
  intros [_ Hf]. unfold fd_node. destruct (os_fds s !! fd) as [o' |] eqn:Eo; [| done]. cbn. destruct (os_inodes s !! of_ino o'); [| done].
  intros [= <- <-]. apply (Hf fd o' Eo).
Qed.

Lemma sys_open_keeps name flags mode : os_keeps (sys_open name flags mode).
Proof.
  apply syscall_keeps. intros s Hs. cbv zeta. destruct (walk s _) as [[] |] eqn:Ew; [| done].
  destruct (os_names s !! resolve name) as [ino |] eqn:En.
  - case_match; [done |]. destruct (os_inodes s !! ino) as [i |] eqn:Ei; [| done]. case_match; [done |].
    apply alloc_keeps; [case_match; [by apply os_ok_data | done] |]. case_match; [| by eexists].
    cbn. rewrite lookup_alter_eq, Ei. by eexists.
  - case_match; [| done]. destruct (os_ok_add s (resolve name) (Z.lor S_IFREG mode) Hs (resolve_ok name)) as [H1 H2]; [done |].
    destruct (add_node _ _ s) as [ino s']. by apply alloc_keeps.
Qed.

Lemma sys_mkdir_keeps name mode : os_keeps (sys_mkdir name mode).
Proof.
  apply syscall_keeps. intros s Hs. cbv zeta. destruct (walk s _) as [[] |] eqn:Ew; [| done].
  destruct (os_names s !! resolve name) as [ino |] eqn:En; [done |]. cbn [snd]. apply os_ok_add; [done | apply resolve_ok | done].
Qed.

Lemma children_none s p : children s p = [] -> forall c, os_names s !! (p ++ [c]) = None.
Proof.
  intros E c. destruct (os_names s !! (p ++ [c])) as [i |] eqn:H; [| done].
  assert (Hin : p ++ [c] ∈ children s p) by (apply elem_of_children; split; [by exists c | by eexists]).
  rewrite E in Hin. by apply not_elem_of_nil in Hin.
Qed.

Lemma lookup_names s p ino : lookup_path s p = Ok ino -> os_names s !! p = Some ino.
Proof. unfold lookup_path. destruct (walk s _); [| done]. destruct (os_names s !! p); [by intros [= ->] | done]. Qed.

Lemma sys_rmdir_keeps name : os_keeps (sys_rmdir name).
Proof.
  apply syscall_keeps. intros s Hs. cbv zeta. destruct (lookup_path s (resolve name)) as [ino |]; [| done].
  destruct (os_inodes s !! ino) as [i |]; [| done]. case_match; [done |]. case_decide; [done |].
  destruct (children s (resolve name)) eqn:E; [| done]. apply os_ok_delete; [done | done | by apply children_none].
Qed.

Lemma sys_unlink_keeps name : os_keeps (sys_unlink name).
Proof.
  apply syscall_keeps. intros s Hs. cbv zeta. destruct (lookup_path s (resolve name)) as [ino |] eqn:El; [| done]. apply lookup_names in El.
  destruct (os_inodes s !! ino) as [i |] eqn:Ei; [| done]. case_match eqn:Ed; [done |]. destruct Hs as [Hwf Hf].
  assert (Hn : node_at s (resolve name) = Some i) by (apply node_at_Some; eauto).
  assert (Hnd : ~ is_dir s (resolve name)) by (intros (n & Hn' & Hd); congruence).
  apply os_ok_delete; [done | |].
  - intros E. apply Hnd. rewrite E. apply (wf_root _ Hwf).
  - intros c. destruct (os_names s !! (resolve name ++ [c])) as [j |] eqn:E; [| done]. destruct Hnd. by eapply wf_parent.
Qed.

(** Calls that leave names and directories alone. *)
Lemma with_mode_isdir m mode : S_ISDIR (st_mode (with_mode m mode)) = S_ISDIR (st_mode m).
Proof.
  unfold S_ISDIR, with_mode. cbn [st_mode]. f_equal. rewrite Z.land_lor_distr_l, <-!Z.land_assoc.
  change (Z.land S_IFMT S_IFMT) with S_IFMT. change (Z.land 4095 S_IFMT) with 0. by rewrite Z.land_0_r, Z.lor_0_r.
Qed.

Lemma on_node_keeps name f : (forall m, S_ISDIR (st_mode (f m)) = S_ISDIR (st_mode m)) -> os_keeps (on_node name f).
Proof.
  intros Hm. apply syscall_keeps. intros s Hs. destruct (lookup_path s (resolve name)) as [ino |]; [| done].
  destruct (os_inodes s !! ino) as [i |] eqn:Ei; [| done]. apply os_ok_inode; [done |]. intros n Hn. rewrite Ei in Hn. injection Hn as <-. apply Hm.
Qed.

(** [os_tac] opens a call and goes through its cases. *)
Ltac os_tac :=
  intros s Hs; unfold alloc_fd; repeat (case_match; simplify_eq/=); try done;
  repeat match goal with H : fd_node _ _ = Some _ |- _ => apply (fd_node_pos _ _ _ _ Hs) in H end;
  repeat (apply os_ok_pos || apply os_ok_data || apply os_ok_close || (apply os_ok_fd; [| by eexists |])); zlen_pose; (done || lia).

Lemma sys_opendir_keeps name : os_keeps (sys_opendir name).
Proof. apply syscall_keeps. os_tac. Qed.

Lemma sys_close_keeps fd : os_keeps (sys_close fd).
Proof.
  intros s Hs. unfold sys_close. pose proof (pop_fault_ok s Hs) as Hp. destruct (pop_fault s) as [f s']. cbn in Hp.
  destruct (os_fds s' !! fd); [| done]. destruct f; by apply os_ok_close.
Qed.

Lemma sys_pread_keeps fd n off : os_keeps (sys_pread fd n off).
Proof. apply syscall_io_keeps. intros k Hk. os_tac. Qed.
Lemma sys_pwrite_keeps fd d off : os_keeps (sys_pwrite fd d off).
Proof. apply syscall_io_keeps. intros k Hk. os_tac. Qed.
Lemma sys_write_keeps fd d : os_keeps (sys_write fd d).
Proof. apply syscall_io_keeps. intros k Hk. os_tac. Qed.
Lemma sys_lseek_keeps fd : os_keeps (sys_lseek_end fd).
Proof. apply syscall_keeps. os_tac. Qed.
Lemma sys_lstat_keeps name : os_keeps (sys_lstat name).
Proof. apply syscall_keeps. os_tac. Qed.
Lemma sys_fstat_keeps fd : os_keeps (sys_fstat fd).
Proof. apply syscall_keeps. os_tac. Qed.
Lemma sys_ftruncate_keeps fd n : os_keeps (sys_ftruncate fd n).
Proof. apply syscall_keeps. os_tac. Qed.
Lemma sys_truncate_keeps name n : os_keeps (sys_truncate name n).
Proof. apply syscall_keeps. os_tac. Qed.
Lemma sys_fsync_keeps fd : os_keeps (sys_fsync fd).
Proof. apply syscall_keeps. os_tac. Qed.
Lemma sys_fdatasync_keeps fd : os_keeps (sys_fdatasync fd).
Proof. apply syscall_keeps. os_tac. Qed.
Lemma sys_readdir_keeps fd : os_keeps (sys_readdir fd).
Proof. apply syscall_keeps. os_tac. Qed.
Lemma sys_access_keeps g name mask : os_keeps (sys_access g name mask).
Proof. apply syscall_keeps. os_tac. Qed.
Lemma sys_statvfs_keeps name : os_keeps (sys_statvfs name).
Proof. apply syscall_keeps. os_tac. Qed.
Lemma sys_chmod_keeps name mode : os_keeps (sys_chmod name mode).
Proof. apply on_node_keeps. intros m. apply with_mode_isdir. Qed.
Lemma sys_chown_keeps name uid gid : os_keeps (sys_chown name uid gid).
Proof. by apply on_node_keeps. Qed.
Lemma sys_utimens_keeps name a m : os_keeps (sys_utimens name a m).
Proof. by apply on_node_keeps. Qed.

Create HintDb keeps discriminated.
#[export] Hint Resolve sys_open_keeps sys_mkdir_keeps sys_rmdir_keeps sys_unlink_keeps sys_opendir_keeps sys_close_keeps
  sys_pread_keeps sys_pwrite_keeps sys_write_keeps sys_lseek_keeps sys_lstat_keeps sys_fstat_keeps sys_ftruncate_keeps
  sys_truncate_keeps sys_fsync_keeps sys_fdatasync_keeps sys_readdir_keeps sys_access_keeps sys_statvfs_keeps sys_chmod_keeps sys_chown_keeps
  sys_utimens_keeps : keeps.

(** ** The world *)

(** [root] and [dir] are the directories that the file system was mounted with. *)
Record world_ok (root dir : string) (w : world) : Prop := {
  wk_os : os_ok (w_os w);
  wk_root : rootdir (w_fs w) = root /\ rootdir_len (w_fs w) = strlen root;
  wk_dir : sn_dir (w_fs w) = dir;
  wk_any : sn_is_any (w_fs w) = 0 \/ sn_is_any (w_fs w) = 1;
  wk_latest : sn_is_any (w_fs w) = 1 -> sn_lat_dir_len (w_fs w) = strlen (sn_lat_dir (w_fs w));
  wk_number : - 2 ^ 31 <= sn_number (w_fs w) < 2 ^ 31;
  wk_locks : zlen (mflocks (w_fs w)) = LOCK_NUM
}.

Section Keeps.
Context (root dir : string).

Definition keeps {A} (m : M A) : Prop := forall w a w', world_ok root dir w -> m w = Some (a, w') -> world_ok root dir w'.

Lemma keeps_ret {A} (a : A) : keeps (mret a).
Proof using. by intros w b w' H [= _ <-]. Qed.

Lemma keeps_stuck {A} : keeps (@st_stuck world A).
Proof using. by intros w a w' H E. Qed.

Lemma keeps_bind {A B} (m : M A) (f : A -> M B) : keeps m -> (forall a, keeps (f a)) -> keeps (m ≫= f).
Proof using. intros Hm Hf w b w'' H E. apply st_bind_inv in E as (a & w' & E1 & E2). eapply Hf; [by eapply Hm | done]. Qed.

(** Changes of the parts that the invariant says nothing about. *)
Lemma keeps_same {A} (m : M A) :
  (forall w a w', m w = Some (a, w') -> w_fs w' = w_fs w /\ (os_ok (w_os w) -> os_ok (w_os w'))) -> keeps m.
Proof using. intros Hm w a w' [] E. destruct (Hm _ _ _ E) as [Ef Ho]. by split; rewrite ?Ef; auto. Qed.

Lemma keeps_sys {A} (f : os -> res A * os) : os_keeps f -> keeps (sys f).
Proof using.
  intros Hf. apply keeps_same. intros w a w'. unfold sys. destruct (f (w_os w)) as [r s] eqn:E. intros [= _ <-]. split; [done |].
  intros Hs. specialize (Hf _ Hs). by rewrite E in Hf.
Qed.

Lemma keeps_malloc : keeps malloc_.
Proof using.
  apply keeps_same. intros w a w'. unfold malloc_. destruct (pop_fault (w_os w)) as [f s] eqn:E. intros [= _ <-]. split; [done |].
  intros Hs. pose proof (pop_fault_ok _ Hs) as H. by rewrite E in H.
Qed.

Lemma keeps_malloc_mfd : keeps malloc_mfd.
Proof using.
  intros w a w' H E. unfold malloc_mfd in E. destruct (malloc_ w) as [[[] w1] |] eqn:E1; [| |done]; injection E as _ <-; by eapply keeps_malloc.
Qed.

Lemma keeps_malloc_block : keeps malloc_block.
Proof using.
  apply keeps_same. intros w a w'. unfold malloc_block. destruct (pop_fault (w_os w)) as [f s] eqn:E.
  assert (Hs : os_ok (w_os w) -> os_ok s) by (intros Hs; pose proof (pop_fault_ok _ Hs) as H; by rewrite E in H).
  destruct f; intros [= _ <-]; by split.
Qed.

(** Changes of the global data that keep it in range. *)
Lemma keeps_modify g :
  (forall w, world_ok root dir w -> world_ok root dir (set_fs (g (w_fs w)) w)) -> keeps (modify_fs g).
Proof using. intros H w a w' Hw [= _ <-]. by apply H. Qed.

Lemma keeps_table t : zlen t = LOCK_NUM -> keeps (put_table t).
Proof using. intros Ht w a w' [] [= _ <-]. by split. Qed.

Lemma keeps_upd_entry i f : keeps (upd_entry i f).
Proof using.
  intros w a w' H E. unfold upd_entry, get_table, mbind, ST_bind in E. destruct (mflocks (w_fs w) !! i) as [e |]; [| done].
  eapply keeps_table; [| done | done]. unfold zlen. rewrite length_alter. apply (wk_locks _ _ _ H).
Qed.

(** What only reads, or changes handles and buffers. *)
Lemma keeps_quiet {A} (m : M A) : (forall w a w', m w = Some (a, w') -> w_fs w' = w_fs w /\ w_os w' = w_os w) -> keeps m.
Proof using. intros Hm. apply keeps_same. intros w a w' E. destruct (Hm _ _ _ E) as [? ->]. auto. Qed.

Lemma keeps_get_fs : keeps get_fs.
Proof using. apply keeps_quiet. by intros w a w' [= _ <-]. Qed.
Lemma keeps_get : keeps st_get.
Proof using. apply keeps_quiet. by intros w a w' [= _ <-]. Qed.
Lemma keeps_get_table : keeps get_table.
Proof using. apply keeps_quiet. by intros w a w' [= _ <-]. Qed.
Lemma keeps_get_mfd fh : keeps (get_mfd fh).
Proof using. apply keeps_quiet. intros w a w'. unfold get_mfd. destruct (w_mfds w !! fh); [| done]. by intros [= _ <-]. Qed.
Lemma keeps_put_mfd fh m : keeps (put_mfd fh m).
Proof using. apply keeps_quiet. by intros w a w' [= _ <-]. Qed.
Lemma keeps_free_mfd fh : keeps (free_mfd fh).
Proof using. apply keeps_quiet. by intros w a w' [= _ <-]. Qed.
Lemma keeps_new_handle m : keeps (new_handle m).
Proof using. apply keeps_quiet. by intros w a w' [= _ <-]. Qed.
Lemma keeps_dir_fuel : keeps dir_fuel.
Proof using. apply keeps_quiet. by intros w a w' [= _ <-]. Qed.
Lemma keeps_buffer b : keeps (modify_fs (set_block_buffer b)).
Proof using. apply keeps_modify. by intros w []. Qed.
Lemma keeps_no_snapshots : keeps (modify_fs (set_sn_is_any 0)).
Proof using. apply keeps_modify. intros w []. split; cbn; auto. done. Qed.
End Keeps.

#[export] Hint Resolve keeps_ret keeps_stuck keeps_malloc keeps_malloc_mfd keeps_malloc_block keeps_upd_entry keeps_get_fs keeps_get
  keeps_get_table keeps_get_mfd keeps_put_mfd keeps_free_mfd keeps_new_handle keeps_dir_fuel keeps_buffer keeps_no_snapshots : keeps.
#[export] Hint Resolve keeps_sys : keeps.

(** One step of the walk over a computation. *)
Ltac keeps_step :=
  lazymatch goal with
  | |- keeps _ _ (_ ≫= _) => apply keeps_bind; [| intros ?]
  | |- keeps _ _ (match ?x with _ => _ end) => destruct x
  | |- keeps _ _ _ => solve [eauto with keeps]
  end.
Ltac keeps_tac := intros; cbv zeta; repeat keeps_step.

(** ** Locks and global data *)

Section Components.
Context (root dir : string).
Abbreviation keeps := (keeps root dir).

Lemma keeps_read_entry i : keeps (read_entry i).
Proof using. unfold read_entry. keeps_tac. Qed.
#[local] Hint Resolve keeps_read_entry : keeps.

Lemma keeps_mutex_lock i : keeps (mutex_lock i).
Proof using. unfold mutex_lock. keeps_tac. Qed.
Lemma keeps_mutex_unlock i : keeps (mutex_unlock i).
Proof using. unfold mutex_unlock. keeps_tac. Qed.
Lemma keeps_mod_lock i : keeps (mod_lock i).
Proof using. unfold mod_lock. keeps_tac. Qed.
Lemma keeps_mod_unlock i : keeps (mod_unlock i).
Proof using. unfold mod_unlock. keeps_tac. Qed.
#[local] Hint Resolve keeps_mutex_lock keeps_mutex_unlock keeps_mod_lock keeps_mod_unlock : keeps.

Lemma keeps_start n : forall have_mod label, keeps (mflock_start n have_mod label).
Proof using. induction n; cbn [mflock_start]; keeps_tac. Qed.
Lemma keeps_lock label : keeps (mflock_lock label).
Proof using. apply keeps_start. Qed.
Lemma keeps_unlock id : keeps (mflock_unlock id).
Proof using. unfold mflock_unlock. keeps_tac. Qed.

(** *** Snapshots *)

(** Publishing the latest snapshot: the three fields together. *)
Lemma keeps_publish p :
  keeps (_ ← modify_fs (set_sn_lat_dir p (strlen p + 1 - 1)); _ ← modify_fs (set_sn_is_any 1);
         _ ← modify_fs (fun f => set_sn_number (i32 (sn_number f + 1)) f); mret 0).
Proof using.
  intros w a w' [] [= _ <-]. split; cbn -[Z.pow Z.add Z.sub]; try done; [by right | lia |].
  unfold i32. pose proof (Z.mod_pos_bound (sn_number (w_fs w) + 1 + 2 ^ 31) (2 ^ 32) ltac:(lia)). lia.
Qed.
End Components.
