(* ===== verification/Returns.v ===== *)
(** Every request comes back: on a world in shape, whatever calls fail, a
    handler that FUSE may call returns, reaches no undefined behaviour on the
    way, and gives back every lock that it took.

    [does P m Q] is total correctness: from a calm world in which the lock
    table and the handles satisfy [P], the computation [m] returns, in a calm
    world in which they satisfy [Q].  What leaves locks and handles alone
    [runs]; for such computations [runs_tac] walks over the code. *)

From S2P Require Import Prelude Posix PosixSpec PosixPath Types Util UtilTheorems Mflock UtilLocking Layout Tree Block.
From S2P Require Import Snapshot SnapshotTheorems Mfd SnSteps FuseFd FuseDir SnapshotDestroy FusePath Mount Dispatch SmallSystem Survival WorldType.

(** ** Calls *)

(** The errno of a failed call is a positive number. *)
Definition fault_ok (f : fault) : Prop := match f with Fail e => 0 < e | _ => True end.
Definition err_ok {A} (r : res A) : Prop := match r with Err e => 0 < e | Ok _ => True end.

(** A call uses up faults, if any, and fails with a proper errno. *)
Definition os_fails {A} (f : os -> res A * os) : Prop :=
  forall s, Forall fault_ok (os_faults s) -> Forall fault_ok (os_faults (snd (f s))) /\ err_ok (fst (f s)).

Lemma pop_fault_fails s : Forall fault_ok (os_faults s) ->
  fault_ok (fst (pop_fault s)) /\ Forall fault_ok (os_faults (snd (pop_fault s))).
Proof. unfold pop_fault. destruct (os_faults s) as [| f r] eqn:E; cbn; [by rewrite E |]. intros H. by apply Forall_cons in H. Qed.

Lemma syscall_fails {A} (body : os -> res A * os) :
  (forall s, os_faults (snd (body s)) = os_faults s /\ err_ok (fst (body s))) -> os_fails (syscall body).
Proof.
  intros H s Hs. unfold syscall. destruct (pop_fault_fails s Hs) as [Hf Hr]. destruct (pop_fault s) as [f s']. cbn in *.
  destruct (H s') as [E He]. destruct f; cbn; rewrite ?E; auto.
Qed.

Lemma syscall_io_fails {A} n (body : Z -> os -> res A * os) :
  (forall k s, os_faults (snd (body k s)) = os_faults s /\ err_ok (fst (body k s))) -> os_fails (syscall_io n body).
Proof.
  intros H s Hs. unfold syscall_io. destruct (pop_fault_fails s Hs) as [Hf Hr]. destruct (pop_fault s) as [f s']. cbn in *.
  destruct (H (io_limit f n) s') as [E He]. destruct f; cbn in *; rewrite ?E; auto.
Qed.

Lemma walk_err s ps e : walk s ps = Err e -> 0 < e.
Proof. induction ps as [| p ps IH]; cbn; [done |]. repeat case_match; intros; simplify_eq; auto; by vm_compute. Qed.

Lemma lookup_err s p e : lookup_path s p = Err e -> 0 < e.
Proof. unfold lookup_path. destruct (walk s _) eqn:E; [case_match; intros; simplify_eq; by vm_compute |]. intros [= <-]. by eapply walk_err. Qed.

(** [fails_tac] goes through the cases of a call. *)
Ltac fails_tac :=
  intros; cbv zeta; unfold alloc_fd, add_node; repeat (case_match; simplify_eq/=); (split; [reflexivity |]); cbn [err_ok fst];
  first [exact I | by eapply walk_err | by eapply lookup_err | (by vm_compute) | idtac].

Lemma sys_open_fails name flags mode : os_fails (sys_open name flags mode).
Proof. apply syscall_fails. fails_tac. Qed.
Lemma sys_opendir_fails name : os_fails (sys_opendir name).
Proof. apply syscall_fails. fails_tac. Qed.
Lemma sys_close_fails fd : os_fails (sys_close fd).
Proof.
  intros s Hs. unfold sys_close. destruct (pop_fault_fails s Hs) as [Hf Hr]. destruct (pop_fault s) as [f s']. cbn in *.
  destruct (os_fds s' !! fd); [| by split]. by destruct f.
Qed.
Lemma sys_pread_fails fd n off : os_fails (sys_pread fd n off).
Proof. apply syscall_io_fails. fails_tac. Qed.
Lemma sys_pwrite_fails fd d off : os_fails (sys_pwrite fd d off).
Proof. apply syscall_io_fails. fails_tac. Qed.
Lemma sys_write_fails fd d : os_fails (sys_write fd d).
Proof. apply syscall_io_fails. fails_tac. Qed.
Lemma sys_lseek_fails fd : os_fails (sys_lseek_end fd).
Proof. apply syscall_fails. fails_tac. Qed.
Lemma sys_lstat_fails name : os_fails (sys_lstat name).
Proof. apply syscall_fails. fails_tac. Qed.
Lemma sys_fstat_fails fd : os_fails (sys_fstat fd).
Proof. apply syscall_fails. fails_tac. Qed.
Lemma sys_ftruncate_fails fd n : os_fails (sys_ftruncate fd n).
Proof. apply syscall_fails. fails_tac. Qed.
Lemma sys_truncate_fails name n : os_fails (sys_truncate name n).
Proof. apply syscall_fails. fails_tac. Qed.
Lemma sys_fsync_fails fd : os_fails (sys_fsync fd).
Proof. apply syscall_fails. fails_tac. Qed.
Lemma sys_fdatasync_fails fd : os_fails (sys_fdatasync fd).
Proof. apply syscall_fails. fails_tac. Qed.
Lemma sys_readdir_fails fd : os_fails (sys_readdir fd).
Proof. apply syscall_fails. fails_tac. Qed.
Lemma sys_access_fails g name mask : os_fails (sys_access g name mask).
Proof. apply syscall_fails. fails_tac. Qed.
Lemma sys_statvfs_fails name : os_fails (sys_statvfs name).
Proof. apply syscall_fails. fails_tac. Qed.
Lemma sys_mkdir_fails name mode : os_fails (sys_mkdir name mode).
Proof. apply syscall_fails. fails_tac. Qed.
Lemma sys_rmdir_fails name : os_fails (sys_rmdir name).
Proof. apply syscall_fails. fails_tac. Qed.
Lemma sys_unlink_fails name : os_fails (sys_unlink name).
Proof. apply syscall_fails. fails_tac. Qed.
Lemma on_node_fails name f : os_fails (on_node name f).
Proof. apply syscall_fails. fails_tac. Qed.

Create HintDb fails discriminated.
#[export] Hint Resolve sys_open_fails sys_opendir_fails sys_close_fails sys_pread_fails sys_pwrite_fails sys_write_fails sys_lseek_fails
  sys_lstat_fails sys_fstat_fails sys_ftruncate_fails sys_truncate_fails sys_fsync_fails sys_fdatasync_fails sys_readdir_fails sys_access_fails
  sys_statvfs_fails sys_mkdir_fails sys_rmdir_fails sys_unlink_fails on_node_fails : fails.

(** ** Total correctness *)

(** An assertion on the lock table and the handles. *)
Definition asn : Type := list mflock_t -> gmap Z mfd_t -> Prop.

(** The lock table before and after every request: one that is idle. *)
Class IdleTable := { calm_table : list mflock_t; calm_idle : idle_table calm_table }.

Section Does.
Context (root dir : string) {T : IdleTable}.

(** A world in shape, with its block buffer, in which calls fail with proper errnos. *)
Record calm (w : world) : Prop := {
  cm_ok : world_ok root dir w;
  cm_faults : Forall fault_ok (os_faults (w_os w));
  cm_buffer : is_Some (block_buffer (w_fs w))
}.

Definition holds_at (P : asn) (w : world) : Prop := P (mflocks (w_fs w)) (w_mfds w).

Definition does {A} (P : asn) (m : M A) (Q : A -> asn) : Prop :=
  forall w, calm w -> holds_at P w -> exists a w', m w = Some (a, w') /\ calm w' /\ holds_at (Q a) w'.

(** Locks and handles stay as they are; [R] holds of the result. *)
Definition runs {A} (m : M A) (R : A -> Prop) : Prop := forall P, does P m (fun a t h => P t h /\ R a).

Lemma does_ret {A} (P : asn) (a : A) (Q : A -> asn) : (forall t h, P t h -> Q a t h) -> does P (mret a) Q.
Proof using. intros H w Hc Hp. exists a, w. split; [done |]. split; [done | by apply H]. Qed.

Lemma does_bind {A B} P (m : M A) (R : A -> asn) (f : A -> M B) Q :
  does P m R -> (forall a, does (R a) (f a) Q) -> does P (m ≫= f) Q.
Proof using.
  intros Hm Hf w Hc Hp. destruct (Hm w Hc Hp) as (a & w1 & E1 & Hc1 & Hr). destruct (Hf a w1 Hc1 Hr) as (b & w2 & E2 & Hc2 & Hq).
  exists b, w2. by rewrite (st_bind_run _ _ _ _ _ E1).
Qed.

Lemma does_wk {A} P P' (m : M A) (Q Q' : A -> asn) :
  does P' m Q' -> (forall t h, P t h -> P' t h) -> (forall a t h, Q' a t h -> Q a t h) -> does P m Q.
Proof using.
  intros Hm HP HQ w Hc Hp. destruct (Hm w Hc (HP _ _ Hp)) as (a & w1 & E & Hc1 & Hq). exists a, w1. split; [done |]. split; [done | by apply HQ].
Qed.

(** Facts that do not depend on the state come out of the assertion. *)
Lemma does_pure {A} P (m : M A) Q (phi : Prop) : (phi -> does P m Q) -> does (fun t h => P t h /\ phi) m Q.
Proof using. intros H w Hc [Hp Hphi]. by apply H. Qed.

Lemma does_bind_runs {A B} P (m : M A) R (f : A -> M B) Q :
  runs m R -> (forall a, R a -> does P (f a) Q) -> does P (m ≫= f) Q.
Proof using. intros Hm Hf. eapply does_bind; [apply (Hm P) |]. intros a. apply does_pure, Hf. Qed.

Lemma does_runs {A} P (m : M A) R (Q : A -> asn) : runs m R -> (forall a t h, R a -> P t h -> Q a t h) -> does P m Q.
Proof using. intros Hm H. eapply does_wk; [apply (Hm P) | done |]. intros a t h [Hp Hr]. by apply H. Qed.

Lemma runs_ret {A} (a : A) (R : A -> Prop) : R a -> runs (mret a) R.
Proof using. intros H P. by apply does_ret. Qed.

Lemma runs_bind {A B} (m : M A) R (f : A -> M B) Q : runs m R -> (forall a, R a -> runs (f a) Q) -> runs (m ≫= f) Q.
Proof using. intros Hm Hf P. eapply does_bind_runs; [done |]. intros a Ha. by apply Hf. Qed.

Lemma runs_wk {A} (m : M A) (R R' : A -> Prop) : runs m R' -> (forall a, R' a -> R a) -> runs m R.
Proof using. intros Hm H P. eapply does_runs; [done |]. eauto. Qed.

Lemma runs_ret_bind {A B} (a : A) (f : A -> M B) Q : runs (f a) Q -> runs (mret a ≫= f) Q.
Proof using. intros H P w. apply (H P w). Qed.

Lemma runs_assoc {A B C} (m : M A) (f : A -> M B) (g : B -> M C) Q : runs ((m ≫= f) ≫= g) Q -> runs (m ≫= fun a => f a ≫= g) Q.
Proof using. intros H P w Hc Hp. destruct (H P w Hc Hp) as (c & w' & E & Hr). exists c, w'. by rewrite st_bind_assoc. Qed.

(** What keeps the shape of the world and leaves the rest alone. *)
Lemma runs_same {A} (m : M A) (R : A -> Prop) : keeps root dir m ->
  (forall w, calm w -> exists a w', m w = Some (a, w') /\ R a /\ Forall fault_ok (os_faults (w_os w')) /\ is_Some (block_buffer (w_fs w')) /\
     mflocks (w_fs w') = mflocks (w_fs w) /\ w_mfds w' = w_mfds w) -> runs m R.
Proof using.
  intros Hk Hm P w Hc Hp. destruct (Hm w Hc) as (a & w' & E & Hr & Hf & Hb & Ht & Hh). exists a, w'. split; [done |]. split.
  - split; [| done | done]. by apply (Hk w a w' (cm_ok _ Hc)).
  - unfold holds_at. by rewrite Ht, Hh.
Qed.

Lemma runs_sys {A} (f : os -> res A * os) : os_keeps f -> os_fails f -> runs (sys f) err_ok.
Proof using.
  intros Hk Hf. apply runs_same; [by apply keeps_sys |]. intros w []. destruct (Hf _ cm_faults0) as [H1 H2].
  unfold sys. destruct (f (w_os w)) as [r s]. by eexists _, _.
Qed.

Lemma runs_malloc : runs malloc_ (fun _ => True).
Proof using.
  apply runs_same; [apply keeps_malloc |]. intros w []. destruct (pop_fault_fails _ cm_faults0) as [_ H].
  unfold malloc_. destruct (pop_fault (w_os w)). by eexists _, _.
Qed.

Lemma runs_malloc_mfd : runs malloc_mfd (fun _ => True).
Proof using.
  apply runs_same; [apply keeps_malloc_mfd |]. intros w []. destruct (pop_fault_fails _ cm_faults0) as [_ H].
  unfold malloc_mfd, malloc_. destruct (pop_fault (w_os w)) as [[] s]; by eexists _, _.
Qed.

Lemma runs_malloc_block : runs malloc_block (fun _ => True).
Proof using.
  apply runs_same; [apply keeps_malloc_block |]. intros w []. destruct (pop_fault_fails _ cm_faults0) as [_ H].
  unfold malloc_block. destruct (pop_fault (w_os w)) as [[] s]; by eexists _, _.
Qed.

Lemma runs_get_fs : runs get_fs (fun f => is_Some (block_buffer f)).
Proof using. apply runs_same; [apply keeps_get_fs |]. intros w []. by eexists _, _. Qed.
Lemma runs_get : runs st_get (fun _ => True).
Proof using. apply runs_same; [apply keeps_get |]. intros w []. by eexists _, _. Qed.
Lemma runs_dir_fuel : runs dir_fuel (fun _ => True).
Proof using. apply runs_same; [apply keeps_dir_fuel |]. intros w []. by eexists _, _. Qed.
Lemma runs_buffer m : runs (modify_fs (set_block_buffer (Some m))) (fun _ => True).
Proof using. apply runs_same; [apply keeps_buffer |]. intros w []. by eexists _, _. Qed.
Lemma runs_no_snapshots : runs (modify_fs (set_sn_is_any 0)) (fun _ => True).
Proof using. apply runs_same; [apply keeps_no_snapshots |]. intros w []. by eexists _, _. Qed.

(** *** Handles *)

Lemma does_get_mfd (P : asn) fh (phi : mfd_t -> Prop) :
  (forall t h, P t h -> exists m, h !! fh = Some m /\ phi m) ->
  does P (get_mfd fh) (fun m t h => P t h /\ h !! fh = Some m /\ phi m).
Proof using.
  intros H w Hc Hp. destruct (H _ _ Hp) as (m & Hm & Hphi). exists m, w. unfold get_mfd. by rewrite Hm.
Qed.

Lemma does_mfds {A} (P : asn) (m : M A) (Q : A -> asn) :
  (forall w, holds_at P w -> exists a h, m w = Some (a, set_mfds h w) /\ Q a (mflocks (w_fs w)) h) -> does P m Q.
Proof using.
  intros H w Hc Hp. destruct (H w Hp) as (a & h & E & Hq). exists a, (set_mfds h w). split; [done |]. split; [| done].
  destruct Hc as [[] ? ?]. by split; [split | |].
Qed.

Lemma does_put_mfd P fh m : does P (put_mfd fh m) (fun _ t h' => exists h, P t h /\ h' = <[fh := m]> h).
Proof using. apply does_mfds. intros w Hp. eexists _, _. split; [done |]. by exists (w_mfds w). Qed.
Lemma does_free_mfd P fh : does P (free_mfd fh) (fun _ t h' => exists h, P t h /\ h' = delete fh h).
Proof using. apply does_mfds. intros w Hp. eexists _, _. split; [done |]. by exists (w_mfds w). Qed.
Lemma does_new_handle P m : does P (new_handle m) (fun fh t h' => exists h, P t h /\ h !! fh = None /\ h' = <[fh := m]> h).
Proof using.
  apply does_mfds. intros w Hp. eexists _, _. split; [done |]. exists (w_mfds w). split; [done |]. split; [| done].
  apply not_elem_of_dom, is_fresh.
Qed.

(** *** Locks *)

(** The table while [id] is locked: unlocking gives the table of before. *)
Definition held (id : Z) (t : list mflock_t) : Prop :=
  forall w, mflocks (w_fs w) = t -> mflock_unlock id w = Some (0, wt calm_table w).

Lemma does_lock (P : gmap Z mfd_t -> Prop) label : label <> 0 ->
  does (fun t h => t = calm_table /\ P h) (mflock_lock label) (fun id t h => 0 <= id /\ held id t /\ P h).
Proof using.
  intros Hl w Hc [Hi Hp]. destruct (mflock_there_and_back w label) as (id & t & Hid & E & Hun); [rewrite Hi; apply calm_idle | done |].
  rewrite Hi in Hun. exists id, (wt t w).
  split; [done |]. split; [| exact (conj (proj1 Hid) (conj Hun Hp))]. destruct Hc. split; [| done | done]. by apply (keeps_lock root dir label w id).
Qed.

Lemma does_unlock (P : gmap Z mfd_t -> Prop) id :
  does (fun t h => held id t /\ P h) (mflock_unlock id) (fun r t h => (t = calm_table /\ P h) /\ r = 0).
Proof using.
  intros w Hc [Hh Hp]. pose proof (Hh w eq_refl) as E. exists 0, (wt calm_table w).
  split; [done |]. split; [| by split]. destruct Hc. split; [| done | done]. by apply (keeps_unlock root dir id w 0).
Qed.

Definition quiet (P : gmap Z mfd_t -> Prop) : asn := fun t h => t = calm_table /\ P h.
Definition holding (id : Z) (P : gmap Z mfd_t -> Prop) : asn := fun t h => held id t /\ P h.

(** No lock is held before and after; handles stay as they are. *)
Definition serves {A} (m : M A) (R : A -> Prop) : Prop := forall P, does (quiet P) m (fun a t h => quiet P t h /\ R a).

(** The lock [id] is held before, and given back. *)
Definition frees {A} (id : Z) (m : M A) (R : A -> Prop) : Prop := forall P, does (holding id P) m (fun a t h => quiet P t h /\ R a).

Lemma serves_runs {A} (m : M A) R : runs m R -> serves m R.
Proof using. intros H P. apply H. Qed.

Lemma serves_ret {A} (a : A) (R : A -> Prop) : R a -> serves (mret a) R.
Proof using. intros H. by apply serves_runs, runs_ret. Qed.

Lemma serves_ret_bind {A B} (a : A) (f : A -> M B) Q : serves (f a) Q -> serves (mret a ≫= f) Q.
Proof using. intros H P w. apply (H P w). Qed.

Lemma serves_bind {A B} (m : M A) R (f : A -> M B) Q : serves m R -> (forall a, R a -> serves (f a) Q) -> serves (m ≫= f) Q.
Proof using. intros Hm Hf P. eapply does_bind; [apply Hm |]. intros a. apply does_pure. intros Ha. by apply Hf. Qed.

Lemma serves_wk {A} (m : M A) (R R' : A -> Prop) : serves m R' -> (forall a, R' a -> R a) -> serves m R.
Proof using. intros Hm H P. eapply does_wk; [apply Hm | done |]. cbn. intros a t h [Hq Ha]. auto. Qed.

Lemma frees_bind {A B} id (m : M A) R (f : A -> M B) Q : runs m R -> (forall a, R a -> frees id (f a) Q) -> frees id (m ≫= f) Q.
Proof using. intros Hm Hf P. eapply does_bind_runs; [done |]. intros a Ha. by apply Hf. Qed.

Lemma frees_then {A B} id (m : M A) R (f : A -> M B) Q : frees id m R -> (forall a, R a -> serves (f a) Q) -> frees id (m ≫= f) Q.
Proof using. intros Hm Hf P. eapply does_bind; [apply Hm |]. intros a. apply does_pure. intros Ha. by apply Hf. Qed.

Lemma serves_lock {B} label (f : Z -> M B) Q : label <> 0 -> (forall id, 0 <= id -> frees id (f id) Q) -> serves (mflock_lock label ≫= f) Q.
Proof using.
  intros Hl Hf P. eapply does_bind; [by apply (does_lock P) |]. intros id w Hc (Hid & Hh & Hp). by apply (Hf id Hid P).
Qed.

Lemma frees_ret_bind {A B} id (a : A) (f : A -> M B) Q : frees id (f a) Q -> frees id (mret a ≫= f) Q.
Proof using. intros H P w. apply (H P w). Qed.

Lemma frees_unlock id : frees id (mflock_unlock id) (fun r => r = 0).
Proof using. intros P. apply does_unlock. Qed.
End Does.

Create HintDb runs discriminated.
#[export] Hint Resolve runs_malloc runs_malloc_mfd runs_malloc_block runs_get_fs runs_get runs_dir_fuel runs_buffer runs_no_snapshots : runs.
#[export] Hint Resolve runs_sys : runs.

(** One step of the walk over a computation that takes no lock. *)
Ltac runs_step :=
  lazymatch goal with
  | |- runs _ _ ((match ?x with _ => _ end) ≫= _) _ => destruct x eqn:?
  | |- runs _ _ ((_ ≫= _) ≫= _) _ => eapply (runs_bind _ _ _ (fun _ => True)); [| intros ? _]
  | |- runs _ _ (mret _ ≫= _) _ => apply runs_ret_bind
  | |- runs _ _ (_ ≫= _) _ => eapply runs_bind; [solve [eauto with runs keeps fails] | intros ? ?]
  | |- runs _ _ (match ?x with _ => _ end) _ => destruct x eqn:?
  | |- runs _ _ (mret _) _ => apply runs_ret
  | |- runs _ _ _ _ => eapply runs_wk; [solve [eauto with runs keeps fails] | intros ? ?]
  end.
Ltac runs_tac := intros; cbv zeta; repeat runs_step; try exact I.

(** The same where locks may be taken and are given back. *)
Ltac serves_step :=
  lazymatch goal with
  | |- serves _ _ ((match ?x with _ => _ end) ≫= _) _ => destruct x eqn:?
  | |- serves _ _ ((_ ≫= _) ≫= _) _ => eapply (serves_bind _ _ _ (fun _ => True)); [| intros ? _]
  | |- serves _ _ (mret _ ≫= _) _ => apply serves_ret_bind
  | |- serves _ _ (_ ≫= _) _ =>
      first [eapply serves_bind; [solve [eauto with serves] | intros ? ?]
            | eapply serves_bind; [apply serves_runs; solve [eauto with runs keeps fails] | intros ? ?]]
  | |- serves _ _ (match ?x with _ => _ end) _ => destruct x eqn:?
  | |- serves _ _ (mret _) _ => apply serves_ret
  | |- serves _ _ _ _ =>
      first [eapply serves_wk; [solve [eauto with serves] | intros ? ?]
            | eapply serves_wk; [apply serves_runs; solve [eauto with runs keeps fails] | intros ? ?]]
  end.
Ltac serves_tac := intros; cbv zeta; repeat serves_step; try exact I.
Create HintDb serves discriminated.
