(* ===== verification/Progress.v ===== *)
(** The parts of the program return: the walks over trees, the chain of
    snapshots, block level copy on write, and the map and dat files of a main
    file.  Where a lock is taken, on every path through the code, failing
    calls included, it is given back. *)

From S2P Require Import Prelude Posix PosixSpec PosixPath Types Util UtilTheorems Mflock UtilLocking Layout Tree Block.
From S2P Require Import Snapshot SnapshotTheorems Mfd SnSteps FuseFd FuseDir SnapshotDestroy FusePath Mount Dispatch SmallSystem Survival WorldType Returns.

(** ** The components *)

Section Components.
Context (root dir : string) {T : IdleTable}.
Abbreviation runs := (runs root dir).
Abbreviation does := (does root dir).
Abbreviation serves := (serves root dir).
Abbreviation frees := (frees root dir).
Abbreviation any := (fun _ => True).

(** *** Trees and pointer files *)

Lemma last_slash_lt s : forall k, last_slash s = Some k -> (k < String.length s)%nat.
Proof using.
  induction s as [| c s IH]; intros k H; cbn in *; [done |]. destruct (last_slash s) as [j |].
  - injection H as <-. specialize (IH j eq_refl). lia.
  - destruct (Ascii.eqb c _); [injection H as <-; lia | done].
Qed.

(** Every call of [mkpath] is on a shorter path. *)
Lemma runs_mkpath_rec n : forall path mode, (String.length path < n)%nat -> runs (mkpath_rec n path mode) any.
Proof using.
  induction n as [| n IH]; intros path mode Hn; [lia |]. cbn [mkpath_rec]. destruct (last_slash path) as [[| k] |] eqn:E; [runs_tac | | runs_tac].
  apply last_slash_lt in E.
  assert (Hrec : runs (mkpath_rec n (strncpy path (Z.of_nat (S k))) mode) any).
  { apply IH. unfold strncpy. pose proof (substring_0_length (Z.to_nat (Z.of_nat (S k))) path). lia. }
  runs_tac.
Qed.
Lemma runs_mkpath path mode : runs (mkpath path mode) any.
Proof using. apply runs_mkpath_rec. lia. Qed.
#[local] Hint Resolve runs_mkpath : runs.
Lemma runs_univ_rm p b : runs (univ_rm p b) any.
Proof using. unfold univ_rm. destruct b; runs_tac. Qed.
#[local] Hint Resolve runs_univ_rm : runs.
Lemma runs_visit ps : runs (nftw_visit univ_rm ps) any.
Proof using. induction ps; cbn [nftw_visit]; runs_tac. Qed.
#[local] Hint Resolve runs_visit : runs.
Lemma runs_nftw p : runs (nftw p univ_rm) any.
Proof using. unfold nftw. runs_tac. Qed.
#[local] Hint Resolve runs_nftw : runs.
Lemma runs_read_sndir b p : runs (read_sndir_from_file b p) any.
Proof using. unfold read_sndir_from_file. runs_tac. Qed.
#[local] Hint Resolve runs_read_sndir : runs.

Lemma serves_recursive_remove p : serves (recursive_remove p) any.
Proof using.
  apply serves_lock; [pose proof (locklabel_pos LOCKLABEL_RMDIR); lia |]. intros id Hid. destruct (Z.ltb_spec id 0); [lia |].
  eapply frees_bind; [apply runs_nftw |]. intros ret _. eapply frees_then; [apply frees_unlock |]. serves_tac.
Qed.
#[local] Hint Resolve serves_recursive_remove : serves.

(** *** Snapshots *)

Lemma runs_earliest_loop n : forall p a b, runs (sn_get_earliest_loop n p a b) any.
Proof using. induction n; cbn [sn_get_earliest_loop]; runs_tac. Qed.
#[local] Hint Resolve runs_earliest_loop : runs.
Lemma runs_earliest : runs sn_get_earliest any.
Proof using. unfold sn_get_earliest. runs_tac. Qed.
Lemma runs_publish p :
  runs (_ ← modify_fs (set_sn_lat_dir p (strlen p + 1 - 1)); _ ← modify_fs (set_sn_is_any 1);
         _ ← modify_fs (fun f => set_sn_number (i32 (sn_number f + 1)) f); mret 0) any.
Proof using. apply runs_same; [apply keeps_publish |]. intros w []. by eexists _, _. Qed.
#[local] Hint Resolve runs_earliest runs_publish : runs.
Lemma runs_set_latest p : runs (sn_set_latest p) any.
Proof using. unfold sn_set_latest. cbv zeta. repeat first [eapply runs_wk; [apply runs_publish |] | runs_step]; done. Qed.
#[local] Hint Resolve runs_set_latest : runs.
Lemma runs_link p hid : runs (sn_link_previous p hid) any.
Proof using. unfold sn_link_previous. runs_tac. Qed.
#[local] Hint Resolve runs_link : runs.
Lemma runs_create p : runs (sn_create p) any.
Proof using. unfold sn_create. runs_tac. Qed.
#[local] Hint Resolve runs_create : runs.
Lemma serves_destroy : serves sn_destroy any.
Proof using. unfold sn_destroy. serves_tac. Qed.
#[local] Hint Resolve serves_destroy : serves.

(** *** Blocks *)

Lemma runs_read_pointer fd o : runs (read_pointer fd o) any.
Proof using. unfold read_pointer. runs_tac. Qed.
Lemma runs_read_copy a b c d e : runs (b_read_copy a b c d e) (fun r => fst r <> 0).
Proof using. unfold b_read_copy. runs_tac; repeat case_match; cbn in *; subst; cbn in *; lia || done. Qed.
#[local] Hint Resolve runs_read_pointer runs_read_copy : runs.

(** The last step ends the search. *)
Lemma runs_read_step m i a b c d e : (i < length (sn_steps m))%nat -> runs (b_read_step m i a b c d e) (fun r => i = 0%nat -> fst r <> 0).
Proof using.
  intros Hi. unfold b_read_step. destruct (lookup_lt_is_Some_2 _ _ Hi) as [st ->]. destruct (Z.ltb_spec 0 (Z.of_nat i)).
  - eapply (runs_wk _ _ _ _ any); [| intros; lia]. runs_tac.
  - eapply runs_wk; [apply runs_read_copy | done].
Qed.

(** The lock, once taken, is released before [b_read] goes to the next block. *)
Lemma read_sni_returns m k : (k <= length (sn_steps m))%nat -> locklabel m <> 0 -> forall bo ct cl cf buf,
  serves (b_read_sni mflock_lock mflock_unlock m k (-1) bo ct cl cf buf) any /\
  (forall lock, 0 <= lock -> k <> 0%nat -> frees lock (b_read_sni mflock_lock mflock_unlock m k lock bo ct cl cf buf) any).
Proof using.
  induction k as [| sni IH]; intros Hk Hl bo ct cl cf buf; [split; [apply serves_ret; exact I | done] |].
  pose proof (IH (Nat.lt_le_incl _ _ Hk) Hl bo ct cl cf) as Hrec. clear IH. pose proof (runs_read_step m sni bo ct cl cf buf Hk) as Hstep.
  set (rest := fun (lock' : Z) (x : Z * list Z) => let '(waserror, buf') := x in
    if waserror =? 0 then b_read_sni mflock_lock mflock_unlock m sni lock' bo ct cl cf buf'
    else r ← (if negb (lock' =? -1) then mflock_unlock lock' else mret 0);
         if r <? 0 then mret (RReturn (- r), buf') else if 0 <? waserror then mret (RReturn (- waserror), buf') else mret (RNext, buf')).
  assert (Hfree : forall lock, 0 <= lock -> frees lock (b_read_step m sni bo ct cl cf buf ≫= rest lock) any).
  { intros lock Hlock. eapply frees_bind; [exact Hstep |]. intros [waserror buf'] Hw. cbn in Hw. unfold rest.
    destruct (Z.eqb_spec waserror 0) as [-> |]; [apply (proj2 (Hrec buf')); [done | tauto] |].
    destruct (Z.eqb_spec lock (-1)); [lia |]. cbn [negb]. eapply frees_then; [apply frees_unlock |]. serves_tac. }
  cbn [b_read_sni]. split.
  - cbn [Z.eqb Pos.eqb]. rewrite andb_true_r. destruct (Z.of_nat sni <=? 1).
    + apply serves_lock; [done |]. intros id Hid. destruct (Z.ltb_spec id 0); [lia |]. exact (Hfree id Hid).
    + apply serves_ret_bind. cbn [andb]. eapply serves_bind; [apply serves_runs, Hstep |]. intros [waserror buf'] _.
      destruct (waserror =? 0); [apply Hrec |]. cbn [Z.eqb Pos.eqb negb]. serves_tac.
  - intros lock Hlock _. assert (Hne : lock <> -1) by lia. rewrite (proj2 (Z.eqb_neq _ _) Hne), andb_false_r. apply frees_ret_bind.
    exact (Hfree lock Hlock).
Qed.

(** What a handle on a file in a snapshot needs: its steps, with a lock label. *)
Definition steps_ok (m : mfd_t) : Prop :=
  length (sn_steps m) = Z.to_nat (sn_current m + 1) /\ -1 <= sn_first_file m <= sn_current m.

Lemma serves_read_sni m bo ct cl cf buf : steps_ok m -> locklabel m <> 0 ->
  serves (b_read_sni mflock_lock mflock_unlock m (Z.to_nat (sn_first_file m + 1)) (-1) bo ct cl cf buf) any.
Proof using. intros [Hlen Hf] Hl. apply read_sni_returns; [rewrite Hlen; lia | done]. Qed.
#[local] Hint Resolve serves_read_sni : serves.
Lemma serves_read_loop m n : steps_ok m -> locklabel m <> 0 -> forall a b c d buf, serves (b_read_loop mflock_lock mflock_unlock m n a b c d buf) any.
Proof using. intros Hs Hl. induction n; intros; cbn [b_read_loop]; serves_tac. Qed.
#[local] Hint Resolve serves_read_loop : serves.
Lemma serves_b_read buf m a b : steps_ok m -> locklabel m <> 0 -> serves (b_read mflock_lock mflock_unlock buf m a b) any.
Proof using. intros Hs Hl. unfold b_read. serves_tac. Qed.

(** [b_write] changes nothing but the cache of a handle. *)
Definition kin (m m' : mfd_t) : Prop := exists c, m' = set_cache c m.

Lemma kin_refl m : kin m m.
Proof using. exists (latest_written_block_cache m). by destruct m. Qed.
Lemma kin_trans m1 m2 m3 : kin m1 m2 -> kin m2 m3 -> kin m1 m3.
Proof using. intros [c ->] [c' ->]. by exists c'. Qed.
Lemma kin_label m m' : kin m m' -> locklabel m' = locklabel m.
Proof using. by intros [c ->]. Qed.

Definition bw_kin (st st' : bw_state) : Prop := bw_lock st' = bw_lock st /\ kin (bw_mfd st) (bw_mfd st').

Lemma bw_kin_refl st l b e : bw_kin (BwState (bw_mfd st) l b e) (BwState (bw_mfd st) l b e).
Proof using. split; [done | apply kin_refl]. Qed.

Lemma runs_get_buf st : runs (b_get_buf st) (fun o => o <> Some BufNull).
Proof using.
  unfold b_get_buf. destruct (bw_buf st); [| by apply runs_ret ..]. destruct (_ =? 0); [by apply runs_ret |].
  eapply runs_bind; [apply runs_malloc_block |]. intros [m |] _; by apply runs_ret.
Qed.
Lemma runs_buf_get b : b <> BufNull -> runs (buf_get b) any.
Proof using.
  destruct b; cbn [buf_get]; [done | | runs_tac]. intros _. eapply runs_bind; [apply runs_get_fs |]. intros f [m ->]. runs_tac.
Qed.
Lemma runs_buf_set b m : b <> BufNull -> runs (buf_set b m) any.
Proof using. destruct b; [done | |]; cbn [buf_set]; runs_tac. Qed.
#[local] Hint Resolve runs_get_buf runs_buf_get runs_buf_set : runs.

Lemma runs_append st mem bo : runs (b_append st mem bo) (fun r => bw_kin st (snd r)).
Proof using.
  unfold b_append, bw_break, bw_continue. runs_tac; split; try done; try apply kin_refl. by eexists.
Qed.

Lemma runs_save_block st bo : runs (b_save_block st bo) (fun r => bw_kin st (snd r)).
Proof using.
  unfold b_save_block, bw_break. cbv zeta. eapply runs_bind; [apply runs_get_buf |]. intros [b |] Hb; [| apply runs_ret; split; [done | apply kin_refl]].
  assert (Hb' : b <> BufNull) by congruence. eapply runs_bind; [apply runs_sys; eauto with keeps fails |]. intros [d | e] _; [| apply runs_ret; split; [done | apply kin_refl]].
  eapply runs_bind; [by apply runs_buf_get |]. intros mem _. eapply runs_bind; [by apply runs_buf_set |]. intros b' _.
  destruct (zlen d <? 1); [apply runs_ret; split; [done | apply kin_refl] |]. apply (runs_append (BwState (bw_mfd st) (bw_lock st) b' (bw_err st))).
Qed.

(** The lock of [b_write]: -1, or one that is held. *)
Definition lock_state (lock : Z) (P : gmap Z mfd_t -> Prop) : asn :=
  fun t h => (lock = -1 /\ t = calm_table \/ 0 <= lock /\ held lock t) /\ P h.

Definition bw_post (m : mfd_t) (P : gmap Z mfd_t -> Prop) (st' : bw_state) : asn :=
  fun t h => lock_state (bw_lock st') P t h /\ kin m (bw_mfd st').

Lemma save_block_post P st bo : does (lock_state (bw_lock st) P) (b_save_block st bo) (fun r => bw_post (bw_mfd st) P (snd r)).
Proof using. eapply does_runs; [apply runs_save_block |]. intros [x st'] t h [E Hk] Hp. split; [by rewrite E | done]. Qed.

Lemma bw_post_same P st : forall t h, lock_state (bw_lock st) P t h -> bw_post (bw_mfd st) P st t h.
Proof using. intros t h H. split; [done | apply kin_refl]. Qed.

Lemma write_block_post P st bo : locklabel (bw_mfd st) <> 0 ->
  does (lock_state (bw_lock st) P) (b_write_block mflock_lock st bo) (fun r => bw_post (bw_mfd st) P (snd r)).
Proof using.
  intros Hl. unfold b_write_block, bw_break, bw_continue. cbv zeta. destruct (_ =? bo + 1); [apply does_ret, bw_post_same |].
  eapply does_bind_runs; [apply runs_read_pointer |]. intros [p | e] _; [| apply does_ret; intros t h H; split; [done | apply kin_refl]].
  destruct (negb (p =? 0)); [apply does_ret; intros t h H; split; [done | by eexists] |].
  destruct (Z.eqb_spec (bw_lock st) (-1)) as [E | E]; [| apply save_block_post].
  eapply (does_wk _ _ _ (quiet P)); [| | intros a t h H; exact H].
  - eapply does_bind; [by apply (does_lock root dir P) |]. intros lock w Hc (Hlock & Hh & Hp). destruct (Z.ltb_spec lock 0); [lia |].
    set (st1 := BwState (bw_mfd st) lock (bw_buf st) (bw_err st)).
    assert (H1 : holds_at (lock_state lock P) w) by (split; [right; by split | done]). revert w Hc Hh Hp H1.
    enough (Hd : does (lock_state lock P) (p ← read_pointer (mapfd (bw_mfd st)) (map_offset bo);
      match p with Ok pointer => if negb (pointer =? 0) then mret (false, st1) else b_save_block st1 bo
      | Err e => mret (true, BwState (bw_mfd st1) (bw_lock st1) (bw_buf st1) e) end) (fun r => bw_post (bw_mfd st) P (snd r))) by (intros; by apply Hd).
    eapply does_bind_runs; [apply runs_read_pointer |]. intros [p' | e] _; [| apply does_ret; intros t h H1; split; [done | apply kin_refl]].
    destruct (negb (p' =? 0)); [apply does_ret; intros t h H1; split; [done | apply kin_refl] |]. apply (save_block_post P st1).
  - rewrite E. intros t h [[[_ Hi] | [? _]] Hp]; [by split | lia].
Qed.

Lemma write_loop_post P n : forall st bo, locklabel (bw_mfd st) <> 0 ->
  does (lock_state (bw_lock st) P) (b_write_loop mflock_lock n st bo) (bw_post (bw_mfd st) P).
Proof using.
  induction n as [| n IH]; intros st bo Hl; cbn [b_write_loop]; [apply does_ret, bw_post_same |].
  eapply does_bind; [by apply write_block_post |]. intros [stop st']. cbn [snd]. apply does_pure. intros Hk.
  destruct stop; [by apply does_ret |]. eapply does_wk; [apply (IH st' (bo + 1)); by rewrite (kin_label _ _ Hk) | done |].
  intros st2 t h [H2 Hk2]. split; [done | by eapply kin_trans].
Qed.

Lemma cleanup_post P m st :
  does (bw_post m P st) (b_write_cleanup mflock_unlock st B_WRITE_DEFAULTS) (fun r t h => quiet P t h /\ kin m (snd r)).
Proof using.
  apply does_pure. intros Hk. unfold b_write_cleanup. change (has B_WRITE_DEFAULTS B_WRITE_HAS_LOCK) with false.
  destruct (Z.eqb_spec (bw_lock st) (-1)) as [E | E]; cbn [negb andb].
  - apply does_ret. intros t h [[[_ Hi] | [? _]] Hp]; [by split | lia].
  - apply (does_wk _ _ _ (holding (bw_lock st) P) _ _ (fun r t h => quiet P t h /\ kin m (snd r))); [| | done].
    + eapply does_bind; [apply does_unlock |]. intros lock. apply does_pure. intros ->. cbn [Z.eqb negb Z.ltb Z.compare andb].
      eapply does_bind_runs; [by apply (runs_ret _ _ tt any) |]. intros _ _. apply does_ret. intros t h Hq. by split.
    + intros t h [[[? _] | [_ Hh]] Hp]; [done | by split].
Qed.

(** What a handle needs to be written through. *)
Definition label_ok (m : mfd_t) : Prop := 0 <= datfd m -> locklabel m <> 0.

Lemma serves_b_write m a b : label_ok m -> serves (b_write mflock_lock mflock_unlock m a b B_WRITE_DEFAULTS) (fun r => kin m (snd r)).
Proof using.
  intros Hm. unfold b_write. change (has B_WRITE_DEFAULTS B_WRITE_HAS_LOCK) with false. cbv zeta.
  destruct (Z.ltb_spec (datfd m) 0) as [Hd | Hd]; [apply serves_ret, kin_refl |]. specialize (Hm Hd). cbn [orb].
  destruct (a =? 0); [apply serves_ret, kin_refl |].
  assert (Hgo : forall n st bo, bw_mfd st = m -> bw_lock st = -1 ->
    serves (st ← b_write_loop mflock_lock n st bo; b_write_cleanup mflock_unlock st B_WRITE_DEFAULTS) (fun r => kin m (snd r))).
  { intros n st bo <- El P. eapply does_bind; [| intros st'; apply cleanup_post].
    eapply does_wk; [by apply (write_loop_post P n st bo) | | done]. rewrite El. intros t h [Hi Hp]. split; [by left | done]. }
  repeat case_match; try (apply serves_ret, kin_refl); by apply Hgo.
Qed.

Lemma serves_b_truncate m n : label_ok m -> serves (b_truncate mflock_lock mflock_unlock m n B_WRITE_DEFAULTS) (fun r => kin m (snd r)).
Proof using. intros Hm. unfold b_truncate. cbv zeta. destruct (_ && _); [by apply serves_b_write | apply serves_ret, kin_refl]. Qed.

(** *** Handles of main files *)

(** The lock label and the kind of a handle. *)
Definition alike (m m' : mfd_t) : Prop := locklabel m' = locklabel m /\ is_main m' = is_main m.

Lemma runs_load h fd : runs (mfd_load_mapheader h fd) (fun r => fst r <= 0).
Proof using. unfold mfd_load_mapheader. runs_tac. repeat case_match; cbn in *; subst; cbn in *; unfold EIO, EFAULT; lia || done. Qed.
Lemma runs_save m : runs (mfd_save_mapheader m) any.
Proof using. unfold mfd_save_mapheader. runs_tac. Qed.
Lemma runs_new_header p h : runs (mfd_new_header p h) any.
Proof using. unfold mfd_new_header. runs_tac. Qed.
Lemma runs_close_if fd e : runs (close_if_open fd e) any.
Proof using. unfold close_if_open. runs_tac. Qed.
Lemma runs_open_dat p m : runs (mfd_open_dat p m) (fun r => alike m (snd r)).
Proof using. unfold mfd_open_dat. runs_tac; try done. by case_match. Qed.
#[local] Hint Resolve runs_load runs_save runs_new_header runs_close_if runs_open_dat : runs.
Lemma runs_close_sn m : runs (mfd_close_sn m) any.
Proof using. unfold mfd_close_sn. runs_tac. Qed.
#[local] Hint Resolve runs_close_sn : runs.

(** The error, the lock and the handle while the map file is opened. *)
Definition open_post (P : gmap Z mfd_t -> Prop) (m : mfd_t) (r : Z * Z * mfd_t) : asn :=
  fun t h => lock_state (r.1.2) P t h /\ alike m r.2.

Lemma open_fails P lock m m' e : 0 <= lock -> alike m m' -> does (holding lock P) (mret (e, lock, m')) (open_post P m).
Proof using. intros Hl E. apply does_ret. intros t h [Hh Hp]. split; [| done]. split; [right; by split | done]. Qed.

(** The lock is released, the dat file is opened. *)
Lemma open_unlock_dat P vpath lock m m' : 0 <= lock -> alike m m' ->
  does (holding lock P) (ret ← mflock_unlock lock;
    if negb (ret =? 0) then mret (- ret, lock, m')
    else '(waserror, mfd) ← mfd_open_dat vpath m'; mret (waserror, -1, mfd)) (open_post P m).
Proof using.
  intros Hl E. eapply does_bind; [apply does_unlock |]. intros ret. apply does_pure. intros ->. cbn [Z.eqb negb].
  eapply does_bind_runs; [apply runs_open_dat |]. intros [waserror m2] E2. apply does_ret. intros t h [Hi Hp].
  split; [split; [by left | done] |]. destruct E, E2. split; cbn in *; congruence.
Qed.

Lemma open_existing_post P vpath fd lock m : 0 <= lock -> does (holding lock P) (mfd_open_existing mflock_unlock vpath fd lock m) (open_post P m).
Proof using.
  intros Hl. unfold mfd_open_existing. eapply does_bind_runs; [apply runs_load |]. intros [ret h] _. cbv zeta.
  destruct (negb (ret =? 0)); [by apply open_fails |]. by apply open_unlock_dat.
Qed.

Lemma open_new_post P vpath fpath fd lock m :
  0 <= lock -> does (holding lock P) (mfd_open_new mflock_unlock vpath fpath fd lock m) (open_post P m).
Proof using.
  intros Hl. unfold mfd_open_new. eapply does_bind_runs; [apply runs_new_header |]. intros [e h] _. cbv zeta.
  destruct (negb (e =? 0)); [by apply open_fails |]. destruct (S_ISDIR _); [by apply open_fails |].
  eapply does_bind_runs; [apply runs_save |]. intros ret _. destruct (negb (ret =? 0)); [by apply open_fails |]. by apply open_unlock_dat.
Qed.

Lemma open_locked_post P vpath fpath fmap lock m :
  0 <= lock -> does (holding lock P) (mfd_open_locked mflock_unlock vpath fpath fmap lock m) (open_post P m).
Proof using.
  intros Hl. unfold mfd_open_locked. eapply does_bind_runs; [apply runs_sys; eauto with keeps fails |]. intros [fd | e] _.
  - eapply does_bind; [by apply open_new_post |]. intros [[waserror lock'] m'].
    eapply (does_bind_runs _ _ _ _ any); [runs_tac |]. intros _ _. by apply does_ret.
  - destruct (negb (e =? EEXIST)); [by apply open_fails |].
    eapply does_bind_runs; [apply runs_sys; eauto with keeps fails |]. intros [fd | e'] _; [| by apply open_fails].
    eapply does_bind; [by apply open_existing_post |]. intros [[waserror lock'] m'].
    eapply (does_bind_runs _ _ _ _ any); [runs_tac |]. intros _ _. by apply does_ret.
Qed.

(** The handle has a lock label, or it is the old one and the path is too long. *)
Lemma serves_open_sn m vpath fpath :
  serves (mfd_open_sn mflock_lock mflock_unlock m vpath fpath) 
    (fun r => (locklabel (snd r) <> 0 /\ is_main (snd r) = mfd_main) \/ r = (- ENAMETOOLONG, m)).
Proof using.
  unfold mfd_open_sn. eapply serves_bind; [apply serves_runs, runs_get_fs |]. intros f _.
  destruct (match fpath with None => _ | Some p => _ end) as [fp | e]; [| apply serves_ret; by right]. cbv zeta.
  assert (Hl : string2locklabel fp <> 0) by (pose proof (locklabel_pos fp); lia).
  set (m1 := set_vpath _ _). assert (Hm : is_main m1 = mfd_main) by done. change (string2locklabel fp) with (locklabel m1) in Hl. clearbody m1.
  destruct (sn_is_any f =? 0); [apply serves_ret; by left |].
  destruct (get_map_prefix_path _ _ _) as [fmap | e]; [| apply serves_ret; by left].
  eapply serves_bind; [apply serves_runs, runs_mkpath |]. intros [ret first] _. destruct (ret <? 0); [apply serves_ret; by left |].
  apply serves_lock; [done |]. intros lock Hlock. destruct (Z.ltb_spec lock 0); [lia |]. intros P.
  eapply does_bind; [by apply open_locked_post |]. intros [[waserror lock'] m']. apply does_pure. cbn. intros [E E'].
  destruct (Z.leb_spec 0 lock') as [Hl' | Hl'].
  - eapply (does_wk _ _ _ (holding lock' P)); [| intros t h [[[? _] | [_ Hh]] Hp]; [lia | by split] | intros a t h Hq; exact Hq].
    eapply does_bind; [apply does_unlock |]. intros ret'. apply does_pure. intros _. apply does_ret. intros t h Hq. split; [done |]. left. cbn. by rewrite E, E'.
  - apply does_ret. intros t h [[[_ Hi] | [? _]] Hp]; [| lia]. split; [by split |]. left. cbn. by rewrite E, E'.
Qed.

Lemma serves_init_sn vpath fpath : serves (mfd_init_sn mflock_lock mflock_unlock vpath fpath) any.
Proof using.
  unfold mfd_init_sn. eapply serves_bind; [apply serves_runs, runs_get |]. intros w _.
  eapply serves_bind; [apply serves_open_sn |]. intros [ret m] _. serves_tac.
Qed.
#[local] Hint Resolve serves_init_sn : serves.

(** What every handle on a file satisfies. *)
Definition file_ok (m : mfd_t) : Prop := label_ok m /\ (is_main m = mfd_sn_full -> steps_ok m /\ locklabel m <> 0).

Lemma file_ok_kin m m' : kin m m' -> file_ok m -> file_ok m'.
Proof using. by intros [c ->]. Qed.

Lemma file_ok_main m : locklabel m <> 0 -> is_main m = mfd_main -> file_ok m.
Proof using. intros Hl Hm. split; [intros _; exact Hl | by rewrite Hm]. Qed.

Lemma serves_validate m : file_ok m -> serves (mfd_validate mflock_lock mflock_unlock m) (fun r => file_ok (snd r)).
Proof using.
  intros Hm. unfold mfd_validate. eapply serves_bind; [apply serves_runs, runs_get_fs |]. intros f _.
  destruct (_ =? _); [by apply serves_ret |]. destruct (_ =? _); [by apply serves_ret |].
  eapply serves_bind; [apply serves_runs, runs_close_sn |]. intros ret _. destruct (negb (ret =? 0)); [by apply serves_ret |].
  eapply serves_bind; [apply serves_open_sn |]. intros [ret' m'] [[Hl Hk] | [= -> ->]]; cbn in *.
  - destruct (negb (ret' =? 0)); apply serves_ret; by apply file_ok_main.
  - by apply serves_ret.
Qed.

Lemma runs_in_sn_validate m : runs (mfd_in_sn_validate m) any.
Proof using. unfold mfd_in_sn_validate. runs_tac. Qed.
#[local] Hint Resolve runs_in_sn_validate : runs.
End Components.

#[export] Hint Resolve runs_mkpath runs_nftw runs_read_sndir runs_earliest runs_create runs_load runs_close_if runs_close_sn
  runs_in_sn_validate : runs.
#[export] Hint Resolve serves_destroy serves_init_sn : serves.
