(* ===== verification/ProgressSteps.v ===== *)
(** The steps of a handle in a snapshot are complete: [mfd_get_sn_steps]
    returns, and a handle that it reports as ready has every step that the
    code that uses it looks at. *)

From S2P Require Import Prelude Posix PosixSpec PosixPath Types Util UtilTheorems Mflock UtilLocking Layout Tree Block.
From S2P Require Import Snapshot SnapshotTheorems Mfd SnSteps FuseFd WorldType Returns Progress.

Section Steps.
Context (root dir : string) {T : IdleTable}.
Abbreviation runs := (runs root dir).
Abbreviation any := (fun _ => True).

(** ** Closing *)

Lemma runs_destroy_step st e : runs (destroy_step st e) any.
Proof using. unfold destroy_step. runs_tac. Qed.
#[local] Hint Resolve runs_destroy_step : runs.

Lemma runs_destroy_loop m k : (k <= length (sn_steps m))%nat -> forall e, runs (destroy_steps_loop m k e) any.
Proof using.
  induction k as [| k IH]; intros Hk e; cbn [destroy_steps_loop]; [runs_tac |].
  destruct (lookup_lt_is_Some_2 _ _ Hk) as [st ->]. specialize (IH (Nat.lt_le_incl _ _ Hk)). runs_tac.
Qed.

Lemma runs_destroy_steps m : steps_ok m -> runs (mfd_destroy_sn_steps m) any.
Proof using.
  intros [Hlen _]. unfold mfd_destroy_sn_steps. destruct (_ <=? _); [| runs_tac]. apply runs_destroy_loop. lia.
Qed.
#[local] Hint Resolve runs_destroy_steps : runs.

(** ** The roots *)

Lemma runs_paths_loop n : forall al a b ps, runs (sn_get_paths_loop n al a b ps) (fun r => fst r = 0 -> snd r <> []).
Proof using.
  assert (Hne : forall e (ps : list string), 0 < e -> - e = 0 -> ps <> []) by lia.
  induction n as [| n IH]; intros al a b ps; cbn [sn_get_paths_loop]; [by apply runs_ret |].
  destruct (String.eqb a b); [apply runs_ret; by destruct ps |].
  destruct (get_hid_path b) as [h | e] eqn:Eh.
  - cbv zeta. eapply (runs_bind _ _ _ any); [runs_tac |]. intros [] _; cbn [negb]; [| by apply runs_ret].
    destruct (_ <=? _); [by apply runs_ret |]. eapply runs_bind; [apply runs_read_sndir |]. intros [ret next] _.
    destruct (Z.eqb_spec ret 0); [by apply runs_ret |]. destruct (Z.ltb_spec ret 0); [apply runs_ret; cbn; lia |]. apply IH.
  - apply runs_ret. cbn. apply Hne. unfold get_hid_path in Eh. case_match; simplify_eq. by vm_compute.
Qed.

(** The steps of a new handle: at least the main space. *)
Definition steps_new (m : mfd_t) : Prop := 0 <= sn_current m /\ length (sn_steps m) = Z.to_nat (sn_current m + 1).

Lemma runs_paths_to m p : runs (sn_get_paths_to m p) (fun r => fst r = 0 -> steps_new (snd r)).
Proof using.
  unfold sn_get_paths_to. eapply runs_bind; [apply runs_get_fs |]. intros f _.
  assert (Hgo : runs (if PATH_MAX <=? strlen (sp_id p) + strlen (sn_dir f) then mret (- ENAMETOOLONG, m)
      else m0 ← malloc_; if negb m0 then mret (- ENOMEM, m)
        else '(ret, paths) ← sn_get_paths_loop (Z.to_nat MAX_SNAPSHOTS) 4 (sn_dir f +:+ sp_id p) (sn_lat_dir f) [rootdir f];
             if negb (ret =? 0) then mret (ret, m) else mret (0, set_sn_current (zlen paths - 1) (set_sn_steps (new_step <$> paths) m)))
      (fun r => fst r = 0 -> steps_new (snd r))).
  { destruct (_ <=? _); [by apply runs_ret |]. eapply runs_bind; [apply runs_malloc |]. intros [] _; cbn [negb]; [| by apply runs_ret].
    eapply runs_bind; [apply runs_paths_loop |]. intros [ret paths] Hp. cbn in Hp.
    destruct (Z.eqb_spec ret 0) as [-> |]; cbn [negb]; [| apply runs_ret; cbn; congruence]. specialize (Hp eq_refl).
    apply runs_ret. intros _. unfold steps_new. cbn [snd sn_current sn_steps set_sn_current set_sn_steps]. rewrite length_fmap.
    destruct paths; [done |]. unfold zlen. cbn [length]. lia. }
  destruct (is_there p); [by apply runs_ret | exact Hgo | exact Hgo].
Qed.

(** ** One step *)

(** What an iteration at [sni] may change. *)
Record touched (sni : nat) (st st' : steps_st) : Prop := {
  tc_length : length (sn_steps (ss_mfd st')) = length (sn_steps (ss_mfd st));
  tc_current : sn_current (ss_mfd st') = sn_current (ss_mfd st);
  tc_first : sn_first_file (ss_mfd st') = sn_first_file (ss_mfd st) \/ sn_first_file (ss_mfd st') = Z.of_nat sni;
  tc_label : locklabel (ss_mfd st) <> 0 -> locklabel (ss_mfd st') <> 0;
  tc_other : forall j, j <> sni -> sn_steps (ss_mfd st') !! j = sn_steps (ss_mfd st) !! j
}.

#[local] Instance touched_preorder sni : PreOrder (touched sni).
Proof using.
  split; [by intros st; split; auto |]. intros st1 st2 st3 [] []. split; try congruence; auto.
  - destruct tc_first1 as [E | E]; rewrite E; auto.
  - intros j Hj. rewrite tc_other1; auto.
Qed.

Lemma touched_upd sni f st : touched sni st (upd_step sni f st).
Proof using. split; cbn; auto; [by rewrite length_alter |]. intros j Hj. by rewrite list_lookup_alter_ne. Qed.
Lemma touched_err sni e st : touched sni st (ss_set_err e st).
Proof using. by split; auto. Qed.
Lemma touched_head sni h st : touched sni st (ss_set_head h st).
Proof using. by split; auto. Qed.
Lemma touched_fstat sni s st : touched sni st (ss_set_mfd (set_head_fstat s (ss_mfd st)) st).
Proof using. by split; auto. Qed.
Lemma touched_header sni h st : touched sni st (ss_set_mfd (set_mapheader h (ss_mfd st)) st).
Proof using. by split; auto. Qed.
Lemma touched_first sni st : touched sni st (ss_set_mfd (set_sn_first_file (Z.of_nat sni) (ss_mfd st)) st).
Proof using. by split; auto. Qed.
Lemma touched_locklabel sni p st : touched sni st (ss_set_mfd (set_locklabel (string2locklabel p) (ss_mfd st)) st).
Proof using. split; cbn; auto. intros _. pose proof (locklabel_pos p). lia. Qed.

(** The changes of an iteration, one after the other. *)
Lemma touched_via sni st st1 st2 : touched sni st1 st2 -> touched sni st st1 -> touched sni st st2.
Proof using. intros H2 H1. by transitivity st1. Qed.

Ltac touched_tac :=
  repeat first [assumption | reflexivity | progress cbn [fst snd] | eapply touched_via; [apply touched_upd |] | eapply touched_via; [apply touched_err |]
    | eapply touched_via; [apply touched_head |] | eapply touched_via; [apply touched_fstat |] | eapply touched_via; [apply touched_header |]
    | eapply touched_via; [apply touched_first |] | eapply touched_via; [apply touched_locklabel |]].

(** The loop is left early only with an error, or at the first file found. *)
Definition brk_ok (flags : Z) (c : ctl) (st : steps_st) : Prop := c = CBreak -> has flags SN_STEPS_F_FIRSTONLY = false -> ss_err st <> 0.

Lemma brk_err flags e st : 0 < e -> brk_ok flags CBreak (ss_set_err (- e) st).
Proof using. intros He _ _. cbn. lia. Qed.
Lemma brk_fin flags st : brk_ok flags (if has flags SN_STEPS_F_FIRSTONLY then CBreak else CEnd) st.
Proof using. intros Hb Hf. by rewrite Hf in Hb. Qed.

Lemma runs_known flags path :
  runs (steps_known flags path) (fun r => err_ok r /\ (has flags SN_STEPS_F_TYPE_UNKNOWN = false -> r = Ok KUnknown)).
Proof using.
  unfold steps_known. destruct (has _ _); [| by apply runs_ret]. eapply runs_bind; [apply runs_sys; eauto with keeps fails |].
  intros [s | e] He; apply runs_ret; (split; [| done]); [done |]. by case_match.
Qed.

Lemma runs_dir_first flags sni path k st : runs (steps_dir_first flags sni path k st) (fun r =>
  touched sni st (snd r) /\ brk_ok flags (fst r) (snd r) /\
  (has flags SN_STEPS_F_STATDIR || has flags SN_STEPS_F_SKIPOPENDIR = false -> sn_steps (ss_mfd (snd r)) = sn_steps (ss_mfd st))).
Proof using.
  unfold steps_dir_first. destruct (_ =? -1); [| by apply runs_ret]. cbv zeta.
  destruct (has flags SN_STEPS_F_STATDIR || has flags SN_STEPS_F_SKIPOPENDIR).
  - eapply (runs_bind _ _ _ (fun r => touched sni st (snd r) /\ (fst r = true -> ss_err (snd r) <> 0))).
    + destruct k; [eapply runs_bind; [apply runs_sys; eauto with keeps fails |]; intros [s | e] He; apply runs_ret .. | apply runs_ret].
      all: repeat case_match; (split; [touched_tac | cbn; try done]); cbn in He; lia.
    + intros [brk st'] [Ht Hb]. cbn in Hb. destruct brk; apply runs_ret; cbn [fst snd]; split_and!; try done.
      * intros _ _. auto.
      * apply brk_fin.
  - apply runs_ret_bind. apply runs_ret. cbn [fst snd]. split_and!; [touched_tac | apply brk_fin | done].
Qed.

(** A directory step that can be listed. *)
Definition dir_done (sni : nat) (m : mfd_t) : Prop :=
  exists step, sn_steps m !! sni = Some step /\ (step_mapfd step = SN_STEPS_UNUSED \/ is_Some (step_dirfd step)).

Lemma upd_step_at sni f st s : sn_steps (ss_mfd st) !! sni = Some s -> sn_steps (ss_mfd (upd_step sni f st)) !! sni = Some (f s).
Proof using. intros H. cbn. by rewrite list_lookup_alter_eq, H. Qed.

Lemma runs_steps_dir flags sni path k st : (sni < length (sn_steps (ss_mfd st)))%nat -> runs (steps_dir flags sni path k st) (fun r =>
  touched sni st (snd r) /\ brk_ok flags (fst r) (snd r) /\
  (flags = SN_STEPS_F_DIR -> fst r <> CBreak -> dir_done sni (ss_mfd (snd r)))).
Proof using.
  intros [s Hs]%lookup_lt_is_Some_2. unfold steps_dir. destruct (has flags SN_STEPS_F_SKIPOPENDIR) eqn:Esk.
  - eapply runs_wk; [apply runs_dir_first |]. intros r (Ht & Hb & _). split_and!; try done. intros ->. by vm_compute in Esk.
  - eapply runs_bind; [apply runs_sys; eauto with keeps fails |]. intros [fd | e] He.
    + eapply runs_wk; [apply runs_dir_first |]. intros r (Ht & Hb & Hst). split_and!; [by etransitivity; [apply touched_upd |] | done |].
      intros -> _. eexists. rewrite Hst by done. split; [by apply upd_step_at |]. right. by eexists.
    + destruct (e =? ENOENT); apply runs_ret; cbn [fst snd].
      * split_and!; [touched_tac | done |]. intros _ _. eexists. split; [by apply upd_step_at |]. by left.
      * split_and!; [touched_tac | by apply brk_err | done].
Qed.

Definition data_post (sni : nat) (st : steps_st) (r : option ctl * steps_st) : Prop :=
  touched sni st (snd r) /\ (fst r = Some CBreak -> ss_err (snd r) <> 0).

Lemma data_fail sni st st' e : 0 < e -> touched sni st st' -> data_post sni st (Some CBreak, ss_set_err (- e) st').
Proof using. intros He Ht. split; [touched_tac | cbn; lia]. Qed.

Lemma runs_open_data sni path st st' : touched sni st st' -> runs (steps_open_data sni path st') (data_post sni st).
Proof using.
  intros Ht. unfold steps_open_data. eapply runs_bind; [apply runs_sys; eauto with keeps fails |]. intros [fd | e] He; apply runs_ret.
  - split; [touched_tac | done].
  - destruct (e =? ENOENT); [split; [touched_tac | done] | by apply data_fail].
Qed.

Lemma map_path_err p e : get_map_path p = Err e -> 0 < e.
Proof using. unfold get_map_path. case_match; intros; simplify_eq; by vm_compute. Qed.
Lemma dat_path_err p e : get_dat_path p = Err e -> 0 < e.
Proof using. unfold get_dat_path. case_match; intros; simplify_eq; by vm_compute. Qed.

Lemma runs_file_sn flags sni path st : runs (steps_file_sn flags sni path st) (data_post sni st).
Proof using.
  unfold steps_file_sn. destruct (get_map_path path) as [mp | e] eqn:Em; [| apply runs_ret, data_fail; [by eapply map_path_err | done]].
  eapply runs_bind; [apply runs_sys; eauto with keeps fails |]. intros [fd | e] He; cbv zeta.
  - eapply runs_bind; [apply runs_load |]. intros [ret h] _. set (st1 := ss_set_head h _).
    assert (Ht : touched sni st st1) by (unfold st1; destruct (negb _); touched_tac). clearbody st1.
    destruct (has flags _); [apply runs_ret; by split |].
    destruct (get_dat_path path) as [dp | e] eqn:Ed; [by apply runs_open_data | apply runs_ret, data_fail; [by eapply dat_path_err | done]].
  - apply runs_ret. destruct (e =? ENOENT); [split; [touched_tac | done] | by apply data_fail].
Qed.

Lemma runs_file_main flags sni path st :
  runs (steps_file_main flags sni path st) (fun r => data_post sni st r /\ locklabel (ss_mfd (snd r)) <> 0).
Proof using.
  unfold steps_file_main. cbv zeta. set (st1 := ss_set_mfd _ _).
  assert (Ht : touched sni st st1) by (unfold st1; touched_tac).
  assert (Hl : locklabel (ss_mfd st1) <> 0) by (cbn; pose proof (locklabel_pos path); lia). clearbody st1.
  destruct (has flags _); [apply runs_ret; split; [split; [touched_tac | done] | done] |].
  eapply runs_wk; [by apply (runs_open_data sni path st1) |]. intros r [Ht1 Hb]. split; [split; [by etransitivity | done] |].
  by apply (tc_label _ _ _ Ht1).
Qed.

Lemma runs_file_first flags sni path st :
  runs (steps_file_first flags sni path st) (fun r => touched sni st (snd r) /\ brk_ok flags (fst r) (snd r)).
Proof using.
  unfold steps_file_first. destruct (_ =? -1); [| by apply runs_ret]. cbv zeta.
  destruct (0 <? Z.of_nat sni); [apply runs_ret; split; [touched_tac | apply brk_fin] |].
  eapply runs_bind; [apply runs_sys; eauto with keeps fails |]. intros [s | e] He; apply runs_ret.
  - split; [touched_tac | apply brk_fin].
  - split; [touched_tac | by apply brk_err].
Qed.

Lemma runs_steps_file flags sni path st : runs (steps_file flags sni path st) (fun r =>
  touched sni st (snd r) /\ brk_ok flags (fst r) (snd r) /\ (sni = 0%nat -> locklabel (ss_mfd (snd r)) <> 0)).
Proof using.
  unfold steps_file.
  eapply (runs_bind _ _ _ (fun r => data_post sni st r /\ (sni = 0%nat -> locklabel (ss_mfd (snd r)) <> 0))).
  - destruct (Z.ltb_spec 0 (Z.of_nat sni)).
    + eapply runs_wk; [apply runs_file_sn |]. intros r Hr. split; [done | lia].
    + eapply runs_wk; [apply runs_file_main |]. by intros r [Hr Hl].
  - intros [[c |] st'] [[Ht Hb] Hl]; cbn [fst snd] in *.
    + apply runs_ret. cbn [fst snd]. split_and!; [done | | done]. intros -> _. by apply Hb.
    + eapply runs_wk; [apply runs_file_first |]. intros r [Ht' Hb']. split_and!; [by etransitivity | done |].
      intros H0. apply (tc_label _ _ _ Ht'), Hl, H0.
Qed.

(** ** All steps *)

Definition body_post (flags : Z) (sni : nat) (st : steps_st) (r : ctl * steps_st) : Prop :=
  touched sni st (snd r) /\ brk_ok flags (fst r) (snd r) /\
  (fst r <> CBreak -> (flags = SN_STEPS_F_FILE -> sni = 0%nat -> locklabel (ss_mfd (snd r)) <> 0) /\
                      (flags = SN_STEPS_F_DIR -> dir_done sni (ss_mfd (snd r)))).

Lemma body_fail flags sni st st' e : 0 < e -> touched sni st st' -> body_post flags sni st (CBreak, ss_set_err (- e) st').
Proof using. intros He Ht. split_and!; [touched_tac | by apply brk_err | done]. Qed.

Lemma runs_body mypath flags sni st : (sni < length (sn_steps (ss_mfd st)))%nat -> runs (steps_body mypath flags sni st) (body_post flags sni st).
Proof using.
  intros Hi. unfold steps_body. destruct (lookup_lt_is_Some_2 _ _ Hi) as [step ->].
  destruct (_ <=? _); [by apply runs_ret, body_fail |]. cbv zeta. set (path := step_path step +:+ mypath).
  set (st1 := upd_step sni (with_path path) st). assert (Ht : touched sni st st1) by apply touched_upd.
  assert (Hi1 : (sni < length (sn_steps (ss_mfd st1)))%nat) by by rewrite (tc_length _ _ _ Ht). clearbody st1.
  eapply runs_bind; [apply runs_known |]. intros [k | e] [He Hk]; [| by apply runs_ret, body_fail].
  assert (Hdir : (flags <> SN_STEPS_F_FILE) -> runs (steps_dir flags sni path k st1) (body_post flags sni st)).
  { intros Hf. eapply runs_wk; [by apply runs_steps_dir |]. intros r (H1 & H2 & H3). split_and!; [by etransitivity | done |].
    intros Hb. split; [done | auto]. }
  assert (Hfile : (flags <> SN_STEPS_F_DIR) -> runs (steps_file flags sni path st1) (body_post flags sni st)).
  { intros Hf. eapply runs_wk; [apply runs_steps_file |]. intros r (H1 & H2 & H3). split_and!; [by etransitivity | done |].
    intros Hb. split; [auto | done]. }
  assert (Hbad : flags <> SN_STEPS_F_FILE -> flags <> SN_STEPS_F_DIR -> runs (mret (CEnd, ss_set_err (- EBADE) st1)) (body_post flags sni st)).
  { intros Hf Hd. apply runs_ret. split_and!; [touched_tac | done | done]. }
  assert (Hff : flags = SN_STEPS_F_FILE -> k = KUnknown) by (intros ->; by injection (Hk eq_refl)).
  assert (Hfd : flags = SN_STEPS_F_DIR -> k = KUnknown) by (intros ->; by injection (Hk eq_refl)).
  destruct k; [| | apply Hdir; intros E; by specialize (Hff E)].
  - destruct (has flags SN_STEPS_F_DIR) eqn:Ed; [apply Hdir; intros ->; by vm_compute in Ed |].
    destruct (has flags SN_STEPS_F_FILE) eqn:Ef; [apply Hfile; intros ->; by vm_compute in Ef |].
    apply Hbad; intros ->; [by vm_compute in Ef | by vm_compute in Ed].
  - destruct (has flags SN_STEPS_F_DIR) eqn:Ed; [apply Hdir; intros E; by specialize (Hff E) | apply Hfile; intros E; by specialize (Hfd E)].
Qed.

(** The loop from [k - 1] down: a run without error has done all its steps. *)
Record looped (flags : Z) (k : nat) (st st' : steps_st) : Prop := {
  lp_length : length (sn_steps (ss_mfd st')) = length (sn_steps (ss_mfd st));
  lp_current : sn_current (ss_mfd st') = sn_current (ss_mfd st);
  lp_first : sn_first_file (ss_mfd st') = sn_first_file (ss_mfd st) \/ 0 <= sn_first_file (ss_mfd st') < Z.of_nat k;
  lp_other : forall j, (k <= j)%nat -> sn_steps (ss_mfd st') !! j = sn_steps (ss_mfd st) !! j;
  lp_file : flags = SN_STEPS_F_FILE -> ss_err st' = 0 -> k <> 0%nat -> locklabel (ss_mfd st') <> 0;
  lp_dir : flags = SN_STEPS_F_DIR -> ss_err st' = 0 -> forall j, (j < k)%nat -> dir_done j (ss_mfd st')
}.

Lemma looped_nil flags st : looped flags 0 st st.
Proof using. split; auto; intros; (done || lia). Qed.

(** The loop ends in this iteration, with an error or on purpose. *)
Lemma looped_stop flags sni st st1 : touched sni st st1 ->
  (flags = SN_STEPS_F_FILE \/ flags = SN_STEPS_F_DIR -> ss_err st1 <> 0) -> looped flags (S sni) st st1.
Proof using.
  intros [] He. split; auto.
  - destruct tc_first0 as [E | E]; [by left | right; lia].
  - intros j Hj. apply tc_other0. lia.
  - intros E E0. by destruct (He (or_introl E)).
  - intros E E0. by destruct (He (or_intror E)).
Qed.

Lemma looped_next flags sni st st1 st2 : touched sni st st1 ->
  (flags = SN_STEPS_F_FILE -> sni = 0%nat -> locklabel (ss_mfd st1) <> 0) -> (flags = SN_STEPS_F_DIR -> dir_done sni (ss_mfd st1)) ->
  looped flags sni st1 st2 -> (sni = 0%nat -> st2 = st1) -> looped flags (S sni) st st2.
Proof using.
  intros [] Hf Hd [] H0. split; try congruence.
  - destruct lp_first0 as [E | E]; [rewrite E | right; lia]. destruct tc_first0 as [E' | E']; [by left | right; lia].
  - intros j Hj. rewrite lp_other0 by lia. apply tc_other0. lia.
  - intros E E0 _. destruct (decide (sni = 0%nat)) as [Z0 | Hn]; [rewrite (H0 Z0); auto | auto].
  - intros E E0 j Hj. destruct (decide (j = sni)) as [-> | Hne]; [| apply lp_dir0; auto; lia].
    destruct (Hd E) as (step & Hs & Hok). exists step. by rewrite lp_other0.
Qed.

Lemma runs_steps_loop mypath flags k : forall st, (k <= length (sn_steps (ss_mfd st)))%nat ->
  runs (steps_loop mypath flags k st) (fun st' => looped flags k st st' /\ (k = 0%nat -> st' = st)).
Proof using.
  induction k as [| sni IH]; intros st Hk; cbn [steps_loop]; [apply runs_ret; split; [apply looped_nil | done] |].
  eapply runs_bind; [by apply runs_body |]. intros [c st1] (Ht & Hb & Hdone). cbn [fst snd] in *.
  assert (Hstop : forall phi : Prop, phi -> (phi -> flags = SN_STEPS_F_FILE \/ flags = SN_STEPS_F_DIR -> ss_err st1 <> 0) ->
    runs (mret st1) (fun st' => looped flags (S sni) st st' /\ (S sni = 0%nat -> st' = st))).
  { intros phi Hphi He. apply runs_ret. split; [apply looped_stop; auto | done]. }
  assert (Hgo : c <> CBreak -> runs (steps_loop mypath flags sni st1) (fun st' => looped flags (S sni) st st' /\ (S sni = 0%nat -> st' = st))).
  { intros Hc. destruct (Hdone Hc) as [Hf Hd]. eapply runs_wk; [apply IH; rewrite (tc_length _ _ _ Ht); lia |].
    intros st2 [Hl H0]. split; [by eapply looped_next | done]. }
  destruct c.
  - apply (Hstop (CBreak = CBreak)); [done |]. intros _ [-> | ->]; by apply Hb.
  - by apply Hgo.
  - destruct (Z.eqb_spec (ss_err st1) 0); cbn [negb]; [by apply Hgo | by apply (Hstop (ss_err st1 <> 0))].
Qed.

(** The handle that [mfd_get_sn_steps] reports as ready. *)
Definition steps_ready (flags : Z) (m : mfd_t) : Prop :=
  steps_ok m /\ (flags = SN_STEPS_F_FILE -> locklabel m <> 0) /\
  (flags = SN_STEPS_F_DIR -> forall j, (j < length (sn_steps m))%nat -> dir_done j m).

Lemma runs_get_sn_steps m p flags : runs (mfd_get_sn_steps m p flags) (fun r => fst r = 0 -> steps_ready flags (snd r)).
Proof using.
  unfold mfd_get_sn_steps. eapply runs_bind; [apply runs_get_fs |]. intros f _. eapply runs_bind; [apply runs_get |]. intros w _.
  eapply runs_bind; [apply runs_paths_to |]. intros [ret m1] Hm. cbn in Hm.
  destruct (Z.eqb_spec ret 0) as [-> |]; cbn [negb]; [| by apply runs_ret]. destruct (Hm eq_refl) as [Hc Hlen]. cbv zeta. clear Hm.
  set (m2 := set_sn_first_file (-1) m1). set (st0 := StepsSt m2 0 _).
  eapply runs_bind; [apply (runs_steps_loop _ flags _ st0); unfold st0, m2; cbn; lia |]. intros st [[] _].
  change (ss_mfd st0) with m2 in *.
  assert (Hok : steps_ok (ss_mfd st)).
  { split; rewrite lp_current0; cbn; [rewrite lp_length0; cbn; done |]. destruct lp_first0 as [E | E]; [rewrite E | cbn in E]; cbn; lia. }
  destruct (Z.eqb_spec (ss_err st) 0) as [E0 | E0]; cbn [negb].
  - apply runs_ret. intros _. cbn [snd]. split_and!; [done | intros E; apply lp_file0; [done | done | cbn; lia] |].
    intros E j Hj. apply lp_dir0; [done | done |]. rewrite lp_length0 in Hj. cbn in *. lia.
  - eapply runs_bind; [by apply runs_destroy_steps |]. intros _ _. apply runs_ret. intros E. cbn in E. congruence.
Qed.
End Steps.

#[export] Hint Resolve runs_destroy_steps runs_get_sn_steps : runs.
