(* ===== verification/ProgressListing.v ===== *)
(** Listing a directory comes to an end, also when it is listed in all the
    snapshots of a chain: a stream gives each of its entries once, and what
    the listing does with an entry leaves the stream alone. *)

From S2P Require Import Prelude Posix PosixSpec PosixPath Types Util UtilTheorems Mflock UtilLocking Layout Tree Block.
From S2P Require Import Snapshot SnapshotTheorems Mfd SnSteps FuseFd FuseDir FuseDirTheorems WorldType Returns Progress ProgressSteps.

(** ** Streams *)

(** The entries that a stream has still to give. *)
Definition entries_left (d : Z) (s : os) : nat :=
  match os_fds s !! d with
  | Some o => length (dir_entries s (of_ino o)) - Z.to_nat (of_pos o)
  | None => 0
  end.

Lemma entries_left_fuel d s : (entries_left d s < size (os_names s) + 3)%nat.
Proof. unfold entries_left. destruct (os_fds s !! d) as [o |]; [pose proof (length_dir_entries s (of_ino o)) |]; lia. Qed.

Lemma pop_fault_same s : os_names (snd (pop_fault s)) = os_names s /\ os_fds (snd (pop_fault s)) = os_fds s.
Proof. unfold pop_fault. by destruct (os_faults s). Qed.

Lemma entries_left_same d s s' : os_names s' = os_names s -> os_fds s' !! d = os_fds s !! d -> entries_left d s' = entries_left d s.
Proof. intros En Ef. unfold entries_left, dir_entries, entry_in. by rewrite Ef, En. Qed.

(** Each entry given is one less to give. *)
Lemma readdir_less d s c s' : os_ok s -> sys_readdir d s = (Ok (Some c), s') ->
  (entries_left d s' < entries_left d s)%nat /\ is_Some (os_fds s' !! d).
Proof.
  intros Hs. unfold sys_readdir, syscall. destruct (pop_fault_same s) as [En Ef]. pose proof (pop_fault_ok s Hs) as Hs1.
  destruct (pop_fault s) as [f s1]. cbn in *.
  rewrite <-(entries_left_same d s s1) by (done || by rewrite Ef). clear En Ef. intros H.
  assert (Hb : exists o i, fd_node s1 d = Some (o, i) /\ dir_entries s1 (of_ino o) !! Z.to_nat (of_pos o) = Some c /\ s' = set_pos d (of_pos o + 1) s1).
  { destruct f; try done; (destruct (fd_node s1 d) as [[o i] |]; [| done]); exists o, i; (split; [done |]);
      destruct (dir_entries s1 (of_ino o) !! Z.to_nat (of_pos o)); simplify_eq; done. }
  destruct Hb as (o & i & Hn & Hlt%lookup_lt_Some & ->). pose proof (fd_node_pos _ _ _ _ Hs1 Hn) as Hpos.
  unfold fd_node in Hn. destruct (os_fds s1 !! d) as [o' |] eqn:Eo; [| done]. cbn in Hn. destruct (os_inodes s1 !! of_ino o'); [| done]. injection Hn as -> _.
  unfold entries_left, set_pos. cbn [os_fds set_fds]. rewrite lookup_alter_eq, Eo. cbn [fmap option_fmap option_map of_ino of_pos].
  change (dir_entries (set_fds _ s1) (of_ino o)) with (dir_entries s1 (of_ino o)). split; [lia | by eexists].
Qed.

(** *** What leaves a stream alone *)

(** From a world where [d] is open, [m] leaves it and all names as they are. *)
Definition spares {A} (d : Z) (m : M A) (R : A -> Prop) : Prop := forall w a w',
  is_Some (os_fds (w_os w) !! d) -> m w = Some (a, w') ->
  os_names (w_os w') = os_names (w_os w) /\ os_fds (w_os w') !! d = os_fds (w_os w) !! d /\ R a.

Section Spares.
Context (d : Z).
Abbreviation any := (fun _ => True).

Lemma spares_ret {A} (a : A) (R : A -> Prop) : R a -> spares d (mret a) R.
Proof using. by intros H w b w' _ [= <- <-]. Qed.

Lemma spares_bind {A B} (m : M A) R (f : A -> M B) Q : spares d m R -> (forall a, R a -> spares d (f a) Q) -> spares d (m ≫= f) Q.
Proof using.
  intros Hm Hf w b w2 Hd (a & w1 & E1 & E2)%st_bind_inv. destruct (Hm w a w1 Hd E1) as (En & Ef & Ha).
  destruct (Hf a Ha w1 b w2) as (En' & Ef' & Hb); [by rewrite Ef | done |]. split_and!; congruence.
Qed.

Lemma spares_wk {A} (m : M A) (R R' : A -> Prop) : spares d m R' -> (forall a, R' a -> R a) -> spares d m R.
Proof using. intros Hm H w a w' Hd E. destruct (Hm w a w' Hd E) as (? & ? & ?). auto. Qed.

Lemma spares_sys {A} (f : os -> res A * os) R :
  (forall s, is_Some (os_fds s !! d) -> os_names (snd (f s)) = os_names s /\ os_fds (snd (f s)) !! d = os_fds s !! d /\ R (fst (f s))) -> spares d (sys f) R.
Proof using.
  intros H w a w' Hd. unfold sys. specialize (H _ Hd). destruct (f (w_os w)) as [r s]. by intros [= <- <-].
Qed.

Lemma spares_syscall {A} (body : os -> res A * os) (R : res A -> Prop) : (forall e, R (Err e)) ->
  (forall s, is_Some (os_fds s !! d) -> os_names (snd (body s)) = os_names s /\ os_fds (snd (body s)) !! d = os_fds s !! d /\ R (fst (body s))) ->
  spares d (sys (syscall body)) R.
Proof using.
  intros He H. apply spares_sys. intros s Hd. unfold syscall. destruct (pop_fault_same s) as [En Ef]. destruct (pop_fault s) as [f s1]. cbn in *.
  destruct (H s1) as (E1 & E2 & E3); [by rewrite Ef |]. destruct f; cbn; rewrite ?E1, ?E2, ?En, ?Ef; auto.
Qed.

Lemma spares_lstat name : spares d (sys (sys_lstat name)) any.
Proof using. apply spares_syscall; [done |]. intros s _. repeat case_match; simplify_eq/=; done. Qed.

Lemma spares_pread fd n off : spares d (sys (sys_pread fd n off)) any.
Proof using.
  apply spares_sys. intros s _. unfold sys_pread, syscall_io. destruct (pop_fault_same s) as [En Ef]. destruct (pop_fault s) as [f s1]. cbn in *.
  destruct f; repeat case_match; simplify_eq/=; by rewrite ?Ef.
Qed.

Lemma spares_open name : spares d (sys (sys_open name O_RDONLY 0)) (fun r => r <> Ok d).
Proof using.
  apply spares_syscall; [done |]. intros s Hd. cbv zeta. change (has O_RDONLY O_CREAT) with false. change (has O_RDONLY O_TRUNC) with false.
  cbn [andb]. repeat case_match; simplify_eq/=; try done.
  assert (Hne : fresh_fd s <> d) by (intros E; rewrite <-E, fresh_fd_free in Hd; by destruct Hd).
  split_and!; [done | by rewrite lookup_insert_ne | congruence].
Qed.

Lemma spares_close fd : fd <> d -> spares d (sys (sys_close fd)) any.
Proof using.
  intros Hne. apply spares_sys. intros s _. unfold sys_close. destruct (pop_fault_same s) as [En Ef]. destruct (pop_fault s) as [f s1]. cbn in *.
  destruct (os_fds s1 !! fd); [| cbn; by rewrite Ef]. destruct f; cbn; by rewrite lookup_delete_ne, ?Ef.
Qed.

Lemma spares_malloc : spares d malloc_ any.
Proof using.
  intros w a w' _. unfold malloc_. destruct (pop_fault_same (w_os w)) as [En Ef]. destruct (pop_fault (w_os w)) as [f s1]. cbn in *.
  intros [= _ <-]. cbn. by rewrite En, Ef.
Qed.

Context {B : Type} (filler : B -> string -> option stat_t -> option B).

Lemma spares_store name st : spares d (@rd_store B name st) any.
Proof using.
  unfold rd_store, rd_fail, rd_next. destruct (_ <=? _); [| by apply spares_ret]. eapply spares_bind; [apply spares_malloc |].
  intros [] _; by apply spares_ret.
Qed.
Lemma spares_show name st : spares d (rd_show filler name st) any.
Proof using. unfold rd_show. destruct (filler _ _ _); [apply spares_store | by apply spares_ret]. Qed.
Lemma spares_plain name p st : spares d (rd_plain filler name p st) any.
Proof using.
  unfold rd_plain. destruct (seen _ _); [by apply spares_ret |]. eapply spares_bind; [apply spares_lstat |].
  intros [s | e] _; [apply spares_show | by apply spares_ret].
Qed.
Lemma spares_map name p st : spares d (rd_map filler name p st) any.
Proof using.
  unfold rd_map. destruct (seen _ _); [by apply spares_ret |]. eapply spares_bind; [apply spares_open |]. intros [fd | e] Hfd; [| by apply spares_ret].
  assert (Hne : fd <> d) by congruence. eapply (spares_bind _ any).
  - unfold mfd_load_mapheader. eapply spares_bind; [apply spares_pread |]. intros r _. by apply spares_ret.
  - intros [e h] _. cbv zeta. destruct (negb _); (eapply spares_bind; [by apply spares_close |]); intros [] _; try (by apply spares_ret).
    destruct (_ =? 1); [apply spares_show | apply spares_store].
Qed.
Lemma spares_entry sni path name st : spares d (rd_entry filler sni path name st) any.
Proof using.
  unfold rd_entry. cbv zeta. repeat case_match; first [apply spares_map | apply spares_plain | by apply spares_ret].
Qed.
End Spares.

(** ** Loops *)

Section Listing.
Context (root dir : string) {T : IdleTable} {B : Type} (filler : B -> string -> option stat_t -> option B).
Abbreviation runs := (runs root dir).
Abbreviation any := (fun _ => True).

Lemma runs_store name st : runs (@rd_store B name st) any.
Proof using. unfold rd_store, rd_fail, rd_next. runs_tac. Qed.
#[local] Hint Resolve runs_store : runs.
Lemma runs_show name st : runs (rd_show filler name st) any.
Proof using. unfold rd_show, rd_fail. runs_tac. Qed.
#[local] Hint Resolve runs_show : runs.
Lemma runs_plain name p st : runs (rd_plain filler name p st) any.
Proof using. unfold rd_plain, rd_fail, rd_next. runs_tac. Qed.
Lemma runs_map name p st : runs (rd_map filler name p st) any.
Proof using. unfold rd_map, rd_fail, rd_next. runs_tac. Qed.
#[local] Hint Resolve runs_plain runs_map : runs.
Lemma runs_entry i p d st : runs (rd_entry filler i p d st) any.
Proof using. unfold rd_entry, rd_fail, rd_next. runs_tac. Qed.

(** A world from which [m] returns with locks and handles as they are. *)
Definition returns {A} (m : M A) (w : world) : Prop :=
  forall P, holds_at P w -> exists a w', m w = Some (a, w') /\ calm root dir w' /\ holds_at P w'.

Lemma runs_returns {A} (m : M A) : (forall w, calm root dir w -> returns m w) -> runs m any.
Proof using.
  intros H P w Hc Hp. destruct (H w Hc P Hp) as (a & w' & E & Hc' & Hp'). exists a, w'. by split_and!.
Qed.

Lemma returns_ret {A} (a : A) w : calm root dir w -> returns (mret a) w.
Proof using. intros Hc P Hp. by exists a, w. Qed.

Lemma returns_bind {A C} (m : M A) R (f : A -> M C) w : calm root dir w -> runs m R ->
  (forall a w', m w = Some (a, w') -> calm root dir w' -> returns (f a) w') -> returns (m ≫= f) w.
Proof using.
  intros Hc Hm Hf P Hp. destruct (Hm P w Hc Hp) as (a & w1 & E & Hc1 & Hp1 & _). destruct (Hf a w1 E Hc1 P Hp1) as (b & w2 & E2 & Hc2 & Hp2).
  exists b, w2. by rewrite (st_bind_run _ _ _ _ _ E).
Qed.

(** Reading the next entry. *)
Lemma returns_readdir {C} d (f : res (option string) -> M C) w : calm root dir w ->
  (forall r w', calm root dir w' ->
     match r with
     | Ok (Some _) => (entries_left d (w_os w') < entries_left d (w_os w))%nat /\ is_Some (os_fds (w_os w') !! d)
     | _ => True
     end -> returns (f r) w') ->
  returns (sys (sys_readdir d) ≫= f) w.
Proof using.
  intros Hc Hf. eapply returns_bind; [done | apply runs_sys; eauto with keeps fails |]. intros r w' E Hc'. apply Hf; [done |].
  unfold sys in E. destruct (sys_readdir d (w_os w)) as [r' s'] eqn:Er. injection E as <- <-. destruct r' as [[c |] |]; [| done | done].
  apply (readdir_less d (w_os w) c); [apply (wk_os _ _ _ (cm_ok _ _ _ Hc)) | done].
Qed.

Lemma readdir_loop_returns keep d n : forall buf w, calm root dir w -> (entries_left d (w_os w) < n)%nat -> returns (readdir_loop filler n keep d buf) w.
Proof using.
  induction n as [| n IH]; intros buf w Hc Hn; [lia |]. cbn [readdir_loop]. apply returns_readdir; [done |]. intros [[c |] | e] w' Hc' Hl.
  - assert (Hn' : (entries_left d (w_os w') < n)%nat) by lia.
    destruct (negb _); [by apply IH |]. destruct (filler _ _ _); [by apply IH | by apply returns_ret].
  - by apply returns_ret.
  - by apply returns_ret.
Qed.

Lemma rd_dir_returns sni path d n : forall st w, calm root dir w -> (entries_left d (w_os w) < n)%nat -> returns (rd_dir filler n sni path d st) w.
Proof using.
  induction n as [| n IH]; intros st w Hc Hn; [lia |]. cbn [rd_dir]. apply returns_readdir; [done |]. intros [[c |] | e] w' Hc' Hl.
  - eapply returns_bind; [done | apply runs_entry |]. intros [stop st'] w2 E Hc2. destruct stop; [by apply returns_ret |]. apply IH; [done |].
    destruct Hl as [Hl Hd]. destruct (spares_entry d filler sni path c st w' _ w2 Hd E) as (En & Ef & _).
    rewrite (entries_left_same d _ _ En Ef). lia.
  - by apply returns_ret.
  - unfold rd_fail. eapply returns_bind; [done | by apply (runs_ret _ _ _ any) |]. intros [b st'] w2 _ Hc2. by apply returns_ret.
Qed.

Lemma dir_fuel_returns {A} d (f : nat -> M A) : (forall n w, calm root dir w -> (entries_left d (w_os w) < n)%nat -> returns (f n) w) ->
  runs (fuel ← dir_fuel; f fuel) any.
Proof using.
  intros Hf. apply runs_returns. intros w Hc. eapply returns_bind; [done | apply runs_dir_fuel |]. intros n w' [= <- <-] _.
  apply Hf; [done | apply entries_left_fuel].
Qed.

Lemma runs_readdir_loop keep d buf : runs (fuel ← dir_fuel; readdir_loop filler fuel keep d buf) any.
Proof using. apply (dir_fuel_returns d). intros. by apply readdir_loop_returns. Qed.

Lemma runs_rd_dir sni path d st : runs (fuel ← dir_fuel; rd_dir filler fuel sni path d st) any.
Proof using. apply (dir_fuel_returns d). intros. by apply rd_dir_returns. Qed.

(** All the steps of a directory that is ready. *)
Lemma runs_rd_steps m k : (forall j, (j < k)%nat -> dir_done j m) -> forall st, runs (rd_steps filler m k st) any.
Proof using.
  induction k as [| sni IH]; intros Hd st; cbn [rd_steps]; [by apply runs_ret |].
  destruct (Hd sni) as (step & -> & Hok); [lia |]. assert (Hrec : forall st, runs (rd_steps filler m sni st) any) by (apply IH; auto).
  destruct (Z.eqb_spec (step_mapfd step) SN_STEPS_UNUSED); [apply Hrec |]. destruct Hok as [? | [fd ->]]; [done |].
  apply runs_assoc. eapply runs_bind; [apply runs_rd_dir |]. intros st' _.
  destruct (negb _); [by apply runs_ret | apply Hrec].
Qed.

(** What every handle on a directory satisfies. *)
Definition dir_ok (m : mfd_t) : Prop :=
  match is_main m with
  | mfd_main | mfd_sn_root => is_Some (maindir m)
  | _ => steps_ok m /\ forall j, (j < length (sn_steps m))%nat -> dir_done j m
  end.

Lemma runs_sn_readdir m flags buf : steps_ok m -> (forall j, (j < length (sn_steps m))%nat -> dir_done j m) ->
  runs (sn_readdir filler m flags buf) any.
Proof using.
  intros [Hlen _] Hd. unfold sn_readdir. eapply runs_bind; [apply runs_malloc |]. intros [] _; cbn [negb]; [| by apply runs_ret].
  eapply runs_bind; [apply runs_get |]. intros w _. cbv zeta. eapply runs_bind; [apply runs_rd_steps; rewrite <-Hlen; exact Hd |].
  intros st _. by apply runs_ret.
Qed.
End Listing.
