(* ===== verification/ProgressTheorems.v ===== *)
(** Every request comes back: the handlers, and the theorem.

    FUSE gives a handler only handles that are open, files to the handlers
    of files and directories to those of directories.  [files] and [dirs] are
    the handles that FUSE holds; [after] is how a response changes them. *)

From S2P Require Import Prelude Posix PosixSpec PosixPath Types Util UtilTheorems Mflock UtilLocking Layout Tree Block.
From S2P Require Import Snapshot SnapshotTheorems Mfd SnSteps FuseFd FuseDir FusePath Mount Dispatch SmallSystem Survival.
From S2P Require Import WorldType Returns Progress ProgressSteps ProgressListing.

(** ** The handles that are open *)

Definition opens (files dirs : gset Z) (h : gmap Z mfd_t) : Prop :=
  files ## dirs /\
  (forall fh, fh ∈ files -> exists m, h !! fh = Some m /\ file_ok m) /\
  (forall fh, fh ∈ dirs -> exists m, h !! fh = Some m /\ dir_ok m).

Definition add_handle (o : option Z) (X : gset Z) : gset Z := match o with Some fh => ({[ fh ]} ∪ X) | None => X end.

(** The address of a new handle is not in use. *)
Lemma opens_fresh F D h fh : opens F D h -> h !! fh = None -> (fh ∉ F) /\ (fh ∉ D).
Proof.
  intros (_ & Hf & Hd) Hn. split; intros Hin; [destruct (Hf fh Hin) as (m & Hm & _) | destruct (Hd fh Hin) as (m & Hm & _)]; congruence.
Qed.

(** Changing one handle. *)
Lemma opens_insert (h : gmap Z mfd_t) fh m (phi : mfd_t -> Prop) (X : gset Z) :
  (forall x, x ∈ X -> exists y, h !! x = Some y /\ phi y) -> phi m \/ (fh ∉ X) -> forall x, x ∈ X -> exists y, <[fh := m]> h !! x = Some y /\ phi y.
Proof.
  intros H Hm x Hx. destruct (decide (fh = x)) as [-> | Hne].
  - exists m. rewrite lookup_insert_eq. split; [done |]. by destruct Hm.
  - rewrite lookup_insert_ne by done. by apply H.
Qed.

Lemma opens_put_file F D h fh m : opens F D h -> fh ∈ F -> file_ok m -> opens F D (<[fh := m]> h).
Proof.
  intros (Hdj & Hf & Hd) Hin Hm. split; [done |]. split.
  - apply opens_insert; auto.
  - apply opens_insert; [done |]. right. set_solver.
Qed.

Lemma opens_new_file F D h fh m : opens F D h -> h !! fh = None -> file_ok m -> opens ({[ fh ]} ∪ F) D (<[fh := m]> h).
Proof.
  intros Ho Hn Hm. destruct (opens_fresh _ _ _ _ Ho Hn) as [HF HD]. destruct Ho as (Hdj & Hf & Hd). split; [by apply disjoint_union_l; split; [apply disjoint_singleton_l |] |]. split.
  - intros x [->%elem_of_singleton | Hx]%elem_of_union; [exists m; by rewrite lookup_insert_eq |].
    rewrite lookup_insert_ne by set_solver. auto.
  - apply opens_insert; auto.
Qed.

Lemma opens_new_dir F D h fh m : opens F D h -> h !! fh = None -> dir_ok m -> opens F ({[ fh ]} ∪ D) (<[fh := m]> h).
Proof.
  intros Ho Hn Hm. destruct (opens_fresh _ _ _ _ Ho Hn) as [HF HD]. destruct Ho as (Hdj & Hf & Hd). split; [by apply disjoint_union_r; split; [apply disjoint_singleton_r |] |]. split.
  - apply opens_insert; auto.
  - intros x [->%elem_of_singleton | Hx]%elem_of_union; [exists m; by rewrite lookup_insert_eq |].
    rewrite lookup_insert_ne by set_solver. auto.
Qed.

Lemma opens_free F D h fh : opens F D h -> opens (F ∖ {[ fh ]}) (D ∖ {[ fh ]}) (delete fh h).
Proof.
  intros (Hdj & Hf & Hd). split; [intros x [? _]%elem_of_difference [? _]%elem_of_difference; by apply (Hdj x) |]. split; intros x [Hx Hne%not_elem_of_singleton]%elem_of_difference;
    rewrite lookup_delete_ne by done; auto.
Qed.

(** ** Handlers *)

Section Handlers.
Context (root dir : string) {T : IdleTable}.
Abbreviation runs := (runs root dir).
Abbreviation does := (does root dir).
Abbreviation serves := (serves root dir).
Abbreviation any := (fun _ => True).
Abbreviation lk := mflock_lock.
Abbreviation ul := mflock_unlock.

Lemma does_bind_serves {A B} P (m : M A) R (f : A -> M B) Q :
  serves m R -> (forall a, R a -> does (quiet P) (f a) Q) -> does (quiet P) (m ≫= f) Q.
Proof using. intros Hm Hf. eapply does_bind; [apply Hm |]. intros a. apply does_pure, Hf. Qed.

Lemma does_serves {A} P (m : M A) R Q : serves m R -> (forall a t h, R a -> quiet P t h -> Q a t h) -> does (quiet P) m Q.
Proof using. intros Hm H. eapply does_wk; [apply Hm | done |]. intros a t h [Hq Hr]. by apply H. Qed.

(** *** Handlers on a path *)

Lemma serves_path_sn {A} p ret (f : snpath_t -> string -> M A) g :
  (forall a b, serves (f a b) any) -> (forall b, serves (g b) any) -> serves (if_path_sn p ret f g) any.
Proof using. intros Hf Hg. unfold if_path_sn. repeat first [apply Hf | apply Hg | serves_step]; done. Qed.
Lemma serves_main_only p f : (forall b, serves (f b) any) -> serves (if_path_main_only p f) any.
Proof using. intros Hf. unfold if_path_main_only. repeat first [apply Hf | serves_step]; done. Qed.

Lemma serves_open_truncate p n m : label_ok m -> serves (open_truncate lk ul p n m) any.
Proof using.
  intros Hm. unfold open_truncate. destruct (_ =? _); [by apply serves_ret |]. destruct (_ =? 0); [by apply serves_ret |].
  eapply serves_bind; [apply serves_runs, runs_sys; eauto with keeps fails |]. intros [fd | e] _; [| by apply serves_ret].
  eapply serves_bind; [by apply serves_b_truncate |]. intros [ret m'] _. serves_tac.
Qed.

Lemma serves_truncate_close p q n : serves (open_truncate_close lk ul p q n) any.
Proof using.
  unfold open_truncate_close. eapply serves_bind; [apply serves_runs, runs_get |]. intros w _.
  eapply serves_bind; [apply serves_open_sn |]. intros [ret m] Hm. destruct (Z.eqb_spec ret 0) as [-> |]; cbn [negb]; [| by apply serves_ret].
  destruct Hm as [[Hm _] | [=]]. eapply serves_bind; [apply serves_open_truncate; intros _; exact Hm |]. intros [e m'] _. serves_tac.
Qed.
#[local] Hint Resolve serves_truncate_close : serves.

Lemma runs_stat_steps m p : runs (mfd_get_sn_steps m p STAT_FLAGS) (fun r => fst r = 0 -> steps_ok (snd r)).
Proof using. eapply runs_wk; [apply runs_get_sn_steps |]. intros r H E. by destruct (H E). Qed.

Lemma serves_getattr path : serves (esfs_getattr path) any.
Proof using.
  apply serves_path_sn; [| serves_tac]. intros snpath fpath. destruct (is_there snpath); [serves_tac | serves_tac |].
  eapply serves_bind; [apply serves_runs, runs_get |]. intros w _. eapply serves_bind; [apply serves_runs, runs_stat_steps |]. intros [r m] Hm. cbn in Hm.
  destruct (Z.eqb_spec r 0) as [-> |]; cbn [negb]; [| by apply serves_ret].
  eapply serves_bind; [by apply serves_runs, runs_destroy_steps, Hm |]. serves_tac.
Qed.

Lemma serves_access uid granted path mask : serves (esfs_access uid granted path mask) any.
Proof using.
  apply serves_path_sn; [| serves_tac]. intros snpath fpath. destruct (is_there snpath); [serves_tac | serves_tac |].
  eapply serves_bind; [apply serves_runs, runs_get |]. intros w _. eapply serves_bind; [apply serves_runs, runs_stat_steps |]. intros [r m] Hm. cbn in Hm.
  destruct (Z.eqb_spec r 0) as [-> |]; cbn [negb]; [| by apply serves_ret].
  eapply serves_bind; [by apply serves_runs, runs_destroy_steps, Hm |]. serves_tac.
Qed.

Lemma serves_mkdir path mode : serves (esfs_mkdir lk ul path mode) any.
Proof using. apply serves_path_sn; serves_tac. Qed.
Lemma serves_rmdir path : serves (esfs_rmdir path) any.
Proof using. apply serves_path_sn; serves_tac. Qed.
Lemma serves_save_and path op : (forall p, os_keeps (op p)) -> (forall p, os_fails (op p)) -> serves (save_and lk ul path op) any.
Proof using. intros Hop Hf. apply serves_main_only. serves_tac. Qed.
Lemma serves_chmod path mode : serves (esfs_chmod lk ul path mode) any.
Proof using. apply serves_save_and; intros p; [apply sys_chmod_keeps | apply on_node_fails]. Qed.
Lemma serves_chown path uid gid : serves (esfs_chown lk ul path uid gid) any.
Proof using. apply serves_save_and; intros p; [apply sys_chown_keeps | apply on_node_fails]. Qed.
Lemma serves_utimens path a m : serves (esfs_utimens path a m) any.
Proof using.
  apply serves_main_only. intros p. eapply serves_bind; [apply serves_runs, runs_sys; [apply sys_utimens_keeps | apply on_node_fails] |]. serves_tac.
Qed.
Lemma serves_statfs path : serves (esfs_statfs path) any.
Proof using. apply serves_main_only. serves_tac. Qed.
Lemma serves_unlink path : serves (esfs_unlink lk ul path) any.
Proof using. apply serves_main_only. serves_tac. Qed.
Lemma serves_truncate path n : serves (esfs_truncate lk ul path n) any.
Proof using. apply serves_main_only. serves_tac. Qed.

(** *** Handlers on a file *)

Section Files.
Context (F D : gset Z).
Abbreviation st := (quiet (opens F D)).

Lemma does_file {A} fh (f : mfd_t -> M A) Q : fh ∈ F -> (forall m, file_ok m -> does st (f m) Q) -> does st (get_mfd fh ≫= f) Q.
Proof using.
  intros Hin Hf. eapply does_bind; [apply (does_get_mfd _ _ st fh file_ok) |].
  - intros t h (_ & _ & Hfiles & _). by apply Hfiles.
  - intros m w Hc (Hq & _ & Hm). by apply Hf.
Qed.

Lemma does_put_file fh m : fh ∈ F -> file_ok m -> does st (put_mfd fh m) (fun _ => st).
Proof using.
  intros Hin Hm. eapply does_wk; [apply (does_put_mfd _ _ st) | done |]. intros _ t h' (h & [Hi Ho] & ->). split; [done | by apply opens_put_file].
Qed.

Lemma does_free_file fh : fh ∈ F -> does st (free_mfd fh) (fun _ => quiet (opens (F ∖ {[ fh ]}) D)).
Proof using.
  intros Hin. eapply does_wk; [apply (does_free_mfd _ _ st) | done |]. intros _ t h' (h & [Hi Ho] & ->). split; [done |].
  pose proof (opens_free _ _ _ fh Ho) as H. assert (E : D ∖ {[ fh ]} = D); [| by rewrite E in H].
  destruct Ho as [Hdj _]. apply set_eq. intros x. rewrite elem_of_difference, elem_of_singleton. split; [tauto |]. intros Hx. split; [done |].
  intros ->. by apply (Hdj fh).
Qed.

Lemma does_new_file m : file_ok m -> does st (fh ← new_handle m; mret (0, Some fh)) (fun r => quiet (opens (add_handle (snd r) F) D)).
Proof using.
  intros Hm. eapply does_bind; [apply (does_new_handle _ _ st) |]. intros fh. apply does_ret.
  intros t h' (h & [Hi Ho] & Hn & ->). split; [done | by apply opens_new_file].
Qed.

(** Nothing was opened. *)
Lemma does_no_file r : does st (mret (r, None)) (fun r : Z * option Z => quiet (opens (add_handle (snd r) F) D)).
Proof using. by apply does_ret. Qed.

Lemma does_finish_open fpath flags mode m : label_ok m ->
  does st (finish_open fpath flags mode m) (fun r => quiet (opens (add_handle (snd r) F) D)).
Proof using.
  intros Hm. unfold finish_open. eapply does_bind_runs; [apply runs_sys; eauto with keeps fails |]. intros [fd | e] _.
  - by apply does_new_file.
  - eapply does_bind_runs; [apply runs_close_sn |]. intros _ _. apply does_no_file.
Qed.

Lemma does_open_sn flags snpath : does st (esfs_open_sn flags snpath) (fun r => quiet (opens (add_handle (snd r) F) D)).
Proof using.
  unfold esfs_open_sn. destruct (negb _); [apply does_no_file |]. destruct (is_there snpath); [apply does_no_file .. |].
  eapply does_bind_runs; [apply runs_malloc_mfd |]. intros [m |] _; [| apply does_no_file].
  eapply does_bind_runs; [apply runs_get_sn_steps |]. intros [r m'] Hm. cbn in Hm.
  destruct (Z.eqb_spec r 0) as [-> |]; cbn [negb]; [| apply does_no_file]. destruct (Hm eq_refl) as (Hs & Hl & _).
  apply does_new_file. split; [intros _; by apply Hl | intros _; split; [done | by apply Hl]].
Qed.

Lemma does_open_main path flags fpath : does st (esfs_open_main lk ul path flags fpath) (fun r => quiet (opens (add_handle (snd r) F) D)).
Proof using.
  unfold esfs_open_main. eapply does_bind_runs; [apply runs_malloc_mfd |]. intros [m |] _; [| apply does_no_file].
  destruct (_ =? _); [apply does_finish_open; intros Hd; by destruct Hd |]. eapply does_bind_serves; [apply serves_open_sn |]. intros [r m'] Hm.
  destruct (Z.ltb_spec r 0); [apply does_no_file |]. destruct Hm as [[Hm _] | [= -> _]]; [| done].
  apply does_finish_open. intros _. exact Hm.
Qed.

Lemma does_path_sn {A} p ret (f : snpath_t -> string -> M A) g Q : (forall e t h, st t h -> Q (ret e) t h) ->
  (forall a b, does st (f a b) Q) -> (forall b, does st (g b) Q) -> does st (if_path_sn p ret f g) Q.
Proof using.
  intros He Hf Hg. unfold if_path_sn. eapply does_bind_runs; [apply runs_get_fs |]. intros fs _.
  destruct (map_path p fs); [| apply does_ret, He]. destruct (is_path_in_sn p); [| apply Hg].
  eapply does_bind_runs; [apply runs_malloc |]. intros [] _; [apply Hf | apply does_ret, He].
Qed.

Lemma does_open path flags : does st (esfs_open lk ul path flags) (fun r => quiet (opens (add_handle (snd r) F) D)).
Proof using. apply does_path_sn; [done | intros; apply does_open_sn | apply does_open_main]. Qed.

Lemma does_create path mode flags : does st (esfs_create lk ul path mode flags) (fun r => quiet (opens (add_handle (snd r) F) D)).
Proof using.
  unfold esfs_create. eapply does_bind_runs; [apply runs_get_fs |]. intros fs _. destruct (is_path_in_sn path); [apply does_no_file |].
  destruct (map_path path fs) as [fpath |]; [| apply does_no_file].
  unfold esfs_create_main. eapply does_bind_runs; [apply runs_malloc_mfd |]. intros [m |] _; [| apply does_no_file].
  eapply does_bind_serves; [apply serves_open_sn |]. intros [r m'] Hm. destruct (Z.ltb_spec r 0); [apply does_no_file |].
  destruct Hm as [[Hm _] | [= -> _]]; [| done].
  eapply (does_bind_serves _ _ any); [destruct (_ && _); [apply serves_truncate_close | by apply serves_ret] |]. intros e _.
  destruct (negb (e =? 0)); [eapply does_bind_runs; [apply runs_close_sn |]; intros _ _; apply does_no_file |].
  apply does_finish_open. intros _. exact Hm.
Qed.

(** Reading, writing and closing. *)
Definition same {A} : A -> asn := fun _ => st.

Lemma does_same {A} (m : M A) R : serves m R -> does st m same.
Proof using. intros H. by eapply does_serves; [exact H |]. Qed.

Lemma does_read fh buf size off : fh ∈ F -> does st (esfs_read lk ul fh buf size off) same.
Proof using.
  intros Hin. apply does_file; [done |]. intros m [_ Hm]. destruct (is_main m) eqn:E.
  - apply (does_same _ any). serves_tac.
  - by apply does_ret.
  - by apply does_ret.
  - destruct (Hm eq_refl) as [Hs Hl]. eapply does_bind_runs; [apply runs_in_sn_validate |]. intros ret _. destruct (negb _); [by apply does_ret |].
    eapply does_same, serves_b_read; done.
Qed.

(** A handle is renewed and stored, then changed and stored. *)
Lemma does_renew fh m (f : mfd_t -> M (Z * mfd_t)) (g : mfd_t -> M Z) : fh ∈ F -> file_ok m ->
  (forall m, label_ok m -> serves (f m) (fun r => kin m (snd r))) -> (forall m, serves (g m) any) ->
  does st ('(ret, mfd) ← mfd_validate lk ul m; _ ← put_mfd fh mfd;
    if negb (ret =? 0) then mret ret
    else '(ret, mfd) ← f mfd; _ ← put_mfd fh mfd; if negb (ret =? 0) then mret ret else g mfd) same.
Proof using.
  intros Hin Hm Hf Hg. eapply does_bind_serves; [by apply serves_validate |]. intros [ret m1] Hm1. cbn in Hm1.
  eapply does_bind; [by apply does_put_file |]. intros ?. destruct (negb (ret =? 0)); [by apply does_ret |].
  eapply does_bind_serves; [apply Hf, Hm1 |]. intros [ret' m2] Hk. cbn in Hk.
  eapply does_bind; [by apply does_put_file; [| eapply file_ok_kin] |]. intros ?. destruct (negb (ret' =? 0)); [by apply does_ret |].
  eapply does_same, Hg.
Qed.

Lemma does_write fh buf off : fh ∈ F -> does st (esfs_write lk ul fh buf off) same.
Proof using.
  intros Hin. apply does_file; [done |]. intros m Hm. destruct (is_main m); [| by apply does_ret ..].
  apply (does_renew fh m (fun m => b_write lk ul m (zlen buf) off B_WRITE_DEFAULTS)
    (fun m => r ← sys (sys_pwrite (mainfd m) buf off); mret match r with Ok n => i32 n | Err e => - e end)); [done | done | |].
  - intros m' Hm'. by apply serves_b_write.
  - intros m'. serves_tac.
Qed.

Lemma does_ftruncate fh n : fh ∈ F -> does st (esfs_ftruncate lk ul fh n) same.
Proof using.
  intros Hin. apply does_file; [done |]. intros m Hm.
  apply (does_renew fh m (fun m => b_truncate lk ul m n B_WRITE_DEFAULTS)
    (fun m => r ← sys (sys_ftruncate (mainfd m) n); mret match r with Ok _ => 0 | Err e => - e end)); [done | done | |].
  - intros m' Hm'. by apply serves_b_truncate.
  - intros m'. serves_tac.
Qed.

Lemma does_fgetattr fh : fh ∈ F -> does st (esfs_fgetattr fh) same.
Proof using. intros Hin. apply does_file; [done |]. intros m _. apply (does_same _ any). serves_tac. Qed.

Lemma serves_fsync m : serves (sync_all sys_fsync m) any.
Proof using. unfold sync_all, sync_if_open. serves_tac. Qed.
Lemma serves_fdatasync m : serves (sync_all sys_fdatasync m) any.
Proof using. unfold sync_all, sync_if_open. serves_tac. Qed.
#[local] Hint Resolve serves_fsync serves_fdatasync : serves.

Lemma does_fsync fh datasync : fh ∈ F -> does st (esfs_fsync fh datasync) same.
Proof using. intros Hin. apply does_file; [done |]. intros m _. apply (does_same _ any). serves_tac. Qed.

Lemma does_release fh : fh ∈ F -> does st (esfs_release fh) (fun _ => quiet (opens (F ∖ {[ fh ]}) D)).
Proof using.
  intros Hin. apply does_file; [done |]. intros m [_ Hm]. eapply (does_bind_serves _ _ any).
  - destruct (is_main m) eqn:E; [serves_tac | serves_tac | serves_tac |]. apply serves_runs, runs_destroy_steps. by apply Hm.
  - intros ret _. eapply does_bind; [by apply does_free_file |]. intros ?. by apply does_ret.
Qed.

(** *** Handlers on a directory *)

Lemma does_dir {A} fh (f : mfd_t -> M A) Q : fh ∈ D -> (forall m, dir_ok m -> does st (f m) Q) -> does st (get_mfd fh ≫= f) Q.
Proof using.
  intros Hin Hf. eapply does_bind; [apply (does_get_mfd _ _ st fh dir_ok) |].
  - intros t h (_ & _ & _ & Hdirs). by apply Hdirs.
  - intros m w Hc (Hq & _ & Hm). by apply Hf.
Qed.

Lemma does_free_dir fh : fh ∈ D -> does st (free_mfd fh) (fun _ => quiet (opens F (D ∖ {[ fh ]}))).
Proof using.
  intros Hin. eapply does_wk; [apply (does_free_mfd _ _ st) | done |]. intros _ t h' (h & [Hi Ho] & ->). split; [done |].
  pose proof (opens_free _ _ _ fh Ho) as H. assert (E : F ∖ {[ fh ]} = F); [| by rewrite E in H].
  destruct Ho as [Hdj _]. apply set_eq. intros x. rewrite elem_of_difference, elem_of_singleton. split; [tauto |]. intros Hx. split; [done |].
  intros ->. by apply (Hdj fh).
Qed.

Lemma does_new_dir m : dir_ok m -> does st (fh ← new_handle m; mret (0, Some fh)) (fun r => quiet (opens F (add_handle (snd r) D))).
Proof using.
  intros Hm. eapply does_bind; [apply (does_new_handle _ _ st) |]. intros fh. apply does_ret.
  intros t h' (h & [Hi Ho] & Hn & ->). split; [done | by apply opens_new_dir].
Qed.

Lemma does_no_dir r : does st (mret (r, None)) (fun r : Z * option Z => quiet (opens F (add_handle (snd r) D))).
Proof using. by apply does_ret. Qed.

Lemma does_opendir path : does st (esfs_opendir path) (fun r => quiet (opens F (add_handle (snd r) D))).
Proof using.
  apply does_path_sn; [done | |].
  - intros snpath fpath. unfold esfs_opendir_sn. eapply does_bind_runs; [apply runs_malloc_mfd |]. intros [m |] _; [| apply does_no_dir].
    assert (Hgo : forall there, there <> mfd_main -> there <> mfd_sn_root ->
      does st ('(waserror, mfd) ← mfd_get_sn_steps m snpath SN_STEPS_F_DIR;
        if negb (waserror =? 0) then mret (waserror, None)
        else if sn_first_file mfd =? -1 then waserror ← mfd_destroy_sn_steps mfd; mret (if negb (waserror =? 0) then waserror else - ENOENT, None)
        else fh ← new_handle (set_is_main there mfd); mret (0, Some fh)) (fun r => quiet (opens F (add_handle (snd r) D)))).
    { intros there Hne1 Hne2. eapply does_bind_runs; [apply runs_get_sn_steps |]. intros [r m'] Hm. cbn in Hm.
      destruct (Z.eqb_spec r 0) as [-> |]; cbn [negb]; [| apply does_no_dir]. destruct (Hm eq_refl) as (Hs & _ & Hd).
      destruct (_ =? -1); [eapply does_bind_runs; [by apply runs_destroy_steps |]; intros e _; apply does_no_dir |].
      apply does_new_dir. unfold dir_ok. cbn [is_main set_is_main]. destruct there; [done | done | by split; [| apply Hd] ..]. }
    destruct (is_there snpath); [| by apply Hgo ..].
    eapply does_bind_runs; [apply runs_sys; eauto with keeps fails |]. intros [fd | e] _; [apply does_new_dir; by eexists | apply does_no_dir].
  - intros fpath. unfold esfs_opendir_main. eapply does_bind_runs; [apply runs_malloc_mfd |]. intros [m |] _; [| apply does_no_dir].
    eapply does_bind_runs; [apply runs_sys; eauto with keeps fails |]. intros [fd | e] _; [apply does_new_dir; by eexists | apply does_no_dir].
Qed.

Lemma does_releasedir fh : fh ∈ D -> does st (esfs_releasedir fh) (fun _ => quiet (opens F (D ∖ {[ fh ]}))).
Proof using.
  intros Hin. apply does_dir; [done |]. intros m Hm. unfold dir_ok in Hm. eapply (does_bind_serves _ _ any).
  - destruct (is_main m); [destruct Hm as [d ->]; serves_tac .. | |]; destruct Hm as [Hs _]; by apply serves_runs, runs_destroy_steps.
  - intros ret _. eapply does_bind; [by apply does_free_dir |]. intros ?. by apply does_ret.
Qed.

Lemma does_readdir {B} (filler : B -> string -> option stat_t -> option B) fh buf : fh ∈ D -> does st (esfs_readdir filler fh buf) same.
Proof using.
  intros Hin. apply does_dir; [done |]. intros m Hm. unfold dir_ok in Hm. apply (does_same _ any), serves_runs.
  destruct (is_main m); [destruct Hm as [d ->]; apply runs_readdir_loop .. | |]; destruct Hm; by apply runs_sn_readdir.
Qed.
End Files.
End Handlers.

#[local] Hint Resolve serves_mkdir serves_unlink serves_rmdir serves_chmod serves_chown serves_truncate serves_statfs serves_access
  serves_utimens : serves.
Ltac unfold_unsupported :=
  unfold esfs_readlink, esfs_mknod, esfs_symlink, esfs_rename, esfs_link, esfs_flush, esfs_setxattr, esfs_getxattr, esfs_listxattr,
    esfs_removexattr, esfs_fsyncdir.

(** ** Requests *)

(** What FUSE may ask: a handle is one that is open, of the right kind. *)
Definition allowed (files dirs : gset Z) (rq : request) : bool :=
  match rq with
  | RqRead fh _ _ _ | RqWrite fh _ _ | RqFlush fh | RqRelease fh | RqFsync fh _ | RqFtruncate fh _ | RqFgetattr fh => bool_decide (fh ∈ files)
  | RqReaddir fh | RqReleasedir fh | RqFsyncdir fh => bool_decide (fh ∈ dirs)
  | _ => true
  end.

(** The handles that are open after a response. *)
Definition after {B} (files dirs : gset Z) (rq : request) (rs : response B) : gset Z * gset Z :=
  match rq, rs with
  | RqOpen _ _, RsHandle _ o | RqCreate _ _ _, RsHandle _ o => (add_handle o files, dirs)
  | RqOpendir _, RsHandle _ o => (files, add_handle o dirs)
  | RqRelease fh, _ => (files ∖ {[ fh ]}, dirs)
  | RqReleasedir fh, _ => (files, dirs ∖ {[ fh ]})
  | _, _ => (files, dirs)
  end.

Section Requests.
Context (root dir : string) {T : IdleTable} {B : Type} (filler : B -> string -> option stat_t -> option B) (empty : B).
Context (uid : Z) (granted : stat_t -> Z -> bool).
Abbreviation dispatch := (dispatch filler empty uid granted).
Abbreviation serve := (serve filler empty uid granted).
Abbreviation does := (does root dir).

(** The requests are allowed, each with the handles that are open when it comes. *)
Fixpoint orderly (files dirs : gset Z) (rqs : list request) (w : world) : bool :=
  match rqs with
  | [] => true
  | rq :: r =>
      allowed files dirs rq &&
      match dispatch rq w with
      | Some (rs, w') => let '(files', dirs') := after files dirs rq rs in orderly files' dirs' r w'
      | None => true
      end
  end.

Definition served (F D : gset Z) (rq : request) (rs : response B) : asn :=
  quiet (opens (after F D rq rs).1 (after F D rq rs).2).

(** The value that a handler returns becomes its response. *)
Lemma does_respond {A} F D (m : M A) (f : A -> response B) (rq : request) (Q : A -> asn) :
  does (quiet (opens F D)) m Q -> (forall a t h, Q a t h -> served F D rq (f a) t h) ->
  does (quiet (opens F D)) (a ← m; mret (f a)) (served F D rq).
Proof using. intros Hm H. eapply does_bind; [exact Hm |]. intros a. apply does_ret, H. Qed.

Lemma dispatch_returns F D rq : allowed F D rq = true -> does (quiet (opens F D)) (dispatch rq) (served F D rq).
Proof using.
  intros Ha.
  assert (Hserves : forall {A} (m : M A) (f : A -> response B), serves root dir m (fun _ => True) ->
    (forall a, after F D rq (f a) = (F, D)) -> does (quiet (opens F D)) (a ← m; mret (f a)) (served F D rq)).
  { intros A m f Hm Hf. eapply does_respond; [by eapply does_same |]. intros a t h Hq. unfold served. by rewrite Hf. }
  destruct rq; cbn [allowed] in Ha; try apply bool_decide_eq_true_1 in Ha; cbn [dispatch]; unfold code, handle;
    try (by apply Hserves; [unfold_unsupported; serves_tac |]).
  - eapply does_bind; [eapply does_same, serves_getattr |]. intros [r st]. by apply does_ret.
  - eapply does_bind; [apply does_open |]. intros [r o]. by apply does_ret.
  - eapply does_bind; [by apply does_read |]. intros [r b]. by apply does_ret.
  - by eapply does_respond; [apply does_write |].
  - by eapply does_respond; [apply does_release |].
  - by eapply does_respond; [apply does_fsync |].
  - eapply does_bind; [apply does_opendir |]. intros [r o]. by apply does_ret.
  - eapply does_bind; [by apply does_readdir |]. intros [r b]. by apply does_ret.
  - by eapply does_respond; [apply does_releasedir |].
  - eapply does_bind; [apply does_create |]. intros [r o]. by apply does_ret.
  - by eapply does_respond; [apply does_ftruncate |].
  - eapply does_bind; [by apply does_fgetattr |]. intros [s | e]; by apply does_ret.
Qed.

Lemma serve_returns rqs : forall F D w, calm root dir w -> holds_at (quiet (opens F D)) w -> orderly F D rqs w = true ->
  exists rss w' F' D', serve rqs w = Some (rss, w') /\ calm root dir w' /\ holds_at (quiet (opens F' D')) w'.
Proof using.
  induction rqs as [| rq rqs IH]; intros F D w Hc Hq Ho; cbn [Dispatch.serve]; [by exists [], w, F, D |].
  cbn [orderly] in Ho. apply andb_prop in Ho as [Ha Ho]. destruct (dispatch_returns F D rq Ha w Hc Hq) as (rs & w1 & E1 & Hc1 & Hq1).
  rewrite E1 in Ho. unfold served in Hq1. destruct (after F D rq rs) as [F1 D1]. cbn in Hq1.
  destruct (IH F1 D1 w1 Hc1 Hq1 Ho) as (rss & w2 & F2 & D2 & E2 & Hc2 & Hq2). exists (rs :: rss), w2, F2, D2.
  split; [| by split]. by rewrite (st_bind_run _ _ _ _ _ E1), (st_bind_run _ _ _ _ _ E2).
Qed.
End Requests.

(** ** Theorem *)

(** C5 (every request comes back): from a world in shape with an idle lock
    table, under any schedule of failing and short calls and whatever is in
    uninitialised memory, any sequence of requests in which FUSE uses only
    handles that are open is served to its end: no handler loops for ever,
    waits for a lock that nobody will release, or uses a step of a chain, a
    stream, a buffer or a handle that is not there.  Afterwards the names on
    disk form a tree, descriptors are on inodes that exist, the global data
    are in their ranges, the lock table is what it was before, and the handles
    that are still open are fit for use.  (Path buffers have no size in the
    model: that a path fits its buffer is the subject of other theorems.) *)
Theorem requests_return root dir {B} (filler : B -> string -> option stat_t -> option B) empty uid granted files dirs rqs w :
  calm root dir w -> idle_table (mflocks (w_fs w)) -> opens files dirs (w_mfds w) -> orderly filler empty uid granted files dirs rqs w = true ->
  exists rss w' files' dirs', serve filler empty uid granted rqs w = Some (rss, w') /\
    calm root dir w' /\ mflocks (w_fs w') = mflocks (w_fs w) /\ opens files' dirs' (w_mfds w').
Proof.
  intros Hc Hi Ho Hr. destruct (@serve_returns root dir {| calm_table := mflocks (w_fs w); calm_idle := Hi |} B filler empty uid granted rqs files dirs w Hc (conj eq_refl Ho) Hr)
    as (rss & w' & F' & D' & E & Hc' & Hi' & Ho'). by exists rss, w', F', D'.
Qed.

(** A file is opened, written, truncated and closed, read in a snapshot, and
    directories are listed, while some calls fail. *)
Definition p_world : world := set_os (set_faults [NoFault; NoFault; NoFault; Fail EIO; NoFault; NoFault; Short 1] (w_os e_world)) e_world.
Definition f_filler (b : list string) (name : string) (_ : option stat_t) : option (list string) := Some (name :: b).
Definition p_requests : list request :=
  [ RqOpen "/f" O_RDWR; RqOpen "/f" O_RDWR; RqWrite 0 [1; 2] 1; RqMkdir "/snapshots/s2" 0; RqWrite 0 [3] 0; RqFtruncate 0 2;
    RqOpen "/snapshots/s1/f" O_RDONLY; RqRead 1 [] 5 0; RqOpendir "/"; RqReaddir 2; RqOpendir "/snapshots/s2"; RqReaddir 3; RqRelease 1;
    RqRelease 0; RqReleasedir 2; RqReleasedir 3; RqRmdir "/snapshots"; RqUnlink "/f" ].

Lemma p_calm : calm "/r" "/r/snapshots" p_world.
Proof.
  split; [| by repeat constructor | by eexists]. split; [| by split | done | by right | done | done | done].
  apply os_ok_faults. split; [| done]. apply os_wf_check; [by vm_compute | apply (bool_decide_unpack _); by vm_compute].
Qed.

Lemma requests_return_witness :
  exists rss w', serve f_filler [] 1000 (fun _ _ => true) p_requests p_world = Some (rss, w') /\ mflocks (w_fs w') = mflocks (w_fs p_world).
Proof.
  destruct (requests_return "/r" "/r/snapshots" f_filler [] 1000 (fun _ _ => true) ∅ ∅ p_requests p_world) as (rss & w' & F & D & E & _ & Hi & _).
  - exact p_calm.
  - exact idle_table_init.
  - split_and!; [done | intros fh H .. ]; by apply not_elem_of_empty in H.
  - vm_compute. reflexivity.
  - exists rss, w'. exact (conj E Hi).
Defined.
