(* ===== verification/MountTheorems.v ===== *)
(** Mounting: the state that [main] hands to FUSE is one in which the
    theorems about the handlers apply. *)

From S2P Require Import Prelude Posix PosixPath Types Util UtilTheorems Mflock Snapshot SnapshotTheorems.
From S2P Require Import Block CopyOnWrite BlockWrite FusePath Mount SmallSystem SnStepsTheorems Survival.

(** ** The checks *)

Lemma sn_check_dir_exists w :
  os_faults (w_os w) = [] -> dir_at (w_os w) (resolve (sn_dir (w_fs w))) -> sn_check_dir w = Some (0, w).
Proof.
  intros Hf Hd. unfold sn_check_dir. rewrite (st_bind_run get_fs _ w (w_fs w) w eq_refl).
  destruct (lstat_dir (w_os w) _ Hf Hd) as (st & E & Hst).
  rewrite (st_bind_run _ _ _ _ _ (sys_run _ _ _ _ E)), set_os_id. by rewrite Hst.
Qed.

Lemma b_init_block_buffer_ok w :
  os_faults (w_os w) = [] ->
  exists m, zlen m = BL_S /\
    b_init_block_buffer w = Some (0, set_fs (set_block_buffer (Some m) (w_fs w)) (set_bufs (w_bufs w + 1) w)).
Proof.
  intros Hf. unfold b_init_block_buffer, malloc_block, pop_fault, mbind, ST_bind. rewrite Hf, set_os_id.
  eexists. split; [| done]. pose proof (zlen_nonneg (w_junk w)). assert (0 < BL_S) by done.
  rewrite zlen_ztake by lia. rewrite zlen_app, zlen_zeros by lia. lia.
Qed.

(** What FUSE is handed. *)
Record mounted (w w' : world) (root : string) (sns : list string) : Prop := {
  mt_os : w_os w' = w_os w;
  mt_mfds : w_mfds w' = w_mfds w;
  mt_junk : w_junk_mfd w' = w_junk_mfd w;
  mt_root : rootdir (w_fs w') = root /\ rootdir_len (w_fs w') = strlen root;
  mt_dir : sn_dir (w_fs w') = root +:+ SNDIR;
  mt_number : sn_number (w_fs w') = 0;
  mt_latest : fs_latest (w_fs w') sns;
  mt_idle : idle_table (mflocks (w_fs w'));
  mt_buffer : buffer_ok w'
}.

Lemma sn_get_latest_fs w w' r : sn_get_latest w = Some (r, w') ->
  w_mfds w' = w_mfds w /\ w_junk_mfd w' = w_junk_mfd w /\ rootdir (w_fs w') = rootdir (w_fs w) /\
  rootdir_len (w_fs w') = rootdir_len (w_fs w) /\ sn_dir (w_fs w') = sn_dir (w_fs w) /\
  sn_number (w_fs w') = sn_number (w_fs w).
Proof.
  unfold sn_get_latest, read_sndir_from_file, get_fs, modify_fs, sys, mbind, ST_bind, mret, ST_ret.
  intros H. repeat case_match; simplify_eq/=; done.
Qed.

Lemma mount_checks_ok w sns :
  os_faults (w_os w) = [] -> rootdir_len (w_fs w) = strlen (rootdir (w_fs w)) ->
  strlen (rootdir (w_fs w)) + SNDIR_LEN < PATH_MAX -> sn_number (w_fs w) = 0 ->
  dir_at (w_os w) (resolve (rootdir (w_fs w) +:+ SNDIR)) ->
  chain (w_os w) (set_sn_dir (rootdir (w_fs w) +:+ SNDIR) (w_fs w)) sns ->
  exists w', mount_checks w = Some (0, w') /\ mounted w w' (rootdir (w_fs w)) sns.
Proof.
  intros Hf Hlen Hfit Hnum Hd Hc. unfold mount_checks. rewrite (st_bind_run get_fs _ w (w_fs w) w eq_refl).
  assert (Em : map_path SNDIR (w_fs w) = Ok (rootdir (w_fs w) +:+ SNDIR)).
  { unfold map_path. rewrite Hlen, strncpy_all. pose proof (strlen_nonneg (rootdir (w_fs w))).
    rewrite u64_path by (unfold SNDIR_LEN in *; lia).
    change (strlen SNDIR) with SNDIR_LEN. destruct (Z.ltb_spec SNDIR_LEN (PATH_MAX - strlen (rootdir (w_fs w)))); [done | lia]. }
  rewrite Em. set (w1 := set_fs (set_sn_dir (rootdir (w_fs w) +:+ SNDIR) (w_fs w)) w).
  rewrite (st_bind_run (modify_fs _) _ w tt w1 eq_refl).
  rewrite (st_bind_run _ _ _ _ _ (sn_check_dir_exists w1 Hf Hd)). cbn [Z.eqb negb].
  destruct (sn_get_latest_spec w1 sns Hf Hc) as (w2 & E2 & Ho2 & Hl2).
  destruct (sn_get_latest_fs _ _ _ E2) as (Hm2 & Hj2 & Hr2 & Hrl2 & Hd2 & Hn2).
  rewrite (st_bind_run _ _ _ _ _ E2). cbn [Z.eqb negb].
  destruct (b_init_block_buffer_ok w2) as (m & Hm & E3); [by rewrite Ho2 |].
  rewrite (st_bind_run _ _ _ _ _ E3). cbn [Z.eqb negb]. set (w3 := set_fs _ _).
  assert (E4 : mflock_init w3 = Some (0, wt (replicate (Z.to_nat LOCK_NUM) mflock_init_entry) w3)).
  { unfold mflock_init. rewrite (st_bind_run _ _ w3 true w3); [done |]. apply malloc_ok. cbn. by rewrite Ho2. }
  rewrite (st_bind_run _ _ _ _ _ E4). cbn [Z.eqb negb]. eexists. split; [done |].
  split; cbn; try done.
  - by rewrite Hr2, Hrl2.
  - by rewrite Hn2.
  - apply idle_table_init.
  - by exists m.
Qed.

Lemma main_mounts_spec uid euid realpath fopen (fuse_main : list string -> bool -> M Z) argv root sns w :
  uid <> 0 -> euid <> 0 -> 3 <= zlen argv -> arg argv 1 <> "-h" ->
  starts_with_hyphen (arg argv (zlen argv - 2)) = false -> starts_with_hyphen (arg argv (zlen argv - 1)) = false ->
  realpath (arg argv (zlen argv - 2)) = Some root -> log_ready fopen argv = true -> strlen root + SNDIR_LEN < PATH_MAX ->
  os_faults (w_os w) = [] -> dir_at (w_os w) (resolve (root +:+ SNDIR)) ->
  chain (w_os w) (set_sn_dir (root +:+ SNDIR) (w_fs w)) sns ->
  exists w', esfs_main uid euid realpath fopen fuse_main argv w = fuse_main (fuse_args argv) true w' /\ mounted w w' root sns.
Proof.
  intros Hu He Hargs Hh Hh1 Hh2 Hroot Hlog Hfit Hf Hd Hc. unfold esfs_main.
  rewrite (proj2 (Z.eqb_neq _ _) Hu), (proj2 (Z.eqb_neq _ _) He). cbn [orb].
  rewrite check_params_ok. cbn [Z.eqb negb].
  rewrite (proj2 (String.eqb_neq _ _) Hh), andb_false_r.
  destruct (Z.ltb_spec (zlen argv) 3); [lia |]. rewrite Hh1, Hh2. cbn [orb].
  rewrite (st_bind_run _ _ _ _ _ (malloc_ok w Hf)). cbn [negb]. rewrite Hroot.
  set (w1 := set_fs (new_fsdata root (w_fs w)) w).
  rewrite (st_bind_run (modify_fs _) _ w tt w1 eq_refl), Hlog. cbn [negb].
  destruct (mount_checks_ok w1 sns) as (w2 & E & []); try done.
  rewrite (st_bind_run _ _ _ _ _ E). cbn [Z.eqb negb]. by exists w2.
Qed.

(** ** Theorem *)

(** C14 (mounting): started by an ordinary user with two arguments or more,
    none of the last two an option, on a root directory that resolves and
    has a snapshot directory, with a log file that can be opened and no
    failing call, the program reaches
    [fuse_main] with the arguments less the root directory; nothing on disk
    has changed, and the global data are those of the chain of snapshots on
    disk, with an idle lock table and a block buffer of the right size. *)
Theorem main_mounts uid euid realpath fopen (fuse_main : list string -> bool -> M Z) argv root sns w :
  uid <> 0 -> euid <> 0 -> 3 <= zlen argv -> arg argv 1 <> "-h" ->
  starts_with_hyphen (arg argv (zlen argv - 2)) = false -> starts_with_hyphen (arg argv (zlen argv - 1)) = false ->
  realpath (arg argv (zlen argv - 2)) = Some root -> log_ready fopen argv = true -> strlen root + SNDIR_LEN < PATH_MAX ->
  os_faults (w_os w) = [] -> dir_at (w_os w) (resolve (root +:+ SNDIR)) ->
  chain (w_os w) (set_sn_dir (root +:+ SNDIR) (w_fs w)) sns ->
  exists w', esfs_main uid euid realpath fopen fuse_main argv w = fuse_main (fuse_args argv) true w' /\ mounted w w' root sns.
Proof. apply main_mounts_spec. Qed.

Lemma main_mounts_witness :
  exists w', esfs_main 1000 1000 Some (fun _ => true) (fun _ _ => mret 0) ["esfs"; "--local-log"; "/r"; "/mnt"] e_world = Some (0, w') /\
    mounted e_world w' "/r" ["/r/snapshots/s1"].
Proof.
  destruct (main_mounts 1000 1000 Some (fun _ => true) (fun _ _ => mret 0) ["esfs"; "--local-log"; "/r"; "/mnt"] "/r" ["/r/snapshots/s1"] e_world)
    as (w' & E & Hm); [done | done | by vm_compute | done | reflexivity | reflexivity | reflexivity | reflexivity | by vm_compute | reflexivity | | |].
  - exists 4%nat, sm_dir. split_and!; by vm_compute.
  - apply (sr_chain _ _ _ _ _ _ _ _ e_sn_ready).
  - exists w'. split; [exact E | exact Hm].
Defined.
