(* ===== verification/Reopen.v ===== *)
(** What [mfd_open_sn] does with the files of the latest snapshot, in the
    cases that [MfdTheorems] leaves open: there is no snapshot, the map file
    exists already, or the main file is missing; and what closing gives back.

    There are two kinds of handle: those with a dat file, which can save
    blocks ([saved_handle]), and those with nothing to save ([plain_handle]). *)

From S2P Require Import Prelude Posix PosixSpec PosixPath Types Util UtilTheorems Mflock UtilLocking Layout Tree.
From S2P Require Import Snapshot SnapshotTheorems Block CopyOnWrite BlockWrite BlockRead Mfd SnSteps.
From S2P Require Import FuseFd SnapshotIsolation FusePath MfdTheorems Descriptors SnStepsTheorems.

(** ** Descriptors *)

Lemma owned_created L s0 s s' p ino c : created s s' p ino c -> owned L s0 s -> owned (fresh_fd s :: L) s0 s'.
Proof.
  intros Hc Ho. destruct (cr_fds _ _ _ _ _ Hc) as [o E]. destruct (owned_open L s0 s 0%nat 0 Ho) as [Hnd Hm Hr]. split; [done | |].
  - intros fd Hin. destruct (Hm fd Hin) as (? & ? & Hs). split_and!; [done | done |]. cbn in Hs. rewrite E.
    destruct (decide (fd = fresh_fd s)) as [-> | Hne]; [rewrite lookup_insert_eq; by eexists |].
    rewrite lookup_insert_ne in Hs |- * by done. done.
  - intros fd Hni. rewrite <-(Hr fd Hni). apply not_elem_of_cons in Hni as [Hne _]. cbn. by rewrite E, !lookup_insert_ne by done.
Qed.

(** What was open before stays open. *)
Lemma owned_open_on L s0 s fd i acc app : owned L s0 s -> open_on s0 fd i acc app -> open_on s fd i acc app.
Proof.
  intros [_ Hm Hr] [pos Hfd]. assert (Hni : fd ∉ L).
  { intros Hin. destruct (Hm _ Hin) as (_ & Hn & _). congruence. }
  specialize (Hr _ Hni). rewrite Hfd in Hr. destruct (os_fds s !! fd) as [o |] eqn:E; [| done].
  destruct o as [i' acc' app' pos']. injection Hr as -> -> ->. by exists pos'.
Qed.

(** The descriptors of the map and dat files of a handle. *)
Definition sn_fds (mfd : mfd_t) : list Z := real_fds [datfd mfd; mapfd mfd].

Lemma sn_fds_two mfd : 0 <= datfd mfd -> 0 <= mapfd mfd -> sn_fds mfd = [datfd mfd; mapfd mfd].
Proof. intros. unfold sn_fds, real_fds. by rewrite !filter_cons_True. Qed.

Lemma sn_fds_one mfd : datfd mfd < 0 -> 0 <= mapfd mfd -> sn_fds mfd = [mapfd mfd].
Proof. intros. unfold sn_fds, real_fds. by rewrite filter_cons_False, filter_cons_True by lia. Qed.

Lemma sn_fds_none mfd : datfd mfd < 0 -> mapfd mfd < 0 -> sn_fds mfd = [].
Proof. intros. unfold sn_fds, real_fds. by rewrite !filter_cons_False by lia. Qed.

(** [mfd_close_sn] gives back what the handle owns. *)
Lemma mfd_close_sn_owned w mfd L s0 :
  os_faults (w_os w) = [] -> owned (sn_fds mfd ++ L) s0 (w_os w) ->
  exists x, mfd_close_sn mfd w = Some (0, set_os (set_fds x (w_os w)) w) /\ owned L s0 (set_fds x (w_os w)).
Proof.
  intros Hf Ho. unfold sn_fds in Ho. rewrite real_fds_cons, <-app_assoc in Ho.
  destruct (close_owned w (datfd mfd) 0 _ s0 Hf Ho) as (x1 & E1 & Ho1). set (w1 := set_os (set_fds x1 (w_os w)) w) in *.
  destruct (close_owned w1 (mapfd mfd) 0 L s0 Hf Ho1) as (x2 & E2 & Ho2). exists x2. split; [| done].
  unfold mfd_close_sn. rewrite (st_bind_run _ _ _ _ _ E1), (st_bind_run _ _ _ _ _ E2). done.
Qed.

(** ** Handles *)

(** The map and dat files are open. *)
Record saved_handle (w : world) (mfd : mfd_t) (ip id : nat) (old map dat : list Z) : Prop := {
  sh_map : regular (w_os w) ip map;
  sh_dat : regular (w_os w) id dat;
  sh_ne : ip <> id;
  sh_mapfd : open_on (w_os w) (mapfd mfd) ip O_RDWR false;
  sh_datfd : open_on (w_os w) (datfd mfd) id O_WRONLY true;
  sh_header : header_for old (mapheader mfd);
  sh_label : locklabel mfd <> 0;
  sh_cache : latest_written_block_cache mfd = 0;
  sh_nonneg : 0 <= mapfd mfd /\ 0 <= datfd mfd
}.

(** There is no snapshot, or the file was missing when it was taken. *)
Record plain_handle (mfd : mfd_t) : Prop := {
  ph_dat : datfd mfd < 0;
  ph_map : mapfd mfd = MFD_FD_NOSN \/ 0 <= mapfd mfd /\ mh_exists (mapheader mfd) = 0
}.

(** What any opening leaves in memory and in the table of descriptors. *)
Record sn_opened (idle : list mflock_t -> Prop) (w w' : world) (mfd : mfd_t) : Prop := {
  so_world : exists s t, w' = set_fs (set_mflocks t (w_fs w)) (set_os s w) /\ idle t /\ os_faults s = [];
  so_owned : owned (sn_fds mfd) (w_os w) (w_os w');
  so_number : mfd_sn_number mfd = sn_number (w_fs w)
}.

Lemma sn_opened_number idle w w' mfd : sn_opened idle w w' mfd -> mfd_sn_number mfd = sn_number (w_fs w').
Proof. intros [(s & t & -> & _) _ ->]. done. Qed.

Section Reopen.
Context (lock_ unlock_ : Z -> M Z) {LS : LockService lock_ unlock_}.

(** The map file of [path] in the latest snapshot, in a directory that is there. *)
Record map_place (w : world) (path fmap : string) : Prop := {
  mp_faults : os_faults (w_os w) = [];
  mp_idle : lk_idle (mflocks (w_fs w));
  mp_any : sn_is_any (w_fs w) <> 0;
  mp_fmap : get_map_prefix_path path (sn_lat_dir (w_fs w)) (sn_lat_dir_len (w_fs w)) = Ok fmap;
  mp_parent : exists k, last_slash fmap = Some (S k) /\ dir_at (w_os w) (resolve (strncpy fmap (Z.of_nat (S k))))
}.

Abbreviation sn_opened_ := (sn_opened lk_idle).

(** *** No snapshot *)

Lemma mfd_open_sn_none w path fpath mfd0 :
  os_faults (w_os w) = [] -> lk_idle (mflocks (w_fs w)) -> sn_is_any (w_fs w) = 0 ->
  exists mfd, mfd_open_sn lock_ unlock_ mfd0 path (Some fpath) w = Some ((0, mfd), w) /\ plain_handle mfd /\ sn_opened_ w w mfd.
Proof.
  intros Hf Hidle Hany. eexists. split; [unfold mfd_open_sn; by rewrite (st_bind_run get_fs _ w (w_fs w) w eq_refl), Hany |].
  split; [split; [done | by left] |]. split; [| apply owned_nil | done].
  exists (w_os w), (mflocks (w_fs w)). split_and!; [by destruct w as [? [] ? ? ? ?] | done | done].
Qed.

(** *** The map file exists *)

Lemma load_header_rdwr w h0 fd ip map h :
  os_faults (w_os w) = [] -> fd_file (w_os w) fd ip map O_RDWR false -> map_header map h ->
  mfd_load_mapheader h0 fd w = Some ((0, h), w).
Proof.
  intros Hf Hfd [Hr (Hwf & Hv & Hs)]. unfold mfd_load_mapheader.
  rewrite (st_bind_run _ _ _ _ _ (sys_run _ w _ _ (pread_ok (w_os w) fd ip map O_RDWR false MAPHEADER_S 0 Hf Hfd ltac:(done) ltac:(done)))).
  rewrite Hr, dec_enc_header, zlen_enc_header, Hv, Hs by (done || by rewrite Hs). by rewrite set_os_id.
Qed.

(** With the lock held, up to the dat file. *)
Lemma mfd_open_existing_run w path fpath fmap mfd lid t ip map h :
  os_faults (w_os w) = [] -> file_at (w_os w) (resolve fmap) ip map -> map_header map h -> releases lock_ unlock_ lid t ->
  exists t', lk_idle t' /\
    forall mfd' w', mfd_open_dat path (set_mapheader h (set_mapfd (fresh_fd (w_os w)) mfd))
        (set_fs (set_mflocks t' (w_fs w)) (set_os (opened (w_os w) ip O_RDWR) w)) = Some ((0, mfd'), w') ->
      mfd_open_locked unlock_ path fpath fmap lid mfd (set_fs (set_mflocks t (w_fs w)) w) = Some ((0, -1, mfd'), w').
Proof.
  intros Hf Hmap Hh Hun. set (w1 := set_fs (set_mflocks t (w_fs w)) w).
  pose proof (open_excl (w_os w) fmap (Z.lor (Z.lor (Z.lor O_RDWR O_CREAT) O_EXCL) O_NOATIME) S_IRWXU ip Hf
    (proj1 Hmap) (proj1 (proj2 Hmap)) eq_refl) as E1.
  pose proof (open_existing (w_os w) fmap O_RDWR 0 ip map Hf Hmap eq_refl) as E2.
  change (has O_RDWR O_TRUNC) with false in E2. cbv iota in E2. set (s1 := opened (w_os w) ip O_RDWR) in *.
  assert (Hfd1 : fd_file s1 (fresh_fd (w_os w)) ip map O_RDWR false).
  { apply fd_file_split. split; [apply (opened_open_on (w_os w) ip O_RDWR) | apply Hmap]. }
  set (w2 := set_os s1 (set_os (w_os w) w1)). destruct (Hun w2 eq_refl) as (t' & Ht' & Eu).
  exists t'. split; [done |]. intros mfd' w' Ed. unfold mfd_open_locked.
  rewrite (st_bind_run _ _ _ _ _ (sys_run _ w1 _ _ E1)). cbn [Z.eqb EEXIST Pos.eqb negb].
  rewrite (st_bind_run _ _ _ _ _ (sys_run _ (set_os (w_os w) w1) _ _ E2)). unfold mfd_open_existing.
  unfold mbind at 1, ST_bind at 1. rewrite (st_bind_run _ _ _ _ _ (load_header_rdwr w2 (mapheader mfd) _ ip map h Hf Hfd1 Hh)).
  cbn [Z.eqb negb]. rewrite (st_bind_run _ _ _ _ _ Eu). cbn [Z.eqb negb]. by rewrite (st_bind_run _ _ _ _ _ Ed).
Qed.

(** The dat file of a file that was not empty. *)
Lemma mfd_open_dat_existing w path mfd fdat id dat :
  os_faults (w_os w) = [] -> mh_exists (mapheader mfd) = 1 -> 0 < st_size (mh_fstat (mapheader mfd)) ->
  get_dat_prefix_path path (sn_lat_dir (w_fs w)) (sn_lat_dir_len (w_fs w)) = Ok fdat ->
  file_at (w_os w) (resolve fdat) id dat ->
  exists flags, mfd_open_dat path mfd w = Some ((0, set_datfd (fresh_fd (w_os w)) mfd), set_os (opened (w_os w) id flags) w) /\
    Z.land flags O_ACCMODE = O_WRONLY /\ has flags O_APPEND = true.
Proof.
  intros Hf Hex Hsz Hp Hat. set (flags := Z.lor (Z.lor (Z.lor O_WRONLY O_CREAT) O_APPEND) O_NOATIME).
  exists flags. split_and!; [| done | done].
  unfold mfd_open_dat. rewrite Hex. cbn [Z.eqb].
  destruct (Z.eqb_spec (st_size (mh_fstat (mapheader mfd))) 0); [lia |].
  rewrite (st_bind_run get_fs _ w (w_fs w) w eq_refl), Hp.
  by rewrite (st_bind_run _ _ _ _ _ (sys_run _ _ _ _ (open_existing (w_os w) fdat flags S_IRWXU id dat Hf Hat eq_refl))).
Qed.

Lemma mfd_open_dat_missing w path mfd :
  mh_exists (mapheader mfd) = 0 -> mfd_open_dat path mfd w = Some ((0, set_datfd MFD_FD_ENOENT mfd), w).
Proof. intros H. unfold mfd_open_dat. by rewrite H. Qed.

Lemma mfd_open_sn_existing w path fpath fmap fdat ip id old map dat h mfd0 :
  map_place w path fmap -> file_at (w_os w) (resolve fmap) ip map -> map_header map h -> header_for old h -> 0 < zlen old ->
  get_dat_prefix_path path (sn_lat_dir (w_fs w)) (sn_lat_dir_len (w_fs w)) = Ok fdat ->
  file_at (w_os w) (resolve fdat) id dat -> ip <> id ->
  exists w' mfd, mfd_open_sn lock_ unlock_ mfd0 path (Some fpath) w = Some ((0, mfd), w') /\
    (saved_handle w' mfd ip id old map dat /\ sn_opened_ w w' mfd /\ more_fds (w_os w) (w_os w')).
Proof.
  intros [] Hmap Hh [Hex Hsz] Hpos Hfd Hdat Hne.
  apply (mfd_open_sn_run lock_ unlock_ w path fpath fmap mfd0
    (fun mfd w' => saved_handle w' mfd ip id old map dat /\ sn_opened_ w w' mfd /\ more_fds (w_os w) (w_os w'))); try done.
  intros mfd lid t Hun Hlab Hnum Hca _.
  destruct (mfd_open_existing_run w path fpath fmap mfd lid t ip map h mp_faults0 Hmap Hh Hun) as (t' & Ht' & Hrun).
  set (mfd1 := set_mapheader h (set_mapfd (fresh_fd (w_os w)) mfd)) in *. set (s1 := opened (w_os w) ip O_RDWR) in *.
  destruct (mfd_open_dat_existing (set_fs (set_mflocks t' (w_fs w)) (set_os s1 w)) path mfd1 fdat id dat) as (fl & Ed & Ha & Hp);
    [done | done | cbn; lia | done | by apply file_at_fds |].
  eexists _, _. split; [by apply Hrun |]. pose proof (fresh_fd_ge (w_os w)). pose proof (fresh_fd_ge s1).
  assert (Ho1 : open_on s1 (fresh_fd (w_os w)) ip O_RDWR false) by apply (opened_open_on (w_os w) ip O_RDWR).
  split_and!.
  - split; try done; cbn -[opened s1].
    + apply Hmap.
    + apply Hdat.
    + by apply opened_other.
    + rewrite <-Ha, <-Hp. apply opened_open_on.
    + lia.
  - split; [| | done].
    + by eexists (opened s1 id fl), t'.
    + rewrite sn_fds_two by (cbn -[s1]; lia). cbn -[opened s1]. by apply owned_open, owned_open, owned_nil.
  - cbn -[opened s1]. etransitivity; apply more_fds_opened.
Qed.

(** The file was missing when its map file was made. *)
Lemma mfd_open_sn_gone w path fpath fmap ip map h mfd0 :
  map_place w path fmap -> file_at (w_os w) (resolve fmap) ip map -> map_header map h -> mh_exists h = 0 ->
  exists w' mfd, mfd_open_sn lock_ unlock_ mfd0 path (Some fpath) w = Some ((0, mfd), w') /\
    (plain_handle mfd /\ sn_opened_ w w' mfd /\ more_fds (w_os w) (w_os w')).
Proof.
  intros [] Hmap Hh Hex.
  apply (mfd_open_sn_run lock_ unlock_ w path fpath fmap mfd0
    (fun mfd w' => plain_handle mfd /\ sn_opened_ w w' mfd /\ more_fds (w_os w) (w_os w'))); try done.
  intros mfd lid t Hun Hlab Hnum Hca _.
  destruct (mfd_open_existing_run w path fpath fmap mfd lid t ip map h mp_faults0 Hmap Hh Hun) as (t' & Ht' & Hrun).
  eexists _, _. split; [by apply Hrun, mfd_open_dat_missing |]. pose proof (fresh_fd_ge (w_os w)).
  split_and!; [split; [done | right; split; [cbn; lia | done]] | | apply more_fds_opened].
  split; [by eexists _, t' | | done]. rewrite sn_fds_one by (done || cbn; lia). cbn -[opened]. by apply owned_open, owned_nil.
Qed.

(** *** The main file is missing, and has no map file yet *)

(** What the header takes from memory that is not initialised: anything but
    a directory. *)
Definition junk_ok (mfd : mfd_t) : Prop :=
  stat_wf (mh_fstat (mapheader mfd)) /\ S_ISDIR (st_mode (mh_fstat (mapheader mfd))) = false.

Lemma mfd_open_sn_missing w path fpath fmap mfd0 :
  map_place w path fmap -> absent_at (w_os w) (resolve fmap) -> absent_at (w_os w) (resolve fpath) ->
  resolve fpath <> resolve fmap -> junk_ok mfd0 ->
  exists w' mfd, mfd_open_sn lock_ unlock_ mfd0 path (Some fpath) w = Some ((0, mfd), w') /\
    (plain_handle mfd /\ sn_opened_ w w' mfd /\
     exists ip, created (w_os w) (w_os w') (resolve fmap) ip (enc_header (header_missing (mh_fstat (mapheader mfd0))))).
Proof.
  intros [] Hmap Hmain Hne [Hj Hjd]. set (h := header_missing (mh_fstat (mapheader mfd0))).
  apply (mfd_open_sn_run lock_ unlock_ w path fpath fmap mfd0 (fun mfd w' => plain_handle mfd /\ sn_opened_ w w' mfd /\
     exists ip, created (w_os w) (w_os w') (resolve fmap) ip (enc_header h))); try done.
  intros mfd lid t Hun Hlab Hnum Hca Hhd. assert (Hh : header_ok h) by by split_and!.
  destruct (mfd_open_new_run lock_ unlock_ w path fpath fmap mfd lid t h) as (s & ip & t' & Ht' & Hc & Ho & Hrun); try done.
  { intros w1 ip Hc. unfold h. rewrite <-Hhd. apply mfd_new_header_missing; [apply Hc | by apply (cr_absent _ _ _ _ _ Hc)]. }
  eexists _, _. split; [by apply Hrun, mfd_open_dat_missing |]. pose proof (fresh_fd_ge (w_os w)).
  split_and!; [split; [done | right; split; [cbn; lia | done]] | | by exists ip].
  split; [eexists s, t'; split_and!; [done | done | apply Hc] | | done].
  rewrite sn_fds_one by (done || cbn; lia). cbn. by eapply owned_created, owned_nil.
Qed.

(** *** The main file is there, and has no map file yet *)

Lemma mfd_open_sn_first w path fpath fmap fdat im old mfd0 :
  open_ready lock_ unlock_ w path fpath fmap fdat im old ->
  exists w' mfd, mfd_open_sn lock_ unlock_ mfd0 path (Some fpath) w = Some ((0, mfd), w') /\
    exists ip id, opened_sn lock_ unlock_ w w' mfd fpath fmap fdat im ip id old /\
      saved_handle w' mfd ip id old (enc_header (mapheader mfd)) [] /\ sn_opened_ w w' mfd.
Proof.
  intros H. destruct (mfd_open_sn_new lock_ unlock_ w path fpath fmap fdat im old mfd0 H) as (w' & mfd & E & ip & id & Ho).
  exists w', mfd. split; [done |]. exists ip, id. split; [done |]. destruct Ho. destruct os_created as (s & Hc1 & Hc2 & E1 & E2). split.
  - split; try done; [apply os_map | apply os_dat | apply os_distinct | apply os_header].
  - split; [done | | done]. rewrite sn_fds_two, E1, E2 by apply os_nonneg.
    by eapply owned_created, owned_created, owned_nil.
Qed.
End Reopen.
