(* ===== verification/Sessions.v ===== *)
(** Sessions: a file of the main space is opened or created, changed and
    closed again, or truncated or removed by its path, whatever the latest
    snapshot has for it.  [Reopen] says what handle [mfd_open_sn] returns;
    here the rest of each handler runs on that handle. *)

From S2P Require Import Prelude Posix PosixSpec PosixPath Types Util UtilTheorems Mflock UtilLocking Layout Tree.
From S2P Require Import Snapshot SnapshotTheorems Block CopyOnWrite BlockWrite BlockRead Mfd SnSteps.
From S2P Require Import FuseFd SnapshotIsolation FusePath MfdTheorems Descriptors SnStepsTheorems Survival Reopen.

(** ** Handles that save *)

Section Saving.
Context (lock_ unlock_ : Z -> M Z) {LS : LockService lock_ unlock_}.

(** What saving takes besides the handle. *)
Record save_ready (w : world) (old main map dat : list Z) : Prop := {
  sv_cow : cow old main map dat;
  sv_old : 0 < zlen old < 2 ^ 61;
  sv_align : zlen dat mod BL_S = 0;
  sv_buffer : buffer_ok w;
  sv_idle : lk_idle (mflocks (w_fs w));
  sv_faults : os_faults (w_os w) = []
}.

Lemma handle_mfd_ok w mfd im ip id old main map dat fd acc app :
  saved_handle w mfd ip id old map dat -> save_ready w old main map dat -> im <> ip -> im <> id ->
  fd_file (w_os w) fd im main acc app -> can_save acc old map ->
  mfd_ok lk_idle w (set_mainfd fd mfd) im ip id old main map dat.
Proof.
  intros [] [] H1 H2 Hfd Hacc. split; try done.
  - split; [by exists acc, app | by apply fd_file_split | by apply fd_file_split | done].
  - apply sh_header.
  - apply sh_header.
  - lia.
  - intros b Hb. cbn. rewrite sh_cache. lia.
  - unfold atomic. by rewrite sv_faults0.
  - apply sh_nonneg.
Qed.

(** The handle once the main file is open too and the handle is published. *)
Lemma handle_file_inv w mfd im ip id old main map dat fd acc app fh :
  saved_handle w mfd ip id old map dat -> save_ready w old main map dat -> im <> ip -> im <> id ->
  fd_file (w_os w) fd im main acc app -> acc <> O_RDONLY -> can_save acc old map -> mfd_sn_number mfd = sn_number (w_fs w) ->
  w_mfds w !! fh = Some (set_is_main mfd_main (set_mainfd fd mfd)) ->
  file_inv lock_ unlock_ im ip id old {[ fh := app ]} ∅ w main map dat.
Proof.
  intros [] [] H1 H2 [Hopen Hmain]%fd_file_split Hacc Hsave Hnum Hfh. split; try done.
  - lia.
  - unfold atomic. by rewrite sv_faults0.
  - intros fh' app' [<- <-]%lookup_singleton_Some. eexists. split; [done |]. split; try done; cbn.
    + by exists acc.
    + apply sh_header.
    + apply sh_header.
    + intros b Hb. cbn. rewrite sh_cache. lia.
    + apply sh_nonneg.
Qed.

(** ** Saving what a truncation by path will cut off *)

Lemma frame_opened_closed touch s s2 ino flags :
  frame touch (opened s ino flags) s2 -> frame touch s (set_fds (delete (fresh_fd s) (os_fds s2)) s2).
Proof.
  intros []. split; try done. intros fd. cbn. destruct (decide (fd = fresh_fd s)) as [-> | Hne].
  - by rewrite lookup_delete_eq, fresh_fd_free.
  - rewrite lookup_delete_ne, fr_fds by done. cbn. by rewrite lookup_insert_ne by done.
Qed.

Lemma range_all_saved old map : range_saved old map 0 (zlen old - 0) -> all_saved old map.
Proof. intros H b Hb. pose proof Hb as [H0 H1]. assert (0 < BL_S) by done. apply H; unfold BL_S in *; (done || lia). Qed.

(** The main file is opened, what will be cut off is saved, and it is closed
    again: only the map and dat files change. *)
Lemma open_truncate_saved w fpath mfd im ip id old main map dat n :
  saved_handle w mfd ip id old map dat -> save_ready w old main map dat -> im <> ip -> im <> id ->
  file_at (w_os w) (resolve fpath) im main -> 0 <= n -> room old dat 1 ->
  exists w' mfd' map' dat', open_truncate lock_ unlock_ fpath n mfd w = Some ((0, mfd'), w') /\
    wframe (sn_files ip id) w w' /\ same_mfd mfd (set_mainfd (mainfd mfd) mfd') /\
    regular (w_os w') ip map' /\ regular (w_os w') id dat' /\ save_ready w' old main map' dat' /\
    range_saved old map' n (zlen old - n) /\ zlen dat' <= zlen dat + (zlen old + 2 * BL_S).
Proof.
  intros Hh Hs H1 H2 Hat Hn Hroom. pose proof Hh as []. pose proof Hs as []. unfold open_truncate.
  destruct (Z.eqb_spec (mapfd mfd) MFD_FD_NOSN) as [E |]; [unfold MFD_FD_NOSN in E; lia |]. rewrite (proj1 sh_header). cbn [Z.eqb].
  pose proof (open_existing (w_os w) fpath O_RDONLY 0 im main sv_faults0 Hat eq_refl) as Eo.
  change (has O_RDONLY O_TRUNC) with false in Eo. cbv iota in Eo. set (fd := fresh_fd (w_os w)) in *. set (s1 := opened (w_os w) im O_RDONLY) in *.
  rewrite (st_bind_run _ _ _ _ _ (sys_run _ w _ _ Eo)). set (w1 := set_os s1 w).
  assert (Hh1 : saved_handle w1 mfd ip id old map dat) by (split; try done; by apply opened_other).
  assert (Hs1 : save_ready w1 old main map dat) by by split.
  assert (Hfd1 : fd_file s1 fd im main O_RDONLY false).
  { apply fd_file_split. split; [apply (opened_open_on (w_os w) im O_RDONLY) | apply Hat]. }
  pose proof (handle_mfd_ok w1 mfd im ip id old main map dat fd O_RDONLY false Hh1 Hs1 H1 H2 Hfd1 ltac:(by left)) as Hok.
  unfold room in Hroom. assert (0 < BL_S) by done.
  destruct (b_truncate_spec lock_ unlock_ im ip id old main w1 _ map dat n Hok Hn ltac:(lia))
    as (r & mfd2 & w2 & map' & dat' & E & Hfr & Hok2 & Hsame & Hlen & _ & Hpost).
  rewrite (st_bind_run _ _ _ _ _ E). pose proof (wf_os _ _ _ Hfr) as Hfr2.
  assert (Hf2 : os_faults (w_os w2) = []) by by apply (fr_nofault _ _ _ Hfr2).
  assert (Em : mainfd mfd2 = fd) by by rewrite (f_equal mainfd Hsame : mainfd mfd2 = _).
  destruct (mfd_ok_regular _ _ im ip id old w2 mfd2 main map' dat' Hok2) as (_ & Hm2 & Hd2).
  assert (Hfd2 : is_Some (os_fds (w_os w2) !! fd)).
  { destruct (mo_fds _ _ _ _ _ _ _ _ _ _ Hok2) as [(acc & app & Hx & _) _ _ _]. rewrite Em in Hx.
    apply fd_file_split in Hx as [[pos Hx] _]. by eexists. }
  destruct Hfd2 as [o Ho]. rewrite Em, (st_bind_run _ _ _ _ _ (sys_run _ w2 _ _ (close_ok (w_os w2) fd o Hf2 Ho))).
  destruct Hpost as [[-> Hr] | [_ Hfl]]; [| by destruct (not_faulty_nil s1 sv_faults0)].
  eexists _, _, map', dat'. split; [done |]. split_and!; try done; [| | | lia].
  - destruct Hfr as [_ Hfs Hmf Hj Hk]. split; [| exact Hfs | exact Hmf | exact Hj | exact Hk].
    apply (frame_opened_closed _ (w_os w) (w_os w2) im O_RDONLY), Hfr2.
  - unfold same_mfd in *. rewrite (f_equal (set_mainfd (mainfd mfd)) Hsame : set_cache 0 (set_mainfd (mainfd mfd) mfd2) = _). by destruct mfd.
  - destruct Hok2. by split.
Qed.

(** Nothing to save: the main file is missing, or there is no snapshot of it. *)
Lemma open_truncate_missing w fpath mfd n :
  os_faults (w_os w) = [] -> absent_at (w_os w) (resolve fpath) ->
  open_truncate lock_ unlock_ fpath n mfd w = Some ((0, mfd), w).
Proof.
  intros Hf Ha. unfold open_truncate. case_match; [done |]. case_match; [done |].
  by rewrite (st_bind_run _ _ _ _ _ (sys_run _ w _ _ (open_absent (w_os w) fpath O_RDONLY 0 Hf Ha eq_refl))), set_os_id.
Qed.

Lemma open_truncate_plain w fpath mfd n : plain_handle mfd -> open_truncate lock_ unlock_ fpath n mfd w = Some ((0, mfd), w).
Proof.
  intros [_ Hp]. unfold open_truncate. destruct Hp as [-> | [_ ->]]; [done |]. by case_match.
Qed.

Lemma open_truncate_close_run w path fpath n mfd w1 mfd' w2 L s0 :
  mfd_open_sn lock_ unlock_ (w_junk_mfd w) path (Some fpath) w = Some ((0, mfd), w1) ->
  open_truncate lock_ unlock_ fpath n mfd w1 = Some ((0, mfd'), w2) ->
  os_faults (w_os w2) = [] -> owned (sn_fds mfd' ++ L) s0 (w_os w2) ->
  exists x, open_truncate_close lock_ unlock_ path fpath n w = Some (0, set_os (set_fds x (w_os w2)) w2) /\
    owned L s0 (set_fds x (w_os w2)).
Proof.
  intros E1 E2 Hf Ho. destruct (mfd_close_sn_owned w2 mfd' L s0 Hf Ho) as (x & E3 & Hx). exists x. split; [| done].
  unfold open_truncate_close. rewrite (st_bind_run st_get _ w w w eq_refl), (st_bind_run _ _ _ _ _ E1). cbn [Z.eqb negb].
  by rewrite (st_bind_run _ _ _ _ _ E2), (st_bind_run _ _ _ _ _ E3).
Qed.

Lemma mfd_init_sn_run w path fpath mfd w1 L s0 :
  mfd_open_sn lock_ unlock_ (w_junk_mfd w) path (Some fpath) w = Some ((0, mfd), w1) ->
  os_faults (w_os w1) = [] -> owned (sn_fds mfd ++ L) s0 (w_os w1) ->
  exists x, mfd_init_sn lock_ unlock_ path fpath w = Some (0, set_os (set_fds x (w_os w1)) w1) /\ owned L s0 (set_fds x (w_os w1)).
Proof.
  intros E1 Hf Ho. destruct (mfd_close_sn_owned w1 mfd L s0 Hf Ho) as (x & E2 & Hx). exists x. split; [| done].
  unfold mfd_init_sn. by rewrite (st_bind_run st_get _ w w w eq_refl), (st_bind_run _ _ _ _ _ E1).
Qed.
End Saving.

(** ** Opening and creating *)

Section Opening.
Context (lock_ unlock_ : Z -> M Z) {LS : LockService lock_ unlock_}.

(** [mfd_open_sn] starts with [mkpath]: where it has already run, nothing changes. *)
Lemma mfd_open_sn_mkpath w s1 path fpath fmap mfd r first r' first' :
  sn_is_any (w_fs w) <> 0 -> get_map_prefix_path path (sn_lat_dir (w_fs w)) (sn_lat_dir_len (w_fs w)) = Ok fmap ->
  mkpath fmap S_IRWXU w = Some ((r, first), set_os s1 w) -> 0 <= r ->
  mkpath fmap S_IRWXU (set_os s1 w) = Some ((r', first'), set_os s1 w) -> 0 <= r' ->
  mfd_open_sn lock_ unlock_ mfd path (Some fpath) w = mfd_open_sn lock_ unlock_ mfd path (Some fpath) (set_os s1 w).
Proof.
  intros Hany Hfm E1 Hr E2 Hr'. unfold mfd_open_sn. rewrite (st_bind_run get_fs _ w (w_fs w) w eq_refl).
  rewrite (st_bind_run get_fs _ (set_os s1 w) (w_fs w) (set_os s1 w) eq_refl).
  destruct (Z.eqb_spec (sn_is_any (w_fs w)) 0); [done |]. rewrite Hfm.
  rewrite (st_bind_run _ _ _ _ _ E1), (st_bind_run _ _ _ _ _ E2).
  by destruct (Z.ltb_spec r 0), (Z.ltb_spec r' 0); try lia.
Qed.

(** The world once the main file is open at [fd] and the handle is published. *)
Definition published (w : world) (mfd : mfd_t) (fd : Z) (s : os) : world :=
  set_mfds (<[fresh (dom (w_mfds w)) := set_is_main mfd_main (set_mainfd fd mfd)]> (w_mfds w)) (set_os s w).

Lemma finish_open_run w fpath flags mode mfd fd s :
  sys_open fpath flags mode (w_os w) = (Ok fd, s) ->
  finish_open fpath flags mode mfd w = Some ((0, Some (fresh (dom (w_mfds w)))), published w mfd fd s).
Proof. intros E. unfold finish_open. by rewrite (st_bind_run _ _ _ _ _ (sys_run _ _ _ _ E)). Qed.

Lemma malloc_mfd_ok w : os_faults (w_os w) = [] -> malloc_mfd w = Some (Some (w_junk_mfd w), w).
Proof. intros Hf. unfold malloc_mfd. by rewrite malloc_ok. Qed.

Lemma open_flags_plain flags : write_flags flags ->
  has (open_flags flags) O_CREAT = false /\ has (open_flags flags) O_TRUNC = false.
Proof.
  intros (_ & Hc & Ht). split.
  - by rewrite (open_flags_has flags 6 ltac:(lia) : has _ O_CREAT = has flags O_CREAT).
  - by rewrite (open_flags_has flags 9 ltac:(lia) : has _ O_TRUNC = has flags O_TRUNC).
Qed.

(** Opening for writing, once [mfd_open_sn] has succeeded. *)
Lemma esfs_open_write_run w path fpath flags mfd w1 im c :
  os_faults (w_os w) = [] -> is_path_in_sn path = false -> map_path path (w_fs w) = Ok fpath -> write_flags flags ->
  mfd_open_sn lock_ unlock_ (w_junk_mfd w) path (Some fpath) w = Some ((0, mfd), w1) ->
  os_faults (w_os w1) = [] -> file_at (w_os w1) (resolve fpath) im c ->
  esfs_open lock_ unlock_ path flags w = Some ((0, Some (fresh (dom (w_mfds w1)))),
    published w1 mfd (fresh_fd (w_os w1)) (opened (w_os w1) im (open_flags flags))).
Proof.
  intros Hf Hms Hfp Hfl E Hf1 Hat. unfold esfs_open, if_path_sn.
  rewrite (st_bind_run get_fs _ w (w_fs w) w eq_refl), Hfp, Hms. unfold esfs_open_main.
  rewrite (st_bind_run _ _ _ _ _ (malloc_mfd_ok w Hf)). destruct (open_flags_plain flags Hfl) as [Hc Ht].
  destruct (Z.eqb_spec (Z.land flags O_ACCMODE) O_RDONLY) as [E' | _].
  { destruct Hfl as [Hacc _]. rewrite E' in Hacc. by destruct Hacc. }
  rewrite (st_bind_run _ _ _ _ _ E). cbn [Z.ltb Z.compare].
  apply finish_open_run. pose proof (open_existing (w_os w1) fpath (open_flags flags) 0 im c Hf1 Hat) as Eo.
  rewrite Hc, Ht in Eo. by apply Eo.
Qed.

Lemma opened_writer s im flags : write_flags flags ->
  open_on (opened s im (open_flags flags)) (fresh_fd s) im O_RDWR (has flags O_APPEND).
Proof.
  intros (Hacc & _). rewrite <-(open_flags_acc flags Hacc).
  rewrite <-(open_flags_has flags 10 ltac:(lia) : has (open_flags flags) O_APPEND = has flags O_APPEND).
  apply opened_open_on.
Qed.

(** Creating: what the file has is saved first, if there is something to save. *)
Lemma esfs_create_run w path fpath mode flags mfd w1 w2 fd s :
  os_faults (w_os w) = [] -> is_path_in_sn path = false -> map_path path (w_fs w) = Ok fpath ->
  mfd_open_sn lock_ unlock_ (w_junk_mfd w) path (Some fpath) w = Some ((0, mfd), w1) ->
  (if (0 <=? mapfd mfd) && (mh_exists (mapheader mfd) =? 1)
   then open_truncate_close lock_ unlock_ path fpath 0 w1 = Some (0, w2) else w2 = w1) ->
  sys_open fpath (Z.lor (Z.lor flags O_CREAT) O_TRUNC) mode (w_os w2) = (Ok fd, s) ->
  esfs_create lock_ unlock_ path mode flags w = Some ((0, Some (fresh (dom (w_mfds w2)))), published w2 mfd fd s).
Proof.
  intros Hf Hms Hfp E1 E2 E3. unfold esfs_create. rewrite (st_bind_run get_fs _ w (w_fs w) w eq_refl), Hms, Hfp.
  unfold esfs_create_main. rewrite (st_bind_run _ _ _ _ _ (malloc_mfd_ok w Hf)), (st_bind_run _ _ _ _ _ E1). cbn [Z.ltb Z.compare].
  rewrite (st_bind_run _ _ w1 0 w2) by (case_match; [done | by subst]). by apply finish_open_run.
Qed.
End Opening.

(** ** Closing *)

Lemma is_Some_close {A} (m : gmap Z A) fd fd' :
  (0 <= fd -> fd <> fd') -> is_Some (m !! fd') -> is_Some ((if 0 <=? fd then delete fd m else m) !! fd').
Proof. intros H Hm. destruct (Z.leb_spec 0 fd); [| done]. rewrite lookup_delete_ne; [done | auto]. Qed.

(** Closing a writer gives back its descriptors and touches nothing else. *)
Lemma esfs_release_main w fh mfd :
  os_faults (w_os w) = [] -> w_mfds w !! fh = Some mfd -> is_main mfd = mfd_main ->
  is_Some (os_fds (w_os w) !! mainfd mfd) ->
  (0 <= mapfd mfd -> is_Some (os_fds (w_os w) !! mapfd mfd) /\ mapfd mfd <> mainfd mfd) ->
  (0 <= datfd mfd -> is_Some (os_fds (w_os w) !! datfd mfd) /\ datfd mfd <> mainfd mfd /\ datfd mfd <> mapfd mfd) ->
  exists x, esfs_release fh w = Some (0, set_mfds (delete fh (w_mfds w)) (set_os (set_fds x (w_os w)) w)).
Proof.
  intros Hf Hm Hmain Hmf Hpf Hdf. unfold esfs_release.
  rewrite (st_bind_run (get_mfd fh) _ w mfd w) by (unfold get_mfd; by rewrite Hm). rewrite Hmain. unfold mfd_close_sn.
  set (x1 := if 0 <=? datfd mfd then delete (datfd mfd) (os_fds (w_os w)) else os_fds (w_os w)).
  set (w1 := set_os (set_fds x1 (w_os w)) w).
  assert (E1 : close_if_open (datfd mfd) 0 w = Some (0, w1)) by (apply close_if_open_ok; [done | tauto]).
  set (x2 := if 0 <=? mapfd mfd then delete (mapfd mfd) x1 else x1). set (w2 := set_os (set_fds x2 (w_os w1)) w1).
  assert (E2 : close_if_open (mapfd mfd) 0 w1 = Some (0, w2)).
  { apply close_if_open_ok; [done |]. intros Hp. cbn. unfold x1. apply is_Some_close; tauto. }
  assert (Hx : is_Some (x2 !! mainfd mfd)).
  { unfold x2, x1. apply is_Some_close; [tauto |]. apply is_Some_close; tauto. }
  destruct Hx as [o Ho].
  unfold mbind at 1, ST_bind at 1. unfold mbind at 1, ST_bind at 1. rewrite (st_bind_run _ _ _ _ _ E1), (st_bind_run _ _ _ _ _ E2).
  unfold mret at 1, ST_ret at 1.
  rewrite (st_bind_run _ _ _ _ _ (sys_run _ w2 _ _ (close_ok (w_os w2) (mainfd mfd) o Hf Ho))).
  eexists. reflexivity.
Qed.

(** ** Changes *)

(** The contents after a change, and its result; [app] is O_APPEND. *)
Definition wop_exec (app : bool) (main : list Z) (o : wop) : outcome * list Z :=
  match o with
  | WWrite buf off => (Ret (i32 (zlen buf)), file_write main buf (if app then zlen main else off))
  | WTruncate n => (Ret 0, file_resize main n)
  end.

Fixpoint wops_exec (app : bool) (main : list Z) (ops : list wop) : list outcome * list Z :=
  match ops with
  | [] => ([], main)
  | o :: r =>
      let '(out, main') := wop_exec app main o in
      let '(outs, main'') := wops_exec app main' r in (out :: outs, main'')
  end.

Lemma aexecs_wops fh app view ops : forall main,
  aexecs (fun h => default false (({[ fh := app ]} : gmap Z bool) !! h)) view main (on_handle fh <$> ops) = wops_exec app main ops.
Proof.
  induction ops as [| o ops IH]; intros main; [done |]. cbn [fmap list_fmap aexecs wops_exec].
  destruct o; cbn [on_handle aexec wop_exec]; rewrite ?lookup_singleton_eq; cbn [default]; by rewrite IH.
Qed.

Section Plain.
Context (lock_ unlock_ : Z -> M Z) {LS : LockService lock_ unlock_}.

(** A handle on a file that has nothing to save. *)
Record plain_writer (w : world) (fh : Z) (mfd : mfd_t) (im : nat) (main : list Z) (app : bool) : Prop := {
  pl_faults : os_faults (w_os w) = [];
  pl_handle : w_mfds w !! fh = Some mfd;
  pl_main : is_main mfd = mfd_main;
  pl_number : mfd_sn_number mfd = sn_number (w_fs w);
  pl_dat : datfd mfd < 0;
  pl_file : exists acc, fd_file (w_os w) (mainfd mfd) im main acc app /\ acc <> O_RDONLY
}.

Lemma b_write_plain w mfd size off flags : datfd mfd < 0 -> b_write lock_ unlock_ mfd size off flags w = Some ((0, mfd), w).
Proof. intros H. unfold b_write. by destruct (Z.ltb_spec (datfd mfd) 0); [| lia]. Qed.

Lemma b_truncate_plain w mfd n flags : datfd mfd < 0 -> b_truncate lock_ unlock_ mfd n flags w = Some ((0, mfd), w).
Proof. intros H. unfold b_truncate. case_match; [by apply b_write_plain | done]. Qed.

Lemma put_same w fh mfd : w_mfds w !! fh = Some mfd -> put_mfd fh mfd w = Some (tt, w).
Proof. intros H. unfold put_mfd. rewrite insert_id by done. by destruct w. Qed.

Lemma ftruncate_ok s fd ino c acc app n :
  os_faults s = [] -> fd_file s fd ino c acc app -> acc <> O_RDONLY -> 0 <= n ->
  sys_ftruncate fd n s = (Ok tt, set_data ino (file_resize c n) s).
Proof.
  intros Hf Hfd Ha Hn. assert (Hat : atomic s) by (unfold atomic; by rewrite Hf).
  destruct (sys_ftruncate_spec s Hat fd ino c acc app Hfd n Ha Hn) as [-> | (e & _ & Hfl & _)].
  - destruct s as [? ? ? fl]. cbn in *. by subst.
  - by destruct (not_faulty_nil _ Hf).
Qed.

Lemma pwrite_app_ok s fd ino c acc app d off :
  os_faults s = [] -> fd_file s fd ino c acc app -> acc <> O_RDONLY -> 0 <= off ->
  sys_pwrite fd d off s = (Ok (zlen d), set_data ino (file_write c d (if app then zlen c else off)) s).
Proof.
  intros Hf Hfd Ha Ho. assert (Hat : atomic s) by (unfold atomic; by rewrite Hf).
  destruct (sys_pwrite_spec s Hat fd ino c acc app Hfd d off Ha Ho) as [-> | (e & _ & Hfl & _)].
  - destruct s as [? ? ? fl]. cbn in *. by subst.
  - by destruct (not_faulty_nil _ Hf).
Qed.

Lemma plain_op_spec w fh mfd im main app o :
  plain_writer w fh mfd im main app -> wop_ok o ->
  run_op lock_ unlock_ (on_handle fh o) w
    = Some ((wop_exec app main o).1, set_os (set_data im (wop_exec app main o).2 (w_os w)) w).
Proof.
  intros [] Ho. destruct pl_file0 as (acc & Hfd & Hacc). assert (Eg : get_mfd fh w = Some (mfd, w)) by (unfold get_mfd; by rewrite pl_handle0).
  pose proof (mfd_validate_same lock_ unlock_ w mfd pl_number0) as Ev. pose proof (put_same w fh mfd pl_handle0) as Ep.
  destruct o as [buf off | n]; cbn [on_handle run_op wop_exec wop_ok fst snd] in *.
  - unfold esfs_write. unfold mbind at 1, ST_bind at 1. rewrite (st_bind_run _ _ _ _ _ Eg), pl_main0.
    rewrite (st_bind_run _ _ _ _ _ Ev), (st_bind_run _ _ _ _ _ Ep). cbn [Z.eqb negb].
    rewrite (st_bind_run _ _ _ _ _ (b_write_plain w mfd _ _ _ pl_dat0)), (st_bind_run _ _ _ _ _ Ep). cbn [Z.eqb negb].
    by rewrite (st_bind_run _ _ _ _ _ (sys_run _ _ _ _ (pwrite_app_ok (w_os w) _ im main acc app buf off pl_faults0 Hfd
         Hacc ltac:(lia)))).
  - unfold esfs_ftruncate. unfold mbind at 1, ST_bind at 1. rewrite (st_bind_run _ _ _ _ _ Eg).
    rewrite (st_bind_run _ _ _ _ _ Ev), (st_bind_run _ _ _ _ _ Ep). cbn [Z.eqb negb].
    rewrite (st_bind_run _ _ _ _ _ (b_truncate_plain w mfd _ _ pl_dat0)), (st_bind_run _ _ _ _ _ Ep). cbn [Z.eqb negb].
    by rewrite (st_bind_run _ _ _ _ _ (sys_run _ _ _ _ (ftruncate_ok (w_os w) _ im main acc app n pl_faults0 Hfd
         Hacc ltac:(lia)))).
Qed.

Lemma set_data_twice i a b s : set_data i b (set_data i a s) = set_data i b s.
Proof. unfold set_data, set_inodes. f_equal. cbn. rewrite alter_alter_eq. by apply alter_ext. Qed.

Lemma set_data_same s i c : regular s i c -> set_data i c s = s.
Proof.
  intros (m & Hi & _). destruct s as [n ino f fl]. unfold set_data, set_inodes. cbn in *. f_equal.
  apply map_eq. intros j. rewrite lookup_alter. case_decide; [subst; by rewrite Hi | done].
Qed.

Lemma plain_ops_spec fh mfd im app ops : forall w main,
  plain_writer w fh mfd im main app -> Forall wop_ok ops ->
  let '(outs, main') := wops_exec app main ops in
  run_ops lock_ unlock_ (on_handle fh <$> ops) w = Some (outs, set_os (set_data im main' (w_os w)) w).
Proof.
  induction ops as [| o ops IH]; intros w main H Hops; cbn [wops_exec].
  - cbn. rewrite (set_data_same _ _ main); [by destruct w |]. destruct H. destruct pl_file0 as (acc & Hfd & _). by apply fd_file_split in Hfd as [_ ?].
  - apply Forall_cons in Hops as [Ho Hops]. pose proof (plain_op_spec w fh mfd im main app o H Ho) as E.
    destruct (wop_exec app main o) as [out main1] eqn:E1. cbn [fst snd] in E.
    assert (H1 : plain_writer (set_os (set_data im main1 (w_os w)) w) fh mfd im main1 app).
    { destruct H. destruct pl_file0 as (acc & ? & ?). split; try done. exists acc. split; [cbn; by eapply fd_file_set_data | done]. }
    specialize (IH _ _ H1 Hops). destruct (wops_exec app main1 ops) as [outs main2].
    cbn [fmap list_fmap run_ops]. rewrite (st_bind_run _ _ _ _ _ E), (st_bind_run _ _ _ _ _ IH).
    cbn. by rewrite set_data_twice.
Qed.
End Plain.

(** ** Whole sessions *)

Section Session.
Context (lock_ unlock_ : Z -> M Z) {LS : LockService lock_ unlock_}.

(** Open or create, change, close: the results of all three. *)
Definition session_of (opener : M (Z * option Z)) (ops : list wop) : M (Z * list outcome * Z) :=
  '(r, fh) ← opener;
  match fh with
  | None => mret (r, [], 0)
  | Some fh =>
      outs ← run_ops lock_ unlock_ (on_handle fh <$> ops);
      c ← esfs_release fh;
      mret (r, outs, c)
  end.

Definition session (path : string) (flags : Z) : list wop -> M (Z * list outcome * Z) :=
  session_of (esfs_open lock_ unlock_ path flags).

Definition create_session (path : string) (mode flags : Z) : list wop -> M (Z * list outcome * Z) :=
  session_of (esfs_create lock_ unlock_ path mode flags).

Lemma session_run opener ops w fh w1 outs w2 w3 :
  opener w = Some ((0, Some fh), w1) -> run_ops lock_ unlock_ (on_handle fh <$> ops) w1 = Some (outs, w2) ->
  esfs_release fh w2 = Some (0, w3) -> session_of opener ops w = Some ((0, outs, 0), w3).
Proof.
  intros E1 E2 E3. unfold session_of. by rewrite (st_bind_run _ _ _ _ _ E1), (st_bind_run _ _ _ _ _ E2), (st_bind_run _ _ _ _ _ E3).
Qed.

(** What a session leaves of the three files, and of everything else. *)
Record session_post (w1 w' : world) (im ip id : nat) (old main' dat : list Z) (n : Z) : Prop := {
  sp_os : exists s2 x, w_os w' = set_fds x s2 /\ frame (the_files im ip id) (w_os w1) s2;
  sp_fs : fs_stable (w_fs w1) (w_fs w');
  sp_junk : w_junk_mfd w' = w_junk_mfd w1;
  sp_idle : lk_idle (mflocks (w_fs w'));
  sp_buffer : buffer_ok w';
  sp_faults : os_faults (w_os w') = [];
  sp_main : regular (w_os w') im main';
  sp_saved : exists map' dat', regular (w_os w') ip map' /\ regular (w_os w') id dat' /\ cow old main' map' dat' /\
    zlen dat' mod BL_S = 0 /\ zlen dat' <= zlen dat + n * (zlen old + 2 * BL_S)
}.

Lemma set_cache_fds mfd mfd' : same_mfd mfd mfd' -> sn_fds mfd' = sn_fds mfd /\ mainfd mfd' = mainfd mfd.
Proof.
  intros H. unfold sn_fds. by rewrite (f_equal datfd H : datfd mfd' = _), (f_equal mapfd H : mapfd mfd' = _), (f_equal mainfd H : mainfd mfd' = _).
Qed.

(** Changes and closing, on a file with its map and dat files. *)
Lemma session_saved opener w w1 fh im ip id old main map dat app ops :
  opener w = Some ((0, Some fh), w1) -> file_inv lock_ unlock_ im ip id old {[ fh := app ]} ∅ w1 main map dat ->
  os_faults (w_os w1) = [] -> Forall wop_ok ops -> room old dat (zlen ops) ->
  exists outs main' w', wops_exec app main ops = (outs, main') /\
    session_of opener ops w = Some ((0, outs, 0), w') /\ session_post w1 w' im ip id old main' dat (zlen ops).
Proof.
  intros Eo Hi Hf Hops Hroom.
  assert (Hzl : zlen (on_handle fh <$> ops) = zlen ops) by (unfold zlen; by rewrite length_fmap).
  destruct (run_ops_exact lock_ unlock_ im ip id old _ _ (on_handle fh <$> ops) w1 main map dat Hi
              (on_handle_ok fh _ ops Hops) ltac:(by rewrite Hzl) Hf)
    as (outs & w2 & main' & map' & dat' & E2 & Hi2 & [Hfr Hfs Hj] & Hlen & Ha).
  rewrite aexecs_wops in Ha. rewrite Hzl in Hlen. pose proof Hi2 as [].
  destruct (fi_writers fh _ (lookup_singleton_eq _ _)) as (mfd & Hm & []). destruct fi_distinct as (D1 & D2 & D3).
  destruct wo_mainfd as (acc & [p1 H1] & _), wo_mapfd as [p2 H2], wo_datfd as [p3 H3].
  assert (Hf2 : os_faults (w_os w2) = []) by by apply (fr_nofault _ _ _ Hfr).
  destruct (esfs_release_main w2 fh mfd Hf2 Hm wo_main) as [x Er]; [by eexists | | |].
  { intros _. split; [by eexists |]. intros E. rewrite E, H1 in H2. by injection H2. }
  { intros _. split; [by eexists |]. split; intros E; rewrite E in H3; [rewrite H1 in H3 | rewrite H2 in H3]; by injection H3. }
  eexists outs, main', _. split; [done |]. split; [by eapply session_run |].
  split; try done; [by exists (w_os w2), x |]. by exists map', dat'.
Qed.

(** Changes and closing, on a file with nothing to save: only its contents change. *)
Lemma session_plain opener w w1 fh mfd im main app ops :
  opener w = Some ((0, Some fh), w1) -> plain_writer w1 fh mfd im main app ->
  (0 <= mapfd mfd -> is_Some (os_fds (w_os w1) !! mapfd mfd) /\ mapfd mfd <> mainfd mfd) -> Forall wop_ok ops ->
  exists outs main' w' x, wops_exec app main ops = (outs, main') /\ session_of opener ops w = Some ((0, outs, 0), w') /\
    w_fs w' = w_fs w1 /\ w_junk_mfd w' = w_junk_mfd w1 /\ w_os w' = set_fds x (set_data im main' (w_os w1)).
Proof.
  intros Eo Hp Hmap Hops. pose proof (plain_ops_spec lock_ unlock_ fh mfd im app ops w1 main Hp Hops) as Er.
  destruct (wops_exec app main ops) as [outs main']. set (w2 := set_os (set_data im main' (w_os w1)) w1) in *. destruct Hp.
  destruct pl_file0 as (acc & [[pos Ho] _]%fd_file_split & _).
  destruct (esfs_release_main w2 fh mfd pl_faults0 pl_handle0 pl_main0) as [x Ec]; [by eexists | exact Hmap | lia |].
  eexists outs, main', _, x. split; [done |]. split; [by eapply session_run |]. done.
Qed.
End Session.
