(* ===== verification/HistoryNames.v ===== *)
(** The files of a history and the names the program gives them: every path
    that a session on one file touches is apart from the paths of all other
    files, in the main space and in every snapshot. *)

From S2P Require Import Prelude Posix PosixPath Types Util UtilTheorems UtilLocking Layout Tree.
From S2P Require Import Snapshot SnapshotTheorems SnapshotDestroy Mfd.

(** ** Names *)

(** A file of the main space: its directory and its name. *)
Definition fname : Type := path * string.
Definition full (f : fname) : path := f.1 ++ [f.2].
Definition inpath (f : fname) : string := join_path (full f).

(** Proper components, outside [/snapshots], and no directory on the way
    that is called like a map or dat file. *)
Definition name_ok (f : fname) : Prop :=
  Forall comp_ok (full f) /\ is_path_in_sn (inpath f) = false /\ Forall (fun x => mfd_filter_name x = 1) f.1.

#[global] Instance name_ok_dec f : Decision (name_ok f).
Proof. unfold name_ok. apply _. Defined.

Definition map_name (R : path) (id : string) (f : fname) : path := sn_file R id f.1 f.2 EXT_MAP.
Definition dat_name (R : path) (id : string) (f : fname) : path := sn_file R id f.1 f.2 EXT_DAT.

(** The real paths of the file in the main space and in a snapshot fit their buffers. *)
Definition main_fits (R : path) (f : fname) : Prop := strlen (join_path R) + strlen (inpath f) < PATH_MAX.
Definition fits (R : path) (f : fname) (id : string) : Prop := strlen (sn_path R id) + strlen (inpath f) + EXT_LEN < PATH_MAX.

Lemma name_ok_parts f : name_ok f -> Forall comp_ok f.1 /\ comp_ok f.2.
Proof. intros (H & _). apply Forall_app in H as [? [? _]%Forall_cons]. done. Qed.

Lemma full_inj f g : full f = full g -> f = g.
Proof. destruct f, g. unfold full. cbn. intros [-> ->]%app_inj_tail. done. Qed.

(** *** Extensions *)

Lemma filter_ext x e : x <> "" -> strlen e = EXT_LEN -> e = EXT_MAP \/ e = EXT_DAT -> mfd_filter_name (x +:+ e) <> 1.
Proof.
  intros Hx He Hc. unfold mfd_filter_name. rewrite strlen_app, He.
  pose proof (strlen_nonempty x Hx). destruct (Z.leb_spec (strlen x + EXT_LEN) EXT_LEN); [lia |].
  replace (strlen x + EXT_LEN - EXT_LEN) with (strlen x) by lia. unfold strlen. rewrite Nat2Z.id, str_from_app.
  by destruct Hc as [-> | ->].
Qed.

Lemma ext_apart c c' e e' : strlen e = strlen e' -> c +:+ e = c' +:+ e' -> c = c' /\ e = e'.
Proof.
  intros He E. assert (Hl : String.length c = String.length c').
  { apply (f_equal strlen) in E. rewrite !strlen_app in E. unfold strlen in *. lia. }
  assert (E' : e = e') by (rewrite <-(str_from_app c e), E, Hl; apply str_from_app).
  split; [| done]. subst. by eapply ext_inj.
Qed.

(** The names of files in snapshots, taken apart. *)
Lemma sn_file_inj R id id' C C' c c' e e' :
  strlen e = strlen e' -> sn_file R id C c e = sn_file R id' C' c' e' -> id = id' /\ C = C' /\ c = c' /\ e = e'.
Proof.
  intros He. unfold sn_file, sn_root. rewrite <-!app_assoc. intros E%app_inv_head. cbn in E. injection E as -> E.
  apply app_inj_tail in E as [-> E]. by destruct (ext_apart _ _ _ _ He E).
Qed.

Lemma sn_file_below R id id' C C' c e :
  sn_file R id' C' c e `prefix_of` sn_root R id ++ C -> id' = id /\ c +:+ e ∈ C.
Proof.
  unfold sn_file, sn_root. intros [r E]. rewrite <-!app_assoc in E. apply app_inv_head in E. cbn in E. injection E as <- E.
  split; [done |]. rewrite E. apply elem_of_app. right. apply list_elem_of_here.
Qed.

(** ** What a session on [f] touches with [id] as the latest snapshot *)

Definition session_at (R : path) (id : string) (f : fname) (p : path) : Prop :=
  p = R ++ full f \/ p = map_name R id f \/ p = dat_name R id f \/ p `prefix_of` sn_root R id ++ f.1.

(** A path of the main space is not in [/snapshots]. *)
Lemma main_head f R id C : name_ok f -> R ++ full f `prefix_of` sn_root R id ++ C -> False.
Proof.
  intros (Hok & Hsn & _). unfold sn_root. rewrite <-app_assoc. intros [r E]. rewrite <-app_assoc in E.
  apply app_inv_head in E. cbn in E. unfold inpath in Hsn. destruct (full f) as [| a l] eqn:Ef; [by destruct f as [[] ?] |].
  injection E as <- E. by destruct l.
Qed.

Lemma main_not_in_sn f R id : name_ok f -> sn_root R id `prefix_of` R ++ full f -> False.
Proof.
  intros (_ & Hsn & _). unfold sn_root. intros [r E]. rewrite <-app_assoc in E. apply app_inv_head in E. cbn in E.
  unfold inpath in Hsn. rewrite E in Hsn. done.
Qed.

(** Nor is any entry of its directory. *)
Lemma main_dir_not_sn f x id q : name_ok f -> f.1 ++ [x] = "snapshots" :: id :: q -> False.
Proof.
  intros Hf E. destruct f as [C c]. cbn in E. destruct C as [| a C]; [done |]. injection E as -> E.
  destruct (C ++ [c]) as [| y r] eqn:Ec; [by destruct C |].
  apply (main_not_in_sn ("snapshots" :: C, c) [] y Hf). exists r. unfold sn_root, full. cbn. by rewrite Ec.
Qed.

Lemma main_not_sn_file f R id C c e : name_ok f -> R ++ full f <> sn_file R id C c e.
Proof.
  intros H E. apply (main_not_in_sn f R id H). rewrite E. unfold sn_file. by apply prefix_app_r.
Qed.

Lemma main_outside R id f g : name_ok g -> g <> f -> ~ session_at R id f (R ++ full g).
Proof.
  intros Hg Hne [E | [E | [E | E]]].
  - apply app_inv_head, full_inj in E. done.
  - by eapply main_not_sn_file.
  - by eapply main_not_sn_file.
  - by eapply main_head.
Qed.

Lemma sn_file_outside R id id' f g e :
  name_ok f -> name_ok g -> e = EXT_MAP \/ e = EXT_DAT -> (id', g) <> (id, f) -> ~ session_at R id f (sn_file R id' g.1 g.2 e).
Proof.
  intros Hf Hg He Hne [E | [E | [E | E]]].
  - by eapply eq_sym, main_not_sn_file in E.
  - apply sn_file_inj in E as (-> & ? & ? & _); [| by destruct He as [-> | ->]].
    apply Hne. f_equal. destruct f, g. cbn in *. congruence.
  - apply sn_file_inj in E as (-> & ? & ? & _); [| by destruct He as [-> | ->]].
    apply Hne. f_equal. destruct f, g. cbn in *. congruence.
  - apply sn_file_below in E as [_ Hin]. destruct Hf as (_ & _ & Hf). rewrite Forall_forall in Hf.
    destruct (name_ok_parts g Hg) as [_ [Hc _]]. eapply (filter_ext g.2 e Hc); [by destruct He as [-> | ->] | done | by apply Hf].
Qed.

(** Directories of the snapshots stay directories: what a session may put on
    the way to a file is only a directory. *)
Lemma way_outside R id id' f g p :
  name_ok f -> name_ok g -> p `prefix_of` sn_root R id' ++ g.1 -> session_at R id f p -> p `prefix_of` sn_root R id ++ f.1.
Proof.
  intros Hf Hg Hp [-> | [-> | [-> | E]]]; [by destruct (main_head f R id' g.1) | | | done]; exfalso;
    apply sn_file_below in Hp as [_ Hin]; destruct Hg as (_ & _ & Hg); rewrite Forall_forall in Hg;
    destruct (name_ok_parts f Hf) as [_ [Hc _]].
  - by apply (filter_ext f.2 EXT_MAP Hc); [| by left | apply Hg].
  - by apply (filter_ext f.2 EXT_DAT Hc); [| by right | apply Hg].
Qed.
