(* ===== verification/History.v ===== *)
(** Histories of a whole file system: files of the main space are created,
    written in sessions, truncated and removed, snapshots are taken and
    removed, and files are read in snapshots, in any order.  The abstract
    system keeps, for every file, its contents and what they were at each
    snapshot, [None] standing for a file that is missing; [hist_inv] relates
    it to the disk. *)

From S2P Require Import Prelude Posix PosixSpec PosixPath Types Util UtilTheorems Mflock UtilLocking Layout Tree.
From S2P Require Import Snapshot SnapshotTheorems SnapshotDestroy Block CopyOnWrite BlockWrite BlockRead Mfd SnSteps.
From S2P Require Import FuseFd SnapshotIsolation FusePath MfdTheorems SnStepsTheorems Survival.
From S2P Require Import Reopen Sessions HistoryNames.

(** ** The abstract state *)

(** A file: its contents, a bound for the room its dat file in the latest
    snapshot takes, and its contents at the snapshots, the latest first. *)
Record fentry := FEntry { fe_main : option (list Z); fe_used : Z; fe_views : list (option (list Z)) }.

Record hstate := HState { h_ids : list string; h_files : gmap fname fentry }.

(** ** Its counterpart on disk *)

(** A file of the main space: there with its contents, or missing. *)
Definition main_is (s : os) (p : path) (v : option (list Z)) : Prop :=
  match v with
  | Some c => exists im m, entry_at s p = Some (im, Inode m c) /\ S_ISDIR (st_mode m) = false /\
      stat_wf (stat_of im (Inode m [])) /\ zlen c < 2 ^ 61
  | None => entry_at s p = None
  end.

(** What the snapshot [id] has for a file that was [v], and is [v'] in the
    next one: nothing, the two files of the copy-on-write invariant, or a map
    file that says that the file was missing. *)
Definition step_view (R : path) (s : os) (id : string) (f : fname) (v v' : option (list Z)) : Prop :=
  (node_at s (map_name R id f) = None /\ node_at s (dat_name R id f) = None /\ v = v') \/
  (exists c map dat, v = Some c /\ file_is s (map_name R id f) map /\ file_is s (dat_name R id f) dat /\
     cow c (contents v') map dat /\ zlen dat mod BL_S = 0) \/
  (exists map, v = None /\ file_is s (map_name R id f) map /\ gone_map map /\ node_at s (dat_name R id f) = None).

(** A file that was empty at a snapshot is not recorded there. *)
Definition view_ok (v : option (list Z)) : Prop := match v with Some c => 0 < zlen c < 2 ^ 61 | None => True end.

Record file_hist (R : path) (s : os) (ids : list string) (f : fname) (e : fentry) : Prop := {
  fh_main : main_is s (R ++ full f) (fe_main e);
  fh_parent : is_dir s (R ++ f.1);
  fh_len : length (fe_views e) = length ids;
  fh_views : Forall view_ok (fe_views e);
  fh_steps : forall k id v v', ids !! k = Some id -> fe_views e !! k = Some v -> (fe_main e :: fe_views e) !! k = Some v' ->
    step_view R s id f v v';
  fh_used : forall id dat, head ids = Some id -> file_is s (dat_name R id f) dat -> zlen dat <= fe_used e;
  fh_nonneg : 0 <= fe_used e;
  fh_clear : forall id, id ∈ ids -> clear_path s (sn_root R id ++ f.1);
  fh_plain : forall id, id ∈ ids -> ~ is_dir s (sn_root R id ++ full f)
}.

(** What a snapshot may have below its root: directories on the way to a file
    of the history, its map file and its dat file. *)
Definition known (files : gmap fname fentry) (p : path) : Prop :=
  p = [] \/ exists f, is_Some (files !! f) /\
    (p `prefix_of` f.1 \/ p = f.1 ++ [f.2 +:+ EXT_MAP] \/ p = f.1 ++ [f.2 +:+ EXT_DAT]).

(** The entries of the directories of the files have paths that fit a buffer. *)
Definition short_in (R : path) (s : os) (f : fname) : Prop :=
  forall x, x = ".." \/ is_Some (node_at s (R ++ f.1 ++ [x])) -> strlen (join_path (R ++ f.1)) + 1 + strlen x < PATH_MAX.

Record hist_inv (R : path) (w : world) (h : hstate) : Prop := {
  hv_sns : snapshots_ok w R (h_ids h);
  hv_buffer : buffer_ok w;
  hv_junk : junk_ok (w_junk_mfd w);
  hv_entries : forall x, is_Some (node_at (w_os w) (R ++ ["snapshots"; x])) ->
    x = EXT_HID \/ x ∈ h_ids h \/ exists id, id ∈ h_ids h /\ x = id +:+ EXT_HID;
  hv_names : forall f e, h_files h !! f = Some e -> name_ok f /\ main_fits R f /\ Forall (fits R f) (h_ids h);
  hv_files : forall f e, h_files h !! f = Some e -> file_hist R (w_os w) (h_ids h) f e;
  hv_known : forall id p, id ∈ h_ids h -> is_Some (node_at (w_os w) (sn_root R id ++ p)) -> known (h_files h) p;
  hv_short : forall f, is_Some (h_files h !! f) -> short_in R (w_os w) f
}.

(** ** Moving the invariant of a file *)

Lemma main_is_move s s' p v : entry_at s' p = entry_at s p -> main_is s p v -> main_is s' p v.
Proof. unfold main_is. intros ->. done. Qed.

Lemma main_not_dir s p v : main_is s p v -> ~ is_dir s p.
Proof.
  intros H (n & Hn & Hd). rewrite node_entry in Hn. destruct v as [c |]; cbn in H.
  - destruct H as (im & m & E & Hr & _). rewrite E in Hn. injection Hn as <-. unfold i_isdir in Hd. cbn [i_meta] in Hd. congruence.
  - by rewrite H in Hn.
Qed.

Lemma step_view_move R s s' id f v v' :
  node_at s' (map_name R id f) = node_at s (map_name R id f) -> node_at s' (dat_name R id f) = node_at s (dat_name R id f) ->
  step_view R s id f v v' -> step_view R s' id f v v'.
Proof. unfold step_view, file_is. intros -> ->. done. Qed.

Lemma clear_path_move s s' p :
  (forall q, q `prefix_of` p -> node_at s' q = node_at s q \/ node_at s' q = None \/ is_dir s' q) ->
  clear_path s p -> clear_path s' p.
Proof.
  intros H Hc q Hq. destruct (H q Hq) as [E | [E | E]]; [| by left | by right].
  destruct (Hc q Hq) as [E' | (n & Hn & Hd)]; [left; congruence | right]. exists n. split; [congruence | done].
Qed.

(** A file none of whose paths is touched; the snapshots may become fewer. *)
Lemma file_hist_move R s s' ids f e :
  entry_at s' (R ++ full f) = entry_at s (R ++ full f) -> (is_dir s (R ++ f.1) -> is_dir s' (R ++ f.1)) ->
  (forall id, id ∈ ids -> node_at s' (map_name R id f) = node_at s (map_name R id f) /\
     node_at s' (dat_name R id f) = node_at s (dat_name R id f)) ->
  (forall id, id ∈ ids -> clear_path s (sn_root R id ++ f.1) -> clear_path s' (sn_root R id ++ f.1)) ->
  (forall id, id ∈ ids -> ~ is_dir s (sn_root R id ++ full f) -> ~ is_dir s' (sn_root R id ++ full f)) ->
  file_hist R s ids f e -> file_hist R s' ids f e.
Proof.
  intros Hm Hd Hn Hc Hp []. split; try done.
  - by eapply main_is_move.
  - by apply Hd.
  - intros k id v v' Hid Hv Hv'. destruct (Hn id) as [E1 E2]; [by apply list_elem_of_lookup_2 in Hid |].
    eapply step_view_move; [done | done | by eapply fh_steps0].
  - intros id dat Hid Hdat. apply (fh_used0 id); [done |]. destruct (Hn id) as [_ E2].
    { destruct ids; [done |]. injection Hid as ->. apply list_elem_of_here. }
    unfold file_is in *. by rewrite <-E2.
  - intros id Hid. apply Hc; [done | by apply fh_clear0].
  - intros id Hid. apply Hp; [done | by apply fh_plain0].
Qed.

(** ** The names that the program computes *)

Section Computed.
Context (R : path) (HR : Forall comp_ok R).

Lemma full_string f : join_path R +:+ inpath f = join_path (R ++ full f).
Proof. by rewrite join_app. Qed.

Lemma map_path_main fs ids f : layout fs R ids -> main_fits R f -> map_path (inpath f) fs = Ok (join_path (R ++ full f)).
Proof.
  intros [_ _ _ Hr Hl _] Hf. unfold map_path, main_fits in *. pose proof (strlen_nonneg (join_path R)).
  pose proof (strlen_nonneg (inpath f)). rewrite Hl, Hr, u64_path by lia.
  destruct (Z.ltb_spec (strlen (inpath f)) (PATH_MAX - strlen (join_path R))); [| lia]. by rewrite strncpy_all, full_string.
Qed.

Lemma sn_string id f e : sn_path R id +:+ inpath f +:+ e = join_path (sn_file R id f.1 f.2 e).
Proof. apply sn_file_string. Qed.

Lemma map_prefix_sn id f : fits R f id ->
  get_map_prefix_path (inpath f) (sn_path R id) (strlen (sn_path R id)) = Ok (join_path (map_name R id f)).
Proof.
  intros Hf. unfold get_map_prefix_path, fits in *. pose proof (strlen_nonneg (sn_path R id)). pose proof (strlen_nonneg (inpath f)).
  unfold EXT_LEN in *. rewrite u64_path by lia.
  destruct (Z.ltb_spec (strlen (inpath f)) (PATH_MAX - 4 - strlen (sn_path R id))); [| lia]. by rewrite strncpy_all, sn_string.
Qed.

Lemma dat_prefix_sn id f : fits R f id ->
  get_dat_prefix_path (inpath f) (sn_path R id) (strlen (sn_path R id)) = Ok (join_path (dat_name R id f)).
Proof.
  intros Hf. unfold get_dat_prefix_path, fits in *. pose proof (strlen_nonneg (sn_path R id)). pose proof (strlen_nonneg (inpath f)).
  unfold EXT_LEN in *. rewrite u64_path by lia.
  destruct (Z.ltb_spec (strlen (inpath f)) (PATH_MAX - 4 - strlen (sn_path R id))); [| lia]. by rewrite strncpy_all, sn_string.
Qed.

Lemma map_path_sn id f : fits R f id -> get_map_path (sn_path R id +:+ inpath f) = Ok (join_path (map_name R id f)).
Proof.
  intros Hf. unfold get_map_path, fits in *. rewrite strlen_app, u64_path by (unfold EXT_LEN, PATH_MAX; lia).
  destruct (Z.ltb_spec (strlen (sn_path R id) + strlen (inpath f)) (PATH_MAX - EXT_LEN)); [| lia]. by rewrite string_app_assoc, sn_string.
Qed.

Lemma dat_path_sn id f : fits R f id -> get_dat_path (sn_path R id +:+ inpath f) = Ok (join_path (dat_name R id f)).
Proof.
  intros Hf. unfold get_dat_path, fits in *. rewrite strlen_app, u64_path by (unfold EXT_LEN, PATH_MAX; lia).
  destruct (Z.ltb_spec (strlen (sn_path R id) + strlen (inpath f)) (PATH_MAX - EXT_LEN)); [| lia]. by rewrite string_app_assoc, sn_string.
Qed.

Context (f : fname) (Hf : name_ok f) (id : string) (Hid : comp_ok id).

Lemma main_comps : Forall comp_ok (R ++ full f).
Proof using HR Hf. apply Forall_app. split; [done | apply Hf]. Qed.

Lemma sn_file_comps e : no_slash e = true -> 2 < strlen e -> Forall comp_ok (sn_file R id f.1 f.2 e).
Proof using HR Hf Hid.
  intros He Hl. destruct (name_ok_parts f Hf) as [HC Hc]. unfold sn_file, sn_root.
  repeat (apply Forall_app; split); [done | | done |].
  - constructor; [by vm_compute | by constructor].
  - constructor; [by apply comp_ok_ext | done].
Qed.

Lemma map_comps : Forall comp_ok (map_name R id f).
Proof using HR Hf Hid. by apply sn_file_comps. Qed.

Lemma dat_comps : Forall comp_ok (dat_name R id f).
Proof using HR Hf Hid. by apply sn_file_comps. Qed.
End Computed.

(** ** What the handlers do to the tree *)

(** The paths of [f] that a request on [f] may change. *)
Definition touched (R : path) (ids : list string) (f : fname) (p : path) : Prop :=
  match ids with id0 :: _ => session_at R id0 f p | [] => p = R ++ full f end.

Definition files_at (R : path) (ids : list string) (f : fname) (p : path) : Prop :=
  p = R ++ full f \/ exists id0, head ids = Some id0 /\ (p = map_name R id0 f \/ p = dat_name R id0 f).

(** A tree in which [f] can be worked on. *)
Record tree_ok (R : path) (ids : list string) (f : fname) (s : os) : Prop := {
  tr_wf : os_wf s;
  tr_faults : os_faults s = [];
  tr_clear : forall id0, head ids = Some id0 -> clear_path s (sn_root R id0 ++ f.1);
  tr_files : forall id0, head ids = Some id0 -> ~ is_dir s (map_name R id0 f) /\ ~ is_dir s (dat_name R id0 f)
}.

(** What a request on [f] may do to the tree. *)
Record tree_step (R : path) (ids : list string) (f : fname) (s s' : os) : Prop := {
  ts_ok : tree_ok R ids f s';
  ts_same : same_but (touched R ids f) s s';
  ts_dirs : forall p, is_dir s p -> is_dir s' p
}.

Lemma same_but_trans T s1 s2 s3 : same_but T s1 s2 -> same_but T s2 s3 -> same_but T s1 s3.
Proof. intros H1 H2 p Hp. by rewrite H2, H1. Qed.

Lemma tree_step_refl R ids f s : tree_ok R ids f s -> tree_step R ids f s s.
Proof. by split. Qed.

Lemma tree_step_trans R ids f s1 s2 s3 : tree_step R ids f s1 s2 -> tree_step R ids f s2 s3 -> tree_step R ids f s1 s3.
Proof. intros [] []. split; [done | by eapply same_but_trans | auto]. Qed.

Lemma files_touched R ids f p : files_at R ids f p -> touched R ids f p.
Proof. unfold files_at, touched, session_at. destruct ids; cbn; [intros [? | (? & ? & _)]; done |]. intros [? | (? & [= <-] & [? | ?])]; auto. Qed.

(** The way to the files of the snapshot passes by none of the files. *)
Lemma files_off_way R ids f id0 q : name_ok f -> head ids = Some id0 -> q `prefix_of` sn_root R id0 ++ f.1 -> ~ files_at R ids f q.
Proof.
  intros Hf Hid Hq [-> | (id & E & [-> | ->])]; [by apply (main_head f R id0 f.1) | |]; rewrite Hid in E; injection E as <-;
    apply prefix_length in Hq; unfold map_name, dat_name in Hq; rewrite length_sn_file in Hq; unfold sn_root in Hq; rewrite !length_app in Hq; cbn in Hq; lia.
Qed.

(** Steps that change the files alone. *)
Lemma tree_step_files R ids f s s' :
  name_ok f -> tree_ok R ids f s -> os_wf s' -> os_faults s' = [] -> same_but (files_at R ids f) s s' ->
  (forall p, files_at R ids f p -> is_dir s' p -> is_dir s p) -> (forall p, is_dir s p -> is_dir s' p) -> tree_step R ids f s s'.
Proof.
  intros Hf [] Hwf Hfl Hs Hb Hd. assert (Hsame : same_but (touched R ids f) s s').
  { intros p Hp. apply Hs. intros H. by apply Hp, files_touched. }
  split; [split; try done | done | done].
  - intros id0 Hid q Hq. destruct (tr_clear0 id0 Hid q Hq) as [E | E]; [left | right; by apply Hd].
    by rewrite (same_but_node _ _ _ _ Hs (files_off_way R ids f id0 q Hf Hid Hq)).
  - intros id0 Hid. destruct (tr_files0 id0 Hid) as [H1 H2]. split; intros H.
    + apply H1, Hb; [right; exists id0; auto | done].
    + apply H2, Hb; [right; exists id0; auto | done].
Qed.

(** Descriptors. *)
Lemma tree_step_same R ids f s s' :
  os_names s' = os_names s -> os_inodes s' = os_inodes s -> os_faults s' = [] -> tree_ok R ids f s -> tree_step R ids f s s'.
Proof.
  intros En Ei Hfl Hok. assert (He : forall p, entry_at s' p = entry_at s p) by (intros p; unfold entry_at; by rewrite En, Ei).
  assert (Hn : forall p, node_at s' p = node_at s p) by (intros p; by rewrite !node_entry, He).
  assert (Hd : forall p, is_dir s' p <-> is_dir s p) by (intros p; unfold is_dir; by rewrite Hn).
  destruct Hok. split; [split | |].
  - by eapply os_wf_same.
  - done.
  - intros id0 Hid. apply (clear_path_move s); [by left | by apply tr_clear0].
  - intros id0 Hid. rewrite !Hd. by apply tr_files0.
  - intros p _. apply He.
  - intros p. by rewrite Hd.
Qed.

(** Contents, when only inodes of the files change. *)
Lemma frame_dir_back touch s s' p : frame touch s s' -> is_dir s' p -> is_dir s p.
Proof.
  intros H (n & (i & Hi & Hn)%node_at_Some & Hd). rewrite (fr_names _ _ _ H) in Hi. pose proof (fr_meta _ _ _ H i) as E.
  rewrite Hn in E. destruct (os_inodes s !! i) as [n' |] eqn:En; [| done]. injection E as E. exists n'.
  split; [apply node_at_Some; eauto |]. unfold i_isdir in *. by rewrite <-E.
Qed.

Lemma tree_step_frame R ids f touch s s' :
  name_ok f -> tree_ok R ids f s -> frame touch s s' ->
  (forall i, touch i -> exists p, os_names s !! p = Some i /\ files_at R ids f p) -> tree_step R ids f s s'.
Proof.
  intros Hf Hok Hfr Ht. pose proof Hok as []. apply tree_step_files; try done.
  - by eapply os_wf_frame.
  - by apply (fr_nofault _ _ _ Hfr).
  - intros p Hp. apply (frame_same_but _ _ _ Hfr). intros (i & Hi & Hti). destruct (Ht i Hti) as (q & Hq & Hq').
    by rewrite (wf_inj _ tr_wf0 _ _ i Hi Hq) in Hp.
  - intros p _. by eapply frame_dir_back.
  - intros p. by eapply frame_is_dir.
Qed.

(** A new file. *)
Lemma created_file_is s s' p i c : created s s' p i c -> file_is s' p c.
Proof. intros []. destruct cr_file as (_ & Hn & m & Hi & Hr). exists m. split; [| done]. apply node_at_Some. eauto. Qed.

Lemma tree_step_created R ids f s s' p i c :
  name_ok f -> tree_ok R ids f s -> created s s' p i c -> Forall comp_ok p -> os_names s !! p = None -> files_at R ids f p ->
  tree_step R ids f s s'.
Proof.
  intros Hf Hok Hc Hp Hnone Hat. pose proof Hok as []. destruct (cr_tree _ _ _ _ _ Hc tr_wf0 Hp) as [Hwf Hs].
  assert (Hback : forall q, is_dir s' q -> is_dir s q).
  { intros q Hq. destruct (decide (q = p)) as [-> | Hne]; [by destruct (is_dir_not_file _ _ _ Hq (created_file_is _ _ _ _ _ Hc)) |].
    destruct Hq as (n & Hn & Hd). exists n. by rewrite <-(same_but_node _ _ _ _ Hs (not_eq_sym Hne)). }
  apply tree_step_files; try done.
  - apply Hc.
  - intros q Hq. apply Hs. by intros <-.
  - auto.
  - intros q Hq. eapply same_but_dir; [done | | done]. intros <-. destruct Hq as (n & (j & Hj & _)%node_at_Some & _). congruence.
Qed.

Lemma dir_clear s p : os_wf s -> is_dir s p -> clear_path s p.
Proof.
  intros Hwf. induction p as [| c p IH] using rev_ind; intros Hd q Hq.
  - apply prefix_nil_inv in Hq as ->. by right.
  - destruct (prefix_snoc _ _ _ Hq) as [-> | Hq']; [by right |]. apply IH; [| done]. destruct Hd as (n & Hn & _). by eapply wf_up.
Qed.

(** The directories on the way to the files in the latest snapshot. *)
Lemma tree_step_made R id0 ids f s s' :
  tree_ok R (id0 :: ids) f s -> made_dirs (sn_root R id0 ++ f.1) s s' -> tree_step R (id0 :: ids) f s s'.
Proof.
  intros [] Hmd. pose proof (made_dirs_same _ _ _ Hmd) as Hs.
  assert (Hlen : forall e, ~ sn_file R id0 f.1 f.2 e `prefix_of` sn_root R id0 ++ f.1).
  { intros e Hq. apply prefix_length in Hq. rewrite length_sn_file in Hq. unfold sn_root in Hq. rewrite !length_app in Hq. cbn in Hq. lia. }
  assert (Hback : forall e, is_dir s' (sn_file R id0 f.1 f.2 e) -> is_dir s (sn_file R id0 f.1 f.2 e)).
  { intros e (n & Hn & Hd). exists n. by rewrite <-(same_but_node _ _ _ _ Hs (Hlen e)). }
  split; [split | |].
  - apply Hmd.
  - apply Hmd.
  - intros id [= <-]. apply dir_clear; apply Hmd.
  - intros id [= <-]. destruct (tr_files0 id0 eq_refl) as [H1 H2]. split; intros H; apply Hback in H; [by apply H1 | by apply H2].
  - intros p Hp. apply Hs. intros Hq. apply Hp. cbn. unfold session_at. auto.
  - intros p. by eapply made_dirs_is_dir.
Qed.

(** The entries of [/snapshots] other than the latest snapshot. *)
Lemma entry_touched R ids f x : name_ok f -> touched R ids f (R ++ ["snapshots"; x]) -> x ∈ ids.
Proof.
  intros Hf. assert (Hmain : R ++ ["snapshots"; x] <> R ++ full f).
  { intros E. apply (main_not_in_sn f R x Hf). rewrite <-E. done. }
  destruct ids as [| id0 ids]; cbn; [done |].
  assert (Hsn : forall e, R ++ ["snapshots"; x] <> sn_file R id0 f.1 f.2 e).
  { intros e E. apply (f_equal length) in E. rewrite length_sn_file, length_app in E. cbn in E. lia. }
  intros [E | [E | [E | [r E]]]]; [done | by apply Hsn in E | by apply Hsn in E |].
  unfold sn_root in E. rewrite <-!app_assoc in E. apply app_inv_head in E. cbn in E. injection E as -> _. apply list_elem_of_here.
Qed.

Lemma hid_untouched R ids f x : name_ok f -> Forall shown ids -> ~ touched R ids f (R ++ ["snapshots"; x +:+ EXT_HID]).
Proof.
  intros Hf Hs H. apply entry_touched in H; [| done]. rewrite Forall_forall in Hs. apply Hs in H. by apply hid_not_shown in H.
Qed.

(** *** The chain of snapshots *)

Lemma entry_file_at s s' p i c : os_wf s' -> entry_at s' p = entry_at s p -> file_at s p i c -> file_at s' p i c.
Proof.
  intros Hwf E (_ & Hn & m & Hi & Hr). rewrite (proj2 (entry_at_Some s p i (Inode m c))) in E by done.
  pose proof E as [Hn' Hi']%entry_at_Some. split; [| split; [done | by exists m]].
  eapply node_walk; [done |]. apply node_at_Some. eauto.
Qed.

Lemma entry_absent s s' p c : os_wf s -> os_wf s' -> entry_at s' (p ++ [c]) = entry_at s (p ++ [c]) -> is_dir s' p ->
  absent_at s (p ++ [c]) -> absent_at s' (p ++ [c]).
Proof.
  intros Hwf Hwf' E Hd [_ Hn]. apply wf_absent_at; [done | done |]. apply (wf_none _ Hwf) in Hn. by rewrite node_entry, E, <-node_entry.
Qed.

Lemma chain_move R s s' fs fs' ids :
  layout fs R ids -> os_wf s -> os_wf s' -> is_dir s' (R ++ ["snapshots"]) -> sn_dir fs' = sn_dir fs ->
  (forall x, entry_at s' (R ++ ["snapshots"; x +:+ EXT_HID]) = entry_at s (R ++ ["snapshots"; x +:+ EXT_HID])) ->
  chain s fs (sn_path R <$> ids) -> chain s' fs' (sn_path R <$> ids).
Proof.
  intros Hl Hwf Hwf' Hd Ed He (hid & Eh & H). exists hid. rewrite Ed. split; [done |].
  pose proof (ly_R _ _ _ Hl) as HR. rewrite (resolve_latest R HR _ _ _ Hl Eh) in *.
  assert (Habs : forall x, absent_at s (R ++ ["snapshots"; x +:+ EXT_HID]) -> absent_at s' (R ++ ["snapshots"; x +:+ EXT_HID])).
  { intros x. specialize (He x). rewrite entry_split in *. by apply entry_absent. }
  assert (Hfile : forall x i c, file_at s (R ++ ["snapshots"; x +:+ EXT_HID]) i c -> file_at s' (R ++ ["snapshots"; x +:+ EXT_HID]) i c).
  { intros x i c. by apply entry_file_at. }
  destruct ids as [| id0 ids]; [by apply (Habs "") |]. destruct H as (il & Hat & Hp). exists il. split; [by apply (Hfile "") |].
  pose proof (ly_ids _ _ _ Hl) as Hids. clear Hl Hat. revert id0 Hp Hids.
  induction ids as [| id ids IH]; intros id0 (Hp & hid0 & Eh0 & H) [Hid Hids]%Forall_cons; (split; [done |]); exists hid0;
    (split; [done |]); rewrite (resolve_hid R HR _ _ Hid Eh0) in *.
  - by apply Habs.
  - destruct H as [(ino & Hat & Hne) Hr]. split; [exists ino; split; [by apply Hfile | done] | by apply IH].
Qed.

(** *** The invariant after a session *)

Lemma fs_stable_layout f f' R ids : fs_stable f f' -> layout f R ids -> layout f' R ids.
Proof.
  intros Hs []. destruct (fs_stable_fields _ _ Hs) as (E1 & E2 & E3 & _). split; rewrite ?E1, ?E2, ?E3; congruence.
Qed.

Lemma fs_stable_latest f f' sns : fs_stable f f' -> fs_latest f sns -> fs_latest f' sns.
Proof.
  intros Hs. destruct (fs_stable_fields _ _ Hs) as (_ & _ & _ & E1 & E2 & E3). unfold fs_latest.
  destruct sns; by rewrite ?E1, ?E2, ?E3.
Qed.

Lemma snapshots_ok_session R w w' ids f :
  snapshots_ok w R ids -> name_ok f -> tree_step R ids f (w_os w) (w_os w') ->
  fs_stable (w_fs w) (w_fs w') -> idle_table (mflocks (w_fs w')) -> snapshots_ok w' R ids.
Proof.
  intros [] Hf [[] Hsame Hdirs] Hfs Hidle. split; try done.
  - by eapply fs_stable_layout.
  - apply (chain_move R (w_os w) (w_os w') (w_fs w)); [done | done | done | by apply Hdirs | by apply (fs_stable_fields _ _ Hfs) | | done].
    intros x. apply Hsame. by apply hid_untouched.
  - by eapply fs_stable_latest.
  - by apply Hdirs.
  - eapply Forall_impl; [done |]. intros id Hd. by apply Hdirs.
Qed.

(** The directories that a request on [f] makes are on the way to [f], where
    no file of the main space is. *)
Lemma session_no_dir R ids f g e s s' id :
  name_ok f -> os_wf s -> is_dir s (R ++ f.1) -> tree_step R ids f s s' ->
  file_hist R s ids g e -> id ∈ ids -> ~ is_dir s' (sn_root R id ++ full g).
Proof.
  intros Hf Hwf Hup [[] Hsame _] [] Hid. destruct ids as [| id0 ids]; [by apply not_elem_of_nil in Hid |].
  assert (Hold : ~ touched R (id0 :: ids) f (sn_root R id ++ full g) -> ~ is_dir s' (sn_root R id ++ full g)).
  { intros Ht (n' & Hn & Hd). rewrite (same_but_node _ _ _ _ Hsame Ht) in Hn. apply (fh_plain0 id Hid). by exists n'. }
  intros Hd. refine (Hold _ Hd). intros [E | [E | [E | [r E]]]].
  - apply (main_head f R id (full g) Hf). by rewrite E.
  - rewrite E in Hd. exact (proj1 (tr_files0 id0 eq_refl) Hd).
  - rewrite E in Hd. exact (proj2 (tr_files0 id0 eq_refl) Hd).
  - unfold sn_root in E. rewrite <-!app_assoc in E. apply app_inv_head in E. cbn in E. injection E as _ E.
    assert (Hp : R ++ full g `prefix_of` R ++ f.1) by (apply prefix_app; by exists r).
    destruct (dir_clear _ _ Hwf Hup (R ++ full g) Hp) as [Hn | Hdn]; [| by eapply main_not_dir].
    destruct Hup as (n & Hn' & _). by rewrite (wf_below _ Hwf _ _ Hn Hp) in Hn'.
Qed.

(** The way to a file in the snapshots stays clear. *)
Lemma session_clear R ids f g s s' id :
  name_ok f -> name_ok g -> tree_step R ids f s s' -> id ∈ ids ->
  clear_path s (sn_root R id ++ g.1) -> clear_path s' (sn_root R id ++ g.1).
Proof.
  intros Hf Hg [[] Hsame _] Hid. destruct ids as [| id0 ids]; [by apply not_elem_of_nil in Hid |]. apply clear_path_move. intros q Hq.
  destruct (decide (q `prefix_of` sn_root R id0 ++ f.1)) as [Hw | Hw]; [right; by apply (tr_clear0 id0) |].
  left. eapply same_but_node; [done |]. intros Hs. by apply Hw, (way_outside R id0 id f g).
Qed.

(** The other files. *)
Lemma file_hist_session R ids f g e s s' :
  name_ok f -> name_ok g -> g <> f -> os_wf s -> is_dir s (R ++ f.1) ->
  tree_step R ids f s s' -> file_hist R s ids g e -> file_hist R s' ids g e.
Proof.
  intros Hf Hg Hne Hwf Hup Hse Hfh. pose proof Hse as [_ Hsame Hdirs]. apply (file_hist_move R s); [| auto | | | | done].
  - apply Hsame. destruct ids as [| id0 ids]; cbn; [| by apply main_outside]. by intros E%app_inv_head%full_inj.
  - intros id Hid. destruct ids as [| id0 ids]; [by apply not_elem_of_nil in Hid |].
    split; (eapply same_but_node; [done |]); cbn; (apply sn_file_outside; [done | done | | congruence]); [by left | by right].
  - intros id Hid. by apply (session_clear R ids f g s).
  - intros id Hid _. exact (session_no_dir R ids f g e s s' id Hf Hwf Hup Hse Hfh Hid).
Qed.

(** The file itself. *)
Lemma file_hist_self R ids f e s s' main' used' :
  name_ok f -> NoDup ids -> os_wf s -> tree_step R ids f s s' -> file_hist R s ids f e -> main_is s' (R ++ full f) main' ->
  (forall id0 v, head ids = Some id0 -> head (fe_views e) = Some v -> step_view R s' id0 f v main') ->
  (forall id0 dat, head ids = Some id0 -> file_is s' (dat_name R id0 f) dat -> zlen dat <= used') -> 0 <= used' ->
  file_hist R s' ids f (FEntry main' used' (fe_views e)).
Proof.
  intros Hf Hnd Hos Hse Hfh Hmain Hst Hused Hnn. pose proof Hse as [_ Hsame Hdirs]. pose proof Hfh as []. split; cbn; try done; auto.
  - intros [| k] id v v' Hid Hv Hv'; destruct ids as [| id0 ids]; try done; cbn in Hid.
    + injection Hid as <-. injection Hv' as <-. apply Hst; [done |]. by destruct (fe_views e).
    + assert (Hne : id <> id0).
      { intros ->. apply NoDup_cons in Hnd as [Hn _]. by apply Hn, (list_elem_of_lookup_2 _ k). }
      eapply step_view_move; [| | by eapply (fh_steps0 (S k))]; (eapply same_but_node; [done |]); cbn;
        (apply sn_file_outside; [done | done | | congruence]); [by left | by right].
  - intros id Hid. apply (session_clear R ids f f s); auto.
  - intros id Hid. exact (session_no_dir R ids f f e s s' id Hf Hos fh_parent0 Hse Hfh Hid).
Qed.

(** What is in memory after a request. *)
Record mem_step (w w' : world) : Prop := {
  ms_fs : fs_stable (w_fs w) (w_fs w');
  ms_idle : idle_table (mflocks (w_fs w'));
  ms_buffer : buffer_ok w';
  ms_junk : w_junk_mfd w' = w_junk_mfd w
}.

(** The history after a request on [f]. *)
Definition with_file (h : hstate) (f : fname) (e : fentry) : hstate := HState (h_ids h) (<[f := e]> (h_files h)).

(** Nothing unknown appears in the snapshots. *)
Lemma known_session R ids f s s' files id p :
  name_ok f -> is_Some (files !! f) -> tree_step R ids f s s' -> id ∈ ids ->
  (is_Some (node_at s (sn_root R id ++ p)) -> known files p) -> is_Some (node_at s' (sn_root R id ++ p)) -> known files p.
Proof.
  intros Hf Hin [_ Hsame _] Hid Hold Hn. destruct ids as [| id0 ids]; [by apply not_elem_of_nil in Hid |].
  destruct (decide (p `prefix_of` f.1)) as [Hp | Hp]; [right; exists f; auto |].
  destruct (decide (p = f.1 ++ [f.2 +:+ EXT_MAP])) as [-> | Hm]; [right; exists f; auto |].
  destruct (decide (p = f.1 ++ [f.2 +:+ EXT_DAT])) as [-> | Hd]; [right; exists f; auto |].
  apply Hold. erewrite <-same_but_node; [exact Hn | exact Hsame |]. cbn. unfold session_at, map_name, dat_name, sn_file, sn_root.
  rewrite <-!app_assoc. intros [E | [E | [E | [r E]]]].
  - apply (main_not_in_sn f R id Hf). exists p. unfold sn_root. by rewrite <-app_assoc.
  - apply app_inv_head in E. by injection E.
  - apply app_inv_head in E. by injection E.
  - rewrite <-!app_assoc in E. apply app_inv_head in E. cbn in E. injection E as _ E. apply Hp. by exists r.
Qed.

(** The only new entry of the main space is the file. *)
Lemma short_session R ids f g s s' :
  name_ok f -> name_ok g -> main_fits R f -> is_dir s (R ++ ["snapshots"]) -> tree_step R ids f s s' ->
  short_in R s g -> short_in R s' g.
Proof.
  intros Hf Hg Hfit Hdir [_ Hsame _] Hs x [-> | Hx]; [by apply Hs; left |].
  destruct (decide (g.1 ++ [x] = full f)) as [E | Hne].
  { unfold full in E. apply app_inj_tail in E as [E ->]. rewrite E. unfold main_fits, inpath, full in Hfit.
    rewrite <-strlen_app, <-join_app, app_assoc, join_app, strlen_app in Hfit. cbn [join_path] in Hfit.
    rewrite string_app_nil_r, strlen_app in Hfit. change (strlen "/") with 1 in Hfit. lia. }
  assert (Hd : g.1 ++ [x] = ["snapshots"] -> short_in R s g -> strlen (join_path (R ++ g.1)) + 1 + strlen x < PATH_MAX).
  { intros E H. apply H. right. rewrite E. destruct Hdir as (n & Hn & _). by exists n. }
  destruct (decide (g.1 ++ [x] = ["snapshots"])) as [E | Hns]; [by apply Hd |].
  apply Hs. right. erewrite <-same_but_node; [exact Hx | exact Hsame |]. intros Ht.
  assert (Hin : forall id q, g.1 ++ [x] = "snapshots" :: id :: q -> False) by (intros id q; by apply main_dir_not_sn).
  destruct ids as [| id0 ids]; cbn in Ht; [by apply app_inv_head in Ht|].
  unfold session_at, map_name, dat_name, sn_file, sn_root in Ht. rewrite <-!app_assoc in Ht. destruct Ht as [E | [E | [E | [r E]]]].
  - by apply app_inv_head in E.
  - apply app_inv_head in E. exact (Hin _ _ E).
  - apply app_inv_head in E. exact (Hin _ _ E).
  - rewrite <-!app_assoc in E. apply app_inv_head in E. rewrite (app_assoc g.1) in E. cbn in E.
    destruct (g.1 ++ [x]) as [| a [| b q]] eqn:Eg; [by destruct g.1 | |]; cbn in E.
    + injection E as <- _. done.
    + injection E as <- <- _. exact (Hin _ _ eq_refl).
Qed.

Lemma hist_inv_step R w w' h f e main' used' :
  hist_inv R w h -> h_files h !! f = Some e -> tree_step R (h_ids h) f (w_os w) (w_os w') -> mem_step w w' ->
  main_is (w_os w') (R ++ full f) main' ->
  (forall id0 v, head (h_ids h) = Some id0 -> head (fe_views e) = Some v -> step_view R (w_os w') id0 f v main') ->
  (forall id0 dat, head (h_ids h) = Some id0 -> file_is (w_os w') (dat_name R id0 f) dat -> zlen dat <= used') -> 0 <= used' ->
  hist_inv R w' (with_file h f (FEntry main' used' (fe_views e))).
Proof.
  intros [] He Hse [] Hmain Hst Hused Hnn. destruct (hv_names0 _ _ He) as (Hf & Hmf & Hfit). split; cbn; try done.
  - by eapply snapshots_ok_session.
  - by rewrite ms_junk0.
  - intros x Hx. destruct (decide (x ∈ h_ids h)) as [? | Hn]; [by right; left |]. apply hv_entries0.
    erewrite <-same_but_node; [done | apply (ts_same _ _ _ _ _ Hse) |]. intros Ht. by apply Hn, (entry_touched R _ f).
  - intros g eg [[<- <-] | [_ Hg]]%lookup_insert_Some; [done | by eapply hv_names0].
  - intros g eg [[<- <-] | [Hne Hg]]%lookup_insert_Some.
    + apply (file_hist_self R _ f e (w_os w)); try done; [apply (ly_nodup _ _ _ (so_layout _ _ _ hv_sns0)) | apply hv_sns0 | by apply hv_files0].
    + destruct (hv_names0 _ _ Hg) as (Hgo & _). pose proof (fh_parent _ _ _ _ _ (hv_files0 _ _ He)).
      eapply file_hist_session; [exact Hf | done | done | apply hv_sns0 | done | done | by apply hv_files0].
  - intros id p Hid Hp. apply (known_session R (h_ids h) f (w_os w) (w_os w') _ id); try done; [by rewrite lookup_insert_eq |].
    intros Hp'. destruct (hv_known0 id p Hid Hp') as [-> | (g & Hg & H)]; [by left |]. right. exists g. split; [| done].
    destruct (decide (f = g)) as [-> | Hne]; [by rewrite lookup_insert_eq | by rewrite lookup_insert_ne].
  - intros g Hg. assert (Hg' : is_Some (h_files h !! g)).
    { destruct (decide (f = g)) as [-> | Hne]; [by eexists | by rewrite lookup_insert_ne in Hg]. }
    pose proof Hg' as [eg Eg]. apply (short_session R (h_ids h) f g (w_os w)); try done; [by eapply hv_names0 | apply hv_sns0 | by apply hv_short0].
Qed.

(** The tree of a history is one where each file can be worked on. *)
Lemma hist_tree_ok R w h f e : hist_inv R w h -> h_files h !! f = Some e -> tree_ok R (h_ids h) f (w_os w).
Proof.
  intros [] He. pose proof (hv_files0 _ _ He) as []. destruct hv_sns0. split; try done.
  - intros id0 Hid. apply fh_clear0. destruct (h_ids h); [done |]. injection Hid as ->. apply list_elem_of_here.
  - intros id0 Hid. destruct (h_ids h) as [| i ids]; [done |]. injection Hid as ->. destruct (fe_views e) as [| v vs] eqn:Ev; [done |].
    destruct (fh_steps0 0%nat id0 v _ eq_refl eq_refl eq_refl) as [(Hm & Hd & _) | [(c & map & dat & _ & Hm & Hd & _) | (map & _ & Hm & _ & Hd)]];
      split; intros Hx; try (by eapply is_dir_not_file); destruct Hx as (n & Hn & _); congruence.
Qed.
