(* ===== verification/HistoryOpen.v ===== *)
(** [mfd_open_sn] in a history: whatever the latest snapshot has for a file,
    the map and dat files are opened or made, nothing else of the tree is
    touched, and the handle is one of the two kinds of [Reopen]. *)

From S2P Require Import Prelude Posix PosixSpec PosixPath Types Util UtilTheorems Mflock UtilLocking Layout Tree.
From S2P Require Import Snapshot SnapshotTheorems SnapshotDestroy Block CopyOnWrite BlockWrite BlockRead Mfd SnSteps.
From S2P Require Import FuseFd SnapshotIsolation FusePath MfdTheorems Descriptors SnStepsTheorems Survival.
From S2P Require Import Reopen Sessions HistoryNames History.

(** ** Trees *)

Lemma entry_regular s p i m c : os_wf s -> entry_at s p = Some (i, Inode m c) -> S_ISDIR (st_mode m) = false -> file_at s p i c.
Proof.
  intros Hwf [Hn Hi]%entry_at_Some Hr. split; [| split; [done | by exists m]]. eapply node_walk; [done |].
  apply node_at_Some. eauto.
Qed.

Lemma entry_none s p c : os_wf s -> is_dir s p -> entry_at s (p ++ [c]) = None -> absent_at s (p ++ [c]).
Proof. intros Hwf Hd He. apply wf_absent_at; [done | done |]. by rewrite node_entry, He. Qed.

(** The metadata of a file bound its size alone by its contents. *)
Lemma stat_size im m c c' : stat_wf (stat_of im (Inode m c)) -> zlen c' < 2 ^ 61 -> stat_wf (stat_of im (Inode m c')).
Proof. pose proof (zlen_nonneg c'). unfold stat_wf, stat_of. cbn -[Z.pow zlen]. lia. Qed.

Lemma sn_root_ne R id C : sn_root R id ++ C <> [].
Proof. by destruct R. Qed.

Lemma map_name_snoc R id f : map_name R id f = (sn_root R id ++ f.1) ++ [f.2 +:+ EXT_MAP].
Proof. unfold map_name, sn_file. by rewrite app_assoc. Qed.

Lemma dat_name_snoc R id f : dat_name R id f = (sn_root R id ++ f.1) ++ [f.2 +:+ EXT_DAT].
Proof. unfold dat_name, sn_file. by rewrite app_assoc. Qed.

Lemma map_dat_ne R id f : dat_name R id f <> map_name R id f.
Proof. intros E. apply sn_file_inj in E as (_ & _ & _ & E); [| done]. by vm_compute in E. Qed.

Lemma names_ne s p q i j : p <> q -> os_wf s -> os_names s !! p = Some i -> os_names s !! q = Some j -> i <> j.
Proof. intros Hne Hwf Hi Hj <-. by apply Hne, (wf_inj _ Hwf _ _ i). Qed.

(** ** The handle *)

(** The map and dat files of [f] in the latest snapshot [id0], open. *)
Record saved_in (R : path) (ids : list string) (f : fname) (e : fentry) (w : world) (mfd : mfd_t)
    (id0 : string) (ip id : nat) (old map dat : list Z) : Prop := {
  si_id : head ids = Some id0;
  si_view : head (fe_views e) = Some (Some old);
  si_handle : saved_handle w mfd ip id old map dat;
  si_map : os_names (w_os w) !! map_name R id0 f = Some ip;
  si_dat : os_names (w_os w) !! dat_name R id0 f = Some id;
  si_ready : save_ready mflock_lock mflock_unlock w old (contents (fe_main e)) map dat;
  si_used : zlen dat <= fe_used e
}.

(** Nothing to save: what the tree has, if there is a snapshot at all, is the
    map file of a missing file. *)
Definition plain_in (R : path) (ids : list string) (f : fname) (e : fentry) (s : os) : Prop :=
  forall id0 v, head ids = Some id0 -> head (fe_views e) = Some v ->
    v = None /\ (exists map, file_is s (map_name R id0 f) map /\ gone_map map) /\ node_at s (dat_name R id0 f) = None.

Record opened_in (R : path) (ids : list string) (f : fname) (e : fentry) (w w1 : world) (mfd : mfd_t) : Prop := {
  oi_step : tree_step R ids f (w_os w) (w_os w1);
  oi_main : entry_at (w_os w1) (R ++ full f) = entry_at (w_os w) (R ++ full f);
  oi_kept : forall q i c, file_at (w_os w) q i c -> file_at (w_os w1) q i c;
  oi_sn : sn_opened idle_table w w1 mfd;
  oi_kind : (exists id0 ip id old map dat, saved_in R ids f e w1 mfd id0 ip id old map dat) \/
    (plain_handle mfd /\ plain_in R ids f e (w_os w1))
}.

(** From a tree in which directories have been made. *)
Lemma sn_opened_from idle s w w1 mfd : os_fds s = os_fds (w_os w) -> sn_opened idle (set_os s w) w1 mfd -> sn_opened idle w w1 mfd.
Proof.
  intros Ef [(s' & t & -> & Ht & Hf) [Hn Hm Hr] Hnum]. split; [by exists s', t | | done]. cbn in *. rewrite Ef in *. by split.
Qed.

Section Open.
Context (R : path) (w : world) (h : hstate) (f : fname) (e : fentry).
Context (Hi : hist_inv R w h) (He : h_files h !! f = Some e).
Context (id0 : string) (ids : list string) (Hids : h_ids h = id0 :: ids).

Let Hsn : snapshots_ok w R (id0 :: ids).
Proof. rewrite <-Hids. apply Hi. Qed.
Let HR : Forall comp_ok R := ly_R _ _ _ (so_layout _ _ _ Hsn).
Let Hid0 : comp_ok id0 := Forall_inv (ly_ids _ _ _ (so_layout _ _ _ Hsn)).
Let Hf : name_ok f.
Proof. by eapply hv_names. Qed.
Let Hfit : fits R f id0.
Proof. destruct (hv_names _ _ _ Hi f e He) as (_ & _ & H). rewrite Hids in H. by apply Forall_inv in H. Qed.
Let Hfh : file_hist R (w_os w) (id0 :: ids) f e.
Proof. rewrite <-Hids. by apply (hv_files _ _ _ Hi). Qed.
Let Htree : tree_ok R (id0 :: ids) f (w_os w).
Proof. rewrite <-Hids. by apply (hist_tree_ok R w h f e). Qed.

Abbreviation fpath := (join_path (R ++ full f)).
Abbreviation fmap := (join_path (map_name R id0 f)).
Abbreviation fdat := (join_path (dat_name R id0 f)).

Let Er0 : resolve fpath = R ++ full f := resolve_join _ (main_comps R HR f Hf).
Let Erm : resolve fmap = map_name R id0 f := resolve_join _ (map_comps R HR f Hf id0 Hid0).
Let Erd : resolve fdat = dat_name R id0 f := resolve_join _ (dat_comps R HR f Hf id0 Hid0).

Lemma dat_prefix : get_dat_prefix_path (inpath f) (sn_lat_dir (w_fs w)) (sn_lat_dir_len (w_fs w)) = Ok fdat.
Proof using Hi He Hids. destruct (so_latest _ _ _ Hsn) as (_ & -> & ->). by apply dat_prefix_sn. Qed.

(** The place of the map file, in a tree where its directory is there. *)
Lemma open_place s : os_wf s -> os_faults s = [] -> is_dir s (sn_root R id0 ++ f.1) ->
  map_place mflock_lock mflock_unlock (set_os s w) (inpath f) fmap.
Proof using Hi He Hids.
  intros Hwf Hfl Hd. destruct (so_latest _ _ _ Hsn) as (Hany & Hlat & Hlen). split; cbn [w_os w_fs set_os]; try done.
  - apply Hsn.
  - by rewrite Hany.
  - rewrite Hlat, Hlen. by apply map_prefix_sn.
  - pose proof (map_comps R HR f Hf id0 Hid0) as Hc. rewrite map_name_snoc in *.
    destruct (last_slash_join (sn_root R id0 ++ f.1) (f.2 +:+ EXT_MAP)) as (k & Hk & Er); [apply sn_root_ne | done |].
    exists k. split; [done |]. rewrite Er. by apply wf_dir_at.
Qed.

(** *** The map file is there *)

Lemma open_place_file map : file_is (w_os w) (map_name R id0 f) map -> map_place mflock_lock mflock_unlock w (inpath f) fmap.
Proof using Hi He Hids.
  intros (m & Hm & _). rewrite <-(set_os_id w). apply open_place; [apply Hsn | apply Hsn |]. rewrite map_name_snoc in Hm.
  eapply wf_up; [apply Hsn | done].
Qed.

(** Nothing changes on disk. *)
Lemma opened_in_again w1 mfd : more_fds (w_os w) (w_os w1) -> sn_opened idle_table w w1 mfd ->
  (exists id' ip id old map dat, saved_in R (id0 :: ids) f e w1 mfd id' ip id old map dat) \/
    (plain_handle mfd /\ plain_in R (id0 :: ids) f e (w_os w1)) -> opened_in R (id0 :: ids) f e w w1 mfd.
Proof using Hi He Hids.
  intros Hm Ho Hk. split; [| | by intros; eapply more_fds_file_at | done | done].
  - apply tree_step_same; [apply Hm | apply Hm | rewrite (mf_faults _ _ Hm); apply Hsn | done].
  - unfold entry_at. by rewrite (mf_names _ _ Hm), (mf_inodes _ _ Hm).
Qed.

Lemma open_again_saved old map dat :
  head (fe_views e) = Some (Some old) -> file_is (w_os w) (map_name R id0 f) map -> file_is (w_os w) (dat_name R id0 f) dat ->
  cow old (contents (fe_main e)) map dat -> zlen dat mod BL_S = 0 ->
  exists w1 mfd, mfd_open_sn mflock_lock mflock_unlock (w_junk_mfd w) (inpath f) (Some fpath) w = Some ((0, mfd), w1) /\
    opened_in R (id0 :: ids) f e w w1 mfd.
Proof using All.
  intros Hv Hmap Hdat Hcow Hal. pose proof (open_place_file map Hmap) as Hplace. pose proof (so_wf _ _ _ Hsn) as Hwf.
  assert (Hold : 0 < zlen old < 2 ^ 61).
  { pose proof (fh_views _ _ _ _ _ Hfh) as Hvs. destruct (fe_views e); [done |]. injection Hv as ->. by apply Forall_inv in Hvs. }
  destruct (cow_header _ _ _ _ Hcow) as (hd & Hhd & Hex & Hsz).
  pose proof (fh_used _ _ _ _ _ Hfh id0 dat eq_refl Hdat) as Hused.
  apply (wf_file_at _ Hwf) in Hmap as [ip Hmap]. apply (wf_file_at _ Hwf) in Hdat as [id Hdat].
  destruct (mfd_open_sn_existing mflock_lock mflock_unlock w (inpath f) fpath fmap fdat ip id old map dat hd (w_junk_mfd w))
    as (w1 & mfd & E & Hh & Ho & Hm); rewrite ?Erm, ?Erd; try done; [lia | apply dat_prefix | |].
  { eapply (names_ne (w_os w)); [apply not_eq_sym, map_dat_ne | done | apply Hmap | apply Hdat]. }
  exists w1, mfd. split; [done |]. apply opened_in_again; [done | done |]. left. exists id0, ip, id, old, map, dat.
  destruct Ho as [(s & t & -> & Ht & Hfl) _ _]. split; try done; [rewrite (mf_names _ _ Hm); apply Hmap | rewrite (mf_names _ _ Hm); apply Hdat |].
  split; try done. apply (hv_buffer _ _ _ Hi).
Qed.

Lemma open_again_gone map :
  head (fe_views e) = Some None -> file_is (w_os w) (map_name R id0 f) map -> gone_map map ->
  node_at (w_os w) (dat_name R id0 f) = None ->
  exists w1 mfd, mfd_open_sn mflock_lock mflock_unlock (w_junk_mfd w) (inpath f) (Some fpath) w = Some ((0, mfd), w1) /\
    opened_in R (id0 :: ids) f e w w1 mfd.
Proof using All.
  intros Hv Hmap Hg Hdat. pose proof (open_place_file map Hmap) as Hplace. pose proof (so_wf _ _ _ Hsn) as Hwf.
  pose proof Hmap as [ip Hat]%(wf_file_at _ Hwf). destruct Hg as (hd & Hhd & Hex).
  destruct (mfd_open_sn_gone mflock_lock mflock_unlock w (inpath f) fpath fmap ip map hd (w_junk_mfd w))
    as (w1 & mfd & E & Hp & Ho & Hm); rewrite ?Erm; try done.
  exists w1, mfd. split; [done |]. apply opened_in_again; [done | done |]. right. split; [done |].
  assert (Hn : forall p, node_at (w_os w1) p = node_at (w_os w) p) by (intros p; unfold node_at; by rewrite (mf_names _ _ Hm), (mf_inodes _ _ Hm)).
  intros id' v [= <-] Hv'. rewrite Hv in Hv'. injection Hv' as <-. unfold file_is in *. rewrite !Hn. split_and!; [done | | done].
  exists map. split; [done | by exists hd].
Qed.

(** *** The first request since the snapshot *)

(** First the directories are made. *)
Lemma open_mkpath : exists s1, made_dirs (sn_root R id0 ++ f.1) (w_os w) s1 /\
  forall mfd, mfd_open_sn mflock_lock mflock_unlock mfd (inpath f) (Some fpath) w
    = mfd_open_sn mflock_lock mflock_unlock mfd (inpath f) (Some fpath) (set_os s1 w).
Proof using Hi He Hids.
  pose proof Hsn as []. apply Forall_inv in so_dirs. pose proof (map_comps R HR f Hf id0 Hid0) as Hcm.
  destruct (mkpath_spec w (sn_root R id0 ++ f.1) (f.2 +:+ EXT_MAP) S_IRWXU (sn_root R id0)) as (r & first & s1 & Emk & Hrr & Hmd);
    [done | done | by rewrite <-map_name_snoc | done | done | rewrite <-(app_nil_r (sn_root R id0)); apply sn_root_ne |
     by apply prefix_app_r | apply (fh_clear _ _ _ _ _ Hfh), list_elem_of_here |].
  rewrite <-map_name_snoc in Emk. exists s1. split; [done |]. intros mfd.
  destruct (open_place s1 (md_wf _ _ _ Hmd) (md_faults _ _ _ Hmd) (md_dir _ _ _ Hmd)) as [_ _ Hany Hfm (k & Hk & Hdk)].
  pose proof (mkpath_exists (set_os s1 w) _ S_IRWXU k (md_faults _ _ _ Hmd) Hk Hdk) as Emk'.
  apply (mfd_open_sn_mkpath _ _ w s1 (inpath f) fpath fmap mfd r first 0 ""); try done; lia.
Qed.

Context (s1 : os) (Hmd : made_dirs (sn_root R id0 ++ f.1) (w_os w) s1).

(** The new files are on the way to nothing. *)
Lemma new_name x : node_at (w_os w) ((sn_root R id0 ++ f.1) ++ [x]) = None -> absent_at s1 ((sn_root R id0 ++ f.1) ++ [x]).
Proof using Hmd.
  intros Hx. apply wf_absent_at; [apply Hmd | apply Hmd |]. destruct (md_new _ _ _ Hmd _ Hx) as [? | [[q E] _]]; [done |].
  apply (f_equal length) in E. rewrite !length_app in E. cbn in E. lia.
Qed.

Lemma made_main : entry_at s1 (R ++ full f) = entry_at (w_os w) (R ++ full f).
Proof using Hi He Hmd. apply (made_dirs_same _ _ _ Hmd). intros Hp. by eapply main_head. Qed.

Context (Hmap : node_at (w_os w) (map_name R id0 f) = None) (Hdat : node_at (w_os w) (dat_name R id0 f) = None).

Lemma new_map : absent_at s1 (map_name R id0 f).
Proof using Hmd Hmap. pose proof Hmap as H. rewrite map_name_snoc in H |- *. by apply new_name. Qed.

Lemma new_dat : absent_at s1 (dat_name R id0 f).
Proof using Hmd Hdat. pose proof Hdat as H. rewrite dat_name_snoc in H |- *. by apply new_name. Qed.

Lemma made_kept q i c : file_at (w_os w) q i c -> file_at s1 q i c.
Proof using Hi He Hids Hmd.
  intros (_ & Hn & m & Hin & Hr). pose proof (md_names _ _ _ Hmd _ _ Hn) as Hn'. pose proof (md_inodes _ _ _ Hmd _ _ Hin) as Hi'.
  split; [| split; [done | by exists m]]. eapply node_walk; [apply Hmd | apply node_at_Some; eauto].
Qed.

Lemma made_step : tree_step R (id0 :: ids) f (w_os w) s1.
Proof using Hi He Hids Hmd. by apply tree_step_made. Qed.

(** The file is missing. *)
Lemma open_first_missing : fe_main e = None -> head (fe_views e) = Some None ->
  exists w1 mfd, mfd_open_sn mflock_lock mflock_unlock (w_junk_mfd w) (inpath f) (Some fpath) (set_os s1 w) = Some ((0, mfd), w1) /\
    opened_in R (id0 :: ids) f e w w1 mfd.
Proof using All.
  intros Hnone Hv. pose proof (open_place s1 (md_wf _ _ _ Hmd) (md_faults _ _ _ Hmd) (md_dir _ _ _ Hmd)) as Hplace.
  pose proof (fh_main _ _ _ _ _ Hfh) as Hent. rewrite Hnone in Hent. cbn in Hent.
  destruct (mfd_open_sn_missing mflock_lock mflock_unlock (set_os s1 w) (inpath f) fpath fmap (w_junk_mfd w))
    as (w1 & mfd & E & Hp & Ho & ip & Hc); rewrite ?Erm, ?Er0; try done.
  { apply new_map. }
  { cbn [w_os set_os]. unfold full. rewrite app_assoc. apply entry_none; [apply Hmd | | rewrite <-app_assoc; change (f.1 ++ [f.2]) with (full f); by rewrite made_main].
    eapply made_dirs_is_dir; [done | apply (fh_parent _ _ _ _ _ Hfh)]. }
  { by apply main_not_sn_file. }
  { apply (hv_junk _ _ _ Hi). }
  rewrite Erm in Hc. cbn [w_os set_os] in Hc. exists w1, mfd. split; [done |].
  destruct (cr_tree _ _ _ _ _ Hc (md_wf _ _ _ Hmd) (map_comps R HR f Hf id0 Hid0)) as [_ Hsame].
  split.
  - eapply tree_step_trans; [apply made_step |].
    eapply (tree_step_created _ _ _ _ _ (map_name R id0 f)); try done; [apply made_step | by apply map_comps | apply new_map | right; exists id0; auto].
  - rewrite <-made_main. apply Hsame. apply not_eq_sym. by apply main_not_sn_file.
  - intros q i c Hq. by apply (cr_kept _ _ _ _ _ Hc), made_kept.
  - eapply sn_opened_from; [apply (md_fds _ _ _ Hmd) | done].
  - right. split; [done |]. intros id' v [= <-] Hv'. rewrite Hv in Hv'. injection Hv' as <-. split_and!; [done | |].
    + eexists. split; [by eapply created_file_is |]. destruct (hv_junk _ _ _ Hi) as [Hj _]. eexists.
      split; [split; [by rewrite <-(file_write_nil (enc_header _)), file_read_header by done | by split_and!] | done].
    + rewrite (same_but_node _ _ _ _ Hsame) by apply not_eq_sym, map_dat_ne. apply (wf_none _ (md_wf _ _ _ Hmd)). apply new_dat.
Qed.

(** The file is there. *)
Lemma open_first_saved old im m : fe_main e = Some old -> head (fe_views e) = Some (Some old) ->
  entry_at (w_os w) (R ++ full f) = Some (im, Inode m old) -> S_ISDIR (st_mode m) = false -> stat_wf (stat_of im (Inode m [])) ->
  exists w1 mfd, mfd_open_sn mflock_lock mflock_unlock (w_junk_mfd w) (inpath f) (Some fpath) (set_os s1 w) = Some ((0, mfd), w1) /\
    opened_in R (id0 :: ids) f e w w1 mfd.
Proof using All.
  intros Hmn Hv Hent Hr Hst. pose proof (open_place s1 (md_wf _ _ _ Hmd) (md_faults _ _ _ Hmd) (md_dir _ _ _ Hmd)) as [].
  assert (Hold : 0 < zlen old < 2 ^ 61).
  { pose proof (fh_views _ _ _ _ _ Hfh) as Hvs. destruct (fe_views e); [done |]. injection Hv as ->. by apply Forall_inv in Hvs. }
  assert (He1 : entry_at s1 (R ++ full f) = Some (im, Inode m old)) by by rewrite made_main.
  destruct (mfd_open_sn_first mflock_lock mflock_unlock (set_os s1 w) (inpath f) fpath fmap fdat im old (w_junk_mfd w))
    as (w1 & mfd & E & ip & id & Hs & Hh & Ho).
  { split; cbn [w_os w_fs set_os]; rewrite ?Erm, ?Erd, ?Er0; try done.
    - apply (hv_buffer _ _ _ Hi).
    - apply Hf.
    - eapply map_path_main; [apply Hsn | by eapply hv_names].
    - apply dat_prefix.
    - eapply entry_regular; [apply Hmd | done | done].
    - apply new_map.
    - apply new_dat.
    - apply map_dat_ne.
    - apply entry_at_Some in He1 as [_ ->]. intros n [= <-]. eapply stat_size; [done | lia]. }
  exists w1, mfd. split; [done |]. destruct (os_created _ _ _ _ _ _ _ _ _ _ _ _ Hs) as (s2 & Hc1 & Hc2 & _).
  rewrite Erm in Hc1. rewrite Erd in Hc2. cbn [w_os set_os] in Hc1.
  destruct (cr_tree _ _ _ _ _ Hc1 (md_wf _ _ _ Hmd) (map_comps R HR f Hf id0 Hid0)) as [Hwf2 Hsame1].
  destruct (cr_tree _ _ _ _ _ Hc2 Hwf2 (dat_comps R HR f Hf id0 Hid0)) as [_ Hsame2].
  assert (Hd2 : os_names s2 !! dat_name R id0 f = None) by (apply (cr_absent _ _ _ _ _ Hc1); [apply map_dat_ne | apply new_dat]).
  assert (Hst1 : tree_step R (id0 :: ids) f (w_os w) s2).
  { eapply tree_step_trans; [apply made_step |].
    eapply (tree_step_created _ _ _ _ _ (map_name R id0 f)); try done; [apply made_step | by apply map_comps | apply new_map | right; exists id0; auto]. }
  split.
  - eapply tree_step_trans; [exact Hst1 |].
    eapply (tree_step_created _ _ _ _ _ (dat_name R id0 f)); try done; [apply Hst1 | by apply dat_comps | right; exists id0; auto].
  - rewrite <-made_main, Hsame2, Hsame1; [done | |]; apply not_eq_sym; by apply main_not_sn_file.
  - intros q i c Hq. by apply (os_kept _ _ _ _ _ _ _ _ _ _ _ _ Hs), made_kept.
  - eapply sn_opened_from; [apply (md_fds _ _ _ Hmd) | done].
  - left. exists id0, ip, id, old, (enc_header (mapheader mfd)), [].
    destruct Hs. rewrite Erm in os_map. rewrite Erd in os_dat.
    split; try done; [apply os_map | apply os_dat | | apply (fh_nonneg _ _ _ _ _ Hfh)].
    destruct Ho as [(s & t & -> & Ht & Hfl) _ _]. split; try done; [| apply (hv_buffer _ _ _ Hi)].
    rewrite Hmn. destruct os_header as (? & ? & ?). by apply cow_fresh.
Qed.
End Open.

(** ** Every case *)

Lemma hist_open_sn R w h f e :
  hist_inv R w h -> h_files h !! f = Some e ->
  exists w1 mfd, mfd_open_sn mflock_lock mflock_unlock (w_junk_mfd w) (inpath f) (Some (join_path (R ++ full f))) w = Some ((0, mfd), w1) /\
    opened_in R (h_ids h) f e w w1 mfd.
Proof.
  intros Hi He. pose proof (hv_sns _ _ _ Hi) as Hsn. pose proof (hist_tree_ok R w h f e Hi He) as Htree.
  destruct (h_ids h) as [| id0 ids] eqn:Hids.
  { destruct (mfd_open_sn_none mflock_lock mflock_unlock w (inpath f) (join_path (R ++ full f)) (w_junk_mfd w)) as (mfd & E & Hp & Ho);
      [apply Hsn | apply Hsn | apply (so_latest _ _ _ Hsn) |].
    exists w, mfd. split; [done |]. split; [by apply tree_step_refl | done | done | done | by right]. }
  pose proof (hv_files _ _ _ Hi f e He) as []. rewrite Hids in *. destruct (fe_views e) as [| v vs] eqn:Hvs; [done |].
  assert (Hv : head (fe_views e) = Some v) by by rewrite Hvs.
  destruct (fh_steps 0%nat id0 v (fe_main e) eq_refl eq_refl eq_refl) as [(Hm & Hd & ->) | [(c & map & dat & -> & Hm & Hd & Hc & Ha) | (map & -> & Hm & Hg & Hd)]].
  - destruct (open_mkpath R w h f e Hi He id0 ids Hids) as (s1 & Hmd & Emk). rewrite Emk.
    destruct (fe_main e) as [old |] eqn:Hmn.
    + destruct fh_main as (im & m & Hent & Hr & Hst & _). by eapply (open_first_saved R w h f e).
    + by eapply (open_first_missing R w h f e).
  - by eapply open_again_saved.
  - by eapply open_again_gone.
Qed.
