(* ===== verification/HistorySessions.v ===== *)
(** Requests on a file of a history that save what the latest snapshot needs:
    how each ends in the invariant again, what a truncation by path saves,
    and sessions of writes. *)

From S2P Require Import Prelude Posix PosixSpec PosixPath Types Util UtilTheorems Mflock UtilLocking Layout Tree.
From S2P Require Import Snapshot SnapshotTheorems SnapshotDestroy Block CopyOnWrite BlockWrite BlockRead Mfd SnSteps.
From S2P Require Import FuseFd SnapshotIsolation FusePath MfdTheorems Descriptors SnStepsTheorems Survival.
From S2P Require Import Reopen Sessions HistoryNames History HistoryOpen.

(** ** The entry of a file afterwards *)

(** What [n] changes may add to the dat file. *)
Definition growth (e : fentry) (n : Z) : Z := match fe_views e with Some v :: _ => n * (zlen v + 2 * BL_S) | _ => 0 end.

Definition after_session (e : fentry) (main' : option (list Z)) (n : Z) : fentry :=
  FEntry main' (fe_used e + growth e n) (fe_views e).

Lemma growth_nonneg e n : 0 <= n -> 0 <= growth e n.
Proof. intros Hn. unfold growth. destruct (fe_views e) as [| [v |] vs]; [done | | done]. pose proof (zlen_nonneg v). unfold BL_S. lia. Qed.

Lemma growth_add e n k : growth e (n + k) = growth e n + growth e k.
Proof. unfold growth. destruct (fe_views e) as [| [v |] vs]; lia. Qed.

Lemma with_file_same h f e : h_files h !! f = Some e -> with_file h f (after_session e (fe_main e) 0) = h.
Proof.
  intros He. assert (Ea : after_session e (fe_main e) 0 = e).
  { unfold after_session, growth. destruct e as [m u [| [v |] vs]]; cbn -[BL_S Z.mul]; f_equal; lia. }
  unfold with_file. rewrite Ea, insert_id by done. by destruct h.
Qed.

(** ** Memory *)

Lemma mem_step_trans w1 w2 w3 : mem_step w1 w2 -> mem_step w2 w3 -> mem_step w1 w3.
Proof. intros [] []. split; [by etransitivity | done | done | congruence]. Qed.

Lemma sn_opened_mem w w1 mfd : buffer_ok w -> sn_opened idle_table w w1 mfd -> mem_step w w1.
Proof. intros Hb [(s & t & -> & Ht & _) _ _]. by split. Qed.

Lemma mem_step_os w s : mem_step w w -> mem_step w (set_os s w).
Proof. intros []. by split. Qed.

Lemma hist_mem R w h : hist_inv R w h -> mem_step w w.
Proof. intros []. destruct hv_sns. by split. Qed.

(** ** How a request ends *)

Section End.
Context (R : path) (w w' : world) (h : hstate) (f : fname) (e : fentry) (main' : option (list Z)) (n : Z).
Context (Hi : hist_inv R w h) (He : h_files h !! f = Some e) (Hn : 0 <= n).
Context (Hstep : tree_step R (h_ids h) f (w_os w) (w_os w')) (Hmem : mem_step w w').
Context (Hmain : main_is (w_os w') (R ++ full f) main').

Let Hnonneg : 0 <= fe_used e + growth e n.
Proof. pose proof (fh_nonneg _ _ _ _ _ (hv_files _ _ _ Hi f e He)). pose proof (growth_nonneg e n Hn). lia. Qed.

(** With the map and dat files. *)
Lemma end_saved id0 ip id old map dat :
  head (h_ids h) = Some id0 -> head (fe_views e) = Some (Some old) ->
  os_names (w_os w') !! map_name R id0 f = Some ip -> os_names (w_os w') !! dat_name R id0 f = Some id ->
  regular (w_os w') ip map -> regular (w_os w') id dat -> cow old (contents main') map dat -> zlen dat mod BL_S = 0 ->
  zlen dat <= fe_used e + n * (zlen old + 2 * BL_S) ->
  hist_inv R w' (with_file h f (after_session e main' n)).
Proof using All.
  intros Hid Hv Hp Hd Hrp Hrd Hcow Hal Hlen.
  assert (Hfile : forall p i c, os_names (w_os w') !! p = Some i -> regular (w_os w') i c -> file_is (w_os w') p c).
  { intros p i c Hx (m' & Hm' & Hr'). exists m'. split; [| done]. apply node_at_Some. by exists i. }
  apply (hist_inv_step R w); try done.
  - intros id' v. rewrite Hid, Hv. intros [= <-] [= <-]. right; left. exists old, map, dat. split_and!; try done; by eapply Hfile.
  - intros id' d. rewrite Hid. intros [= <-] (m1 & Hx & _). destruct (Hfile _ _ _ Hd Hrd) as (m2 & Hx' & _).
    rewrite Hx in Hx'. injection Hx' as -> ->. unfold growth. destruct (fe_views e) as [| ? ?]; [done |]. injection Hv as ->. lia.
Qed.

(** With nothing to save. *)
Lemma end_plain : plain_in R (h_ids h) f e (w_os w') -> hist_inv R w' (with_file h f (after_session e main' n)).
Proof using All.
  intros Hp. apply (hist_inv_step R w); try done.
  - intros id0 v Hid Hv. destruct (Hp id0 v Hid Hv) as (-> & (map & Hm & Hg) & Hd). right; right. by exists map.
  - intros id0 dat Hid (m & Hd & _). destruct (head (fe_views e)) as [v |] eqn:Hv.
    + destruct (Hp id0 v Hid Hv) as (_ & _ & Hnone). congruence.
    + pose proof (fh_len _ _ _ _ _ (hv_files _ _ _ Hi f e He)) as Hl. by destruct (fe_views e), (h_ids h).
Qed.
End End.

(** The nodes of a missing file stay. *)
Lemma plain_in_move R ids f e s s' :
  (forall id0, head ids = Some id0 -> node_at s' (map_name R id0 f) = node_at s (map_name R id0 f) /\
     node_at s' (dat_name R id0 f) = node_at s (dat_name R id0 f)) ->
  plain_in R ids f e s -> plain_in R ids f e s'.
Proof.
  intros Hn Hp id0 v Hid Hv. destruct (Hn id0 Hid) as [E1 E2]. destruct (Hp id0 v Hid Hv) as (-> & (map & Hm & Hg) & Hd).
  rewrite E2. split_and!; [done | | done]. exists map. unfold file_is in *. by rewrite E1.
Qed.

(** The files of the snapshots are apart from the main file. *)
Lemma sn_file_kept R f id0 s s' x i c :
  name_ok f -> same_but (eq (R ++ full f)) s s' -> os_names s !! sn_file R id0 f.1 f.2 x = Some i -> regular s i c ->
  os_names s' !! sn_file R id0 f.1 f.2 x = Some i /\ regular s' i c.
Proof.
  intros Hf Hs Hx (m & Hm & Hr). assert (E : entry_at s' (sn_file R id0 f.1 f.2 x) = Some (i, Inode m c)).
  { rewrite Hs by by apply main_not_sn_file. by apply entry_at_Some. }
  apply entry_at_Some in E as [? ?]. split; [done | by exists m].
Qed.

Lemma plain_in_kept R ids f e s s' : name_ok f -> same_but (eq (R ++ full f)) s s' -> plain_in R ids f e s -> plain_in R ids f e s'.
Proof. intros Hf Hs. apply plain_in_move. intros id0 _. split; (eapply same_but_node; [done |]); by apply main_not_sn_file. Qed.

(** Opening alone keeps the history, and so does a step that leaves the
    contents of the main file alone. *)
Lemma opened_end R w h f e w1 mfd s :
  hist_inv R w h -> h_files h !! f = Some e -> opened_in R (h_ids h) f e w w1 mfd ->
  tree_step R (h_ids h) f (w_os w1) s -> same_but (eq (R ++ full f)) (w_os w1) s -> main_is s (R ++ full f) (fe_main e) ->
  hist_inv R (set_os s w1) h.
Proof.
  intros Hi He [] Hs Hsame Hmain. rewrite <-(with_file_same h f e He). destruct (hv_names _ _ _ Hi f e He) as (Hf & _).
  assert (Hmem : mem_step w (set_os s w1)).
  { destruct (sn_opened_mem w w1 mfd (hv_buffer _ _ _ Hi) oi_sn). by split. }
  assert (Hstep : tree_step R (h_ids h) f (w_os w) s) by by eapply tree_step_trans.
  destruct oi_kind as [(id0 & ip & id & old & map & dat & []) | [_ Hp]].
  - destruct si_handle, si_ready. destruct (sn_file_kept _ _ _ _ _ _ _ _ Hf Hsame si_map sh_map), (sn_file_kept _ _ _ _ _ _ _ _ Hf Hsame si_dat sh_dat).
    eapply (end_saved R w) with (id0 := id0) (ip := ip) (id := id) (old := old) (map := map) (dat := dat); try done. lia.
  - eapply (end_plain R w); try done. by eapply plain_in_kept.
Qed.

Lemma opened_main R w h f e w1 mfd :
  hist_inv R w h -> h_files h !! f = Some e -> opened_in R (h_ids h) f e w w1 mfd -> main_is (w_os w1) (R ++ full f) (fe_main e).
Proof. intros Hi He []. eapply main_is_move; [done | apply (fh_main _ _ _ _ _ (hv_files _ _ _ Hi f e He))]. Qed.

Lemma opened_hist R w h f e w1 mfd :
  hist_inv R w h -> h_files h !! f = Some e -> opened_in R (h_ids h) f e w w1 mfd -> hist_inv R w1 h.
Proof.
  intros Hi He Ho. rewrite <-(set_os_id w1). eapply opened_end; try done; [| by eapply opened_main].
  apply tree_step_refl, (ts_ok _ _ _ _ _ (oi_step _ _ _ _ _ _ _ Ho)).
Qed.

(** ** What a truncation by path saves *)

(** What a truncation of [f] to [n] would cut off is saved. *)
Record cut_saved (R : path) (ids : list string) (f : fname) (e : fentry) (w : world) (n : Z)
    (id0 : string) (ip id : nat) (old map dat : list Z) : Prop := {
  cs_id : head ids = Some id0;
  cs_view : head (fe_views e) = Some (Some old);
  cs_map : os_names (w_os w) !! map_name R id0 f = Some ip;
  cs_dat : os_names (w_os w) !! dat_name R id0 f = Some id;
  cs_rmap : regular (w_os w) ip map;
  cs_rdat : regular (w_os w) id dat;
  cs_ready : save_ready mflock_lock mflock_unlock w old (contents (fe_main e)) map dat;
  cs_range : forall main, fe_main e = Some main -> range_saved old map n (zlen old - n);
  cs_used : zlen dat <= fe_used e + growth e 1
}.

Record truncated_in (R : path) (ids : list string) (f : fname) (e : fentry) (w w' : world) (n : Z) : Prop := {
  tc_step : tree_step R ids f (w_os w) (w_os w');
  tc_mem : mem_step w w';
  tc_main : entry_at (w_os w') (R ++ full f) = entry_at (w_os w) (R ++ full f);
  tc_kept : forall q i c, file_at (w_os w) q i c -> os_names (w_os w') !! q = Some i;
  tc_fds : owned [] (w_os w) (w_os w');
  tc_kind : (exists id0 ip id old map dat, cut_saved R ids f e w' n id0 ip id old map dat) \/ plain_in R ids f e (w_os w')
}.

Section Truncate.
Context (R : path) (w : world) (h : hstate) (f : fname) (e : fentry) (n : Z).
Context (Hi : hist_inv R w h) (He : h_files h !! f = Some e) (Hn : 0 <= n) (Hroom : fe_used e + growth e 1 < 2 ^ 62).

Abbreviation fpath := (join_path (R ++ full f)).

Lemma fpath_resolve : resolve fpath = R ++ full f.
Proof using Hi He.
  apply resolve_join, main_comps; [apply (so_layout _ _ _ (hv_sns _ _ _ Hi)) | by eapply hv_names].
Qed.

(** The main file, in any tree with the same entry. *)
Lemma main_at s main : fe_main e = Some main -> os_wf s -> entry_at s (R ++ full f) = entry_at (w_os w) (R ++ full f) ->
  exists im m, entry_at s (R ++ full f) = Some (im, Inode m main) /\ file_at s (resolve fpath) im main /\
    S_ISDIR (st_mode m) = false /\ stat_wf (stat_of im (Inode m [])).
Proof using Hi He.
  intros Hm Hwf Hs. pose proof (fh_main _ _ _ _ _ (hv_files _ _ _ Hi f e He)) as Hmain. rewrite Hm in Hmain.
  destruct Hmain as (im & m & Hent & Hr & Hst & _). exists im, m. rewrite Hs, fpath_resolve. split_and!; try done.
  eapply entry_regular; [done | by rewrite Hs | done].
Qed.

Lemma main_missing s : fe_main e = None -> os_wf s -> entry_at s (R ++ full f) = entry_at (w_os w) (R ++ full f) ->
  (forall p, is_dir (w_os w) p -> is_dir s p) -> absent_at s (resolve fpath).
Proof using Hi He.
  intros Hm Hwf Hs Hd. pose proof (hv_files _ _ _ Hi f e He) as []. rewrite Hm in fh_main. rewrite fpath_resolve. unfold full in *.
  rewrite app_assoc in *. apply entry_none; [done | auto | by rewrite Hs].
Qed.

(** The inode of the main file is not one of the snapshot. *)
Lemma main_apart s im ip id0 x c : os_wf s -> entry_at s (R ++ full f) = Some (im, x) ->
  os_names s !! sn_file R id0 f.1 f.2 c = Some ip -> im <> ip.
Proof using Hi He.
  intros Hwf [Hx _]%entry_at_Some Hp. eapply (names_ne s); [| done | done | done]. apply main_not_sn_file. by eapply hv_names.
Qed.

(** After the handle is opened ([w1]) and the rest is saved ([w2]), it is closed. *)
Lemma truncate_finish w1 w2 mfd mfd' touch :
  mfd_open_sn mflock_lock mflock_unlock (w_junk_mfd w) (inpath f) (Some fpath) w = Some ((0, mfd), w1) ->
  opened_in R (h_ids h) f e w w1 mfd -> open_truncate mflock_lock mflock_unlock fpath n mfd w1 = Some ((0, mfd'), w2) ->
  sn_fds mfd' = sn_fds mfd -> frame touch (w_os w1) (w_os w2) -> mem_step w1 w2 ->
  (forall i, touch i -> exists id0 x, head (h_ids h) = Some id0 /\ os_names (w_os w1) !! sn_file R id0 f.1 f.2 x = Some i /\
     (x = EXT_MAP \/ x = EXT_DAT)) ->
  (exists id0 ip id old map dat, cut_saved R (h_ids h) f e w2 n id0 ip id old map dat) \/ plain_in R (h_ids h) f e (w_os w2) ->
  exists w', open_truncate_close mflock_lock mflock_unlock (inpath f) fpath n w = Some (0, w') /\
    truncated_in R (h_ids h) f e w w' n.
Proof using Hi He.
  intros E1 [] E2 Efds Hfr Hmem Htouch Hk. pose proof (hv_names _ _ _ Hi f e He) as (Hf & _).
  pose proof (ts_ok _ _ _ _ _ oi_step) as Hok1. pose proof Hok1 as [Hwf1 Hf1 _ _].
  assert (Hf2 : os_faults (w_os w2) = []) by by apply (fr_nofault _ _ _ Hfr).
  assert (Hown : owned (sn_fds mfd' ++ []) (w_os w) (w_os w2)).
  { rewrite app_nil_r, Efds. eapply owned_frame; [done | apply oi_sn]. }
  destruct (open_truncate_close_run _ _ w (inpath f) fpath n mfd w1 mfd' w2 [] (w_os w) E1 E2 Hf2 Hown) as (x & E & Hx).
  assert (Hs2 : tree_step R (h_ids h) f (w_os w1) (w_os w2)).
  { eapply tree_step_frame; [done | done | done |]. intros i Hti. destruct (Htouch i Hti) as (id0 & y & Hid & Hy & Hyx).
    exists (sn_file R id0 f.1 f.2 y). split; [done |]. right. exists id0. split; [done |]. destruct Hyx as [-> | ->]; [by left | by right]. }
  eexists. split; [exact E |]. split.
  - eapply tree_step_trans; [done |]. eapply tree_step_trans; [done |]. apply tree_step_same; try done. apply Hs2.
  - eapply mem_step_trans; [eapply sn_opened_mem; [apply (hv_buffer _ _ _ Hi) | done] |]. destruct Hmem. by split.
  - rewrite <-oi_main. change (entry_at (set_fds x (w_os w2)) ?p) with (entry_at (w_os w2) p).
    apply (frame_same_but _ _ _ Hfr). intros (i & Hi' & (id0 & y & _ & Hy & _)%Htouch).
    eapply (main_not_sn_file f R); [done |]. by eapply (wf_inj _ Hwf1).
  - intros q i c Hq. apply oi_kept in Hq as (_ & Hq & _). change (os_names (w_os w2) !! q = Some i). by rewrite (fr_names _ _ _ Hfr).
  - exact Hx.
  - destruct Hk as [(id0 & ip & id & old & map & dat & []) | Hk]; [left | by right]. exists id0, ip, id, old, map, dat. split; try done.
    destruct cs_ready0. by split.
Qed.

Lemma hist_truncate_close :
  exists w', open_truncate_close mflock_lock mflock_unlock (inpath f) fpath n w = Some (0, w') /\
    truncated_in R (h_ids h) f e w w' n.
Proof using All.
  destruct (hist_open_sn R w h f e Hi He) as (w1 & mfd & E1 & Ho). pose proof Ho as [].
  pose proof (ts_ok _ _ _ _ _ oi_step) as [Hwf1 Hf1 _ _].
  assert (Hm1 : mem_step w1 w1) by (eapply hist_mem, opened_hist; done).
  destruct oi_kind as [(id0 & ip & id & old & map & dat & Hsv) | [Hp Hpi]].
  2: { eapply (truncate_finish w1 w1 mfd mfd (fun _ => False)); try done; [by apply open_truncate_plain | by right]. }
  pose proof Hsv as []. assert (Hg : growth e 1 = zlen old + 2 * BL_S).
  { unfold growth. destruct (fe_views e); [done |]. injection si_view as ->. lia. }
  destruct (fe_main e) as [main |] eqn:Hmn.
  2: { eapply (truncate_finish w1 w1 mfd mfd (fun _ => False)); try done.
       - apply open_truncate_missing; [done |]. apply main_missing; try done. apply oi_step.
       - left. exists id0, ip, id, old, map, dat. destruct si_handle. pose proof (growth_nonneg e 1 ltac:(done)).
         split; try done; [by rewrite Hmn | intros main; by rewrite Hmn | lia]. }
  destruct (main_at (w_os w1) main Hmn Hwf1 oi_main) as (im & m & Hent & Hat & _).
  pose proof (main_apart _ im ip id0 _ _ Hwf1 Hent si_map) as D1. pose proof (main_apart _ im id id0 _ _ Hwf1 Hent si_dat) as D2.
  destruct (open_truncate_saved mflock_lock mflock_unlock w1 fpath mfd im ip id old main map dat n si_handle) as
    (w2 & mfd' & map' & dat' & E2 & Hfr & Hsame & Hrm & Hrd & Hrdy & Hrange & Hlen); try done; [unfold room; lia |].
  eapply (truncate_finish w1 w2 mfd mfd' (sn_files ip id)); try done.
  - unfold sn_fds. by rewrite (f_equal datfd Hsame : datfd mfd' = _), (f_equal mapfd Hsame : mapfd mfd' = _).
  - apply (wf_os _ _ _ Hfr).
  - split; [apply (wf_fs _ _ _ Hfr) | apply (sv_idle _ _ _ _ _ _ _ Hrdy) | apply (sv_buffer _ _ _ _ _ _ _ Hrdy) | apply (wf_junk_mfd _ _ _ Hfr)].
  - intros i [-> | ->]; [exists id0, EXT_MAP | exists id0, EXT_DAT]; auto.
  - left. exists id0, ip, id, old, map', dat'. pose proof (fr_names _ _ _ (wf_os _ _ _ Hfr)) as En.
    split; rewrite ?En; try done; [by rewrite Hmn | lia].
Qed.
End Truncate.
