(* ===== verification/HistoryWrites.v ===== *)
(** Sessions in a history: a file is opened for writing, or created, then
    changed and closed.  Whatever the latest snapshot has for it, the handlers
    return what the operations return on the contents alone, and the history
    goes on with the new contents and the same views in every snapshot. *)

From S2P Require Import Prelude Posix PosixSpec PosixPath Types Util UtilTheorems Mflock UtilLocking Layout Tree.
From S2P Require Import Snapshot SnapshotTheorems SnapshotDestroy Block CopyOnWrite BlockWrite BlockRead Mfd SnSteps.
From S2P Require Import FuseFd SnapshotIsolation FusePath MfdTheorems Descriptors SnStepsTheorems Survival.
From S2P Require Import Reopen Sessions HistoryNames History HistoryOpen HistorySessions.

(** A change of contents at a path: number and metadata stay. *)
Lemma frame_entry touch s s' p i m c c' :
  frame touch s s' -> entry_at s p = Some (i, Inode m c) -> regular s' i c' -> entry_at s' p = Some (i, Inode m c').
Proof.
  intros H [Hn Hi]%entry_at_Some (m' & Hi' & _). apply entry_at_Some. rewrite (fr_names _ _ _ H). split; [done |].
  pose proof (fr_meta _ _ _ H i) as E. rewrite Hi, Hi' in E. injection E as ->. done.
Qed.

(** ** Changes and closing *)

Section Tail.
Context (R : path) (w : world) (h : hstate) (f : fname) (e : fentry).
Context (Hi : hist_inv R w h) (He : h_files h !! f = Some e).
(** The handle [fh] has been published in [wp], for a file that is [main]. *)
Context (opener : M (Z * option Z)) (wp : world) (fh : Z) (app : bool) (im : nat) (m : stat_t) (main : list Z) (k : Z).
Context (Hopen : opener w = Some ((0, Some fh), wp)).
Context (Hstep : tree_step R (h_ids h) f (w_os w) (w_os wp)) (Hmem : mem_step w wp).
Context (Hent : entry_at (w_os wp) (R ++ full f) = Some (im, Inode m main)).
Context (Hr : S_ISDIR (st_mode m) = false) (Hst : stat_wf (stat_of im (Inode m []))) (Hk : 0 <= k).

Let Hf : name_ok f.
Proof. by eapply hv_names. Qed.

Lemma tail_saved ops id0 ip id old map dat :
  head (h_ids h) = Some id0 -> head (fe_views e) = Some (Some old) ->
  os_names (w_os wp) !! map_name R id0 f = Some ip -> os_names (w_os wp) !! dat_name R id0 f = Some id ->
  file_inv mflock_lock mflock_unlock im ip id old {[ fh := app ]} ∅ wp main map dat ->
  zlen dat <= fe_used e + growth e k -> fe_used e + growth e (k + zlen ops) < 2 ^ 62 -> Forall wop_ok ops ->
  let '(outs, main') := wops_exec app main ops in
  zlen main' < 2 ^ 61 ->
  exists w', session_of mflock_lock mflock_unlock opener ops w = Some ((0, outs, 0), w') /\
    hist_inv R w' (with_file h f (after_session e (Some main') (k + zlen ops))).
Proof using All.
  intros Hid Hv Hp Hd Hinv Hdat Hroom Hops. pose proof (tr_faults _ _ _ _ (ts_ok _ _ _ _ _ Hstep)) as Hfl.
  assert (Hg : forall x, growth e x = x * (zlen old + 2 * BL_S)).
  { intros x. unfold growth. destruct (fe_views e); [done |]. by injection Hv as ->. }
  destruct (session_saved mflock_lock mflock_unlock opener w wp fh im ip id old main map dat app ops Hopen Hinv Hfl Hops)
    as (outs & main' & w' & -> & Es & []); [unfold room; rewrite !Hg in *; lia |].
  intros Hsz. exists w'. split; [done |]. destruct sp_os as (s2 & x & Eos & Hfr).
  destruct sp_saved as (map' & dat' & Hmap' & Hdat' & Hcow & Hal & Hlen). pose proof (zlen_nonneg ops).
  assert (Hnames : os_names (w_os w') = os_names (w_os wp)) by (rewrite Eos; apply (fr_names _ _ _ Hfr)).
  assert (Hs2 : tree_step R (h_ids h) f (w_os wp) s2).
  { eapply tree_step_frame; [done | apply Hstep | done |]. apply entry_at_Some in Hent as [Hn _].
    intros i [-> | [-> | ->]]; [exists (R ++ full f); split; [done | by left] | exists (map_name R id0 f) | exists (dat_name R id0 f)];
      (split; [done | right; exists id0; auto]). }
  eapply (end_saved R w w') with (id0 := id0) (ip := ip) (id := id) (old := old) (map := map') (dat := dat'); rewrite ?Hnames; try done.
  - lia.
  - eapply tree_step_trans; [done |]. eapply tree_step_trans; [done |]. rewrite Eos. apply tree_step_same; try done; [apply Hs2 | apply Hs2].
  - eapply mem_step_trans; [done |]. by split.
  - exists im, m. split_and!; try done. rewrite Eos in *. change (entry_at (set_fds x s2) ?p) with (entry_at s2 p). by eapply frame_entry.
  - rewrite !Hg in *. lia.
Qed.

Lemma tail_plain ops mfd :
  plain_writer wp fh mfd im main app -> (0 <= mapfd mfd -> is_Some (os_fds (w_os wp) !! mapfd mfd) /\ mapfd mfd <> mainfd mfd) ->
  plain_in R (h_ids h) f e (w_os wp) -> Forall wop_ok ops ->
  let '(outs, main') := wops_exec app main ops in
  zlen main' < 2 ^ 61 ->
  exists w', session_of mflock_lock mflock_unlock opener ops w = Some ((0, outs, 0), w') /\
    hist_inv R w' (with_file h f (after_session e (Some main') (k + zlen ops))).
Proof using All.
  intros Hp Hmap Hpi Hops. pose proof (ts_ok _ _ _ _ _ Hstep) as Hok. pose proof Hok as [Hwf Hfl _ _].
  destruct (session_plain mflock_lock mflock_unlock opener w wp fh mfd im main app ops Hopen Hp Hmap Hops)
    as (outs & main' & w' & x & -> & Es & Hfs & Hj & Hos).
  intros Hsz. exists w'. split; [done |]. pose proof (zlen_nonneg ops). pose proof Hent as [Hn Hin]%entry_at_Some.
  pose proof (frame_set_data (eq im) im main' (w_os wp) eq_refl) as Hfr.
  assert (Hs2 : tree_step R (h_ids h) f (w_os wp) (set_data im main' (w_os wp))).
  { eapply tree_step_frame; [done | done | done |]. intros i <-. exists (R ++ full f). split; [done | by left]. }
  assert (Hsame : same_but (eq (R ++ full f)) (w_os wp) (w_os w')).
  { rewrite Hos. intros p Hp'. change (entry_at (set_fds x ?s) ?p) with (entry_at s p). rewrite (frame_same_but _ _ _ Hfr); [done |].
    intros (i & Hi' & <-). apply Hp'. by eapply (wf_inj _ Hwf). }
  eapply end_plain; try done.
  - lia.
  - eapply tree_step_trans; [done |]. eapply tree_step_trans; [done |]. rewrite Hos. by apply tree_step_same; [| | | apply Hs2].
  - eapply mem_step_trans; [done |]. destruct Hmem. split; [by rewrite Hfs | by rewrite Hfs | unfold buffer_ok; by rewrite Hfs | done].
  - exists im, m. split_and!; try done. rewrite Hos. change (entry_at (set_fds x ?s) ?p) with (entry_at s p).
    eapply frame_entry; [done | done |]. by eapply regular_set_data; exists m.
  - eapply plain_in_move; [| done]. intros id0 _. split; (eapply same_but_node; [done |]); by apply main_not_sn_file.
Qed.
End Tail.

(** ** Handles in a world with more descriptors *)

Lemma saved_handle_more w w' mfd ip id old map dat :
  more_fds (w_os w) (w_os w') -> saved_handle w mfd ip id old map dat -> saved_handle w' mfd ip id old map dat.
Proof.
  intros [_ Ei _ Hm] []. split; try done; unfold regular, open_on in *; rewrite ?Ei; try done.
  - destruct sh_mapfd as [pos ?]. exists pos. by apply Hm.
  - destruct sh_datfd as [pos ?]. exists pos. by apply Hm.
Qed.

Lemma save_ready_same w w' old main map dat :
  w_fs w' = w_fs w -> os_faults (w_os w') = [] ->
  save_ready mflock_lock mflock_unlock w old main map dat -> save_ready mflock_lock mflock_unlock w' old main map dat.
Proof. intros E Hf []. split; try done; unfold buffer_ok in *; by rewrite E. Qed.

Lemma plain_mapfd w1 s mfd fd idle w : sn_opened idle w w1 mfd -> plain_handle mfd -> more_fds (w_os w1) s -> os_fds (w_os w1) !! fd = None ->
  0 <= mapfd mfd -> is_Some (os_fds s !! mapfd mfd) /\ mapfd mfd <> fd.
Proof.
  intros [_ Ho _] [Hd _] Hm Hfd Hge. rewrite sn_fds_one in Ho by done.
  destruct (ow_mine _ _ _ Ho (mapfd mfd) (list_elem_of_here _ _)) as (_ & _ & [o Hx]). split; [exists o; by apply (mf_fds _ _ Hm) |].
  intros <-. congruence.
Qed.

(** ** Opening for writing *)

Lemma hist_session R w h f e main flags ops :
  hist_inv R w h -> h_files h !! f = Some e -> fe_main e = Some main -> write_flags flags -> Forall wop_ok ops ->
  fe_used e + growth e (zlen ops) < 2 ^ 62 ->
  let '(outs, main') := wops_exec (has flags O_APPEND) main ops in
  zlen main' < 2 ^ 61 ->
  exists w', session mflock_lock mflock_unlock (inpath f) flags ops w = Some ((0, outs, 0), w') /\
    hist_inv R w' (with_file h f (after_session e (Some main') (zlen ops))).
Proof.
  intros Hi He Hmn Hfl Hops Hroom. destruct (hv_names _ _ _ Hi f e He) as (Hf & Hmf & _). pose proof (hv_sns _ _ _ Hi) as Hsn.
  destruct (hist_open_sn R w h f e Hi He) as (w1 & mfd & E1 & []). pose proof (ts_ok _ _ _ _ _ oi_step) as Hok1. pose proof Hok1 as [Hwf1 Hf1 _ _].
  assert (Hm1 : mem_step w w1) by (eapply sn_opened_mem; [apply (hv_buffer _ _ _ Hi) | done]).
  destruct (main_at R w h f e Hi He (w_os w1) main Hmn Hwf1 oi_main) as (im & m & Hent & Hat & Hr & Hst).
  pose proof (esfs_open_write_run mflock_lock mflock_unlock w (inpath f) _ flags mfd w1 im main (so_faults _ _ _ Hsn) (proj1 (proj2 Hf))
    (map_path_main R _ _ f (so_layout _ _ _ Hsn) Hmf) Hfl E1 Hf1 Hat) as Eo.
  set (fh := fresh (dom (w_mfds w1))) in *. set (fd := fresh_fd (w_os w1)) in *.
  set (s2 := opened (w_os w1) im (open_flags flags)) in *. set (wp := published w1 mfd fd s2) in *.
  pose proof (more_fds_opened (w_os w1) im (open_flags flags) : more_fds (w_os w1) s2) as Hmf2.
  assert (Hfd : fd_file s2 fd im main O_RDWR (has flags O_APPEND)).
  { apply fd_file_split. split; [by apply opened_writer | apply Hat]. }
  pose proof (sn_opened_number _ _ _ _ oi_sn) as Hnum.
  assert (Hsp : tree_step R (h_ids h) f (w_os w) (w_os wp)) by (eapply tree_step_trans; [done |]; by apply tree_step_same).
  assert (Hmp : mem_step w wp) by (destruct Hm1; by split).
  pose proof (lookup_insert_eq (w_mfds w1) fh (set_is_main mfd_main (set_mainfd fd mfd)) : w_mfds wp !! fh = _) as Hfh.
  destruct oi_kind as [(id0 & ip & id & old & map & dat & []) | [Hp Hpi]].
  - eapply (tail_saved R w h f e Hi He _ wp fh (has flags O_APPEND) im m main 0 Eo Hsp Hmp Hent Hr Hst ltac:(done) ops id0 ip id old map dat);
      try done; [| pose proof (growth_nonneg e 0 ltac:(done)); lia].
    eapply (handle_file_inv _ _ wp mfd); try done.
    + by eapply saved_handle_more.
    + eapply (save_ready_same w1); [done | done |]. by rewrite Hmn in si_ready.
    + by eapply (main_apart R w h f e Hi He (w_os w1)).
    + by eapply (main_apart R w h f e Hi He (w_os w1)).
    + by left.
  - eapply (tail_plain R w h f e Hi He _ wp fh (has flags O_APPEND) im m main 0 Eo Hsp Hmp Hent Hr Hst ltac:(done) ops); try done.
    + split; try done; [apply Hp | by exists O_RDWR].
    + exact (plain_mapfd w1 s2 mfd fd idle_table w oi_sn Hp Hmf2 (fresh_fd_free _)).
Qed.
