(* ===== verification/HistoryCreate.v ===== *)
(** Creating a file in a history: [esfs_create] saves all that the latest
    snapshot needs of a file that is there, makes or empties the file, and the
    session goes on with the new handle, which may be open for writing only. *)

From S2P Require Import Prelude Posix PosixSpec PosixPath Types Util UtilTheorems Mflock UtilLocking Layout Tree.
From S2P Require Import Snapshot SnapshotTheorems SnapshotDestroy Block CopyOnWrite BlockWrite BlockRead Mfd SnSteps.
From S2P Require Import FuseFd SnapshotIsolation FusePath MfdTheorems Descriptors SnStepsTheorems Survival.
From S2P Require Import Reopen Sessions HistoryNames History HistoryOpen HistorySessions HistoryWrites.

(** ** Flags *)

(** The flags and the mode that FUSE passes to create. *)
Definition create_ok (flags mode : Z) (main : option (list Z)) : Prop :=
  (Z.land flags O_ACCMODE = O_WRONLY \/ Z.land flags O_ACCMODE = O_RDWR) /\ (main = None \/ has flags O_EXCL = false) /\
  S_ISDIR (Z.lor S_IFREG mode) = false /\ 0 <= Z.lor S_IFREG mode < 2 ^ 32.

Definition create_flags (flags : Z) : Z := Z.lor (Z.lor flags O_CREAT) O_TRUNC.

Lemma create_flags_bit flags k : 0 <= k -> Z.testbit (create_flags flags) k = Z.testbit flags k || (k =? 6) || (k =? 9).
Proof.
  intros Hk. unfold create_flags. rewrite !Z.lor_spec.
  change O_CREAT with (2 ^ 6). change O_TRUNC with (2 ^ 9). rewrite !Z.pow2_bits_eqb by lia.
  by rewrite (Z.eqb_sym 6), (Z.eqb_sym 9).
Qed.

Lemma create_flags_has flags k : 0 <= k -> k <> 6 -> k <> 9 -> has (create_flags flags) (2 ^ k) = has flags (2 ^ k).
Proof.
  intros Hk H6 H9. rewrite !has_bit, create_flags_bit by done.
  rewrite (proj2 (Z.eqb_neq k 6)), (proj2 (Z.eqb_neq k 9)) by done. by rewrite !orb_false_r.
Qed.

Lemma create_flags_acc flags : Z.land (create_flags flags) O_ACCMODE = Z.land flags O_ACCMODE.
Proof.
  apply Z.bits_inj'. intros n Hn. rewrite !Z.land_spec, create_flags_bit by done. unfold O_ACCMODE.
  destruct (decide (2 <= n)); [rewrite (small_bits n 3) by lia; by rewrite !andb_false_r |].
  by rewrite (proj2 (Z.eqb_neq n 6)), (proj2 (Z.eqb_neq n 9)), !orb_false_r by lia.
Qed.

Lemma create_flags_trunc flags : has (create_flags flags) O_TRUNC = true.
Proof. change O_TRUNC with (2 ^ 9). rewrite has_bit, create_flags_bit by done. by rewrite orb_true_r. Qed.

Lemma create_flags_creat flags : has (create_flags flags) O_CREAT = true.
Proof. change O_CREAT with (2 ^ 6). rewrite has_bit, create_flags_bit by done. by rewrite orb_true_r. Qed.

(** ** Making or emptying the file *)

(** [s] with the file of the main space empty and open at [fd]. *)
Record emptied (R : path) (ids : list string) (f : fname) (flags fd : Z) (s s' : os) (im : nat) (m : stat_t) : Prop := {
  em_step : tree_step R ids f s s';
  em_entry : entry_at s' (R ++ full f) = Some (im, Inode m []);
  em_meta : S_ISDIR (st_mode m) = false /\ stat_wf (stat_of im (Inode m []));
  em_open : open_on s' fd im (Z.land flags O_ACCMODE) (has flags O_APPEND);
  em_fresh : os_fds s !! fd = None;
  em_fds : forall fd' o, os_fds s !! fd' = Some o -> os_fds s' !! fd' = Some o;
  em_same : same_but (eq (R ++ full f)) s s'
}.

Section Create.
Context (R : path) (w : world) (h : hstate) (f : fname) (e : fentry).
Context (Hi : hist_inv R w h) (He : h_files h !! f = Some e).
Context (flags mode : Z) (Hc : create_ok flags mode (fe_main e)).

Let Hf : name_ok f.
Proof. by eapply hv_names. Qed.
Abbreviation fpath := (join_path (R ++ full f)).

Lemma opened_fds s im fl fd' o : os_fds s !! fd' = Some o -> os_fds (opened s im fl) !! fd' = Some o.
Proof using. intros H. cbn. rewrite lookup_insert_ne; [done |]. intros <-. by rewrite fresh_fd_free in H. Qed.

(** The file exists. *)
Lemma empty_existing s c : fe_main e = Some c -> tree_ok R (h_ids h) f s ->
  entry_at s (R ++ full f) = entry_at (w_os w) (R ++ full f) ->
  exists fd s' im m, sys_open fpath (create_flags flags) mode s = (Ok fd, s') /\ emptied R (h_ids h) f flags fd s s' im m.
Proof using Hi He Hc.
  intros Hm Hok Hs. pose proof Hok as [Hwf Hfl _ _]. destruct Hc as (_ & [Hx | Hx] & _); [congruence |].
  destruct (main_at R w h f e Hi He s c Hm Hwf Hs) as (im & m & Hent & Hat & Hr & Hst).
  pose proof (open_existing s fpath (create_flags flags) mode im c Hfl Hat) as Eo.
  rewrite (create_flags_has flags 7 ltac:(done) ltac:(done) ltac:(done) : has _ O_EXCL = has flags O_EXCL), Hx, andb_false_r in Eo.
  specialize (Eo eq_refl). rewrite create_flags_trunc in Eo. eexists _, _, im, m. split; [exact Eo |].
  set (s1 := set_data im [] s). pose proof (frame_set_data (eq im) im [] s eq_refl : frame _ s s1) as Hfr.
  pose proof Hent as [Hn Hin]%entry_at_Some.
  assert (Hs1 : tree_step R (h_ids h) f s s1).
  { eapply tree_step_frame; [done | done | done |]. intros i <-. exists (R ++ full f). split; [done | by left]. }
  split.
  - eapply tree_step_trans; [done |]. apply tree_step_same; try done. apply Hs1.
  - change (entry_at s1 (R ++ full f) = Some (im, Inode m [])). eapply frame_entry; [done | done |]. by eapply regular_set_data; exists m.
  - done.
  - rewrite <-create_flags_acc, <-(create_flags_has flags 10 ltac:(done) ltac:(done) ltac:(done) : has _ O_APPEND = has flags O_APPEND).
    apply (opened_open_on s1).
  - apply fresh_fd_free.
  - intros fd' o Ho. by apply (opened_fds s1).
  - intros p Hp. change (entry_at s1 p = entry_at s p). apply (frame_same_but _ _ _ Hfr). intros (i & Hi' & <-). apply Hp.
    by eapply (wf_inj _ Hwf).
Qed.

(** The file is missing. *)
Lemma create_missing s : fe_main e = None -> tree_ok R (h_ids h) f s ->
  entry_at s (R ++ full f) = entry_at (w_os w) (R ++ full f) -> (forall p, is_dir (w_os w) p -> is_dir s p) ->
  exists fd s' im m, sys_open fpath (create_flags flags) mode s = (Ok fd, s') /\ emptied R (h_ids h) f flags fd s s' im m.
Proof using Hi He Hc.
  intros Hm Hok Hs Hd. pose proof Hok as [Hwf Hfl _ _]. destruct Hc as (_ & _ & Hmode & Hrange).
  pose proof (main_missing R w h f e Hi He s Hm Hwf Hs Hd) as Habs.
  destruct (create_new s fpath (create_flags flags) mode Hfl Habs (create_flags_creat flags) Hmode) as (s' & im & E & Hcr & Ho).
  pose proof (open_create s fpath (create_flags flags) mode Hfl Habs (create_flags_creat flags)) as E'. rewrite E in E'. injection E' as Es'.
  pose proof (fpath_resolve R w h f e Hi He) as Er. rewrite Er in Habs, Hcr, Es'. pose proof (main_comps R (ly_R _ _ _ (so_layout _ _ _ (hv_sns _ _ _ Hi))) f Hf) as Hcomp.
  assert (Hent : entry_at s' (R ++ full f) = Some (fresh_ino s, Inode (new_meta (Z.lor S_IFREG mode)) [])).
  { rewrite Es'. apply entry_at_Some. cbn. by rewrite !lookup_insert_eq. }
  assert (im = fresh_ino s) as ->.
  { destruct (cr_file _ _ _ _ _ Hcr) as (_ & Hn & _). apply entry_at_Some in Hent as [Hn' _]. congruence. }
  destruct (cr_tree _ _ _ _ _ Hcr Hwf Hcomp) as [_ Hsame].
  eexists _, s', (fresh_ino s), _. split; [exact E |]. split.
  - eapply tree_step_created; try done; [apply Habs | by left].
  - exact Hent.
  - split; [done |]. unfold stat_wf, stat_of. cbn -[u64 Z.lor Z.pow S_IFREG]. pose proof (u64_range (Z.of_nat (fresh_ino s))).
    change (zlen []) with 0. lia.
  - rewrite <-create_flags_acc, <-(create_flags_has flags 10 ltac:(done) ltac:(done) ltac:(done) : has _ O_APPEND = has flags O_APPEND). done.
  - apply fresh_fd_free.
  - intros fd' o Hx. rewrite Es'. by apply opened_fds.
  - done.
Qed.

Lemma create_main s : tree_ok R (h_ids h) f s -> entry_at s (R ++ full f) = entry_at (w_os w) (R ++ full f) ->
  (forall p, is_dir (w_os w) p -> is_dir s p) ->
  exists fd s' im m, sys_open fpath (create_flags flags) mode s = (Ok fd, s') /\ emptied R (h_ids h) f flags fd s s' im m.
Proof using Hi He Hc.
  intros. assert (Hm : (exists c, fe_main e = Some c) \/ fe_main e = None) by (destruct (fe_main e); eauto).
  destruct Hm as [[c Hm] | Hm]; [by eapply empty_existing | by apply create_missing].
Qed.
End Create.

(** ** The session *)

(** With the main file empty, every block of the old contents is saved. *)
Lemma cow_empty_saved old map dat : cow old [] map dat -> all_saved old map.
Proof.
  intros Hc b Hin Hp. pose proof (unsaved_nonempty old [] map dat b Hc Hin Hp) as H. pose proof Hin as [? _].
  change (zlen []) with 0 in H. unfold BL_S in H. lia.
Qed.

Lemma file_resize_0 c : file_resize c 0 = [].
Proof. unfold file_resize, ztake. done. Qed.

(** What is saved allows for a file that is cut to [n], or removed. *)
Lemma cut_cow R ids f e w n id0 ip id old map dat : cut_saved R ids f e w n id0 ip id old map dat -> 0 <= n ->
  cow old (file_resize (contents (fe_main e)) n) map dat \/ fe_main e = None /\ cow old [] map dat.
Proof.
  intros [] Hn. destruct cs_ready. destruct (fe_main e) as [c |]; [left | by right].
  apply cow_main_resize; [done | done | by eapply cs_range].
Qed.

Lemma regular_kept s s' p q i c : same_but (eq p) s s' -> p <> q -> os_names s !! q = Some i -> regular s i c -> regular s' i c.
Proof.
  intros Hs Hne Hq (m & Hm & Hr). assert (E : entry_at s' q = Some (i, Inode m c)).
  { rewrite (Hs q Hne). by apply entry_at_Some. }
  apply entry_at_Some in E as [_ ?]. by exists m.
Qed.

(** A name whose entry is the same is the name of the same inode. *)
Lemma name_kept s s' p i : os_wf s -> os_names s !! p = Some i -> entry_at s' p = entry_at s p -> os_names s' !! p = Some i.
Proof.
  intros Hwf Hp He. destruct (wf_node _ Hwf _ _ Hp) as [n Hn].
  apply (entry_at_Some s' p i n). rewrite He. by apply entry_at_Some.
Qed.

Section Session.
Context (R : path) (w : world) (h : hstate) (f : fname) (e : fentry).
Context (Hi : hist_inv R w h) (He : h_files h !! f = Some e).
Context (flags mode : Z) (Hc : create_ok flags mode (fe_main e)).
Context (w1 : world) (mfd : mfd_t).
Context (Eopen : mfd_open_sn mflock_lock mflock_unlock (w_junk_mfd w) (inpath f) (Some (join_path (R ++ full f))) w = Some ((0, mfd), w1)).
Context (Ho : opened_in R (h_ids h) f e w w1 mfd).

Let Hf : name_ok f.
Proof. by eapply hv_names. Qed.
Let Hi1 : hist_inv R w1 h.
Proof. by eapply opened_hist. Qed.
Let Hsn : snapshots_ok w R (h_ids h).
Proof. apply Hi. Qed.
Let Hm1 : mem_step w w1.
Proof. eapply sn_opened_mem; [apply (hv_buffer _ _ _ Hi) | apply Ho]. Qed.
Let Hacc : Z.land flags O_ACCMODE <> O_RDONLY.
Proof. destruct Hc as ([-> | ->] & _); done. Qed.

Lemma opened_number : mfd_sn_number mfd = sn_number (w_fs w1).
Proof using Ho. eapply sn_opened_number, Ho. Qed.

Lemma create_plain ops : plain_handle mfd -> plain_in R (h_ids h) f e (w_os w1) -> Forall wop_ok ops ->
  let '(outs, main') := wops_exec (has flags O_APPEND) [] ops in
  zlen main' < 2 ^ 61 ->
  exists w', create_session mflock_lock mflock_unlock (inpath f) mode flags ops w = Some ((0, outs, 0), w') /\
    hist_inv R w' (with_file h f (after_session e (Some main') (1 + zlen ops))).
Proof using All.
  intros Hp Hpi Hops. pose proof (ts_ok _ _ _ _ _ (oi_step _ _ _ _ _ _ _ Ho)) as Hok1.
  destruct (create_main R w h f e Hi He flags mode Hc (w_os w1) Hok1 (oi_main _ _ _ _ _ _ _ Ho) (ts_dirs _ _ _ _ _ (oi_step _ _ _ _ _ _ _ Ho)))
    as (fd & s & im & m & Eo & []). set (wp := published w1 mfd fd s). set (fh := fresh (dom (w_mfds w1))).
  assert (Ecr : esfs_create mflock_lock mflock_unlock (inpath f) mode flags w = Some ((0, Some fh), wp)).
  { eapply esfs_create_run; [apply Hsn | apply Hf | eapply map_path_main; [apply Hsn | by eapply hv_names] | exact Eopen | | exact Eo].
    destruct (ph_map _ Hp) as [-> | [_ ->]]; [done |]. by rewrite andb_false_r. }
  assert (Hsp : tree_step R (h_ids h) f (w_os w) (w_os wp)) by (eapply tree_step_trans; [apply Ho | done]).
  assert (Hmp : mem_step w wp) by (destruct Hm1; by split).
  eapply (tail_plain R w h f e Hi He _ wp fh (has flags O_APPEND) im m [] 1 Ecr Hsp Hmp em_entry0 (proj1 em_meta0) (proj2 em_meta0) ltac:(done) ops
    (set_is_main mfd_main (set_mainfd fd mfd))); try done.
  - split; try done; [apply Hsp | cbn; by rewrite lookup_insert_eq | apply opened_number | apply Hp |].
    eexists. split; [| exact Hacc]. apply fd_file_split. split; [done |]. apply entry_at_Some in em_entry0 as [_ ?]. exists m. by split; [| apply em_meta0].
  - intros Hge. cbn in Hge |- *. pose proof (so_owned _ _ _ _ (oi_sn _ _ _ _ _ _ _ Ho)) as Hown. rewrite sn_fds_one in Hown by (done || apply Hp).
    destruct (ow_mine _ _ _ Hown (mapfd mfd) (list_elem_of_here _ _)) as (_ & _ & [o Hx]). split; [exists o; by apply em_fds0 |].
    intros <-. congruence.
  - eapply plain_in_move; [| done]. intros id0 _. split; (eapply same_but_node; [done |]); by apply main_not_sn_file.
Qed.

Lemma create_saved ops id0 ip id old map dat : saved_in R (h_ids h) f e w1 mfd id0 ip id old map dat -> Forall wop_ok ops ->
  fe_used e + growth e (1 + zlen ops) < 2 ^ 62 ->
  let '(outs, main') := wops_exec (has flags O_APPEND) [] ops in
  zlen main' < 2 ^ 61 ->
  exists w', create_session mflock_lock mflock_unlock (inpath f) mode flags ops w = Some ((0, outs, 0), w') /\
    hist_inv R w' (with_file h f (after_session e (Some main') (1 + zlen ops))).
Proof using All.
  intros Hsv Hops Hroom. pose proof Hsv as []. pose proof si_handle as Hh. destruct Hh. pose proof (zlen_nonneg ops).
  pose proof (so_wf _ _ _ (hv_sns _ _ _ Hi1)) as Hwf1.
  pose proof (growth_add e 1 (zlen ops)) as Hga. pose proof (growth_nonneg e (zlen ops) ltac:(done)) as Hgn.
  destruct (hist_truncate_close R w1 h f e 0 Hi1 He ltac:(done) ltac:(lia)) as (w2 & Et & []).
  assert (Hat : forall p i c, os_names (w_os w1) !! p = Some i -> regular (w_os w1) i c -> os_names (w_os w2) !! p = Some i).
  { intros p i c Hp (m' & Hm' & Hr'). apply (tc_kept p i c). eapply entry_regular; [done | by apply entry_at_Some | done]. }
  destruct tc_kind as [(id0' & ip' & id' & old' & map' & dat' & Hcut) | Hpl].
  2: { by destruct (Hpl id0 (Some old) si_id si_view) as [? _]. }
  pose proof Hcut as []. rewrite si_id in cs_id. injection cs_id as <-. rewrite si_view in cs_view. injection cs_view as <-.
  rewrite (Hat _ _ _ si_map sh_map) in cs_map. injection cs_map as <-. rewrite (Hat _ _ _ si_dat sh_dat) in cs_dat. injection cs_dat as <-.
  pose proof (ts_ok _ _ _ _ _ tc_step) as Hok2.
  assert (Hmain2 : entry_at (w_os w2) (R ++ full f) = entry_at (w_os w) (R ++ full f)) by (rewrite tc_main; apply (oi_main _ _ _ _ _ _ _ Ho)).
  destruct (create_main R w h f e Hi He flags mode Hc (w_os w2) Hok2 Hmain2) as (fd & s & im & m & Eo & []).
  { intros p Hp. by apply tc_step, Ho. }
  set (wp := published w2 mfd fd s). set (fh := fresh (dom (w_mfds w2))).
  assert (Ecr : esfs_create mflock_lock mflock_unlock (inpath f) mode flags w = Some ((0, Some fh), wp)).
  { eapply esfs_create_run; [apply Hsn | apply Hf | eapply map_path_main; [apply Hsn | by eapply hv_names] | exact Eopen | | exact Eo].
    destruct (Z.leb_spec 0 (mapfd mfd)); [| lia]. by rewrite (proj1 sh_header). }
  assert (Hcow : cow old [] map' dat').
  { by destruct (cut_cow R (h_ids h) f e w2 0 id0 ip id old map' dat' Hcut ltac:(done)) as [Hx | [_ Hx]]; rewrite ?file_resize_0 in Hx. }
  assert (Hsp : tree_step R (h_ids h) f (w_os w) (w_os wp)) by (eapply tree_step_trans; [apply Ho | by eapply tree_step_trans]).
  assert (Hmp : mem_step w wp) by (eapply mem_step_trans; [exact Hm1 |]; destruct tc_mem; by split).
  assert (Hnames : forall x i, os_names (w_os w2) !! sn_file R id0 f.1 f.2 x = Some i -> os_names s !! sn_file R id0 f.1 f.2 x = Some i).
  { intros x i Hx. eapply name_kept; [apply Hok2 | exact Hx |]. apply em_same0. by apply main_not_sn_file. }
  pose proof (Hat _ _ _ si_map sh_map) as Hp2. pose proof (Hat _ _ _ si_dat sh_dat) as Hd2.
  assert (Hfd : fd_file s fd im [] (Z.land flags O_ACCMODE) (has flags O_APPEND)).
  { apply fd_file_split. split; [done |]. apply entry_at_Some in em_entry0 as [_ ?]. exists m. by split; [| apply em_meta0]. }
  eapply (tail_saved R w h f e Hi He _ wp fh (has flags O_APPEND) im m [] 1 Ecr Hsp Hmp em_entry0 (proj1 em_meta0) (proj2 em_meta0) ltac:(done)
    ops id0 ip id old map' dat'); try done; [by apply Hnames | by apply Hnames |].
  eapply (handle_file_inv _ _ wp mfd); try done.
  - split; try done; cbn [w_os wp published set_mfds set_os].
    + eapply regular_kept; [done | | exact Hp2 | done]. by apply main_not_sn_file.
    + eapply regular_kept; [done | | exact Hd2 | done]. by apply main_not_sn_file.
    + destruct (owned_open_on _ _ _ _ _ _ _ tc_fds sh_mapfd) as [pos Hx]. exists pos. by apply em_fds0.
    + destruct (owned_open_on _ _ _ _ _ _ _ tc_fds sh_datfd) as [pos Hx]. exists pos. by apply em_fds0.
  - destruct cs_ready. split; try done. apply Hsp.
  - by eapply (main_apart R w h f e Hi He s), Hnames; [apply Hsp | |].
  - by eapply (main_apart R w h f e Hi He s), Hnames; [apply Hsp | |].
  - right. by eapply cow_empty_saved.
  - rewrite opened_number. symmetry. apply (f_equal sn_number (ms_fs _ _ tc_mem)).
  - apply lookup_insert_eq.
Qed.
End Session.

Lemma hist_create R w h f e flags mode ops :
  hist_inv R w h -> h_files h !! f = Some e -> create_ok flags mode (fe_main e) -> Forall wop_ok ops ->
  fe_used e + growth e (1 + zlen ops) < 2 ^ 62 ->
  let '(outs, main') := wops_exec (has flags O_APPEND) [] ops in
  zlen main' < 2 ^ 61 ->
  exists w', create_session mflock_lock mflock_unlock (inpath f) mode flags ops w = Some ((0, outs, 0), w') /\
    hist_inv R w' (with_file h f (after_session e (Some main') (1 + zlen ops))).
Proof.
  intros Hi He Hc Hops Hroom. destruct (hist_open_sn R w h f e Hi He) as (w1 & mfd & E & Ho).
  destruct (oi_kind _ _ _ _ _ _ _ Ho) as [(id0 & ip & id & old & map & dat & Hs) | [Hp Hpi]].
  - by eapply (create_saved R w h f e Hi He flags mode Hc w1 mfd E Ho).
  - by eapply (create_plain R w h f e Hi He flags mode Hc w1 mfd E Ho).
Qed.
