(* ===== verification/HistoryPaths.v ===== *)
(** Requests that name a file of a history by its path: unlink, truncate,
    chmod, chown and utimens.  What the latest snapshot needs is saved first;
    on a missing file the answer is ENOENT. *)

From S2P Require Import Prelude Posix PosixSpec PosixPath Types Util UtilTheorems Mflock UtilLocking Layout Tree.
From S2P Require Import Snapshot SnapshotTheorems SnapshotDestroy Block CopyOnWrite BlockWrite BlockRead Mfd SnSteps.
From S2P Require Import FuseFd SnapshotIsolation FusePath MfdTheorems Descriptors SnStepsTheorems Survival.
From S2P Require Import Reopen Sessions HistoryNames History HistoryOpen HistorySessions HistoryWrites HistoryCreate.

(** ** Steps on the main file alone *)

Lemma tree_step_main R ids f s s' :
  name_ok f -> tree_ok R ids f s -> os_wf s' -> os_faults s' = [] -> same_but (eq (R ++ full f)) s s' ->
  ~ is_dir s (R ++ full f) -> ~ is_dir s' (R ++ full f) -> tree_step R ids f s s'.
Proof.
  intros Hf Hok Hwf Hfl Hs Hn Hn'. apply tree_step_files; try done.
  - intros p Hp. apply Hs. intros <-. apply Hp. by left.
  - intros p _ Hd. destruct (decide (p = R ++ full f)) as [-> | Hne]; [done |]. destruct Hd as (n & Hx & Hd). exists n.
    by rewrite <-(same_but_node _ _ _ _ Hs (not_eq_sym Hne)).
  - intros p Hd. eapply same_but_dir; [done | | done]. by intros <-.
Qed.

(** Removing it. *)
Lemma unlink_step R ids f s im m c :
  name_ok f -> tree_ok R ids f s -> entry_at s (R ++ full f) = Some (im, Inode m c) -> S_ISDIR (st_mode m) = false ->
  let s' := set_names (delete (R ++ full f) (os_names s)) s in
  tree_step R ids f s s' /\ same_but (eq (R ++ full f)) s s' /\ entry_at s' (R ++ full f) = None.
Proof.
  intros Hf Hok Hent Hr s'. pose proof Hok as [Hwf Hfl _ _].
  assert (Hnd : ~ is_dir s (R ++ full f)).
  { intros (n & Hn & Hd). rewrite node_entry, Hent in Hn. injection Hn as <-. unfold i_isdir in Hd. cbn [i_meta] in Hd. congruence. }
  assert (Hleaf : forall x, os_names s !! ((R ++ full f) ++ [x]) = None).
  { intros x. destruct (os_names s !! _) as [i |] eqn:E; [| done]. by destruct (Hnd (wf_parent _ Hwf _ _ _ E)). }
  pose proof (delete_leaf s (R ++ full f) Hwf Hleaf : removed [R ++ full f] s s') as Hrm.
  assert (Hne : [] <> R ++ full f) by (destruct R; [by destruct f as [[] ?] | done]).
  assert (Hwf' : os_wf s') by (eapply removed_wf; [done | by intros ?%list_elem_of_singleton | done]).
  assert (Hsame : same_but (eq (R ++ full f)) s s').
  { intros p Hp. unfold entry_at, s'. cbn. by rewrite lookup_delete_ne. }
  assert (Hgone : entry_at s' (R ++ full f) = None) by (unfold entry_at, s'; cbn; by rewrite lookup_delete_eq).
  split_and!; [| done | done]. apply tree_step_main; try done. intros (n & Hn & _). by rewrite node_entry, Hgone in Hn.
Qed.

(** New metadata that keep the type of the file. *)
Lemma meta_step R ids f s im m m' c :
  name_ok f -> tree_ok R ids f s -> entry_at s (R ++ full f) = Some (im, Inode m c) ->
  S_ISDIR (st_mode m) = false -> S_ISDIR (st_mode m') = false ->
  tree_step R ids f s (set_meta im m' s) /\ same_but (eq (R ++ full f)) s (set_meta im m' s) /\
    entry_at (set_meta im m' s) (R ++ full f) = Some (im, Inode m' c).
Proof.
  intros Hf Hok Hent Hr Hr'. pose proof Hok as [Hwf Hfl _ _]. pose proof Hent as [Hn Hin]%entry_at_Some. set (s' := set_meta im m' s).
  assert (Hent' : entry_at s' (R ++ full f) = Some (im, Inode m' c)).
  { apply entry_at_Some. split; [done |]. cbn. by rewrite lookup_alter_eq, Hin. }
  assert (Hsame : same_but (eq (R ++ full f)) s s').
  { intros p Hp. unfold entry_at. cbn. destruct (os_names s !! p) as [i |] eqn:Ei; [| done]. cbn.
    destruct (decide (i = im)) as [-> | Hne]; [by destruct (Hp (wf_inj _ Hwf _ _ _ Hn Ei)) | by rewrite lookup_alter_ne]. }
  assert (Hnd : forall t x, entry_at t (R ++ full f) = Some (im, x) -> i_isdir x = false -> ~ is_dir t (R ++ full f)).
  { intros t x Ht Hx (y & Hy & Hd). rewrite node_entry, Ht in Hy. injection Hy as <-. congruence. }
  assert (Hnd0 : ~ is_dir s (R ++ full f)) by by eapply Hnd.
  assert (Hdir : forall p, is_dir s p -> is_dir s' p).
  { intros p Hd. eapply same_but_dir; [done | | done]. by intros <-. }
  split_and!; [| done | done]. apply tree_step_main; try done; [| by eapply Hnd].
  destruct Hwf. split; try done; [by apply Hdir | | by intros; eapply Hdir, wf_parent].
  intros p i Hp. cbn. destruct (decide (i = im)) as [-> | Hne]; [by rewrite lookup_alter_eq, Hin | rewrite lookup_alter_ne by done; eauto].
Qed.

(** ** The handlers *)

Section Paths.
Context (R : path) (w : world) (h : hstate) (f : fname) (e : fentry).
Context (Hi : hist_inv R w h) (He : h_files h !! f = Some e).

Let Hf : name_ok f.
Proof. by eapply hv_names. Qed.
Abbreviation fpath := (join_path (R ++ full f)).

Lemma main_only body : if_path_main_only (inpath f) body w = body fpath w.
Proof using Hi He.
  destruct (hv_names _ _ _ Hi f e He) as (_ & Hmf & _). unfold if_path_main_only.
  rewrite (st_bind_run get_fs _ w (w_fs w) w eq_refl), (proj1 (proj2 Hf)).
  by rewrite (map_path_main R _ _ f (so_layout _ _ _ (hv_sns _ _ _ Hi)) Hmf).
Qed.

(** Calls on a path: found, or missing. *)
Lemma lookup_main s main : fe_main e = Some main -> os_wf s -> entry_at s (R ++ full f) = entry_at (w_os w) (R ++ full f) ->
  exists im m, lookup_path s (resolve fpath) = Ok im /\ os_inodes s !! im = Some (Inode m main) /\
    entry_at s (R ++ full f) = Some (im, Inode m main) /\ S_ISDIR (st_mode m) = false /\ stat_wf (stat_of im (Inode m [])).
Proof using Hi He.
  intros Hm Hwf Hs. destruct (main_at R w h f e Hi He s main Hm Hwf Hs) as (im & m & Hent & (Hd & Hn & _) & Hr & Hst).
  pose proof Hent as [_ Hin]%entry_at_Some. exists im, m. unfold lookup_path. by rewrite Hd, Hn.
Qed.

Lemma lookup_missing s : fe_main e = None -> os_wf s -> entry_at s (R ++ full f) = entry_at (w_os w) (R ++ full f) ->
  (forall p, is_dir (w_os w) p -> is_dir s p) -> lookup_path s (resolve fpath) = Err ENOENT.
Proof using Hi He.
  intros Hm Hwf Hs Hd. destruct (main_missing R w h f e Hi He s Hm Hwf Hs Hd) as [Hw Hn]. unfold lookup_path. by rewrite Hw, Hn.
Qed.

(** *** Saved, then cut or removed *)

Section Cut.
Context (n : Z) (w2 : world) (Ht : truncated_in R (h_ids h) f e w w2 n) (Hn : 0 <= n).

(** The history once the main file has changed too: [main'] is what is left of it. *)
Lemma cut_end s main' :
  tree_step R (h_ids h) f (w_os w2) s -> same_but (eq (R ++ full f)) (w_os w2) s -> main_is s (R ++ full f) main' ->
  main' = fe_main e \/ contents main' = file_resize (contents (fe_main e)) n ->
  hist_inv R (set_os s w2) (with_file h f (after_session e main' 1)).
Proof using All.
  intros Hs Hsame Hmain Hm'. destruct Ht.
  assert (Hstep : tree_step R (h_ids h) f (w_os w) s) by by eapply tree_step_trans.
  assert (Hmem : mem_step w (set_os s w2)) by (destruct tc_mem; by split).
  destruct tc_kind as [(id0 & ip & id & old & map & dat & Hcut) | Hp].
  2: { eapply (end_plain R w); try done. by eapply plain_in_kept. }
  pose proof Hcut as [].
  destruct (sn_file_kept _ _ _ _ _ _ _ _ Hf Hsame cs_map cs_rmap), (sn_file_kept _ _ _ _ _ _ _ _ Hf Hsame cs_dat cs_rdat). destruct cs_ready.
  eapply (end_saved R w) with (id0 := id0) (ip := ip) (id := id) (old := old) (map := map) (dat := dat); try done.
  - destruct Hm' as [-> | ->]; [done |]. destruct (cut_cow R (h_ids h) f e w2 n id0 ip id old map dat Hcut Hn) as [? | [Em Hx]]; [done |].
    rewrite Em. apply (cow_main_resize old []); [by rewrite Em in sv_cow | done |].
    intros _ _ b Hin _ _. by eapply cow_empty_saved.
  - unfold growth in cs_used. destruct (fe_views e) as [| v vs]; [done |]. injection cs_view as ->. lia.
Qed.

Lemma cut_same : hist_inv R w2 (with_file h f (after_session e (fe_main e) 1)).
Proof using All.
  rewrite <-(set_os_id w2). apply cut_end; [| done | | by left].
  - apply tree_step_refl, (ts_ok _ _ _ _ _ (tc_step _ _ _ _ _ _ _ Ht)).
  - eapply main_is_move; [apply (tc_main _ _ _ _ _ _ _ Ht) | apply (fh_main _ _ _ _ _ (hv_files _ _ _ Hi f e He))].
Qed.
End Cut.

Context (Hroom : fe_used e + growth e 1 < 2 ^ 62).

Lemma hist_unlink : exists w', esfs_unlink mflock_lock mflock_unlock (inpath f) w
    = Some (match fe_main e with Some _ => 0 | None => - ENOENT end, w') /\
  hist_inv R w' (with_file h f (after_session e None 1)).
Proof using All.
  destruct (hist_truncate_close R w h f e 0 Hi He ltac:(done) Hroom) as (w2 & Et & Ht). pose proof Ht as [].
  pose proof (ts_ok _ _ _ _ _ tc_step) as Hok2. pose proof Hok2 as [Hwf2 Hf2 _ _]. unfold esfs_unlink. rewrite main_only.
  destruct (fe_main e) as [main |] eqn:Hmn.
  - destruct (lookup_main (w_os w2) main Hmn Hwf2 tc_main) as (im & m & El & Ein & Hent & Hr & _).
    destruct (unlink_step R (h_ids h) f (w_os w2) im m main Hf Hok2 Hent Hr) as (Hs & Hsame & Hgone).
    set (s' := set_names _ _) in *. exists (set_os s' w2). split.
    + rewrite (st_bind_run _ _ _ _ _ Et). cbn [Z.eqb negb].
      assert (Eu : sys_unlink fpath (w_os w2) = (Ok tt, s')).
      { unfold sys_unlink. rewrite syscall_ok by done. rewrite El, Ein. unfold i_isdir. cbn [i_meta]. rewrite Hr.
        by rewrite (fpath_resolve R w h f e Hi He). }
      by rewrite (st_bind_run _ _ _ _ _ (sys_run _ w2 _ _ Eu)).
    + apply (cut_end 0 w2 Ht ltac:(done) s' None); try done. right. by rewrite Hmn, file_resize_0.
  - exists w2. split; [| rewrite <-Hmn; by apply (cut_same 0)]. rewrite (st_bind_run _ _ _ _ _ Et). cbn [Z.eqb negb].
    assert (Eu : sys_unlink fpath (w_os w2) = (Err ENOENT, w_os w2)).
    { unfold sys_unlink. rewrite syscall_ok by done. by rewrite (lookup_missing _ Hmn Hwf2 tc_main (ts_dirs _ _ _ _ _ tc_step)). }
    by rewrite (st_bind_run _ _ _ _ _ (sys_run _ w2 _ _ Eu)), set_os_id.
Qed.

Lemma hist_truncate n : 0 <= n < 2 ^ 61 -> exists w', esfs_truncate mflock_lock mflock_unlock (inpath f) n w
    = Some (match fe_main e with Some _ => 0 | None => - ENOENT end, w') /\
  hist_inv R w' (with_file h f (after_session e ((fun c => file_resize c n) <$> fe_main e) 1)).
Proof using All.
  intros [Hn Hbig]. destruct (hist_truncate_close R w h f e n Hi He Hn Hroom) as (w2 & Et & Ht). pose proof Ht as [].
  pose proof (ts_ok _ _ _ _ _ tc_step) as Hok2. pose proof Hok2 as [Hwf2 Hf2 _ _]. unfold esfs_truncate. rewrite main_only.
  destruct (fe_main e) as [main |] eqn:Hmn; cbn [fmap option_fmap option_map].
  - destruct (lookup_main (w_os w2) main Hmn Hwf2 tc_main) as (im & m & El & Ein & Hent & Hr & Hst).
    set (s' := set_data im (file_resize main n) (w_os w2)). pose proof (frame_set_data (eq im) im (file_resize main n) (w_os w2) eq_refl : frame _ _ s') as Hfr.
    pose proof Hent as [Hnm _]%entry_at_Some. exists (set_os s' w2). split.
    + rewrite (st_bind_run _ _ _ _ _ Et). cbn [Z.eqb negb].
      assert (Eu : sys_truncate fpath n (w_os w2) = (Ok tt, s')).
      { unfold sys_truncate. rewrite syscall_ok by done. rewrite El, Ein. destruct (Z.ltb_spec n 0); [lia |].
        unfold i_isdir. cbn [i_meta]. by rewrite Hr. }
      by rewrite (st_bind_run _ _ _ _ _ (sys_run _ w2 _ _ Eu)).
    + apply (cut_end n w2 Ht Hn s' (Some (file_resize main n))); [| | | right; by rewrite Hmn].
      * eapply tree_step_frame; [done | done | done |]. intros i <-. exists (R ++ full f). split; [done | by left].
      * intros p Hp. apply (frame_same_but _ _ _ Hfr). intros (i & Hi' & <-). apply Hp. by eapply (wf_inj _ Hwf2).
      * exists im, m. split_and!; [| done | done | by rewrite zlen_file_resize]. eapply frame_entry; [done | done |].
        by eapply regular_set_data; exists m.
  - exists w2. split; [| rewrite <-Hmn; by apply (cut_same n)]. rewrite (st_bind_run _ _ _ _ _ Et). cbn [Z.eqb negb].
    assert (Eu : sys_truncate fpath n (w_os w2) = (Err ENOENT, w_os w2)).
    { unfold sys_truncate. rewrite syscall_ok by done. by rewrite (lookup_missing _ Hmn Hwf2 tc_main (ts_dirs _ _ _ _ _ tc_step)). }
    by rewrite (st_bind_run _ _ _ _ _ (sys_run _ w2 _ _ Eu)), set_os_id.
Qed.

(** *** The stat is saved, then changed *)

(** A change of metadata that keeps the file a file, with fields that fit. *)
Definition meta_ok (g : stat_t -> stat_t) : Prop :=
  forall im m, S_ISDIR (st_mode m) = false -> stat_wf (stat_of im (Inode m [])) ->
    S_ISDIR (st_mode (g m)) = false /\ stat_wf (stat_of im (Inode (g m) [])).

Lemma on_node_main s g main : fe_main e = Some main -> tree_ok R (h_ids h) f s -> meta_ok g ->
  entry_at s (R ++ full f) = entry_at (w_os w) (R ++ full f) ->
  exists s', on_node fpath g s = (Ok tt, s') /\ tree_step R (h_ids h) f s s' /\ same_but (eq (R ++ full f)) s s' /\
    main_is s' (R ++ full f) (Some main).
Proof using Hi He.
  intros Hm Hok Hg Hs. pose proof Hok as [Hwf Hfl _ _]. destruct (lookup_main s main Hm Hwf Hs) as (im & m & El & Ein & Hent & Hr & Hst).
  destruct (Hg im m Hr Hst) as [Hr' Hst']. destruct (meta_step R (h_ids h) f s im m (g m) main Hf Hok Hent Hr Hr') as (H1 & H2 & H3).
  exists (set_meta im (g m) s). split_and!; [| done | done |].
  - unfold on_node. rewrite syscall_ok by done. by rewrite El, Ein.
  - exists im, (g m). split_and!; try done. pose proof (fh_main _ _ _ _ _ (hv_files _ _ _ Hi f e He)) as Hx. rewrite Hm in Hx.
    by destruct Hx as (? & ? & _ & _ & _ & ?).
Qed.

Lemma on_node_missing s g : fe_main e = None -> tree_ok R (h_ids h) f s ->
  entry_at s (R ++ full f) = entry_at (w_os w) (R ++ full f) -> (forall p, is_dir (w_os w) p -> is_dir s p) ->
  on_node fpath g s = (Err ENOENT, s).
Proof using Hi He.
  intros Hm [Hwf Hfl _ _] Hs Hd. unfold on_node. rewrite syscall_ok by done. by rewrite (lookup_missing s Hm Hwf Hs Hd).
Qed.

Lemma hist_save_and g : meta_ok g ->
  exists w', save_and mflock_lock mflock_unlock (inpath f) (fun p => on_node p g) w
    = Some (match fe_main e with Some _ => 0 | None => - ENOENT end, w') /\ hist_inv R w' h.
Proof using Hi He.
  intros Hg. destruct (hist_open_sn R w h f e Hi He) as (w1 & mfd & E1 & Ho). pose proof Ho as [].
  pose proof (ts_ok _ _ _ _ _ oi_step) as Hok1. pose proof Hok1 as [Hwf1 Hf1 _ _].
  destruct (mfd_init_sn_run mflock_lock mflock_unlock w (inpath f) fpath mfd w1 [] (w_os w) E1 Hf1) as (x & Ei & _).
  { rewrite app_nil_r. apply (so_owned _ _ _ _ oi_sn). }
  set (s2 := set_fds x (w_os w1)) in *.
  assert (Hs2 : tree_step R (h_ids h) f (w_os w1) s2) by by apply tree_step_same.
  assert (Hd2 : forall p, is_dir (w_os w) p -> is_dir s2 p) by (intros p Hp; by apply Hs2, oi_step).
  unfold save_and. rewrite main_only, (st_bind_run _ _ _ _ _ Ei). cbn [Z.eqb negb].
  destruct (fe_main e) as [main |] eqn:Hm.
  - destruct (on_node_main s2 g main Hm (ts_ok _ _ _ _ _ Hs2) Hg oi_main) as (s' & Eo & Hs' & Hsame & Hmain).
    exists (set_os s' w1). split; [by rewrite (st_bind_run _ _ _ _ _ (sys_run _ (set_os s2 w1) _ _ Eo)) |].
    eapply opened_end; try done; [by eapply tree_step_trans | by rewrite Hm].
  - exists (set_os s2 w1). split.
    + by rewrite (st_bind_run _ _ _ _ _ (sys_run _ (set_os s2 w1) _ _ (on_node_missing s2 g Hm (ts_ok _ _ _ _ _ Hs2) oi_main Hd2))).
    + eapply opened_end; try done. eapply (opened_main R w h f e); done.
Qed.

(** The times are changed without saving. *)
Lemma hist_utimens atim mtim : meta_ok (fun m => with_times m atim mtim) ->
  exists w', esfs_utimens (inpath f) atim mtim w = Some (match fe_main e with Some _ => 0 | None => - ENOENT end, w') /\ hist_inv R w' h.
Proof using Hi He.
  intros Hg. pose proof (hist_tree_ok R w h f e Hi He) as Hok. unfold esfs_utimens. rewrite main_only.
  destruct (fe_main e) as [main |] eqn:Hm.
  - destruct (on_node_main (w_os w) _ main Hm Hok Hg eq_refl) as (s' & Eo & Hs' & Hsame & Hmain).
    exists (set_os s' w). split; [by rewrite (st_bind_run _ _ _ _ _ (sys_run _ w _ _ Eo)) |].
    rewrite <-(with_file_same h f e He). pose proof (hv_files _ _ _ Hi f e He) as []. pose proof (hist_mem R w h Hi) as [].
    apply (hist_inv_step R w); try done.
    + by rewrite Hm.
    + intros id0 v Hid Hv. eapply step_view_move; [by eapply same_but_node; [| apply main_not_sn_file] | by eapply same_but_node; [| apply main_not_sn_file] |].
      destruct (h_ids h), (fe_views e); try done. injection Hid as ->. injection Hv as ->. by apply (fh_steps 0%nat).
    + intros id0 dat Hid Hd. pose proof (growth_nonneg e 0 ltac:(done)). etransitivity; [apply (fh_used id0); [done |] | lia].
      eapply same_but_file; [| | done]; [| by apply main_not_sn_file]. intros p Hp. by rewrite Hsame.
    + pose proof (growth_nonneg e 0 ltac:(done)). lia.
  - exists w. split; [| done].
    pose proof (on_node_missing (w_os w) (fun m => with_times m atim mtim) Hm Hok eq_refl ltac:(done)
      : sys_utimens fpath atim mtim (w_os w) = _) as Eo.
    by rewrite (st_bind_run _ _ _ _ _ (sys_run _ w _ _ Eo)), set_os_id.
Qed.
End Paths.

(** What the three requests do to the metadata. *)

Lemma mode_bits a b : 0 <= a ->
  let c := Z.lor (Z.land a S_IFMT) (Z.land b 4095) in Z.land c S_IFMT = Z.land a S_IFMT /\ 0 <= c < 2 ^ 32.
Proof.
  intros Ha c. unfold c. split.
  - rewrite Z.land_lor_distr_l, <-!Z.land_assoc, Z.land_diag. change (Z.land 4095 S_IFMT) with 0. by rewrite Z.land_0_r, Z.lor_0_r.
  - assert (H1 : 0 <= Z.land a S_IFMT) by (apply Z.land_nonneg; by left).
    assert (H2 : 0 <= Z.land b 4095) by (apply Z.land_nonneg; by right).
    assert (H : 0 <= Z.lor (Z.land a S_IFMT) (Z.land b 4095)) by by apply Z.lor_nonneg.
    split; [done |]. destruct (Z.eq_dec (Z.lor (Z.land a S_IFMT) (Z.land b 4095)) 0) as [-> | Hne]; [done |].
    apply Z.log2_lt_pow2; [lia |]. rewrite Z.log2_lor by done.
    pose proof (Z.log2_land a S_IFMT Ha ltac:(done)) as L1. change (Z.log2 S_IFMT) with 15 in L1.
    change 4095 with (Z.ones 12). rewrite Z.land_ones by done. pose proof (Z.mod_pos_bound b (2 ^ 12) ltac:(done)) as L2.
    pose proof (Z.log2_le_mono (b mod 2 ^ 12) (2 ^ 12) ltac:(lia)) as L3. change (Z.log2 (2 ^ 12)) with 12 in L3. lia.
Qed.

Lemma with_mode_ok mode : meta_ok (fun m => with_mode m mode).
Proof.
  intros im m Hr Hst. unfold stat_wf, stat_of, with_mode, S_ISDIR in *. cbn -[Z.pow Z.lor Z.land u64 zlen S_IFMT S_IFDIR] in *.
  destruct (mode_bits (st_mode m) mode ltac:(lia)) as [E Hc]. rewrite E. split; [done | lia].
Qed.

Lemma with_owner_ok uid gid : 0 <= uid < 2 ^ 32 -> 0 <= gid < 2 ^ 32 -> meta_ok (fun m => with_owner m uid gid).
Proof. intros Hu Hg im m Hr Hst. unfold stat_wf, stat_of, with_owner in *. cbn -[Z.pow u64 zlen] in *. split; [done | lia]. Qed.

Lemma with_times_ok atim mtim : 0 <= atim < 2 ^ 128 -> 0 <= mtim < 2 ^ 128 -> meta_ok (fun m => with_times m atim mtim).
Proof. intros Ha Hm im m Hr Hst. unfold stat_wf, stat_of, with_times in *. cbn -[Z.pow u64 zlen] in *. split; [done | lia]. Qed.
