(* ===== verification/HistorySnapshots.v ===== *)
(** Snapshots in a history: [mkdir /snapshots/ID] puts the contents of every
    file in front of its views, [rmdir /snapshots] drops the earliest view of
    every file, and both keep [hist_inv]. *)

From S2P Require Import Prelude Posix PosixSpec PosixPath Types Util UtilTheorems Mflock UtilLocking Layout Tree.
From S2P Require Import Snapshot SnapshotTheorems SnapshotDestroy Block CopyOnWrite BlockWrite BlockRead Mfd SnSteps.
From S2P Require Import FuseFd SnapshotIsolation FusePath MfdTheorems SnStepsTheorems Survival.
From S2P Require Import Reopen Sessions HistoryNames History.

(** ** The paths of snapshots as users write them *)

Definition user_sn (id : string) : string := SNDIR +:+ DIRSEP +:+ id.

Lemma user_sn_string R id : join_path R +:+ user_sn id = sn_path R id.
Proof.
  unfold sn_path, sn_root, user_sn. rewrite join_app. f_equal. cbn [join_path]. by rewrite string_app_nil_r.
Qed.

Lemma user_sn_in id : is_path_in_sn (user_sn id) = true.
Proof. done. Qed.

Lemma map_path_user fs R ids id : layout fs R ids -> strlen (sn_path R id) < PATH_MAX -> map_path (user_sn id) fs = Ok (sn_path R id).
Proof.
  intros [_ _ _ Hr Hl _]. rewrite <-user_sn_string, strlen_app. intros Hlt. unfold map_path.
  pose proof (strlen_nonneg (join_path R)). pose proof (strlen_nonneg (user_sn id)). rewrite Hl, Hr, u64_path by lia.
  destruct (Z.ltb_spec (strlen (user_sn id)) (PATH_MAX - strlen (join_path R))); [| lia]. by rewrite strncpy_all.
Qed.

Lemma map_path_sndir s fs R ids sns : layout fs R ids -> chain s fs sns -> exists p, map_path SNDIR fs = Ok p.
Proof.
  intros [] (dh & Edh & _). unfold get_dir_hid_path, map_path in *. rewrite ly_dir, join_app, strlen_app in Edh.
  rewrite ly_rootlen, ly_root. change (strlen (join_path ["snapshots"])) with 10 in Edh. change (strlen SNDIR) with 10.
  pose proof (strlen_nonneg (join_path R)). rewrite u64_path in Edh by (unfold EXT_LEN, PATH_MAX; lia).
  destruct (Z.ltb_spec (strlen (join_path R) + 10) (PATH_MAX - EXT_LEN - 1)); [| done].
  rewrite u64_path by (unfold EXT_LEN, PATH_MAX in *; lia).
  destruct (Z.ltb_spec 10 (PATH_MAX - strlen (join_path R))); [by eexists | unfold EXT_LEN, PATH_MAX in *; lia].
Qed.

(** ** Taking a snapshot *)

(** A name for a new snapshot. *)
Definition id_ok (R : path) (ids : list string) (id : string) : Prop :=
  comp_ok id /\ shown id /\ (id ∉ ids) /\ no_nul (sn_path R id) = true /\ strlen (sn_path R id) + EXT_LEN < PATH_MAX /\
  zlen ids + 2 < MAX_SNAPSHOTS.

#[global] Instance id_ok_dec R ids id : Decision (id_ok R ids id).
Proof. unfold id_ok, shown. apply _. Defined.

(** Files that are to be in the snapshot: the views of empty files are not
    recorded, see [file_hist]. *)
Definition snap_file_ok (R : path) (id : string) (f : fname) (e : fentry) : Prop :=
  match fe_main e with Some c => 0 < zlen c | None => True end /\ fits R f id.

Definition snap_entry (e : fentry) : fentry := FEntry (fe_main e) 0 (fe_main e :: fe_views e).

Lemma beside_below R a b C : R ++ ["snapshots"; a] `prefix_of` sn_root R b ++ C -> a = b.
Proof. unfold sn_root. rewrite <-app_assoc. intros [r E]. rewrite <-app_assoc in E. apply app_inv_head in E. by injection E. Qed.

Lemma known_fmap (g : fentry -> fentry) files p : known files p -> known (g <$> files) p.
Proof.
  intros [-> | (f & Hf & H)]; [by left | right]. exists f. split; [| done]. rewrite lookup_fmap. by apply fmap_is_Some.
Qed.

Section Take.
Context (R : path) (w : world) (h : hstate) (Hi : hist_inv R w h) (id : string) (Hid : id_ok R (h_ids h) id).

Abbreviation ids := (h_ids h).
Let Hsn : snapshots_ok w R ids := hv_sns _ _ _ Hi.
Let Hwf : os_wf (w_os w) := so_wf _ _ _ Hsn.
Let HR : Forall comp_ok R := ly_R _ _ _ (so_layout _ _ _ Hsn).

(** The names are free. *)
Lemma take_free x : x = id \/ x = id +:+ EXT_HID -> node_at (w_os w) (R ++ ["snapshots"; x]) = None.
Proof using Hi Hid.
  intros Hx. destruct Hid as ((Hne & _) & Hs & Hn & _). destruct (node_at _ _) eqn:E; [exfalso | done].
  pose proof (so_shown _ _ _ Hsn) as Hsh. rewrite Forall_forall in Hsh.
  destruct (hv_entries _ _ _ Hi x) as [-> | [Hin | (id' & Hin & ->)]]; [by eexists | | |].
  - destruct Hx as [<- | Hx]; [by apply (hid_not_shown "") | apply Hne; by apply (ext_inj id "" EXT_HID)].
  - destruct Hx as [-> | ->]; [done | by apply Hsh, hid_not_shown in Hin].
  - destruct Hx as [<- | Hx%ext_inj]; [by apply hid_not_shown in Hs | by subst].
Qed.

Lemma take_absent x : x = id \/ x = id +:+ EXT_HID -> absent_at (w_os w) (R ++ ["snapshots"; x]).
Proof using Hi Hid.
  intros Hx. pose proof (take_free x Hx) as E. rewrite entry_split in *. apply wf_absent_at; [done | apply Hsn | done].
Qed.

Lemma take_new_ok : exists hid dh, new_ok (w_os w) (w_fs w) (sn_path R <$> ids) (sn_path R id) hid dh /\
  resolve hid = hid_name R id /\ resolve dh = latest_name R.
Proof using Hi Hid.
  destruct Hid as (Hc & Hs & Hn & Hnul & Hlen & _). destruct (so_chain _ _ _ Hsn) as (dh & Edh & _).
  assert (Eh : get_hid_path (sn_path R id) = Ok (sn_path R id +:+ EXT_HID)).
  { unfold get_hid_path. rewrite u64_path by (unfold EXT_LEN, PATH_MAX; lia).
    by destruct (Z.ltb_spec (strlen (sn_path R id)) (PATH_MAX - EXT_LEN)); [| unfold EXT_LEN in *; lia]. }
  pose proof (resolve_hid R HR id _ Hc Eh) as Erh. pose proof (resolve_latest R HR _ _ _ (so_layout _ _ _ Hsn) Edh) as Erl.
  pose proof (resolve_join _ (sn_root_ok R HR id Hc) : resolve (sn_path R id) = sn_root R id) as Erp.
  eexists _, dh. split_and!; [| exact Erh | exact Erl]. split; rewrite ?Erh, ?Erl, ?Erp; try done.
  - split; [done |]. unfold EXT_LEN in *. split; [| lia]. unfold sn_path, sn_root. rewrite join_app, strlen_app.
    pose proof (strlen_nonneg (join_path R)). change (strlen (join_path ["snapshots"; id])) with (strlen (SNDIR +:+ join_path [id])).
    rewrite strlen_app. pose proof (strlen_nonneg (join_path [id])). change (strlen SNDIR) with 10. lia.
  - apply take_absent. by left.
  - apply take_absent. by right.
  - split_and!; [intros E%app_inv_head | intros E%app_inv_head |].
    + injection E as E. apply (hid_not_shown id). by rewrite E.
    + injection E as E. apply (hid_not_shown ""). by rewrite <-E in Hs.
    + apply not_eq_sym, hid_name_latest, Hc.
  - intros q hq (id' & -> & Hin)%list_elem_of_fmap Eq. pose proof (ly_ids _ _ _ (so_layout _ _ _ Hsn)) as Hok.
    rewrite Forall_forall in Hok. rewrite (resolve_hid R HR id' hq (Hok _ Hin) Eq). split.
    + intros E%app_inv_head. injection E as E. apply (hid_not_shown id'). by rewrite E.
    + intros E%hid_name_inj. by subst.
Qed.

(** The tree afterwards. *)
Context (s' : os) (Hwf' : os_wf s') (Hdir' : is_dir s' (sn_root R id)).
Context (Hsame : same_but (fun q => q = sn_root R id \/ q = hid_name R id \/ q = latest_name R) (w_os w) s').

(** The three new or changed entries are entries of [/snapshots]. *)
Lemma take_entry q : q = sn_root R id \/ q = hid_name R id \/ q = latest_name R ->
  exists x, q = R ++ ["snapshots"; x] /\ (x = id \/ ~ shown x).
Proof using.
  intros [-> | [-> | ->]]; [by exists id; auto | exists (id +:+ EXT_HID) | exists EXT_HID]; (split; [done | right]).
  - apply hid_not_shown.
  - apply (hid_not_shown "").
Qed.

Lemma take_sn_file id' f e : node_at s' (sn_file R id' f.1 f.2 e) = node_at (w_os w) (sn_file R id' f.1 f.2 e).
Proof using Hsame.
  eapply same_but_node; [done |]. intros (x & E & _)%take_entry. apply (f_equal length) in E.
  rewrite length_sn_file, length_app in E. cbn in E. lia.
Qed.

Lemma take_main f : name_ok f -> entry_at s' (R ++ full f) = entry_at (w_os w) (R ++ full f).
Proof using Hsame. intros Hf. apply Hsame. intros (x & E & _)%take_entry. apply (main_not_in_sn f R x Hf). by rewrite E. Qed.

(** In the new snapshot there is nothing yet. *)
Lemma take_empty q : sn_root R id `prefix_of` q -> q <> sn_root R id -> node_at s' q = None.
Proof using Hi Hid Hsame.
  intros Hp Hne. rewrite (same_but_node _ _ _ _ Hsame).
  - eapply wf_below; [done | | done]. apply take_free. by left.
  - intros (x & -> & _)%take_entry. apply Hne. by rewrite (beside R _ _ Hp).
Qed.

Lemma take_clear id' C : id' = id \/ shown id' /\ clear_path (w_os w) (sn_root R id' ++ C) -> clear_path s' (sn_root R id' ++ C).
Proof using Hi Hid Hwf' Hdir' Hsame.
  intros [-> | [Hs Hc]] q Hq.
  - destruct (decide (q `prefix_of` sn_root R id)) as [Hp | Hn]; [by apply (dir_clear s' _ Hwf' Hdir') |]. left.
    destruct (prefix_weak_total q (sn_root R id) _ Hq (prefix_app_r _ _ _ (reflexivity _))) as [? | Hp]; [done |].
    apply take_empty; [done |]. intros ->. done.
  - destruct (decide (q = sn_root R id)) as [-> | Hne]; [by right |].
    destruct (Hc q Hq) as [E | E]; [left | right].
    + erewrite same_but_node; [done | done |]. intros (x & -> & Hx)%take_entry. apply beside_below in Hq as ->.
      destruct Hx as [-> | Hx]; done.
    + eapply same_but_dir; [done | | done]. intros (x & -> & Hx)%take_entry. apply beside_below in Hq as ->.
      destruct Hx as [-> | Hx]; done.
Qed.

Lemma take_file_hist f e : name_ok f -> snap_file_ok R id f e ->
  file_hist R (w_os w) ids f e -> file_hist R s' (id :: ids) f (snap_entry e).
Proof using Hi Hid Hwf' Hdir' Hsame.
  intros Hf [Hpos _] []. split; cbn [snap_entry fe_main fe_used fe_views]; try done.
  - eapply main_is_move; [by apply take_main | done].
  - eapply same_but_dir; [done | | done]. intros (x & E & _)%take_entry. apply (main_not_in_sn f R x Hf). unfold full.
    rewrite app_assoc, E. by apply prefix_app_r.
  - cbn. by rewrite fh_len.
  - constructor; [| done]. destruct (fe_main e) as [c |]; [| done]. destruct fh_main as (? & ? & _ & _ & _ & ?).
    done.
  - intros [| k] id' v v' Hk Hv Hv'; cbn in Hk, Hv, Hv'.
    + injection Hk as <-. injection Hv as <-. injection Hv' as <-. left.
      assert (Hno : forall e', node_at s' (sn_file R id f.1 f.2 e') = None); [| by split_and!; [apply Hno.. |]].
      intros e'. apply take_empty; [by apply prefix_app_r |]. intros E%(f_equal length).
      rewrite length_sn_file in E. unfold sn_root in E. rewrite length_app in E. cbn in E. lia.
    + eapply step_view_move; [apply take_sn_file | apply take_sn_file |]. by apply (fh_steps k).
  - intros id' dat [= <-] (m & Hn & _). unfold dat_name in Hn. rewrite take_sn_file in Hn.
    rewrite (wf_below _ Hwf (sn_root R id)) in Hn; [done | | by apply prefix_app_r]. apply take_free. by left.
  - intros id' [-> | Hin]%elem_of_cons; apply take_clear; [by left | right]. split; [| by apply fh_clear].
    pose proof (so_shown _ _ _ Hsn) as Hsh. rewrite Forall_forall in Hsh. by apply Hsh.
  - intros id' Hin' (n & Hn & Hd). assert (Hlen : forall x, sn_root R id' ++ full f <> R ++ ["snapshots"; x]).
    { intros x E%(f_equal length). unfold sn_root, full in E. rewrite !length_app in E. cbn in E. lia. }
    apply elem_of_cons in Hin' as [-> | Hin'].
    + rewrite take_empty in Hn; [done | by apply prefix_app_r | apply Hlen].
    + apply (fh_plain id' Hin'). exists n. split; [| done]. rewrite <-Hn. symmetry. eapply same_but_node; [done |].
      intros (x & E & _)%take_entry. by apply (Hlen x).
Qed.

(** The snapshots afterwards; [f'] are the global data. *)
Lemma take_snapshots_ok f' : os_faults s' = [] -> chain s' (w_fs w) (sn_path R <$> id :: ids) ->
  f' = fs_new_latest (sn_path R id) (w_fs w) -> snapshots_ok (set_fs f' (set_os s' w)) R (id :: ids).
Proof using Hi Hid Hwf' Hdir' Hsame.
  intros Hf Hc ->. destruct Hid as (Hco & Hs & Hn & _ & _ & Hcount). pose proof Hsn as [].
  assert (Hd : forall q, is_dir (w_os w) q -> (forall x, q <> R ++ ["snapshots"; x] \/ (x <> id /\ shown x)) -> is_dir s' q).
  { intros q Hq Hx. eapply same_but_dir; [done | | done]. intros (x & E & Hx')%take_entry. destruct (Hx x) as [? | [? ?]]; [done |].
    by destruct Hx'. }
  split; cbn [w_os w_fs set_fs set_os]; try done.
  - destruct so_layout. split; try done; by constructor.
  - by constructor.
  - unfold zlen in *. cbn [length]. lia.
  - apply Hd; [done |]. intros x. left. intros E%(f_equal length). rewrite !length_app in E. cbn in E. lia.
  - constructor; [done |]. rewrite Forall_forall in so_dirs, so_shown |- *. intros id' Hin. apply Hd; [by apply so_dirs |].
    intros x. destruct (decide (x = id')) as [-> | Hne]; [right | left].
    + split; [by intros -> | by apply so_shown].
    + intros E%app_inv_head. by injection E as ->.
Qed.

(** Nothing unknown in the snapshots. *)
Lemma take_known id' p : id' ∈ id :: ids -> is_Some (node_at s' (sn_root R id' ++ p)) -> known (h_files h) p.
Proof using Hi Hid Hsame.
  intros Hin Hp. destruct p as [| c p]; [by left |].
  assert (Hold : is_Some (node_at (w_os w) (sn_root R id' ++ c :: p))).
  { erewrite <-same_but_node; [exact Hp | exact Hsame |]. intros (x & E & _)%take_entry. apply (f_equal length) in E.
    unfold sn_root in E. rewrite !length_app in E. cbn in E. lia. }
  apply elem_of_cons in Hin as [-> | Hin]; [| by apply (hv_known _ _ _ Hi id')]. exfalso.
  destruct Hold as [n Hn]. rewrite (wf_below _ Hwf (sn_root R id) (sn_root R id ++ c :: p)) in Hn; [done | by apply take_free; left | by apply prefix_app_r].
Qed.

Lemma take_short f : name_ok f -> short_in R (w_os w) f -> short_in R s' f.
Proof using Hsame.
  intros Hf Hs x [-> | Hx]; [by apply Hs; left |]. apply Hs. right. erewrite <-same_but_node; [exact Hx | exact Hsame |].
  intros (y & E & _)%take_entry. apply app_inv_head in E. by eapply main_dir_not_sn.
Qed.
End Take.

(** [mkdir /snapshots/ID]. *)
Lemma hist_take R w h id mode :
  hist_inv R w h -> id_ok R (h_ids h) id -> map_Forall (snap_file_ok R id) (h_files h) ->
  exists w', esfs_mkdir mflock_lock mflock_unlock (user_sn id) mode w = Some (0, w') /\
    hist_inv R w' (HState (id :: h_ids h) (snap_entry <$> h_files h)).
Proof.
  intros Hi Hid Hfiles. pose proof (hv_sns _ _ _ Hi) as Hsn. pose proof (so_layout _ _ _ Hsn) as Hly.
  pose proof Hid as (Hc & Hs & Hn & _ & Hlen & _). pose proof (ly_R _ _ _ Hly) as HR.
  destruct (take_new_ok R w h Hi id Hid) as (hid & dh & Hnew & Eh & Edh).
  destruct (sn_create_spec w (sn_path R id) hid dh (sn_path R <$> h_ids h) (so_faults _ _ _ Hsn) (so_chain _ _ _ Hsn)
    (so_latest _ _ _ Hsn) Hnew) as (s' & Ec & Hf & Hfds & Hch & Ht).
  rewrite Eh, Edh, (resolve_join _ (sn_root_ok R HR id Hc) : resolve (sn_path R id) = _) in Ht.
  destruct (Ht (so_wf _ _ _ Hsn) (sn_root_ok R HR id Hc) (hid_name_ok R HR id Hc) (latest_name_ok R HR)) as (Hwf' & Hsame & Hdir').
  eexists. split.
  { unfold esfs_mkdir, if_path_sn. rewrite (st_bind_run get_fs _ w (w_fs w) w eq_refl).
    rewrite (map_path_user _ _ _ id Hly) by (unfold EXT_LEN in *; lia). rewrite user_sn_in.
    rewrite (st_bind_run _ _ _ _ _ (malloc_ok w (so_faults _ _ _ Hsn))). cbn [negb]. unfold user_sn.
    rewrite decompose_sn_id by apply Hc. cbn [snd is_there]. by rewrite (st_bind_run _ _ _ _ _ Ec). }
  split; cbn [h_ids h_files w_os w_fs set_fs set_os].
  - by apply (take_snapshots_ok R w h Hi id Hid s').
  - apply (hv_buffer _ _ _ Hi).
  - apply (hv_junk _ _ _ Hi).
  - intros x Hx. rewrite elem_of_cons. destruct (decide (x = id)) as [-> | Hne]; [by auto |].
    destruct (decide (x = id +:+ EXT_HID)) as [-> | Hne']; [right; right; exists id; rewrite elem_of_cons; auto |].
    destruct (decide (x = EXT_HID)) as [-> | Hne'']; [by left |].
    erewrite same_but_node in Hx; [| done |].
    + destruct (hv_entries _ _ _ Hi x Hx) as [? | [? | (id' & ? & ?)]]; [by auto | by auto |]. right; right. exists id'.
      rewrite elem_of_cons. auto.
    + intros [E | [E | E]]; apply app_inv_head in E; by injection E.
  - intros f e He. rewrite lookup_fmap in He. destruct (h_files h !! f) as [e0 |] eqn:E0; [| done].
    destruct (hv_names _ _ _ Hi f e0 E0) as (? & ? & ?). split_and!; [done | done |]. constructor; [| done]. apply (Hfiles f e0 E0).
  - intros f e He. rewrite lookup_fmap in He. destruct (h_files h !! f) as [e0 |] eqn:E0; [| done]. injection He as <-.
    apply (take_file_hist R w h Hi id Hid s' Hwf' Hdir' Hsame); [by eapply hv_names | by apply Hfiles | by apply (hv_files _ _ _ Hi)].
  - intros id' p Hin Hp. by apply known_fmap, (take_known R w h Hi id Hid s' Hsame id').
  - intros f Hx. rewrite lookup_fmap in Hx. destruct (h_files h !! f) as [e0 |] eqn:E0; [| by destruct Hx].
    apply (take_short R w id s' Hsame); [by eapply hv_names | apply (hv_short _ _ _ Hi); by eexists].
Qed.

(** ** Removing the earliest snapshot *)

Definition drop_last {A} (l : list A) : list A := take (pred (length l)) l.

Definition drop_entry (e : fentry) : fentry := FEntry (fe_main e) (fe_used e) (drop_last (fe_views e)).

Lemma drop_last_lookup {A} (l : list A) k x : drop_last l !! k = Some x -> l !! k = Some x.
Proof. intros H. by apply lookup_take_Some in H as [? _]. Qed.

Lemma drop_last_snoc {A} (l : list A) x : drop_last (l ++ [x]) = l.
Proof. unfold drop_last. rewrite length_app. cbn. rewrite Nat.add_1_r. cbn. by rewrite take_app_length. Qed.

Lemma pointers_end s avoid ps : forall p, pointers s avoid p ps ->
  exists hid, get_hid_path (earliest p ps) = Ok hid /\ absent_at s (resolve hid).
Proof.
  induction ps as [| q ps IH]; intros p (_ & hid & Eh & H); [by exists hid |]. destruct H as [_ H]. by apply IH.
Qed.

Section Drop.
Context (R : path) (w : world) (h : hstate) (Hi : hist_inv R w h) (ids : list string) (idz : string).
Context (Hids : h_ids h = ids ++ [idz]).

Let Hsn : snapshots_ok w R (ids ++ [idz]).
Proof. rewrite <-Hids. apply Hi. Qed.

Lemma drop_shown : Forall shown ids /\ shown idz /\ NoDup ids /\ (idz ∉ ids).
Proof using Hi Hids.
  pose proof Hsn as []. apply Forall_app in so_shown as [? [? _]%Forall_cons]. pose proof (ly_nodup _ _ _ so_layout) as (? & Hd & _)%NoDup_app.
  split_and!; try done. intros Hin. apply (Hd _ Hin). by apply list_elem_of_singleton.
Qed.

Lemma last_pointer_entry : exists x, last_pointer R ids = R ++ ["snapshots"; x +:+ EXT_HID].
Proof using. unfold last_pointer. destruct (last ids) as [y |]; [by exists y | by exists ""]. Qed.

(** Paths that stay: those of the main space and of the other snapshots. *)
Lemma drop_keeps_below id C : id ∈ ids -> forall d, d ∈ [last_pointer R ids; sn_root R idz] -> ~ d `prefix_of` sn_root R id ++ C.
Proof using Hi Hids.
  intros Hin d Hd Hp. destruct drop_shown as (Hs & _ & _ & Hz). rewrite Forall_forall in Hs. destruct last_pointer_entry as [x Ex].
  apply elem_of_cons in Hd as [-> | ->%list_elem_of_singleton].
  - rewrite Ex in Hp. apply beside_below in Hp. apply (hid_not_shown x). rewrite Hp. by apply Hs.
  - apply beside_below in Hp as ->. done.
Qed.

Lemma drop_keeps_main f : name_ok f -> forall d, d ∈ [last_pointer R ids; sn_root R idz] -> ~ d `prefix_of` R ++ full f.
Proof using.
  intros Hf d Hd Hp. destruct last_pointer_entry as [x Ex]. apply elem_of_cons in Hd as [-> | ->%list_elem_of_singleton].
  - rewrite Ex in Hp. by apply (main_not_in_sn f R (x +:+ EXT_HID)).
  - by apply (main_not_in_sn f R idz).
Qed.

(** The earliest snapshot has no pointer file. *)
Lemma drop_no_pointer : node_at (w_os w) (hid_name R idz) = None.
Proof using Hi Hids.
  pose proof Hsn as []. pose proof (ly_R _ _ _ so_layout) as HR. destruct so_chain as (dh & _ & Hc).
  assert (Hz : comp_ok idz) by (pose proof (ly_ids _ _ _ so_layout) as [_ [? _]%Forall_cons]%Forall_app; done).
  assert (He : exists avoid p ps, pointers (w_os w) avoid p ps /\ earliest p ps = sn_path R idz).
  { rewrite fmap_app in Hc. destruct (sn_path R <$> ids) as [| p ps]; destruct Hc as (il & _ & Hp); eexists _, _, _; (split; [exact Hp |]).
    - done.
    - apply earliest_snoc. }
  destruct He as (avoid & p & ps & Hp & Ee). destruct (pointers_end _ _ _ _ Hp) as (hid & Eh & [_ Hn]). rewrite Ee in Eh.
  rewrite (resolve_hid R HR idz hid Hz Eh) in Hn. by apply wf_none.
Qed.

Context (s' : os) (Hrm : removed [last_pointer R ids; sn_root R idz] (w_os w) s').

Lemma drop_entry_at q : (forall d, d ∈ [last_pointer R ids; sn_root R idz] -> ~ d `prefix_of` q) -> entry_at s' q = entry_at (w_os w) q.
Proof using Hrm. intros Hq. unfold entry_at. by rewrite (rm_kept _ _ _ Hrm q Hq), (rm_inodes _ _ _ Hrm). Qed.

Lemma drop_file_hist f e : name_ok f -> file_hist R (w_os w) (ids ++ [idz]) f e -> file_hist R s' ids f (drop_entry e).
Proof using Hi Hids Hrm.
  intros Hf []. rewrite length_app in fh_len. cbn in fh_len.
  assert (Hnode : forall id e', id ∈ ids -> node_at s' (sn_file R id f.1 f.2 e') = node_at (w_os w) (sn_file R id f.1 f.2 e')).
  { intros id e' Hin. apply (removed_node _ _ _ _ Hrm). by apply drop_keeps_below. }
  split; cbn [drop_entry fe_main fe_used fe_views]; try done.
  - eapply main_is_move; [apply (drop_entry_at _ (drop_keeps_main f Hf)) | done].
  - destruct fh_parent as (n & Hn & Hd). exists n. rewrite (removed_node _ _ _ _ Hrm); [done |]. intros d Hin Hp.
    apply (drop_keeps_main f Hf d Hin). unfold full. rewrite app_assoc. etransitivity; [done | by apply prefix_app_r].
  - unfold drop_last. rewrite length_take. lia.
  - by apply Forall_take.
  - intros k id v v' Hid Hv Hv'. pose proof (list_elem_of_lookup_2 _ _ _ Hid) as Hin.
    eapply step_view_move; [by apply Hnode | by apply Hnode |].
    apply (fh_steps k); [by apply lookup_app_l_Some | by apply drop_last_lookup |].
    destruct k; [done |]. by apply drop_last_lookup in Hv'.
  - intros id dat Hid Hd. apply (fh_used id); [by destruct ids |].
    assert (Hin : id ∈ ids) by (destruct ids; [done |]; injection Hid as ->; apply list_elem_of_here).
    unfold file_is, dat_name in *. by rewrite <-Hnode.
  - intros id Hin. apply (clear_path_move (w_os w)); [| apply fh_clear, elem_of_app; by left]. intros q Hq. left.
    apply (removed_node _ _ _ _ Hrm). intros d Hd Hp. eapply (drop_keeps_below id f.1); [done | done |]. by etransitivity.
  - intros id Hin (n & Hn & Hd). apply (fh_plain id); [apply elem_of_app; by left |]. exists n. split; [| done].
    rewrite <-Hn. symmetry. apply (removed_node _ _ _ _ Hrm). by apply drop_keeps_below.
Qed.
End Drop.

(** [rmdir /snapshots]. *)
Lemma hist_drop R w h ids idz :
  hist_inv R w h -> h_ids h = ids ++ [idz] ->
  exists w', esfs_rmdir SNDIR w = Some (0, w') /\ hist_inv R w' (HState ids (drop_entry <$> h_files h)).
Proof.
  intros Hi Hids. pose proof (hv_sns _ _ _ Hi) as Hsn. rewrite Hids in Hsn. pose proof Hsn as [].
  destruct (sn_destroy_spec w R ids idz Hsn) as (s' & Ed & Hrm & Hok).
  destruct (map_path_sndir _ _ _ _ _ so_layout so_chain) as [p Ep]. eexists. split.
  { unfold esfs_rmdir, if_path_sn. rewrite (st_bind_run get_fs _ w (w_fs w) w eq_refl), Ep.
    change (is_path_in_sn SNDIR) with true. cbv iota. rewrite (st_bind_run _ _ _ _ _ (malloc_ok w so_faults)). exact Ed. }
  split; cbn [h_ids h_files w_os w_fs set_fs set_os]; [done | | apply (hv_junk _ _ _ Hi) | | | | |].
  - destruct (hv_buffer _ _ _ Hi) as (b & Hb & Hl). exists b. cbn. by destruct ids.
  - intros x [n Hn].
    assert (Hk : forall d, d ∈ [last_pointer R ids; sn_root R idz] -> ~ d `prefix_of` R ++ ["snapshots"; x]).
    { intros d Hd Hp. by rewrite (removed_gone _ _ _ _ _ Hrm Hd Hp) in Hn. }
    rewrite (removed_node _ _ _ _ Hrm Hk) in Hn. destruct (hv_entries _ _ _ Hi x) as [-> | Hx]; [by eexists | by left |].
    rewrite Hids in Hx. right. destruct Hx as [[Hx | ->%list_elem_of_singleton]%elem_of_app | (id & Hin & ->)]; [by left | |].
    + destruct (Hk (sn_root R idz)); [apply list_elem_of_further, list_elem_of_here | done].
    + apply elem_of_app in Hin as [Hin | ->%list_elem_of_singleton]; [right; by exists id |].
      by rewrite (drop_no_pointer R w h Hi ids idz Hids : node_at _ (R ++ _) = None) in Hn.
  - intros f e He. rewrite lookup_fmap in He. destruct (h_files h !! f) as [e0 |] eqn:E0; [| done].
    destruct (hv_names _ _ _ Hi f e0 E0) as (? & ? & Hf). rewrite Hids in Hf. by apply Forall_app in Hf as [? _].
  - intros f e He. rewrite lookup_fmap in He. destruct (h_files h !! f) as [e0 |] eqn:E0; [| done]. injection He as <-.
    eapply drop_file_hist; [done | done | done | by eapply hv_names |]. rewrite <-Hids. by apply (hv_files _ _ _ Hi).
  - intros id q Hin Hp. apply known_fmap, (hv_known _ _ _ Hi id); [rewrite Hids; apply elem_of_app; by left |].
    by rewrite <-(removed_node _ _ _ _ Hrm (drop_keeps_below R w h Hi ids idz Hids id q Hin)).
  - intros f Hf. rewrite lookup_fmap in Hf. destruct (h_files h !! f) as [e0 |] eqn:E0; [| by destruct Hf].
    intros x [-> | [n Hn]]; apply (hv_short _ _ _ Hi f); [by eexists | by left | by eexists |]. right. exists n.
    rewrite <-Hn. symmetry. apply (removed_node _ _ _ _ Hrm). intros d Hd Hp. by rewrite (removed_gone _ _ _ _ _ Hrm Hd Hp) in Hn.
Qed.
