(* ===== verification/HistoryReads.v ===== *)
(** Reading in a history: a file is opened in a snapshot, read and closed.
    The bytes are those that the file had when the snapshot was taken, and
    the system is left as it was. *)

From S2P Require Import Prelude Posix PosixSpec PosixPath Types Util UtilTheorems Mflock UtilLocking Layout Tree.
From S2P Require Import Snapshot SnapshotTheorems SnapshotDestroy Block CopyOnWrite BlockWrite BlockRead Mfd SnSteps.
From S2P Require Import FuseFd SnapshotIsolation FusePath MfdTheorems Descriptors SnStepsTheorems SmallSystem Survival.
From S2P Require Import Reopen Sessions HistoryNames History HistoryOpen HistorySnapshots.

(** ** Open, read, close *)

Section Read.
Context (lock_ unlock_ : Z -> M Z) {LS : LockService lock_ unlock_}.

Definition read_session (path : string) (flags size off : Z) : M (Z * Z * list Z * Z) :=
  '(r, fh) ← esfs_open lock_ unlock_ path flags;
  match fh with
  | None => mret (r, 0, [], 0)
  | Some fh =>
      '(n, buf) ← esfs_read lock_ unlock_ fh [] size off;
      c ← esfs_release fh;
      mret (r, n, buf, c)
  end.

(** What a reader leaves: the same files, handles and open descriptors. *)
Record read_back (w w' : world) : Prop := {
  rb_names : os_names (w_os w') = os_names (w_os w);
  rb_inodes : os_inodes (w_os w') = os_inodes (w_os w);
  rb_faults : os_faults (w_os w') = [];
  rb_fds : forall fd, of_key <$> os_fds (w_os w') !! fd = of_key <$> os_fds (w_os w) !! fd;
  rb_mfds : w_mfds w' = w_mfds w;
  rb_junk : w_junk_mfd w' = w_junk_mfd w;
  rb_fs : fs_stable (w_fs w) (w_fs w');
  rb_buffer : block_buffer (w_fs w') = block_buffer (w_fs w);
  rb_idle : lk_idle (mflocks (w_fs w'))
}.

Lemma read_session_spec w path id inpath sns l views target flags size off :
  sn_ready w path id inpath sns l views (Some target) -> lk_idle (mflocks (w_fs w)) ->
  Z.land flags O_ACCMODE = O_RDONLY -> 0 <= off -> 0 <= size < 2 ^ 31 -> off + size < 2 ^ 63 ->
  exists w', read_session path flags size off w
      = Some ((0, read_len target size off, file_read target (read_len target size off) off, 0), w') /\ read_back w w'.
Proof.
  intros H Hidle Hfl Ho Hs Hb.
  destruct (esfs_open_sn_spec lock_ unlock_ w path id inpath sns l views target flags H Hidle Hfl)
    as (w1 & fh & mfd & E1 & Hm & Hfull & Hnum & Hf & [] & Hro).
  destruct (esfs_read_sn_spec lock_ unlock_ w1 fh mfd (contents <$> views) target [] size off Hm Hfull Hnum Hf Hro Ho Hs Hb)
    as (w2 & E2 & [[Hos Hfs Hmfds Hj Hk] Hbuf] & Hro').
  rewrite file_write_nil in E2. assert (Hf2 : os_faults (w_os w2) = []) by by apply (fr_nofault _ _ _ Hos).
  destruct (mfd_destroy_owned w2 mfd (w_os w) Hf2 rd_first rd_current (owned_frame _ _ _ _ _ Hos rd_owned)) as (x & E3 & Hown).
  eexists. split.
  - unfold read_session. rewrite (st_bind_run _ _ _ _ _ E1), (st_bind_run _ _ _ _ _ E2). unfold esfs_release.
    rewrite (st_bind_run _ _ _ 0 (set_mfds (delete fh (w_mfds w2)) (set_os (set_fds x (w_os w2)) w2))); [done |].
    rewrite (st_bind_run (get_mfd fh) _ w2 mfd w2) by (unfold get_mfd; by rewrite Hmfds, Hm). rewrite Hfull.
    by rewrite (st_bind_run _ _ _ _ _ E3).
  - destruct rd_world as (s' & -> & Hmf). split; cbn -[fs_stable]; try done.
    + rewrite (fr_names _ _ _ Hos). apply (mf_names _ _ Hmf).
    + rewrite <-(mf_inodes _ _ Hmf). apply map_eq. intros i. apply (fr_inodes _ _ _ Hos). by intros [].
    + intros fd. apply (ow_rest _ _ _ Hown). apply not_elem_of_nil.
    + rewrite Hmfds. cbn. by rewrite delete_insert_id.
    + apply (ro_idle _ _ _ _ _ Hro').
Qed.
End Read.

(** ** From the invariant *)

Lemma upto_take l : forall k x, NoDup l -> l !! k = Some x -> upto x l = Some (take (S k) l).
Proof.
  induction l as [| y l IH]; intros k x Hnd Hk; [done |]. apply NoDup_cons in Hnd as [Hn Hnd]. cbn [upto].
  destruct k as [| k]; cbn in Hk.
  - injection Hk as ->. by rewrite String.eqb_refl.
  - rewrite (proj2 (String.eqb_neq x y)); [by rewrite (IH k x Hnd Hk) |].
    intros ->. apply Hn. by eapply list_elem_of_lookup_2.
Qed.

Lemma sn_path_inj R id id' : sn_path R id = sn_path R id' -> id = id'.
Proof.
  rewrite <-!user_sn_string. intros E. apply (f_equal (str_from (String.length (join_path R)))) in E. rewrite !str_from_app in E.
  unfold user_sn in E. apply (f_equal (str_from (String.length (SNDIR +:+ DIRSEP)))) in E. by rewrite <-!string_app_assoc, !str_from_app in E.
Qed.

Lemma inpath_cons f : exists rest, inpath f = DIRSEP +:+ rest /\ (name_ok f -> rest <> "").
Proof.
  unfold inpath. destruct (full f) as [| a l] eqn:E; [by destruct f as [[] ?] |]. exists (a +:+ join_path l).
  split; [done |]. intros (Hok & _). rewrite E in Hok. apply Forall_cons in Hok as [(Ha & _) _]. by destruct a.
Qed.

Lemma user_file_parts id f : comp_ok id -> name_ok f ->
  decompose_sn_path (user_sn id +:+ inpath f) = (0, SnPath snpath_full (DIRSEP +:+ id) (inpath f)).
Proof.
  intros Hid Hf. destruct (inpath_cons f) as (rest & E & Hr). rewrite E. unfold user_sn. rewrite !string_app_assoc.
  apply decompose_sn_full; [apply Hid | apply Hid | by apply Hr].
Qed.

Lemma user_file_map fs R ids id f : layout fs R ids -> fits R f id ->
  map_path (user_sn id +:+ inpath f) fs = Ok (join_path R +:+ user_sn id +:+ inpath f).
Proof.
  intros [_ _ _ Hr Hl _]. unfold fits. rewrite <-user_sn_string, strlen_app. intros Hlt. unfold map_path, EXT_LEN in *.
  pose proof (strlen_nonneg (join_path R)). pose proof (strlen_nonneg (user_sn id)). pose proof (strlen_nonneg (inpath f)).
  rewrite Hl, Hr, u64_path, strlen_app by lia.
  destruct (Z.ltb_spec (strlen (user_sn id) + strlen (inpath f)) (PATH_MAX - strlen (join_path R))); [| lia]. by rewrite strncpy_all.
Qed.

(** The files on disk as [disk_ok] sees them. *)
Lemma hist_step_disk R s id f v v' : Forall comp_ok R -> os_wf s -> comp_ok id -> name_ok f -> fits R f id ->
  clear_path s (sn_root R id ++ f.1) -> step_view R s id f v v' -> step_disk s (sn_path R id +:+ inpath f) v v'.
Proof.
  intros HR Hwf Hid Hf Hfit Hc H. exists (join_path (map_name R id f)), (join_path (dat_name R id f)).
  split_and!; [by apply map_path_sn | by apply dat_path_sn |].
  rewrite !resolve_join by (by apply map_comps || by apply dat_comps).
  destruct H as [(Hm & _ & ->) | [(c & map & dat & -> & Hm & Hd & Hcow & _) | (map & -> & Hm & Hg & Hd)]].
  - left. split; [| done]. rewrite map_name_snoc in *. by apply wf_enoent.
  - right; left. apply wf_file_at in Hm as [ip Hm]; [| done]. apply wf_file_at in Hd as [idt Hd]; [| done]. by exists c, ip, idt, map, dat.
  - right; right. apply wf_file_at in Hm as [ip Hm]; [| done]. split; [done |]. exists ip, map. split_and!; [done | done |].
    rewrite dat_name_snoc in *. by apply wf_enoent.
Qed.

Lemma hist_disk_ok R w h f e n : hist_inv R w h -> h_files h !! f = Some e ->
  disk_ok (w_os w) (inpath f) (rootdir (w_fs w) :: take n (sn_path R <$> h_ids h)) (fe_main e :: take n (fe_views e)).
Proof.
  intros Hi He. pose proof (hv_sns _ _ _ Hi) as []. pose proof so_layout as [HR Hok _ Hroot _ _].
  destruct (hv_names _ _ _ Hi f e He) as (Hf & Hmf & Hfit). destruct (hv_files _ _ _ Hi f e He). rewrite Forall_forall in Hok, Hfit.
  assert (Hk : forall k r, (sn_path R <$> h_ids h) !! k = Some r -> exists id, r = sn_path R id /\ h_ids h !! k = Some id /\ id ∈ h_ids h).
  { intros k r Hr. apply list_lookup_fmap_Some in Hr as (id & -> & Hid). exists id. split_and!; [done | done |].
    by eapply list_elem_of_lookup_2. }
  split.
  - cbn. rewrite !length_take, length_fmap, fh_len. done.
  - intros r v [= <-] [= <-]. unfold main_disk. rewrite Hroot, full_string, resolve_join by by apply main_comps.
    destruct (fe_main e) as [c |]; cbn in fh_main.
    + destruct fh_main as (im & m & Hent & Hr & _). exists im. by eapply entry_regular.
    + apply absent_enoent. unfold full in *. rewrite app_assoc in *. by apply entry_none.
  - intros k r v v' Hr Hv Hv'. cbn in Hr, Hv. apply lookup_take_Some in Hr as [Hr Hlt]. apply lookup_take_Some in Hv as [Hv _].
    destruct (Hk _ _ Hr) as (id & -> & Hid & Hin). apply hist_step_disk; auto. apply (fh_steps k); [done | done |].
    destruct k; [done |]. cbn in Hv' |- *. by apply lookup_take_Some in Hv' as [? _].
  - intros [| k] r Hr; cbn in Hr.
    + injection Hr as <-. rewrite Hroot. unfold main_fits in Hmf. lia.
    + apply lookup_take_Some in Hr as [Hr _]. destruct (Hk _ _ Hr) as (id & -> & _ & Hin).
      specialize (Hfit id Hin). unfold fits, EXT_LEN in Hfit. lia.
Qed.

Lemma hist_sn_ready R w h f e k id v :
  hist_inv R w h -> h_files h !! f = Some e -> h_ids h !! k = Some id -> fe_views e !! k = Some v ->
  sn_ready w (user_sn id +:+ inpath f) (DIRSEP +:+ id) (inpath f) (sn_path R <$> h_ids h)
    (take (S k) (sn_path R <$> h_ids h)) (fe_main e :: take (S k) (fe_views e)) v.
Proof.
  intros Hi He Hid Hv. pose proof (hist_disk_ok R w h f e (S k) Hi He) as Hdisk. pose proof (hv_sns _ _ _ Hi) as [].
  destruct (hv_names _ _ _ Hi f e He) as (Hf & _ & Hfit). destruct (hv_files _ _ _ Hi f e He).
  pose proof so_layout as [_ Hok Hnd _ _ Hdir]. rewrite Forall_forall in Hok, Hfit. rewrite Forall_forall in fh_views.
  pose proof (list_elem_of_lookup_2 _ _ _ Hid) as Hin.
  assert (Edir : sn_dir (w_fs w) +:+ DIRSEP +:+ id = sn_path R id).
  { rewrite Hdir, <-user_sn_string, join_app. cbn [join_path]. by rewrite string_app_nil_r, string_app_assoc. }
  assert (Hlen : length (take (S k) (sn_path R <$> h_ids h)) = S k).
  { rewrite length_take, length_fmap. apply lookup_lt_Some in Hid. lia. }
  split; try done.
  - unfold zlen in *. by rewrite length_fmap.
  - split; [done |]. rewrite (user_file_map _ R (h_ids h)); [by eexists | done | by apply Hfit].
  - by rewrite user_file_parts by auto.
  - rewrite Z.add_comm, <-strlen_app, Edir. specialize (Hfit id Hin). unfold fits, EXT_LEN in Hfit.
    pose proof (strlen_nonneg (inpath f)). lia.
  - rewrite Edir. apply upto_take; [apply NoDup_fmap_2; [intros ? ?; apply sn_path_inj | done] |].
    by rewrite list_lookup_fmap, Hid.
  - rewrite Hlen. change (take (S k) (fe_views e) !! k = Some v). by rewrite lookup_take_lt by lia.
  - pose proof (fh_views v (list_elem_of_lookup_2 _ _ _ Hv)) as Hvo. destruct v as [c |]; [cbn in Hvo |- *; lia | done].
Qed.

(** ** The invariant does not notice *)

Lemma read_back_inv R w w' h : read_back mflock_lock mflock_unlock w w' -> hist_inv R w h -> hist_inv R w' h.
Proof.
  intros [] []. assert (Hent : forall p, entry_at (w_os w') p = entry_at (w_os w) p).
  { intros p. unfold entry_at. by rewrite rb_names0, rb_inodes0. }
  assert (Hnode : forall p, node_at (w_os w') p = node_at (w_os w) p) by (intros p; by rewrite !node_entry, Hent).
  assert (Hdir : forall p, is_dir (w_os w) p -> is_dir (w_os w') p) by (intros p (n & Hn & Hd); exists n; by rewrite Hnode).
  assert (Hwf' : os_wf (w_os w')) by (destruct hv_sns as [_ []]; split; rewrite ?rb_names0, ?rb_inodes0; eauto).
  split; try done.
  - destruct hv_sns. split; try done.
    + by eapply fs_stable_layout.
    + apply (chain_move R (w_os w) (w_os w') (w_fs w)); auto. by apply (fs_stable_fields _ _ rb_fs0).
    + by eapply fs_stable_latest.
    + auto.
    + eapply Forall_impl; [done | auto].
  - destruct hv_buffer as (m & Hm & Hl). exists m. by rewrite rb_buffer0.
  - by rewrite rb_junk0.
  - intros x. rewrite Hnode. apply hv_entries.
  - intros f e He. apply (file_hist_move R (w_os w)); auto.
    + intros id _. apply clear_path_move. auto.
    + intros id _ Hp (n & Hn & Hd). apply Hp. exists n. by rewrite <-Hnode.
  - intros id p Hid. rewrite Hnode. by apply hv_known.
  - intros f Hf x. rewrite Hnode. by apply hv_short.
Qed.

Lemma hist_read R w h f e k id v flags size off :
  hist_inv R w h -> h_files h !! f = Some e -> h_ids h !! k = Some id -> fe_views e !! k = Some (Some v) ->
  Z.land flags O_ACCMODE = O_RDONLY -> 0 <= off -> 0 <= size < 2 ^ 31 -> off + size < 2 ^ 63 ->
  exists w', read_session mflock_lock mflock_unlock (user_sn id +:+ inpath f) flags size off w
      = Some ((0, read_len v size off, file_read v (read_len v size off) off, 0), w') /\ hist_inv R w' h.
Proof.
  intros Hi He Hid Hv Hfl Ho Hs Hb. pose proof (hist_sn_ready R w h f e k id (Some v) Hi He Hid Hv) as Hr.
  destruct (@read_session_spec mflock_lock mflock_unlock mflock_service w _ _ _ _ _ _ v flags size off Hr (so_idle _ _ _ (hv_sns _ _ _ Hi)) Hfl Ho Hs Hb)
    as (w' & E & Hb'). exists w'. split; [done | by eapply read_back_inv].
Qed.

(** ** Theorem *)

Lemma fs_same f f' :
  fs_stable f f' -> block_buffer f' = block_buffer f -> mflocks f' = mflocks f -> f' = f.
Proof. unfold fs_stable. destruct f, f'. cbn. intros [= ] -> ->. congruence. Qed.

(** C8 (a reader leaves no trace): no call fails, and the snapshots from the
    one named in the path to the latest have, for the file, nothing, a map
    and a dat file in copy-on-write form, or the record that it did not exist
    (so this is not a file that was empty at one of them and changed since).
    The file is opened, read and released.  The bytes read are those it had at the snapshot, and
    afterwards the files, the handles, the table of descriptors with what each
    of them is open on, and all of [fsdata], with the block buffer and every
    entry of the lock table, are as before: no descriptor opened along the
    chain of snapshots is left behind. *)
Theorem snapshot_reader_leaves_nothing w path id inpath sns l views target flags size off :
  sn_ready w path id inpath sns l views (Some target) -> idle_table (mflocks (w_fs w)) ->
  Z.land flags O_ACCMODE = O_RDONLY -> 0 <= off -> 0 <= size < 2 ^ 31 -> off + size < 2 ^ 63 ->
  exists w', read_session mflock_lock mflock_unlock path flags size off w
      = Some ((0, read_len target size off, file_read target (read_len target size off) off, 0), w') /\
    os_names (w_os w') = os_names (w_os w) /\ os_inodes (w_os w') = os_inodes (w_os w) /\
    (forall fd, of_key <$> os_fds (w_os w') !! fd = of_key <$> os_fds (w_os w) !! fd) /\
    w_mfds w' = w_mfds w /\ w_fs w' = w_fs w.
Proof.
  intros Hr Hi Hfl Ho Hs Hb.
  destruct (@read_session_spec _ _ (mflock_service_at _ Hi) w path id inpath sns l views target flags size off Hr eq_refl Hfl Ho Hs Hb)
    as (w' & E & []). exists w'. split_and!; [done.. |]. by apply fs_same.
Qed.

Lemma snapshot_reader_leaves_nothing_witness :
  exists w', read_session mflock_lock mflock_unlock "/snapshots/s1/f" O_RDONLY 4 2 e_world = Some ((0, 3, [30; 40; 50], 0), w') /\
    w_fs w' = w_fs e_world.
Proof.
  destruct (snapshot_reader_leaves_nothing e_world "/snapshots/s1/f" "/s1" "/f" ["/r/snapshots/s1"] ["/r/snapshots/s1"]
    [Some sm_old; Some sm_old] sm_old O_RDONLY 4 2 e_sn_ready idle_table_init eq_refl) as (w' & E & _ & _ & _ & _ & H); [lia | lia | lia |].
  exists w'. split; [exact E | exact H].
Defined.
