(* ===== verification/HistoryList.v ===== *)
(** Listing in a history: a directory is opened in a snapshot, listed and
    closed.  A file of the history is in the list, with its old size, if and
    only if it existed when the snapshot was taken. *)

From S2P Require Import Prelude Posix PosixSpec PosixPath Types Util UtilTheorems Mflock UtilLocking Layout Tree.
From S2P Require Import Snapshot SnapshotTheorems SnapshotDestroy Block CopyOnWrite BlockWrite BlockRead Mfd SnSteps.
From S2P Require Import FuseFd FuseDir SnapshotIsolation FusePath MfdTheorems Descriptors SnStepsTheorems SnStat FuseDirTheorems DirSteps.
From S2P Require Import Survival Reopen Sessions HistoryNames History HistoryOpen HistorySnapshots HistoryReads.

(** ** Open, list, close *)

(** The buffer of FUSE as a list. *)
Definition list_filler (b : list (string * option stat_t)) (n : string) (x : option stat_t) : option (list (string * option stat_t)) :=
  Some (b ++ [(n, x)]).

Definition list_session (path : string) : M (Z * Z * list (string * option stat_t) * Z) :=
  '(r, fh) ← esfs_opendir path;
  match fh with
  | None => mret (r, 0, [], 0)
  | Some fh =>
      '(n, buf) ← esfs_readdir list_filler fh [];
      c ← esfs_releasedir fh;
      mret (r, n, buf, c)
  end.

Lemma owned_keys L s0 s x : fds_back s x -> owned L s0 s -> owned L s0 (set_fds x s).
Proof.
  intros Hx []. split; [done | |].
  - intros fd Hin. destruct (ow_mine _ Hin) as (? & ? & [o Ho]). split_and!; [done | done |].
    pose proof (Hx fd) as E. rewrite Ho in E. cbn. by destruct (x !! fd).
  - intros fd Hin. cbn. rewrite (Hx fd). by apply ow_rest.
Qed.

Lemma more_fds_lists s s' j path its : more_fds s s' -> dir_lists s j path its -> dir_lists s' j path its.
Proof.
  intros H [[? ?] | (ino & n & Hl & Hn & Hall)]; [left; split; [by eapply more_fds_enoent | done] | right].
  exists ino, n. rewrite (more_fds_lookup _ _ _ H), (mf_inodes _ _ H). split_and!; [done | done |].
  rewrite (more_fds_eq _ _ H). change (dir_entries (set_fds (os_fds s') s) ino) with (dir_entries s ino).
  eapply Forall2_impl; [done |]. intros. by apply describes_fds.
Qed.

Lemma list_put (out : list (string * stat_t)) : forall b,
  foldl (fun b '(n, st) => b ++ [(n, Some st)]) b out = b ++ ((fun '(n, st) => (n, Some st)) <$> out).
Proof.
  induction out as [| [n st] out IH]; intros b; cbn; [by rewrite app_nil_r |]. rewrite IH. by rewrite <-app_assoc.
Qed.

Definition skipped (t : mfd_types) : list string := match t with mfd_sn_id => ["snapshots"] | _ => [] end.

Lemma list_session_spec w path id mypath t sns l itss :
  dir_ready w path id mypath t sns l -> idle_table (mflocks (w_fs w)) -> length itss = S (length l) ->
  (forall j r its, (rootdir (w_fs w) :: l) !! j = Some r -> itss !! j = Some its -> dir_lists (w_os w) j (r +:+ mypath) its) ->
  exists w' out, list_session path w = Some ((0, 0, (fun '(n, st) => (n, Some st)) <$> out, 0), w') /\
    read_back mflock_lock mflock_unlock w w' /\ NoDup (fst <$> out) /\
    forall n st, (n, st) ∈ out <-> (n ∉ skipped t) /\ first_info n (concat (rev itss)) = Some (Some st).
Proof.
  intros H Hidle Hlen Hl. destruct (esfs_opendir_sn_spec w path id mypath t sns l H) as (w1 & fh & mfd & E1 & Hm & Ht & Hf & [] & Hds).
  destruct rd_world as (s1 & -> & Hmf). cbn [w_os set_mfds set_os] in *.
  assert (Hdirs : dirs_ok s1 mfd itss).
  { eapply dir_steps_ok; [done | done |]. intros j r its Hr Hi. eapply more_fds_lists; [done | by eapply Hl]. }
  set (w1 := set_mfds _ (set_os s1 w)) in *.
  set (flags := match t with mfd_sn_id => READDIR_F_SKIP_SNROOT | _ => READDIR_F_DEFAULTS end).
  destruct (sn_readdir_spec list_filler (fun b n x => b ++ [(n, x)]) w1 mfd itss flags [] ltac:(done) Hf Hdirs) as (x & out & E2 & Hx & Hnd & Ho).
  assert (Er : esfs_readdir list_filler fh [] w1 = Some ((0, (fun '(n, st) => (n, Some st)) <$> out), set_os (set_fds x s1) w1)).
  { unfold esfs_readdir. rewrite (st_bind_run (get_mfd fh) _ w1 mfd w1) by (unfold get_mfd; by rewrite Hm). rewrite Ht.
    rewrite list_put in E2. destruct (dr_parts _ _ _ _ _ _ _ H) as [[-> _] | [-> _]]; exact E2. }
  set (w2 := set_os (set_fds x s1) w1) in *.
  destruct (mfd_destroy_owned w2 mfd (w_os w) Hf rd_first rd_current (owned_keys _ _ _ _ Hx rd_owned)) as (y & E3 & Hown).
  exists (set_mfds (delete fh (w_mfds w2)) (set_os (set_fds y (w_os w2)) w2)), out. split_and!.
  - unfold list_session. rewrite (st_bind_run _ _ _ _ _ E1), (st_bind_run _ _ _ _ _ Er). unfold esfs_releasedir.
    rewrite (st_bind_run _ _ _ 0 (set_mfds (delete fh (w_mfds w2)) (set_os (set_fds y (w_os w2)) w2))); [done |].
    rewrite (st_bind_run (get_mfd fh) _ w2 mfd w2) by (unfold get_mfd; exact (f_equal (fun o => match o with Some m => Some (m, w2) | None => None end) Hm)).
    rewrite Ht. destruct (dr_parts _ _ _ _ _ _ _ H) as [[-> _] | [-> _]]; by rewrite (st_bind_run _ _ _ _ _ E3).
  - split; cbn -[fs_stable]; try done.
    + apply (mf_names _ _ Hmf).
    + apply (mf_inodes _ _ Hmf).
    + intros fd. apply (ow_rest _ _ _ Hown). apply not_elem_of_nil.
    + by rewrite delete_insert_id.
  - done.
  - intros n st. rewrite Ho. destruct (dr_parts _ _ _ _ _ _ _ H) as [[-> _] | [-> _]]; done.
Qed.

(** ** Directories and their entries *)

Section Entries.
Context (s : os) (Hwf : os_wf s).

Lemma dir_entry_name p ino d : os_names s !! p = Some ino -> d ∈ dir_entries s ino ->
  d = "." \/ d = ".." \/ is_Some (node_at s (p ++ [d])).
Proof using Hwf.
  intros Hp Hd. unfold dir_entries in Hd. apply elem_of_cons in Hd as [-> | [-> | Hd]%elem_of_cons]; [by left | by right; left |].
  right; right. apply list_elem_of_omap in Hd as (q & Hq & Hd). apply list_elem_of_fmap in Hq as ([q' i] & -> & Hq). cbn in Hd.
  apply elem_of_map_to_list in Hq. unfold entry_in in Hd. destruct (rev q') as [| c r] eqn:Er; [done |]. case_decide as Hr; [| done].
  injection Hd as ->. assert (Eq : q' = rev r ++ [d]) by (rewrite <-(rev_involutive q'), Er; done).
  rewrite (wf_inj _ Hwf _ _ _ Hr Hp) in Eq. subst q'. destruct (wf_node _ Hwf _ _ Hq) as [n Hn]. exists n. apply node_at_Some. eauto.
Qed.

Lemma dir_entry_in p ino d : os_names s !! p = Some ino -> is_Some (node_at s (p ++ [d])) -> d ∈ dir_entries s ino.
Proof using.
  intros Hp [n (i & Hi & _)%node_at_Some]. unfold dir_entries. do 2 apply list_elem_of_further.
  apply list_elem_of_omap. exists (p ++ [d]). split.
  - apply list_elem_of_fmap. exists (p ++ [d], i). split; [done | by apply elem_of_map_to_list].
  - unfold entry_in. rewrite rev_app_distr. cbn. rewrite rev_involutive. by rewrite decide_True.
Qed.

(** What a path through a directory leads to. *)
Lemma resolve_entry p d : Forall comp_ok p ->
  resolve (join_path p +:+ DIRSEP +:+ d) = foldl norm_step p (split_path d "").
Proof using.
  intros Hp. unfold resolve.
  assert (E : forall cs cur, Forall comp_ok cs -> split_path (join_path cs +:+ DIRSEP +:+ d) cur = cur :: cs ++ split_path d "").
  { induction cs as [| c cs IH]; intros cur Hcs; [done |]. apply Forall_cons in Hcs as [(_ & Hs & _) Hcs].
    change (join_path (c :: cs) +:+ DIRSEP +:+ d) with (String DIRSEPCH ((c +:+ join_path cs) +:+ DIRSEP +:+ d)).
    rewrite string_app_assoc. cbn [split_path DIRSEPCH Ascii.eqb Bool.eqb]. f_equal. destruct cs as [| c' cs].
    - change (join_path [] +:+ DIRSEP +:+ d) with (String DIRSEPCH d). by rewrite split_path_comp.
    - change (join_path (c' :: cs) +:+ DIRSEP +:+ d) with (String DIRSEPCH ((c' +:+ join_path cs) +:+ DIRSEP +:+ d)).
      rewrite split_path_comp by done. specialize (IH "" Hcs). cbn in IH. injection IH as IH. cbn. by f_equal. }
  rewrite (E _ _ Hp). cbn [foldl]. rewrite foldl_app. f_equal. change (norm_step [] "") with (@nil string).
  change p with ([] ++ p) at 2. generalize (@nil string) as acc.
  induction Hp as [| c cs Hc _ IH]; intros acc; cbn [foldl]; [by rewrite app_nil_r |]. rewrite norm_comp, IH by done. by rewrite <-app_assoc.
Qed.

Lemma removelast_dir p : is_dir s p -> is_dir s (removelast p).
Proof using Hwf.
  destruct p as [| c p _] using rev_ind; [done |]. intros (n & Hn & _). rewrite removelast_last. by eapply wf_up.
Qed.

(** Every entry leads to a node; the proper names to the nodes in the directory. *)
Lemma entry_leads p ino d : Forall comp_ok p -> is_dir s p -> os_names s !! p = Some ino -> d ∈ dir_entries s ino ->
  exists i n, lookup_path s (resolve (join_path p +:+ DIRSEP +:+ d)) = Ok i /\ os_inodes s !! i = Some n /\
    (d <> "." -> d <> ".." -> entry_at s (p ++ [d]) = Some (i, n)).
Proof using Hwf.
  intros Hp Hdir Hino Hd. rewrite (resolve_entry p d Hp).
  assert (Hlk : forall q, is_Some (node_at s q) -> exists i n, lookup_path s q = Ok i /\ os_inodes s !! i = Some n /\ entry_at s q = Some (i, n)).
  { intros q [n Hn]. pose proof (node_walk _ Hwf _ _ Hn) as Hw. apply node_at_Some in Hn as (i & Hi & Hn).
    exists i, n. unfold lookup_path. rewrite Hw, Hi. split_and!; [done | done |]. by apply entry_at_Some. }
  destruct (dir_entry_name p ino d Hino Hd) as [-> | [-> | Hn]].
  - destruct (Hlk p) as (i & n & ? & ? & _); [destruct Hdir as (n & ? & _); by exists n |]. by exists i, n.
  - destruct (Hlk (removelast p)) as (i & n & ? & ? & _); [destruct (removelast_dir p Hdir) as (n & ? & _); by exists n |]. by exists i, n.
  - assert (Hc : comp_ok d).
    { destruct Hn as [n (i & Hi & _)%node_at_Some]. apply (wf_comp _ Hwf) in Hi. by apply Forall_app in Hi as [_ [? _]%Forall_cons]. }
    pose proof Hc as (_ & Hs & _). rewrite split_path_end by done. cbn [foldl]. rewrite (norm_comp _ _ Hc : norm_step p ("" +:+ d) = _).
    destruct (Hlk _ Hn) as (i & n & ? & ? & ?). by exists i, n.
Qed.
End Entries.

Lemma Forall2_choice {A B} (P : A -> B -> Prop) l : (forall x, x ∈ l -> exists y, P x y) -> exists l', Forall2 P l l'.
Proof.
  induction l as [| x l IH]; intros H; [by exists []; constructor |].
  destruct (H x (list_elem_of_here _ _)) as [y Hy]. destruct IH as [l' Hl']; [intros z Hz; apply H; by apply list_elem_of_further |].
  exists (y :: l'). by constructor.
Qed.

(** ** The first word on a name *)

Lemma first_info_elem n its x : first_info n its = Some x -> Some (n, x) ∈ its.
Proof.
  induction its as [| [[m y] |] its IH]; cbn; [done | | by intros ?%IH; apply list_elem_of_further].
  case_decide as E; [subst; intros [= ->]; apply list_elem_of_here | by intros ?%IH; apply list_elem_of_further].
Qed.

Lemma elem_first_info n its x : Some (n, x) ∈ its -> is_Some (first_info n its).
Proof.
  induction its as [| [[m y] |] its IH]; cbn; [by intros ?%not_elem_of_nil | |]; rewrite elem_of_cons.
  - case_decide as E; [by eexists |]. intros [[= ->] | ?]; [done | auto].
  - intros [? | ?]; [done | auto].
Qed.

Lemma first_info_app n a b : first_info n (a ++ b) = match first_info n a with Some x => Some x | None => first_info n b end.
Proof. induction a as [| [[m y] |] a IH]; cbn; [done | by case_decide | done]. Qed.

Lemma Forall2_left {A B} (P : A -> B -> Prop) l l' x : Forall2 P l l' -> x ∈ l -> exists y, y ∈ l' /\ P x y.
Proof.
  induction 1 as [| a b l l' Hab _ IH]; [by intros ?%not_elem_of_nil |]. rewrite elem_of_cons.
  intros [-> | Hx]; [exists b; by split; [left |] |]. destruct (IH Hx) as (y & ? & ?). exists y. split; [by right | done].
Qed.

Lemma Forall2_right {A B} (P : A -> B -> Prop) l l' y : Forall2 P l l' -> y ∈ l' -> exists x, x ∈ l /\ P x y.
Proof. intros H%Forall2_flip Hy. by apply (Forall2_left _ _ _ y H). Qed.

(** ** Names *)

Lemma filter_map x : x <> "" -> mfd_filter_name (x +:+ EXT_MAP) = 2.
Proof.
  intros Hx. unfold mfd_filter_name. rewrite strlen_app. change (strlen EXT_MAP) with EXT_LEN. pose proof (strlen_nonempty x Hx).
  destruct (Z.leb_spec (strlen x + EXT_LEN) EXT_LEN); [lia |]. rewrite Z.add_simpl_r. unfold strlen. by rewrite Nat2Z.id, str_from_app.
Qed.

Lemma filter_dat x : x <> "" -> mfd_filter_name (x +:+ EXT_DAT) = 0.
Proof.
  intros Hx. unfold mfd_filter_name. rewrite strlen_app. change (strlen EXT_DAT) with EXT_LEN. pose proof (strlen_nonempty x Hx).
  destruct (Z.leb_spec (strlen x + EXT_LEN) EXT_LEN); [lia |]. rewrite Z.add_simpl_r. unfold strlen. by rewrite Nat2Z.id, str_from_app.
Qed.

Lemma map_base x : strncpy (x +:+ EXT_MAP) (strlen (x +:+ EXT_MAP) - EXT_LEN) = x.
Proof. rewrite strlen_app. change (strlen EXT_MAP) with EXT_LEN. rewrite Z.add_simpl_r. apply strncpy_prefix. Qed.

Lemma join_prefix p q : p `prefix_of` q -> strlen (join_path p) <= strlen (join_path q).
Proof. intros [r ->]. rewrite join_app, strlen_app. pose proof (strlen_nonneg (join_path r)). lia. Qed.

Lemma join_entry p d : strlen (join_path (p ++ [d])) = strlen (join_path p) + 1 + strlen d.
Proof. rewrite join_app, strlen_app. cbn [join_path]. rewrite string_app_nil_r, strlen_app. change (strlen "/") with 1. lia. Qed.

Lemma map_header_fun map h h' : map_header map h -> map_header map h' -> h = h'.
Proof.
  intros [E (Hh & _)] [E' (Hh' & _)]. rewrite <-(dec_enc_header h [] Hh), <-E, E'. by apply dec_enc_header.
Qed.

(** ** What the directories of a history say *)

Section Says.
Context (R : path) (w : world) (h : hstate) (Hi : hist_inv R w h) (f0 : fname) (e0 : fentry) (He0 : h_files h !! f0 = Some e0).

Abbreviation s := (w_os w).
Abbreviation C := (f0.1).
Let Hwf : os_wf s := so_wf _ _ _ (hv_sns _ _ _ Hi).
Let HR : Forall comp_ok R := ly_R _ _ _ (so_layout _ _ _ (hv_sns _ _ _ Hi)).

Let HC : Forall comp_ok C.
Proof. by apply name_ok_parts, (hv_names _ _ _ Hi f0 e0). Qed.

Lemma comp_not_dots c : comp_ok c -> c <> "." /\ c <> "..".
Proof using. intros (_ & _ & ? & ?). done. Qed.

Lemma main_says : exists its, dir_lists s 0 (join_path R +:+ join_path C) its /\
  forall f e, h_files h !! f = Some e -> f.1 = C ->
    match fe_main e with
    | Some c => exists st, first_info f.2 its = Some (Some st) /\ st_size st = zlen c
    | None => first_info f.2 its = None
    end.
Proof using Hi He0.
  rewrite <-join_app. pose proof (fh_parent _ _ _ _ _ (hv_files _ _ _ Hi f0 e0 He0)) as Hdir.
  assert (Hok : Forall comp_ok (R ++ C)) by by apply Forall_app.
  pose proof (is_dir_walk _ Hwf _ Hdir) as Hw. pose proof Hdir as (n & (ino & Hino & Hn)%node_at_Some & _).
  set (P := fun d i => describes s 0 (join_path (R ++ C)) d i /\ exists j m, i = Some (d, Some (stat_of j m)) /\
    (d <> "." -> d <> ".." -> entry_at s ((R ++ C) ++ [d]) = Some (j, m))).
  destruct (Forall2_choice P (dir_entries s ino)) as [its Hits].
  { intros d Hd. destruct (entry_leads s Hwf (R ++ C) ino d Hok Hdir Hino Hd) as (j & m & Hl & Hm & He).
    exists (Some (d, Some (stat_of j m))). split; [| by exists j, m]. split; [| right; left; split; [done |]; by exists j, m].
    pose proof (hv_short _ _ _ Hi f0 ltac:(by eexists)) as Hs.
    destruct (dir_entry_name s Hwf (R ++ C) ino d Hino Hd) as [-> | [-> | Hx]].
    - pose proof (Hs ".." ltac:(by left)). change (strlen "..") with 2 in *. change (strlen ".") with 1. lia.
    - by apply Hs; left.
    - apply Hs. right. by rewrite app_assoc. }
  exists its. split.
  - right. exists ino, n. rewrite resolve_join by done. split_and!; [unfold lookup_path; by rewrite Hw, Hino | done |].
    eapply Forall2_impl; [done |]. by intros ? ? [? _].
  - intros f e He Ef. destruct (hv_names _ _ _ Hi f e He) as (Hf & _). destruct (name_ok_parts f Hf) as [_ [Hd1 Hd2]%comp_not_dots].
    pose proof (fh_main _ _ _ _ _ (hv_files _ _ _ Hi f e He)) as Hmain. unfold full in Hmain. rewrite Ef, app_assoc in Hmain.
    assert (Hback : forall x, first_info f.2 its = Some x -> exists j m, x = Some (stat_of j m) /\ entry_at s ((R ++ C) ++ [f.2]) = Some (j, m)).
    { intros x Hx%first_info_elem. destruct (Forall2_right _ _ _ _ Hits Hx) as (d & _ & _ & j & m & [= <- ->] & He'). exists j, m. auto. }
    destruct (fe_main e) as [c |]; cbn in Hmain.
    + destruct Hmain as (im & m & Hent & _). pose proof Hent as [Hn' Hi']%entry_at_Some.
      destruct (Forall2_left _ _ _ f.2 Hits) as (i & Hin & _ & j & m' & -> & _).
      { apply (dir_entry_in s (R ++ C)); [done |]. exists (Inode m c). apply node_at_Some. eauto. }
      destruct (elem_first_info _ _ _ Hin) as [x Hx]. destruct (Hback x Hx) as (j' & m0 & -> & He'). rewrite Hent in He'. injection He' as <- <-.
      by exists (stat_of im (Inode m c)).
    + destruct (first_info f.2 its) as [x |] eqn:Ex; [| done]. destruct (Hback x eq_refl) as (j & m & _ & He'). congruence.
Qed.

(** The entries of the directory in a snapshot. *)
Definition sn_entry (id d : string) (i : info) : Prop :=
  i = None \/
  (exists x, i = Some (d, x) /\ (d = "." \/ d = ".." \/ is_dir s (sn_root R id ++ C ++ [d]))) \/
  (exists f e map h0, h_files h !! f = Some e /\ f.1 = C /\ d = f.2 +:+ EXT_MAP /\ file_is s (map_name R id f) map /\
     map_header map h0 /\ i = Some (f.2, if mh_exists h0 =? 1 then Some (mh_fstat h0) else None)).

Lemma sn_entry_known k id d : h_ids h !! k = Some id -> is_Some (node_at s (sn_root R id ++ C ++ [d])) ->
  strlen (join_path (sn_root R id ++ C)) + 1 + strlen d < PATH_MAX /\
  ((mfd_filter_name d = 1 /\ is_dir s (sn_root R id ++ C ++ [d])) \/ mfd_filter_name d = 0 \/
   (mfd_filter_name d = 2 /\ exists f e map h0, h_files h !! f = Some e /\ f.1 = C /\ d = f.2 +:+ EXT_MAP /\
      file_is s (map_name R id f) map /\ map_header map h0)).
Proof using Hi He0.
  intros Hk Hn. pose proof (list_elem_of_lookup_2 _ _ _ Hk) as Hid.
  destruct (hv_known _ _ _ Hi id _ Hid Hn) as [E | (f & [e He] & Hf)]; [by destruct C |].
  destruct (hv_names _ _ _ Hi f e He) as (Hok & _ & Hfit). rewrite Forall_forall in Hfit. specialize (Hfit id Hid).
  destruct (name_ok_parts f Hok) as [_ [Hne _]]. unfold fits, sn_path, inpath in Hfit. rewrite <-join_entry, <-app_assoc.
  rewrite (join_app (sn_root R id)), strlen_app. destruct (hv_files _ _ _ Hi f e He). destruct Hf as [Hp | [E | E]].
  - split.
    + pose proof (join_prefix _ _ Hp). assert (f.1 `prefix_of` full f) as Hpf by by apply prefix_app_r.
      apply join_prefix in Hpf. unfold EXT_LEN in Hfit. lia.
    + left. split.
      * destruct Hok as (_ & _ & Hall). rewrite Forall_forall in Hall. apply Hall.
        eapply elem_of_prefix; [| exact Hp]. apply elem_of_app. right. apply list_elem_of_here.
      * destruct (fh_clear id Hid (sn_root R id ++ C ++ [d])) as [Hnone | Hd]; [by apply prefix_app | | done]. destruct Hn as [n Hn]. congruence.
  - rewrite E. apply app_inj_tail in E as [E ->]. split.
    + rewrite <-join_ext, strlen_app, Z.add_assoc. exact Hfit.
    + right; right. split; [by apply filter_map |]. destruct (lookup_lt_is_Some_2 (fe_views e) k) as [v Hv]; [rewrite fh_len; by eapply lookup_lt_Some |].
      destruct (lookup_lt_is_Some_2 (fe_main e :: fe_views e) k) as [v' Hv']; [apply lookup_lt_Some in Hv; cbn; lia |].
      assert (Hm : is_Some (node_at s (map_name R id f))) by exact (eq_ind _ (fun X => is_Some (node_at s (sn_root R id ++ X ++ [f.2 +:+ EXT_MAP]))) Hn _ E).
      destruct (fh_steps k id v v' Hk Hv Hv') as [(Hnone & _) | [(c & map & dat & _ & Hmap & _ & Hcow & _) | (map & _ & Hmap & (h0 & Hh & _) & _)]].
      * destruct Hm as [? ?]. congruence.
      * destruct (cow_header _ _ _ _ Hcow) as (h0 & Hh & _). by exists f, e, map, h0.
      * by exists f, e, map, h0.
  - rewrite E. apply app_inj_tail in E as [E ->]. split.
    + rewrite <-join_ext, strlen_app, Z.add_assoc. exact Hfit.
    + right; left. by apply filter_dat.
Qed.

Lemma sn_entry_describes k id ino d :
  h_ids h !! k = Some id -> is_dir s (sn_root R id ++ C) -> os_names s !! (sn_root R id ++ C) = Some ino -> d ∈ dir_entries s ino ->
  exists i, describes s (S k) (join_path (sn_root R id ++ C)) d i /\ sn_entry id d i.
Proof using Hi He0.
  intros Hk Hdir Hino Hd. pose proof (list_elem_of_lookup_2 _ _ _ Hk) as Hid.
  pose proof (ly_ids _ _ _ (so_layout _ _ _ (hv_sns _ _ _ Hi))) as Hids. rewrite Forall_forall in Hids.
  assert (Hok : Forall comp_ok (sn_root R id ++ C)) by (apply Forall_app; split; [by apply sn_root_ok; auto | done]).
  destruct (entry_leads s Hwf (sn_root R id ++ C) ino d Hok Hdir Hino Hd) as (j & m & Hl & Hm & He).
  assert (Hplain : strlen (join_path (sn_root R id ++ C)) + 1 + strlen d < PATH_MAX -> mfd_filter_name d = 1 ->
    d = "." \/ d = ".." \/ is_dir s (sn_root R id ++ C ++ [d]) ->
    exists i, describes s (S k) (join_path (sn_root R id ++ C)) d i /\ sn_entry id d i).
  { intros Hlen Hfl Hdd. exists (Some (d, Some (stat_of j m))). split; [| right; left; by eexists].
    split; [done |]. right; left. split; [done |]. by exists j, m. }
  destruct (hv_names _ _ _ Hi f0 e0 He0) as (Hok0 & _ & Hfit). rewrite Forall_forall in Hfit. specialize (Hfit id Hid).
  destruct (name_ok_parts f0 Hok0) as [_ [Hne _]]. apply strlen_nonempty in Hne.
  assert (Hdots : strlen (join_path (sn_root R id ++ C)) + 3 < PATH_MAX).
  { unfold fits, inpath, full, sn_path in Hfit. rewrite join_entry in Hfit. rewrite join_app, strlen_app. unfold EXT_LEN in Hfit. lia. }
  destruct (dir_entry_name s Hwf _ ino d Hino Hd) as [-> | [-> | Hn]].
  - apply Hplain; [change (strlen ".") with 1; lia | done | by left].
  - apply Hplain; [change (strlen "..") with 2; lia | done | by right; left].
  - rewrite <-app_assoc in Hn. destruct (sn_entry_known k id d Hk Hn) as [Hlen [[Hfl Hdd] | [Hfl | (Hfl & f & e & map & h0 & Hf & Ef & -> & Hmap & Hh)]]].
    + apply Hplain; auto.
    + exists None. split; [split; [done | by left] | by left].
    + exists (Some (f.2, if mh_exists h0 =? 1 then Some (mh_fstat h0) else None)).
      split; [| right; right; by exists f, e, map, h0]. split; [done |]. right; right. split; [done |].
      apply wf_file_at in Hmap as [ip Hmap]; [| done]. exists ip, map, h0. rewrite map_base. split_and!; [| done | done].
      assert (Er : join_path (sn_root R id ++ C) +:+ DIRSEP +:+ f.2 +:+ EXT_MAP = join_path (map_name R id f)).
      { unfold map_name, sn_file. rewrite Ef, app_assoc, (join_app (sn_root R id ++ C)). cbn [join_path]. by rewrite string_app_nil_r. }
      rewrite Er, resolve_join; [done |]. apply map_comps; [done | by eapply hv_names | auto].
Qed.

(** What the first word on a file that was [v], and is [v'] in the next
    snapshot, may be. *)
Definition says (v v' : option (list Z)) (x : option (option stat_t)) : Prop :=
  match x with
  | None => v = v'
  | Some None => v = None
  | Some (Some st) => exists c, v = Some c /\ st_size st = zlen c
  end.

Lemma file_same p c c' : file_is s p c -> file_is s p c' -> c = c'.
Proof using. intros (m & H & _) (m' & H' & _). congruence. Qed.

Lemma sn_says_file k id its ino f e v v' :
  h_ids h !! k = Some id -> os_names s !! (sn_root R id ++ C) = Some ino ->
  Forall2 (fun d i => describes s (S k) (join_path (sn_root R id ++ C)) d i /\ sn_entry id d i) (dir_entries s ino) its ->
  h_files h !! f = Some e -> f.1 = C -> fe_views e !! k = Some v -> (fe_main e :: fe_views e) !! k = Some v' ->
  says v v' (first_info f.2 its).
Proof using Hi.
  intros Hk Hino Hits He Ef Hv Hv'. pose proof (list_elem_of_lookup_2 _ _ _ Hk) as Hid.
  destruct (hv_names _ _ _ Hi f e He) as (Hok & _). destruct (name_ok_parts f Hok) as [_ Hc]. destruct (comp_not_dots _ Hc) as [Hd1 Hd2].
  destruct (hv_files _ _ _ Hi f e He). pose proof (fh_steps k id v v' Hk Hv Hv') as Hst.
  destruct (first_info f.2 its) as [x |] eqn:Ex.
  - apply first_info_elem in Ex. destruct (Forall2_right _ _ _ _ Hits Ex) as (d & _ & _ & Hent).
    destruct Hent as [? | [(y & [= <- ->] & Hd) | (g & eg & map & h0 & Hg & Eg & -> & Hmap & Hh & [= E2 Ex'])]]; [done | |].
    { destruct Hd as [? | [? | Hd]]; [done | done |]. destruct (fh_plain id Hid). unfold full. by rewrite Ef. }
    assert (g = f) as -> by (destruct f, g; cbn in *; congruence).
    destruct Hst as [(Hnone & _) | [(c & map' & dat & -> & Hmap' & _ & Hcow & _) | (map' & -> & Hmap' & (h1 & Hh1 & Hex) & _)]].
    + destruct Hmap as (m & Hm & _). congruence.
    + rewrite (file_same _ _ _ Hmap' Hmap) in Hcow. destruct (cow_header _ _ _ _ Hcow) as (h1 & Hh1 & Hex & Hsz).
      rewrite (map_header_fun _ _ _ Hh Hh1), Hex in Ex'. subst x. by exists c.
    + rewrite (file_same _ _ _ Hmap' Hmap) in Hh1. rewrite (map_header_fun _ _ _ Hh Hh1), Hex in Ex'. by subst x.
  - assert (Hnone : node_at s (map_name R id f) = None).
    { destruct (node_at s (map_name R id f)) as [n |] eqn:En; [| done]. exfalso.
      destruct (Forall2_left _ _ _ (f.2 +:+ EXT_MAP) Hits) as (i & Hin & [_ Hd] & _).
      { apply (dir_entry_in s (sn_root R id ++ C)); [done |]. exists n. rewrite <-En, <-app_assoc. unfold map_name, sn_file. by rewrite Ef. }
      cbn [decide] in Hd. destruct Hc as (Hne & _). rewrite (filter_map _ Hne), map_base in Hd.
      destruct (decide (S k = 0%nat)) as [? | _]; [done |].
      destruct Hd as [[? _] | [[? _] | (_ & ip & map & h0 & _ & _ & ->)]]; [done | done |].
      destruct (elem_first_info _ _ _ Hin) as [y Hy]. congruence. }
    destruct Hst as [(_ & _ & ->) | [(c & map & dat & _ & (m & Hm & _) & _) | (map & _ & (m & Hm & _) & _)]]; [done | congruence..].
Qed.

Lemma sn_says k id : h_ids h !! k = Some id ->
  exists its, dir_lists s (S k) (sn_path R id +:+ join_path C) its /\
    forall f e v v', h_files h !! f = Some e -> f.1 = C -> fe_views e !! k = Some v -> (fe_main e :: fe_views e) !! k = Some v' ->
      says v v' (first_info f.2 its).
Proof using Hi He0.
  intros Hk. pose proof (list_elem_of_lookup_2 _ _ _ Hk) as Hid. pose proof (hv_sns _ _ _ Hi) as [].
  pose proof (ly_ids _ _ _ so_layout) as Hids. rewrite Forall_forall in Hids, so_dirs.
  assert (Hok : Forall comp_ok (sn_root R id ++ C)) by (apply Forall_app; split; [by apply sn_root_ok; auto | done]).
  pose proof (fh_clear _ _ _ _ _ (hv_files _ _ _ Hi f0 e0 He0) id Hid) as Hclear. unfold sn_path. rewrite <-join_app.
  destruct (Hclear (sn_root R id ++ C) (reflexivity _)) as [Hnone | Hdir].
  - exists []. split.
    + left. split; [| done]. rewrite resolve_join by done. destruct C as [| c C' _] eqn:EC using rev_ind.
      * rewrite app_nil_r in Hnone. destruct (so_dirs id Hid) as (n & Hn & _). congruence.
      * rewrite app_assoc in *. apply wf_enoent; [done | | done]. intros q Hq. apply Hclear. by apply prefix_app_r.
    + intros f e v v' He Ef Hv Hv'. cbn. destruct (hv_files _ _ _ Hi f e He).
      assert (Hm : node_at s (map_name R id f) = None).
      { apply (wf_below _ so_wf _ _ Hnone). unfold map_name, sn_file. rewrite Ef. apply prefix_app. by apply prefix_app_r. }
      destruct (fh_steps k id v v' Hk Hv Hv') as [(_ & _ & ->) | [(c & map & dat & _ & (m & Hn & _) & _) | (map & _ & (m & Hn & _) & _)]];
        [done | congruence..].
  - pose proof (is_dir_walk _ so_wf _ Hdir) as Hw. pose proof Hdir as (n & (ino & Hino & Hn)%node_at_Some & _).
    destruct (Forall2_choice (fun d i => describes s (S k) (join_path (sn_root R id ++ C)) d i /\ sn_entry id d i) (dir_entries s ino))
      as [its Hits]; [intros d; by apply sn_entry_describes |].
    exists its. split.
    + right. exists ino, n. rewrite resolve_join by done. split_and!; [unfold lookup_path; by rewrite Hw, Hino | done |].
      eapply Forall2_impl; [done |]. by intros ? ? [? _].
    + intros f e v v' He Ef Hv Hv'. by eapply sn_says_file.
Qed.
End Says.

(** All the steps to a snapshot. *)
Lemma all_say R w h f0 e0 m : hist_inv R w h -> h_files h !! f0 = Some e0 -> (m <= length (h_ids h))%nat ->
  exists itss, length itss = S m /\
    (forall j r its, (join_path R :: take m (sn_path R <$> h_ids h)) !! j = Some r -> itss !! j = Some its ->
       dir_lists (w_os w) j (r +:+ join_path f0.1) its) /\
    forall f e v, h_files h !! f = Some e -> f.1 = f0.1 -> (fe_main e :: fe_views e) !! m = Some v ->
      match v with
      | Some c => exists st, first_info f.2 (concat (rev itss)) = Some (Some st) /\ st_size st = zlen c
      | None => forall st, first_info f.2 (concat (rev itss)) <> Some (Some st)
      end.
Proof.
  intros Hi He0. induction m as [| m IH]; intros Hm.
  - destruct (main_says R w h Hi f0 e0 He0) as (its & Hl & Hs). exists [its]. split_and!; [done | |].
    + intros [| j] r its' [= <-] [= <-]. done.
    + intros f e v He Ef [= <-]. cbn. rewrite app_nil_r. specialize (Hs f e He Ef). destruct (fe_main e); [done |]. by rewrite Hs.
  - destruct IH as (itss & Hlen & Hl & Hs); [lia |]. destruct (lookup_lt_is_Some_2 (h_ids h) m) as [id Hid]; [lia |].
    destruct (sn_says R w h Hi f0 e0 He0 m id Hid) as (its & Hl' & Hs'). exists (itss ++ [its]).
    assert (Et : take (S m) (sn_path R <$> h_ids h) = take m (sn_path R <$> h_ids h) ++ [sn_path R id]) by (apply take_S_r; by rewrite list_lookup_fmap, Hid).
    assert (Elen : length (take m (sn_path R <$> h_ids h)) = m) by (rewrite length_take, length_fmap; lia).
    split_and!; [rewrite length_app; cbn; lia | |].
    + intros j r its' Hr Hj. rewrite Et, app_comm_cons in Hr. destruct (decide (j = S m)) as [-> | Hne].
      * rewrite lookup_app_r in Hr by (cbn; lia). rewrite lookup_app_r in Hj by lia. cbn in Hr. rewrite Elen in Hr.
        rewrite Hlen in Hj. rewrite Nat.sub_diag in *. injection Hr as <-. injection Hj as <-. done.
      * rewrite lookup_app_l in Hr by (apply lookup_lt_Some in Hj; rewrite length_app in Hj; cbn in *; lia).
        rewrite lookup_app_l in Hj by (apply lookup_lt_Some in Hr; cbn in Hr; lia). by apply Hl.
    + intros f e v He Ef Hv. cbn in Hv. destruct (lookup_lt_is_Some_2 (fe_main e :: fe_views e) m) as [v' Hv'].
      { apply lookup_lt_Some in Hv. cbn. lia. }
      specialize (Hs f e v' He Ef Hv'). specialize (Hs' f e v v' He Ef Hv Hv'). rewrite rev_app_distr. cbn [rev app concat].
      rewrite first_info_app. destruct (first_info f.2 its) as [[st |] |]; cbn in Hs'.
      * destruct Hs' as (c & -> & Hsz). by exists st.
      * by subst v.
      * by subst v'.
Qed.

(** ** From the invariant *)

Definition dir_type (C : path) : mfd_types := match C with [] => mfd_sn_id | _ => mfd_sn_full end.

Lemma hist_dir_ready R w h f e k id : hist_inv R w h -> h_files h !! f = Some e -> h_ids h !! k = Some id ->
  dir_ready w (user_sn id +:+ join_path f.1) (DIRSEP +:+ id) (join_path f.1) (dir_type f.1) (sn_path R <$> h_ids h)
    (take (S k) (sn_path R <$> h_ids h)).
Proof.
  intros Hi He Hid. pose proof (hv_sns _ _ _ Hi) as []. pose proof so_layout as [HR Hok Hnd Hroot Hrl Hdir].
  pose proof (list_elem_of_lookup_2 _ _ _ Hid) as Hin. rewrite Forall_forall in Hok, so_dirs. pose proof (Hok id Hin) as Hc.
  destruct (hv_names _ _ _ Hi f e He) as (Hf & Hmf & Hfit). rewrite Forall_forall in Hfit. destruct (hv_files _ _ _ Hi f e He).
  destruct (name_ok_parts f Hf) as [HC _].
  assert (Hlen : strlen (join_path f.1) <= strlen (inpath f)) by (apply join_prefix; by apply prefix_app_r).
  assert (Hbound : forall x, x ∈ h_ids h -> strlen (join_path f.1) + strlen (sn_path R x) < PATH_MAX).
  { intros x Hx. specialize (Hfit x Hx). unfold fits, EXT_LEN in Hfit. lia. }
  assert (Edir : sn_dir (w_fs w) +:+ DIRSEP +:+ id = sn_path R id).
  { rewrite Hdir, <-user_sn_string, join_app. cbn [join_path]. by rewrite string_app_nil_r, string_app_assoc. }
  assert (Hmain : dir_at (w_os w) (resolve (rootdir (w_fs w) +:+ join_path f.1))).
  { rewrite Hroot, <-join_app, resolve_join by by apply Forall_app. by apply wf_dir_at. }
  split; try done.
  - unfold zlen in *. by rewrite length_fmap.
  - split; [done |]. unfold map_path. specialize (Hbound id Hin). rewrite <-user_sn_string, strlen_app in Hbound.
    pose proof (strlen_nonneg (join_path R)). pose proof (strlen_nonneg (user_sn id)). pose proof (strlen_nonneg (join_path f.1)).
    rewrite Hrl, Hroot, u64_path, strlen_app by lia.
    destruct (Z.ltb_spec (strlen (user_sn id) + strlen (join_path f.1)) (PATH_MAX - strlen (join_path R))); [by eexists | lia].
  - destruct f.1 as [| c C]; [right | left]; (split; [done |]).
    + split; [done |]. exists "". cbn [join_path]. rewrite string_app_nil_r. unfold user_sn. by rewrite decompose_sn_id by apply Hc.
    + apply Forall_cons in HC as [(Hne & _) _]. unfold user_sn. rewrite !string_app_assoc. cbn [join_path].
      rewrite decompose_sn_full; [done | apply Hc | apply Hc |]. by destruct c.
  - rewrite Z.add_comm, <-strlen_app, Edir. specialize (Hbound id Hin). pose proof (strlen_nonneg (join_path f.1)). lia.
  - rewrite Edir. apply upto_take; [apply NoDup_fmap_2; [intros ? ?; apply sn_path_inj | done] |]. by rewrite list_lookup_fmap, Hid.
  - intros [| j] r Hr.
    + injection Hr as <-. split; [rewrite Hroot; unfold main_fits in Hmf; lia | by right].
    + cbn in Hr. apply lookup_take_Some in Hr as [Hr _]. apply list_lookup_fmap_Some in Hr as (x & -> & Hx). apply list_elem_of_lookup_2 in Hx.
      split; [by apply Hbound |]. unfold sn_path. rewrite <-join_app. unfold dir_disk.
      rewrite resolve_join by (apply Forall_app; split; [by apply sn_root_ok; auto | done]).
      destruct (fh_clear x Hx (sn_root R x ++ f.1) (reflexivity _)) as [Hnone | Hd]; [left | right; by apply wf_dir_at].
      destruct f.1 as [| c C _] eqn:EC using rev_ind.
      * rewrite app_nil_r in Hnone. destruct (so_dirs x Hx) as (n & Hn & _). congruence.
      * rewrite app_assoc in *. apply wf_enoent; [done | | done]. intros q Hq. apply (fh_clear x Hx). rewrite app_assoc. by apply prefix_app_r.
Qed.

(** The size with which a name is listed. *)
Definition listed (n : string) (out : list (string * option stat_t)) : option Z :=
  match list_find (fun p => p.1 = n) out with
  | Some (_, (_, Some st)) => Some (st_size st)
  | _ => None
  end.

(** A directory is listed and a name is looked up in the list. *)
Definition look_session (path n : string) : M (Z * Z * option Z * Z) :=
  '(r, e, out, c) ← list_session path; mret (r, e, listed n out, c).

Lemma listed_spec n (out : list (string * stat_t)) : NoDup (fst <$> out) ->
  forall v : option Z, (forall sz, v = Some sz <-> exists st, (n, st) ∈ out /\ st_size st = sz) ->
  listed n ((fun '(n, st) => (n, Some st)) <$> out) = v.
Proof.
  intros Hnd v Hv. unfold listed. destruct (list_find _ _) as [[j [m x]] |] eqn:E.
  - apply list_find_Some in E as (Hj & Hm & _). cbn in Hm. subst m. apply list_lookup_fmap_Some in Hj as ([m st] & [= -> ->] & Hj).
    symmetry. apply Hv. exists st. split; [by eapply list_elem_of_lookup_2 | done].
  - destruct v as [sz |]; [| done]. destruct (proj1 (Hv sz) eq_refl) as (st & Hin & _). apply list_find_None in E.
    rewrite Forall_forall in E. destruct (E (n, Some st)); [| done]. apply list_elem_of_fmap. by exists (n, st).
Qed.

Lemma hist_list R w h f e k id v :
  hist_inv R w h -> h_files h !! f = Some e -> h_ids h !! k = Some id -> fe_views e !! k = Some v ->
  exists w', look_session (user_sn id +:+ join_path f.1) f.2 w = Some ((0, 0, zlen <$> v, 0), w') /\ hist_inv R w' h.
Proof.
  intros Hi He Hid Hv. pose proof (lookup_lt_Some _ _ _ Hid) as Hk.
  destruct (all_say R w h f e (S k) Hi He ltac:(lia)) as (itss & Hlen & Hl & Hs).
  pose proof (hv_sns _ _ _ Hi) as []. pose proof (ly_root _ _ _ so_layout) as Hroot.
  assert (Hlt : length (take (S k) (sn_path R <$> h_ids h)) = S k) by (rewrite length_take, length_fmap; lia).
  destruct (list_session_spec w _ _ _ _ _ _ itss (hist_dir_ready R w h f e k id Hi He Hid) so_idle) as (w' & out & E & Hb & Hnd & Ho).
  { by rewrite Hlt. }
  { intros j r its. rewrite Hroot. apply Hl. }
  exists w'. split; [| by eapply read_back_inv]. unfold look_session. rewrite (st_bind_run _ _ _ _ _ E).
  assert (Hskip : f.2 ∉ skipped (dir_type f.1)).
  { destruct (hv_names _ _ _ Hi f e He) as ((_ & Hsn & _) & _). destruct f as [[| c C] n]; cbn; [| apply not_elem_of_nil].
    intros ->%list_elem_of_singleton. done. }
  rewrite (listed_spec f.2 out Hnd (zlen <$> v)); [done |]. intros sz. specialize (Hs f e v He eq_refl Hv). split.
  - intros Hz. destruct v as [c |]; [| done]. injection Hz as <-. destruct Hs as (st & Hs & Hsz). exists st. split; [by apply Ho | done].
  - intros (st & [_ Hst]%Ho & <-). destruct v as [c |]; [| by destruct (Hs st)]. destruct Hs as (st' & Hs & Hsz).
    rewrite Hs in Hst. injection Hst as <-. cbn. by rewrite Hsz.
Qed.
