(* ===== verification/HistoryRoots.v ===== *)
(** Listing in a history, outside the snapshots: a directory of the main space
    shows the files that exist now, and [/snapshots] shows the snapshots. *)

From S2P Require Import Prelude Posix PosixSpec PosixPath Types Util UtilTheorems Mflock UtilLocking Layout Tree.
From S2P Require Import Snapshot SnapshotTheorems SnapshotDestroy Block CopyOnWrite BlockWrite BlockRead Mfd SnSteps.
From S2P Require Import FuseFd FuseDir SnapshotIsolation FusePath MfdTheorems Descriptors SnStepsTheorems SnStat FuseDirTheorems DirSteps.
From S2P Require Import Survival Reopen Sessions HistoryNames History HistoryOpen HistorySnapshots HistoryReads HistoryList.

(** ** One directory *)

Definition no_stat (names : list string) : list (string * option stat_t) := (fun n => (n, None)) <$> names.

Lemma readdir_loop_ok keep dir es : forall w ino ac ap pos fuel buf,
  os_faults (w_os w) = [] -> os_fds (w_os w) !! dir = Some (OFile ino ac ap pos) -> is_Some (os_inodes (w_os w) !! ino) ->
  0 <= pos -> drop (Z.to_nat pos) (dir_entries (w_os w) ino) = es -> (length es < fuel)%nat ->
  exists x, readdir_loop list_filler fuel keep dir buf w
      = Some ((0, buf ++ no_stat (List.filter keep es)), set_os (set_fds x (w_os w)) w) /\ fds_back (w_os w) x.
Proof.
  induction es as [| d es IH]; intros w ino ac ap pos fuel buf Hf Hd Hn Hpos Ees Hfu; (destruct fuel as [| fuel]; [cbn in Hfu; lia |]);
    cbn [readdir_loop]; pose proof (readdir_ok (w_os w) dir ino ac ap pos Hf Hd Hn) as Er.
  - assert (E : dir_entries (w_os w) ino !! Z.to_nat pos = None).
    { apply lookup_ge_None. apply (f_equal length) in Ees. rewrite length_drop in Ees. change (length (@nil string)) with 0%nat in Ees. lia. }
    rewrite E in Er. rewrite (st_bind_run _ _ _ _ _ (sys_run _ _ _ _ Er)). exists (os_fds (w_os w)).
    split; [cbn; rewrite app_nil_r; by destruct w as [[] ? ? ? ? ?] | done].
  - assert (E : dir_entries (w_os w) ino !! Z.to_nat pos = Some d).
    { rewrite <-(Nat.add_0_r (Z.to_nat pos)), <-lookup_drop. by rewrite Ees. }
    rewrite E in Er. rewrite (st_bind_run _ _ _ _ _ (sys_run _ _ _ _ Er)). set (w1 := set_os (set_pos dir (pos + 1) (w_os w)) w).
    assert (Hgo : forall buf', exists x, readdir_loop list_filler fuel keep dir buf' w1
      = Some ((0, buf' ++ no_stat (List.filter keep es)), set_os (set_fds x (w_os w)) w) /\ fds_back (w_os w) x).
    { intros buf'. destruct (IH w1 ino ac ap (pos + 1) fuel buf') as (x & E1 & Hx).
      - done.
      - cbn. by rewrite lookup_alter_eq, Hd.
      - done.
      - lia.
      - change (dir_entries (w_os w1) ino) with (dir_entries (w_os w) ino).
        replace (Z.to_nat (pos + 1)) with (Z.to_nat pos + 1)%nat by lia. by rewrite <-drop_drop, Ees.
      - cbn in Hfu. lia.
      - exists x. split; [done |]. intros fd. rewrite (Hx fd). apply set_pos_keys. }
    cbn [List.filter]. destruct (keep d); cbn [negb]; [| by apply Hgo].
    unfold list_filler at 1. destruct (Hgo (buf ++ [(d, None)])) as (x & E1 & Hx). exists x. split; [| done].
    rewrite E1. by rewrite <-app_assoc.
Qed.

(** The names that a handle on one directory shows. *)
Definition keeps (t : mfd_types) (n : string) : bool := match t with mfd_sn_root => negb (sn_filter_name n =? 0) | _ => true end.

Lemma list_plain w path t fd ino n :
  os_faults (w_os w) = [] -> idle_table (mflocks (w_fs w)) -> t = mfd_main \/ t = mfd_sn_root -> os_inodes (w_os w) !! ino = Some n ->
  fd = fresh_fd (w_os w) ->
  esfs_opendir path w = (fh ← new_handle (set_is_main t (set_maindir (Some fd) (w_junk_mfd w))); mret (0, Some fh))
    (set_os (opened (w_os w) ino O_RDONLY) w) ->
  exists w', list_session path w = Some ((0, 0, no_stat (List.filter (keeps t) (dir_entries (w_os w) ino)), 0), w') /\
    read_back mflock_lock mflock_unlock w w'.
Proof.
  intros Hf Hidle Ht Hn Efd Eopen. set (s1 := opened (w_os w) ino O_RDONLY) in *. set (mfd := set_is_main _ _) in *.
  set (fh := fresh (dom (w_mfds w))). set (w1 := set_mfds (<[fh := mfd]> (w_mfds w)) (set_os s1 w)).
  assert (E1 : esfs_opendir path w = Some ((0, Some fh), w1)) by by rewrite Eopen.
  assert (Hm : get_mfd fh w1 = Some (mfd, w1)) by (unfold get_mfd, w1; cbn; by rewrite lookup_insert_eq).
  assert (Hfd : os_fds s1 !! fd = Some (OFile ino O_RDONLY false 0)) by (subst fd; unfold s1, opened; cbn; by rewrite lookup_insert_eq).
  destruct (readdir_loop_ok (keeps t) fd (dir_entries (w_os w1) ino) w1 ino O_RDONLY false 0 (size (os_names (w_os w1)) + 3)%nat [])
    as (x & E2 & Hx); try done.
  { pose proof (length_dir_entries (w_os w1) ino). lia. }
  set (w2 := set_os (set_fds x (w_os w1)) w1) in *.
  assert (Er : esfs_readdir list_filler fh [] w1 = Some ((0, no_stat (List.filter (keeps t) (dir_entries (w_os w) ino))), w2)).
  { unfold esfs_readdir. rewrite (st_bind_run _ _ _ _ _ Hm). change (is_main mfd) with t.
    change (maindir mfd) with (Some fd).
    destruct Ht as [-> | ->]; cbv iota; by rewrite (st_bind_run dir_fuel _ w1 _ w1 eq_refl). }
  assert (Hm2 : get_mfd fh w2 = Some (mfd, w2)) by (unfold get_mfd, w2, w1; cbn; by rewrite lookup_insert_eq).
  assert (Hopen : exists o, x !! fd = Some o).
  { pose proof (Hx fd) as E. change (os_fds (w_os w1)) with (os_fds s1) in E. rewrite Hfd in E. destruct (x !! fd) as [o |]; [by exists o | done]. }
  destruct Hopen as [o Ho].
  exists (set_mfds (delete fh (w_mfds w2)) (set_os (set_fds (delete fd x) (w_os w2)) w2)). split.
  - unfold list_session. rewrite (st_bind_run _ _ _ _ _ E1), (st_bind_run _ _ _ _ _ Er). unfold esfs_releasedir.
    rewrite (st_bind_run _ _ _ 0 (set_mfds (delete fh (w_mfds w2)) (set_os (set_fds (delete fd x) (w_os w2)) w2))); [done |].
    rewrite (st_bind_run _ _ _ _ _ Hm2). change (is_main mfd) with t. change (maindir mfd) with (Some fd).
    assert (Ec : (r ← sys (sys_close fd); mret match r with Ok _ => 0 | Err e => - e end) w2 = Some (0, set_os (set_fds (delete fd x) (w_os w2)) w2)).
    { by rewrite (st_bind_run _ _ _ _ _ (sys_run _ w2 _ _ (close_ok (w_os w2) fd o Hf Ho))). }
    destruct Ht as [-> | ->]; cbv iota; by rewrite (st_bind_run _ _ _ _ _ Ec).
  - assert (Hfresh : w_mfds w !! fh = None) by apply not_elem_of_dom, is_fresh.
    split; cbn -[fs_stable]; try done.
    + intros fd'. destruct (decide (fd' = fd)) as [-> | Hne].
      * rewrite lookup_delete_eq. by rewrite Efd, fresh_fd_free.
      * rewrite lookup_delete_ne by done. rewrite (Hx fd'). cbn. unfold opened. cbn. by rewrite lookup_insert_ne by congruence.
    + by rewrite delete_insert_id.
Qed.

(** A directory is listed and a name is looked up in the list. *)
Definition name_session (path n : string) : M (Z * Z * bool * Z) :=
  '(r, e, out, c) ← list_session path; mret (r, e, bool_decide (n ∈ fst <$> out), c).

Lemma name_plain t n es : n ∈ fst <$> no_stat (List.filter (keeps t) es) <-> keeps t n = true /\ n ∈ es.
Proof.
  unfold no_stat. rewrite <-list_fmap_compose, list_elem_of_fmap. split.
  - intros (y & -> & Hy). apply list_elem_of_In, filter_In in Hy as [? ?]. split; [done | by apply list_elem_of_In].
  - intros [Hk Hn]. exists n. split; [done |]. apply list_elem_of_In, filter_In. split; [by apply list_elem_of_In | done].
Qed.

(** ** The main space *)

Lemma prefix_split a : forall p, String.prefix a p = true -> exists q, p = a +:+ q.
Proof.
  induction a as [| c a IH]; intros p H; [by exists p |]. destruct p as [| d p]; [done |]. cbn in H.
  destruct (Ascii.ascii_dec c d) as [-> |]; [| done]. destruct (IH p H) as [q ->]. by exists q.
Qed.

Lemma in_sn_below p x : is_path_in_sn p = true -> is_path_in_sn (p +:+ DIRSEP +:+ x) = true.
Proof.
  unfold is_path_in_sn. intros [Hp Hc]%andb_true_iff. destruct (prefix_split _ _ Hp) as [q ->]. rewrite string_app_assoc.
  destruct q as [| c q]; [done |]. exact Hc.
Qed.

(** The path of a directory as FUSE gives it. *)
Definition user_dir (C : path) : string := match C with [] => DIRSEP | _ => join_path C end.

Lemma user_dir_main f : name_ok f -> is_path_in_sn (user_dir f.1) = false.
Proof.
  intros (_ & Hsn & _). unfold user_dir. destruct f as [[| c C] n]; [done |]. cbn [fst].
  destruct (is_path_in_sn (join_path (c :: C))) eqn:E; [| done]. apply (in_sn_below _ n) in E. rewrite <-Hsn, <-E.
  change (inpath (c :: C, n)) with (join_path ((c :: C) ++ [n])). rewrite (join_app (c :: C) [n]).
  change (join_path [n]) with (DIRSEP +:+ n +:+ ""). by rewrite string_app_nil_r.
Qed.

Lemma resolve_user_dir R C : Forall comp_ok R -> Forall comp_ok C -> resolve (join_path R +:+ user_dir C) = R ++ C.
Proof.
  intros HR HC. destruct C as [| c C].
  - rewrite app_nil_r. change (user_dir []) with (DIRSEP +:+ ""). by rewrite resolve_entry.
  - unfold user_dir. rewrite <-join_app. apply resolve_join. by apply Forall_app.
Qed.

Lemma opendir_sys s name ino n : os_faults s = [] -> lookup_path s (resolve name) = Ok ino -> os_inodes s !! ino = Some n -> i_isdir n = true ->
  sys_opendir name s = (Ok (fresh_fd s), opened s ino O_RDONLY).
Proof. intros Hf Hl Hn Hd. unfold sys_opendir. rewrite syscall_ok by done. by rewrite Hl, Hn, Hd. Qed.

Lemma dir_lookup s p : os_wf s -> is_dir s p -> exists ino n, os_names s !! p = Some ino /\ lookup_path s p = Ok ino /\ os_inodes s !! ino = Some n /\ i_isdir n = true.
Proof.
  intros Hwf Hd. pose proof (is_dir_walk _ Hwf _ Hd) as Hw. destruct Hd as (n & (ino & Hi & Hn)%node_at_Some & Hd).
  exists ino, n. unfold lookup_path. by rewrite Hw, Hi.
Qed.

Lemma hist_list_main R w h f e :
  hist_inv R w h -> h_files h !! f = Some e ->
  exists w', name_session (user_dir f.1) f.2 w = Some ((0, 0, bool_decide (is_Some (fe_main e)), 0), w') /\ hist_inv R w' h.
Proof.
  intros Hi He. pose proof (hv_sns _ _ _ Hi) as []. pose proof so_layout as [HR _ _ Hroot Hrl _].
  destruct (hv_names _ _ _ Hi f e He) as (Hf & Hmf & _). destruct (hv_files _ _ _ Hi f e He). destruct (name_ok_parts f Hf) as [HC Hc].
  destruct (dir_lookup _ _ so_wf fh_parent) as (ino & n & Hino & Hl & Hn & Hd). rewrite <-(resolve_user_dir R f.1 HR HC) in Hl.
  assert (Hfit : strlen (user_dir f.1) < PATH_MAX - strlen (join_path R)).
  { unfold main_fits, inpath, full in Hmf. rewrite join_entry in Hmf. pose proof (strlen_nonempty _ (proj1 Hc)).
    destruct f.1; cbn [user_dir]; [change (strlen DIRSEP) with 1 |]; [change (strlen (join_path [])) with 0 in Hmf |]; lia. }
  destruct (list_plain w (user_dir f.1) mfd_main (fresh_fd (w_os w)) ino n so_faults so_idle (or_introl eq_refl) Hn eq_refl) as (w' & E & Hb).
  { unfold esfs_opendir, if_path_sn. rewrite (st_bind_run get_fs _ w (w_fs w) w eq_refl). unfold map_path.
    pose proof (strlen_nonneg (join_path R)). pose proof (strlen_nonneg (user_dir f.1)). rewrite Hrl, Hroot, u64_path by lia.
    destruct (Z.ltb_spec (strlen (user_dir f.1)) (PATH_MAX - strlen (join_path R))); [| lia]. rewrite strncpy_all, (user_dir_main f Hf).
    unfold esfs_opendir_main. rewrite (st_bind_run malloc_mfd _ w (Some (w_junk_mfd w)) w) by (unfold malloc_mfd; by rewrite malloc_ok).
    by rewrite (st_bind_run _ _ _ _ _ (sys_run _ _ _ _ (opendir_sys _ _ _ _ so_faults Hl Hn Hd))). }
  exists w'. split; [| by eapply read_back_inv]. unfold name_session. rewrite (st_bind_run _ _ _ _ _ E).
  assert (Hin : f.2 ∈ fst <$> no_stat (List.filter (keeps mfd_main) (dir_entries (w_os w) ino)) <-> is_Some (fe_main e)).
  { rewrite name_plain. destruct (comp_not_dots _ Hc) as [Hd1 Hd2]. unfold full in fh_main. rewrite app_assoc in fh_main. split.
    - intros [_ Hx]. destruct (dir_entry_name _ so_wf _ _ _ Hino Hx) as [? | [? | Hnode]]; [done | done |].
      destruct (fe_main e); [by eexists |]. cbn in fh_main. rewrite node_entry, fh_main in Hnode. by destruct Hnode.
    - intros [c Ec]. rewrite Ec in fh_main. destruct fh_main as (im & m & Hent & _). split; [done |].
      apply (dir_entry_in _ (R ++ f.1)); [done |]. rewrite node_entry, Hent. by eexists. }
  by rewrite (bool_decide_ext _ _ Hin).
Qed.

(** ** The list of snapshots *)

Lemma hist_list_sns R w h id :
  hist_inv R w h -> id <> "." -> id <> ".." ->
  exists w', name_session SNDIR id w = Some ((0, 0, bool_decide (id ∈ h_ids h), 0), w') /\ hist_inv R w' h.
Proof.
  intros Hi Hd1 Hd2. pose proof (hv_sns _ _ _ Hi) as []. pose proof so_layout as [HR Hok _ Hroot Hrl Hdir].
  destruct (dir_lookup _ _ so_wf so_dir) as (ino & n & Hino & Hl & Hn & Hd).
  destruct (map_path_sndir _ _ _ _ _ so_layout so_chain) as [p Ep].
  assert (Er : resolve p = R ++ ["snapshots"]).
  { unfold map_path in Ep. case_match; [| done]. injection Ep as <-. rewrite Hrl, strncpy_all, Hroot.
    change SNDIR with (user_dir ["snapshots"]). apply resolve_user_dir; [done |]. constructor; [by vm_compute | done]. }
  rewrite <-Er in Hl.
  destruct (list_plain w SNDIR mfd_sn_root (fresh_fd (w_os w)) ino n so_faults so_idle (or_intror eq_refl) Hn eq_refl) as (w' & E & Hb).
  { unfold esfs_opendir, if_path_sn. rewrite (st_bind_run get_fs _ w (w_fs w) w eq_refl), Ep. change (is_path_in_sn SNDIR) with true. cbv iota.
    rewrite (st_bind_run _ _ _ _ _ (malloc_ok w so_faults)). cbn [negb].
    change (snd (decompose_sn_path SNDIR)) with (SnPath snpath_root "" ""). unfold esfs_opendir_sn.
    rewrite (st_bind_run malloc_mfd _ w (Some (w_junk_mfd w)) w) by (unfold malloc_mfd; by rewrite malloc_ok). cbn [is_there].
    by rewrite (st_bind_run _ _ _ _ _ (sys_run _ _ _ _ (opendir_sys _ _ _ _ so_faults Hl Hn Hd))). }
  exists w'. split; [| by eapply read_back_inv]. unfold name_session. rewrite (st_bind_run _ _ _ _ _ E).
  assert (Hhid : forall x, keeps mfd_sn_root (x +:+ EXT_HID) = false).
  { intros x. unfold keeps, sn_filter_name. rewrite strlen_app. change (strlen EXT_HID) with EXT_LEN. pose proof (strlen_nonneg x).
    destruct (Z.ltb_spec (strlen x + EXT_LEN) EXT_LEN); [lia |]. destruct (String.eqb (x +:+ EXT_HID) EXT_HID); [done |].
    rewrite Z.add_simpl_r. unfold strlen. by rewrite Nat2Z.id, str_from_app. }
  assert (Hin : id ∈ fst <$> no_stat (List.filter (keeps mfd_sn_root) (dir_entries (w_os w) ino)) <-> id ∈ h_ids h).
  { rewrite name_plain. split.
    - intros [Hk Hx]. destruct (dir_entry_name _ so_wf _ _ _ Hino Hx) as [? | [? | Hnode]]; [done | done |]. rewrite <-entry_split in Hnode.
      destruct (hv_entries _ _ _ Hi id Hnode) as [-> | [? | (x & _ & ->)]]; [by pose proof (Hhid "" : keeps mfd_sn_root EXT_HID = false); congruence | done | by rewrite Hhid in Hk].
    - intros Hx. rewrite Forall_forall in so_shown, so_dirs. split; [unfold keeps; by rewrite (so_shown id Hx) |].
      apply (dir_entry_in _ (R ++ ["snapshots"])); [done |]. rewrite <-entry_split. destruct (so_dirs id Hx) as (m & Hm & _). by exists m. }
  by rewrite (bool_decide_ext _ _ Hin).
Qed.
