(* ===== verification/HistoryEvents.v ===== *)
(** The other events of a history: reading a file of the main space, what is
    refused (missing files among it), the stat of a file in the main space and
    in a snapshot, and unmounting and mounting again. *)

From S2P Require Import Prelude Posix PosixSpec PosixPath Types Util UtilTheorems Mflock UtilLocking Layout Tree.
From S2P Require Import Snapshot SnapshotTheorems SnapshotDestroy Block CopyOnWrite BlockWrite BlockRead Mfd SnSteps.
From S2P Require Import FuseFd SnapshotIsolation FusePath Mount MfdTheorems Descriptors SnStepsTheorems SnStat Survival MountTheorems.
From S2P Require Import Reopen Sessions HistoryNames History HistoryOpen HistorySessions HistorySnapshots HistoryReads.

(** ** Reading the main space *)

(** Flags of an open for reading. *)
Definition read_flags (flags : Z) : Prop :=
  Z.land flags O_ACCMODE = O_RDONLY /\ has flags O_CREAT = false /\ has flags O_TRUNC = false.

Lemma esfs_open_read_run (lock_ unlock_ : Z -> M Z) w path fpath flags im c :
  os_faults (w_os w) = [] -> is_path_in_sn path = false -> map_path path (w_fs w) = Ok fpath -> read_flags flags ->
  file_at (w_os w) (resolve fpath) im c ->
  let fh := fresh (dom (w_mfds w)) in
  let mfd := set_is_main mfd_main (set_mainfd (fresh_fd (w_os w)) (mfd_open_sn_rdonly (w_junk_mfd w))) in
  esfs_open lock_ unlock_ path flags w
    = Some ((0, Some fh), set_mfds (<[fh := mfd]> (w_mfds w)) (set_os (opened (w_os w) im flags) w)).
Proof.
  intros Hf Hms Hfp (Hr & Hc & Ht) Hat fh mfd. unfold esfs_open, if_path_sn.
  rewrite (st_bind_run get_fs _ w (w_fs w) w eq_refl), Hfp, Hms. unfold esfs_open_main.
  rewrite (st_bind_run malloc_mfd _ w (Some (w_junk_mfd w)) w) by (unfold malloc_mfd; by rewrite malloc_ok).
  rewrite Hr, Z.eqb_refl. unfold finish_open.
  pose proof (open_existing (w_os w) fpath flags 0 im c Hf Hat) as Eo. rewrite Hc, Ht in Eo.
  by rewrite (st_bind_run _ _ _ _ _ (sys_run _ _ _ _ (Eo eq_refl))).
Qed.

Lemma file_read_len c size off : 0 <= size -> 0 <= off -> file_read c (read_len c size off) off = file_read c size off.
Proof.
  intros Hs Ho. unfold file_read, read_len, zdrop, ztake, zlen. set (l := drop (Z.to_nat off) c).
  assert (Hl : length l = Z.to_nat (Z.of_nat (length c) - off)) by (unfold l; rewrite length_drop; lia).
  destruct (Z.le_gt_cases size (Z.of_nat (length c) - off)).
  - f_equal. lia.
  - rewrite (take_ge l (Z.to_nat size)) by lia. apply take_ge. lia.
Qed.

(** Opening, reading and closing leave nothing behind. *)
Lemma read_session_main (lock_ unlock_ : Z -> M Z) w path fpath flags im c size off :
  os_faults (w_os w) = [] -> is_path_in_sn path = false -> map_path path (w_fs w) = Ok fpath -> read_flags flags ->
  file_at (w_os w) (resolve fpath) im c -> 0 <= off -> 0 <= size < 2 ^ 31 ->
  read_session lock_ unlock_ path flags size off w
    = Some ((0, read_len c size off, file_read c (read_len c size off) off, 0), w).
Proof.
  intros Hf Hms Hfp Hfl Hat Ho Hs.
  pose proof (esfs_open_read_run lock_ unlock_ w path fpath flags im c Hf Hms Hfp Hfl Hat) as E1. cbv zeta in E1.
  set (fh := fresh (dom (w_mfds w))) in *. set (mfd := set_is_main mfd_main _) in *. set (w1 := set_mfds _ _) in *.
  assert (Hm : get_mfd fh w1 = Some (mfd, w1)) by (unfold get_mfd, w1; cbn; by rewrite lookup_insert_eq).
  assert (Hfd : fd_file (w_os w1) (fresh_fd (w_os w)) im c O_RDONLY (has flags O_APPEND)).
  { apply fd_file_split. split; [| apply Hat]. rewrite <-(proj1 Hfl). apply opened_open_on. }
  assert (E2 : esfs_read lock_ unlock_ fh [] size off w1 = Some ((read_len c size off, file_read c (read_len c size off) off), w1)).
  { unfold esfs_read. rewrite (st_bind_run _ _ _ _ _ Hm). cbn [is_main mfd set_is_main].
    rewrite (st_bind_run _ _ _ _ _ (sys_run _ w1 _ _ (pread_ok (w_os w1) (fresh_fd (w_os w)) im c O_RDONLY _ size off Hf Hfd ltac:(done) Ho))).
    rewrite file_write_nil, set_os_id, file_read_len by lia. unfold mret, ST_ret. do 3 f_equal. rewrite zlen_file_read by lia.
    unfold read_len. apply i32_small. lia. }
  assert (E3 : esfs_release fh w1 = Some (0, w)).
  { unfold esfs_release. rewrite (st_bind_run _ _ _ _ _ Hm). cbn [is_main mfd set_is_main].
    unfold mbind at 1, ST_bind at 1. rewrite (st_bind_run (mfd_close_sn mfd) _ w1 0 w1 eq_refl).
    rewrite (st_bind_run _ _ _ _ _ (sys_run _ w1 _ _ (close_ok (w_os w1) (fresh_fd (w_os w)) _ Hf (lookup_insert_eq _ _ _)))).
    unfold mret, ST_ret, free_mfd, mbind, ST_bind. cbn. rewrite !delete_insert_id by (apply fresh_fd_free || (apply not_elem_of_dom, is_fresh)).
    by destruct w as [[] ? ? ? ? ?]. }
  unfold read_session. by rewrite (st_bind_run _ _ _ _ _ E1), (st_bind_run _ _ _ _ _ E2), (st_bind_run _ _ _ _ _ E3).
Qed.

Lemma hist_read_main R w h f e c flags size off :
  hist_inv R w h -> h_files h !! f = Some e -> fe_main e = Some c -> read_flags flags -> 0 <= off -> 0 <= size < 2 ^ 31 ->
  read_session mflock_lock mflock_unlock (inpath f) flags size off w
    = Some ((0, read_len c size off, file_read c (read_len c size off) off, 0), w).
Proof.
  intros Hi He Hm Hfl Ho Hs. pose proof (hv_sns _ _ _ Hi) as []. destruct (hv_names _ _ _ Hi f e He) as (Hf & Hmf & _).
  destruct (main_at R w h f e Hi He (w_os w) c Hm so_wf eq_refl) as (im & m & _ & Hat & _).
  apply (read_session_main _ _ w (inpath f) (join_path (R ++ full f)) flags im); try done; [apply Hf | by eapply map_path_main].
Qed.

(** ** What is refused *)

(** Opening a file that is missing: a handle that was opened on the way is
    closed again. *)
Lemma finish_open_missing w fpath flags mode mfd L s0 :
  os_faults (w_os w) = [] -> absent_at (w_os w) (resolve fpath) -> has flags O_CREAT = false -> owned (sn_fds mfd ++ L) s0 (w_os w) ->
  exists x, finish_open fpath flags mode mfd w = Some ((- ENOENT, None), set_os (set_fds x (w_os w)) w) /\ owned L s0 (set_fds x (w_os w)).
Proof.
  intros Hf Ha Hc Ho. destruct (mfd_close_sn_owned w mfd L s0 Hf Ho) as (x & E & Hx). exists x. split; [| done]. unfold finish_open.
  rewrite (st_bind_run _ _ _ _ _ (sys_run _ w _ _ (open_absent (w_os w) fpath flags mode Hf Ha Hc))), set_os_id.
  by rewrite (st_bind_run _ _ _ _ _ E).
Qed.

Lemma hist_read_missing R w h f e flags size off :
  hist_inv R w h -> h_files h !! f = Some e -> fe_main e = None -> read_flags flags ->
  read_session mflock_lock mflock_unlock (inpath f) flags size off w = Some ((- ENOENT, 0, [], 0), w).
Proof.
  intros Hi He Hm (Hr & Hc & _). pose proof (hv_sns _ _ _ Hi) as []. destruct (hv_names _ _ _ Hi f e He) as (Hf & Hmf & _).
  pose proof (main_missing R w h f e Hi He (w_os w) Hm so_wf eq_refl (fun _ H => H)) as Ha.
  assert (E : esfs_open mflock_lock mflock_unlock (inpath f) flags w = Some ((- ENOENT, None), w)).
  2: { unfold read_session. by rewrite (st_bind_run _ _ _ _ _ E). }
  unfold esfs_open, if_path_sn. rewrite (st_bind_run get_fs _ w (w_fs w) w eq_refl), (map_path_main R _ _ f so_layout Hmf).
  rewrite (proj1 (proj2 Hf)). unfold esfs_open_main. rewrite (st_bind_run _ _ _ _ _ (malloc_mfd_ok w so_faults)), Hr, Z.eqb_refl.
  unfold finish_open. rewrite (st_bind_run _ _ _ _ _ (sys_run _ w _ _ (open_absent (w_os w) _ flags 0 so_faults Ha Hc))), set_os_id. done.
Qed.

Lemma hist_session_missing R w h f e flags ops :
  hist_inv R w h -> h_files h !! f = Some e -> fe_main e = None -> write_flags flags ->
  exists w', session mflock_lock mflock_unlock (inpath f) flags ops w = Some ((- ENOENT, [], 0), w') /\ hist_inv R w' h.
Proof.
  intros Hi He Hm Hfl. pose proof (hv_sns _ _ _ Hi) as []. destruct (hv_names _ _ _ Hi f e He) as (Hf & Hmf & _).
  destruct (hist_open_sn R w h f e Hi He) as (w1 & mfd & E1 & Ho). pose proof Ho as []. pose proof (ts_ok _ _ _ _ _ oi_step) as Hok1. pose proof Hok1 as [Hwf1 Hf1 _ _].
  pose proof (main_missing R w h f e Hi He (w_os w1) Hm Hwf1 oi_main (ts_dirs _ _ _ _ _ oi_step)) as Ha.
  destruct (open_flags_plain flags Hfl) as [Hc _].
  destruct (finish_open_missing w1 (join_path (R ++ full f)) (open_flags flags) 0 mfd [] (w_os w) Hf1 Ha Hc) as (x & E2 & _).
  { rewrite app_nil_r. apply (so_owned _ _ _ _ oi_sn). }
  exists (set_os (set_fds x (w_os w1)) w1). split.
  - unfold session, session_of. rewrite (st_bind_run _ _ w (- ENOENT, None) (set_os (set_fds x (w_os w1)) w1)); [done |].
    unfold esfs_open, if_path_sn. rewrite (st_bind_run get_fs _ w (w_fs w) w eq_refl), (map_path_main R _ _ f so_layout Hmf).
    rewrite (proj1 (proj2 Hf)). unfold esfs_open_main. rewrite (st_bind_run _ _ _ _ _ (malloc_mfd_ok w so_faults)).
    destruct (Z.eqb_spec (Z.land flags O_ACCMODE) O_RDONLY) as [E' | _]; [destruct Hfl as [Hacc _]; rewrite E' in Hacc; by destruct Hacc |].
    by rewrite (st_bind_run _ _ _ _ _ E1).
  - eapply opened_end; try done; [by apply tree_step_same | by eapply (opened_main R w h f e)].
Qed.

Lemma pointers_all s avoid ps : forall p, pointers s avoid p ps -> Forall path_ok (p :: ps).
Proof.
  induction ps as [| q ps IH]; intros p (Hp & hid & _ & H); constructor; try done. destruct H as [_ H]. by apply IH.
Qed.

Lemma chain_paths s fs sns : chain s fs sns -> Forall path_ok sns.
Proof. intros (hid & _ & H). destruct sns as [| p ps]; [done |]. destruct H as (il & _ & H). by eapply pointers_all. Qed.

(** A snapshot with the name of another one. *)
Lemma hist_take_again R w h id mode : hist_inv R w h -> id ∈ h_ids h ->
  esfs_mkdir mflock_lock mflock_unlock (user_sn id) mode w = Some (- EIO, w).
Proof.
  intros Hi Hin. pose proof (hv_sns _ _ _ Hi) as []. pose proof so_layout as [HR Hok _ _ _ _]. rewrite Forall_forall in Hok, so_dirs.
  pose proof (chain_paths _ _ _ so_chain) as Hp. rewrite Forall_forall in Hp.
  destruct (Hp (sn_path R id)) as [_ Hlen]; [apply list_elem_of_fmap; by exists id |].
  unfold esfs_mkdir, if_path_sn. rewrite (st_bind_run get_fs _ w (w_fs w) w eq_refl), (map_path_user _ _ _ id so_layout) by lia.
  rewrite user_sn_in, (st_bind_run _ _ _ _ _ (malloc_ok w so_faults)). cbn [negb]. unfold user_sn.
  rewrite decompose_sn_id by apply (Hok id Hin). cbn [snd is_there]. unfold sn_create.
  assert (E : sys_mkdir (sn_path R id) S_IRWXU (w_os w) = (Err EEXIST, w_os w)).
  { unfold sys_mkdir. rewrite syscall_ok by done.
    rewrite (resolve_join _ (sn_root_ok R HR id (Hok id Hin)) : resolve (sn_path R id) = _).
    destruct (so_dirs id Hin) as (n & Hn & Hd). pose proof (node_walk _ so_wf _ _ Hn) as Hw. unfold dirs_ok in Hw. rewrite Hw.
    apply node_at_Some in Hn as (i & Hn & _). by rewrite Hn. }
  unfold mbind at 1, ST_bind at 1. rewrite (st_bind_run _ _ _ _ _ (sys_run _ _ _ _ E)), set_os_id. done.
Qed.

(** Nothing to remove. *)
Lemma hist_drop_none R w h : hist_inv R w h -> h_ids h = [] -> esfs_rmdir SNDIR w = Some (- ENOENT, w).
Proof.
  intros Hi Hids. pose proof (hv_sns _ _ _ Hi) as []. rewrite Hids in so_latest. cbn in so_latest.
  destruct (map_path_sndir _ _ _ _ _ so_layout so_chain) as [p Ep].
  unfold esfs_rmdir, if_path_sn. rewrite (st_bind_run get_fs _ w (w_fs w) w eq_refl), Ep.
  change (is_path_in_sn SNDIR) with true. cbv iota. rewrite (st_bind_run _ _ _ _ _ (malloc_ok w so_faults)). cbn [negb].
  change (snd (decompose_sn_path SNDIR)) with (SnPath snpath_root "" ""). cbn [is_there]. unfold sn_destroy, sn_get_earliest.
  unfold mbind at 1, ST_bind at 1. rewrite (st_bind_run get_fs _ w (w_fs w) w eq_refl), so_latest. done.
Qed.

Lemma upto_None x l : x ∉ l -> upto x l = None.
Proof.
  induction l as [| y l IH]; intros [Hne Hni]%not_elem_of_cons || intros _; [done |]. cbn.
  rewrite (proj2 (String.eqb_neq x y)) by done. by rewrite IH.
Qed.

(** A snapshot that is not there, while there are others. *)
Lemma hist_steps_unknown R w h f id mfd flags :
  hist_inv R w h -> h_ids h <> [] -> (id ∉ h_ids h) -> fits R f id ->
  exists mfd', mfd_get_sn_steps mfd (SnPath snpath_full (DIRSEP +:+ id) (inpath f)) flags w = Some ((- EFAULT, mfd'), w).
Proof.
  intros Hi Hne Hni Hfit. pose proof (hv_sns _ _ _ Hi) as []. pose proof so_layout as [_ _ _ _ _ Hdir].
  assert (Edir : sn_dir (w_fs w) +:+ DIRSEP +:+ id = sn_path R id).
  { rewrite Hdir, <-user_sn_string, join_app. cbn [join_path]. by rewrite string_app_nil_r, string_app_assoc. }
  unfold mfd_get_sn_steps. rewrite (st_bind_run get_fs _ w (w_fs w) w eq_refl), (st_bind_run st_get _ w w w eq_refl).
  destruct (h_ids h) as [| id0 ids] eqn:Hids; [done |]. cbn [fmap list_fmap] in *.
  rewrite (st_bind_run _ _ _ _ _ (sn_get_paths_to_spec w _ _ _ (SnPath snpath_full (DIRSEP +:+ id) (inpath f)) so_faults so_chain so_latest
    ltac:(done) ltac:(cbn [sp_id]; rewrite Z.add_comm, <-strlen_app, Edir; unfold fits, EXT_LEN in Hfit; pose proof (strlen_nonneg (inpath f)); lia)
    ltac:(unfold zlen in *; cbn [length] in so_count; rewrite length_fmap; lia))).
  cbn [sp_id]. rewrite Edir, upto_None; [by eexists |]. rewrite <-(fmap_cons (sn_path R)), list_elem_of_fmap.
  intros (id' & E & Hin). apply sn_path_inj in E as <-. done.
Qed.

Lemma hist_read_unknown R w h f id flags size off :
  hist_inv R w h -> h_ids h <> [] -> (id ∉ h_ids h) -> comp_ok id -> name_ok f -> fits R f id ->
  Z.land flags O_ACCMODE = O_RDONLY ->
  read_session mflock_lock mflock_unlock (user_sn id +:+ inpath f) flags size off w = Some ((- EFAULT, 0, [], 0), w).
Proof.
  intros Hi Hne Hni Hid Hf Hfit Hfl. pose proof (hv_sns _ _ _ Hi) as [].
  assert (E : esfs_open mflock_lock mflock_unlock (user_sn id +:+ inpath f) flags w = Some ((- EFAULT, None), w)).
  2: { unfold read_session. by rewrite (st_bind_run _ _ _ _ _ E). }
  unfold esfs_open, if_path_sn. rewrite (st_bind_run get_fs _ w (w_fs w) w eq_refl), (user_file_map _ _ _ id f so_layout Hfit).
  change (is_path_in_sn (user_sn id +:+ inpath f)) with true. cbv iota. rewrite (st_bind_run _ _ _ _ _ (malloc_ok w so_faults)). cbn [negb].
  rewrite user_file_parts by done. cbn [snd]. unfold esfs_open_sn. rewrite Hfl, Z.eqb_refl. cbn [negb is_there].
  rewrite (st_bind_run malloc_mfd _ w (Some (w_junk_mfd w)) w) by (unfold malloc_mfd; by rewrite malloc_ok).
  destruct (hist_steps_unknown R w h f id (w_junk_mfd w) SN_STEPS_F_FILE Hi Hne Hni Hfit) as [mfd' Es].
  by rewrite (st_bind_run _ _ _ _ _ Es).
Qed.

(** Changing a file in a snapshot. *)
Lemma hist_write_sn R w h f id flags ops :
  hist_inv R w h -> comp_ok id -> name_ok f -> fits R f id -> Z.land flags O_ACCMODE <> O_RDONLY ->
  session mflock_lock mflock_unlock (user_sn id +:+ inpath f) flags ops w = Some ((- EACCES, [], 0), w).
Proof.
  intros Hi Hid Hf Hfit Hfl. pose proof (hv_sns _ _ _ Hi) as [].
  assert (E : esfs_open mflock_lock mflock_unlock (user_sn id +:+ inpath f) flags w = Some ((- EACCES, None), w)).
  2: { unfold session, session_of. by rewrite (st_bind_run _ _ _ _ _ E). }
  unfold esfs_open, if_path_sn. rewrite (st_bind_run get_fs _ w (w_fs w) w eq_refl), (user_file_map _ _ _ id f so_layout Hfit).
  change (is_path_in_sn (user_sn id +:+ inpath f)) with true. cbv iota. rewrite (st_bind_run _ _ _ _ _ (malloc_ok w so_faults)). cbn [negb].
  unfold esfs_open_sn. by rewrite (proj2 (Z.eqb_neq _ _) Hfl).
Qed.

(** ** The stat of a file *)

(** What a user asks [getattr] for a file: the return value and the size. *)
Definition stat_session (path : string) : M (Z * option Z) :=
  '(r, st) ← esfs_getattr path; mret (r, st_size <$> st).

(** What [getattr] replies about contents [v]. *)
Definition stat_reply (v : option (list Z)) : Z * option Z := match v with Some c => (0, Some (zlen c)) | None => (- ENOENT, None) end.

Lemma hist_stat_main R w h f e : hist_inv R w h -> h_files h !! f = Some e ->
  stat_session (inpath f) w = Some (stat_reply (fe_main e), w).
Proof.
  intros Hi He. pose proof (hv_sns _ _ _ Hi) as []. destruct (hv_names _ _ _ Hi f e He) as (Hf & Hmf & _).
  assert (Hst : exists r st, esfs_getattr (inpath f) w = Some ((r, st), w) /\ (r, st_size <$> st) = stat_reply (fe_main e)).
  2: { destruct Hst as (r & st & E & <-). unfold stat_session. by rewrite (st_bind_run _ _ _ _ _ E). }
  unfold esfs_getattr, if_path_sn. rewrite (st_bind_run get_fs _ w (w_fs w) w eq_refl), (map_path_main R _ _ f so_layout Hmf).
  rewrite (proj1 (proj2 Hf)). destruct (fe_main e) as [c |] eqn:Hm.
  - destruct (main_at R w h f e Hi He (w_os w) c Hm so_wf eq_refl) as (im & m & _ & Hat & _).
    destruct (lstat_file (w_os w) _ im _ so_faults Hat) as (st & n & El & _ & _ & Hsz & _).
    exists 0, (Some st). rewrite (st_bind_run _ _ _ _ _ (sys_run _ w _ _ El)), set_os_id. split; [done |]. cbn. by rewrite Hsz.
  - pose proof (main_missing R w h f e Hi He (w_os w) Hm so_wf eq_refl (fun _ H => H)) as Ha.
    exists (- ENOENT), None. by rewrite (st_bind_run _ _ _ _ _ (sys_run _ w _ _ (lstat_enoent (w_os w) _ so_faults (absent_enoent _ _ Ha)))), set_os_id.
Qed.

(** No snapshot has a directory in the place of a file of the history. *)
Lemma hist_plain R w h f e n : hist_inv R w h -> h_files h !! f = Some e ->
  sn_plain w (inpath f) (take n (sn_path R <$> h_ids h)).
Proof.
  intros Hi He. apply Forall_take, Forall_fmap, Forall_forall. intros id Hin. cbn.
  pose proof (hv_sns _ _ _ Hi) as []. pose proof so_layout as [HR Hok _ _ _ _]. rewrite Forall_forall in Hok.
  destruct (hv_names _ _ _ Hi f e He) as (Hf & _). destruct (hv_files _ _ _ Hi f e He).
  assert (Ep : sn_path R id +:+ inpath f = join_path (sn_root R id ++ full f)) by by rewrite join_app.
  rewrite Ep, resolve_join by (apply Forall_app; split; [by apply sn_root_ok, Hok | apply Hf]).
  destruct (node_at (w_os w) (sn_root R id ++ full f)) as [[m c] |] eqn:En.
  - right. destruct (S_ISDIR (st_mode m)) eqn:Ed; [by destruct (fh_plain id Hin); exists (Inode m c) |].
    assert (Hfi : file_is (w_os w) (sn_root R id ++ full f) c) by by exists m.
    apply wf_file_at in Hfi as [i Hat]; [by exists i, c | done].
  - left. unfold full in *. rewrite app_assoc in *. apply wf_enoent; auto.
Qed.

Lemma hist_stat R w h f e k id v :
  hist_inv R w h -> h_files h !! f = Some e -> h_ids h !! k = Some id -> fe_views e !! k = Some v ->
  exists w', stat_session (user_sn id +:+ inpath f) w = Some (stat_reply v, w') /\ hist_inv R w' h.
Proof.
  intros Hi He Hid Hv. pose proof (hist_sn_ready R w h f e k id v Hi He Hid Hv) as Hr.
  destruct (esfs_getattr_sn_spec w _ _ _ _ _ _ v Hr (hist_plain R w h f e (S k) Hi He)) as (r & st & x & E & Hx & Hv').
  eexists. split.
  - unfold stat_session. rewrite (st_bind_run _ _ _ _ _ E). destruct v as [c |]; [destruct Hv' as (-> & a & -> & Ha) | destruct Hv' as [-> ->]; done].
    cbn. by rewrite Ha.
  - apply (read_back_inv R w); [| done]. pose proof (hv_sns _ _ _ Hi) as []. split; try done.
Qed.

Lemma hist_stat_unknown R w h f id :
  hist_inv R w h -> h_ids h <> [] -> (id ∉ h_ids h) -> comp_ok id -> name_ok f -> fits R f id ->
  stat_session (user_sn id +:+ inpath f) w = Some ((- EFAULT, None), w).
Proof.
  intros Hi Hne Hni Hid Hf Hfit. pose proof (hv_sns _ _ _ Hi) as [].
  unfold stat_session. rewrite (st_bind_run _ _ w (- EFAULT, None) w); [done |].
  unfold esfs_getattr, if_path_sn. rewrite (st_bind_run get_fs _ w (w_fs w) w eq_refl), (user_file_map _ _ _ id f so_layout Hfit).
  change (is_path_in_sn (user_sn id +:+ inpath f)) with true. cbv iota. rewrite (st_bind_run _ _ _ _ _ (malloc_ok w so_faults)). cbn [negb].
  rewrite user_file_parts by done. cbn [snd is_there]. rewrite (st_bind_run st_get _ w w w eq_refl).
  destruct (hist_steps_unknown R w h f id (w_junk_mfd w) STAT_FLAGS Hi Hne Hni Hfit) as [mfd' Es].
  by rewrite (st_bind_run _ _ _ _ _ Es).
Qed.

(** ** Unmounting and mounting again *)

Section Remount.
Context (uid euid : Z) (realpath : string -> option string) (fopen : string -> bool) (argv : list string).

(** A program that serves requests until it is unmounted, and starts again. *)
Definition remount : M Z :=
  _ ← esfs_destroy; esfs_main uid euid realpath fopen (fun _ _ => mret 0) argv.

(** An invocation that mounts the tree at [R]. *)
Record mounts_at (R : path) : Prop := {
  ma_uid : uid <> 0 /\ euid <> 0;
  ma_args : 3 <= zlen argv /\ arg argv 1 <> "-h";
  ma_dirs : starts_with_hyphen (arg argv (zlen argv - 2)) = false /\ starts_with_hyphen (arg argv (zlen argv - 1)) = false;
  ma_root : realpath (arg argv (zlen argv - 2)) = Some (join_path R);
  ma_log : log_ready fopen argv = true
}.

Lemma chain_dir s fs fs' sns : sn_dir fs' = sn_dir fs -> chain s fs sns -> chain s fs' sns.
Proof. intros E (hid & Eh & H). exists hid. by rewrite E. Qed.

Lemma esfs_destroy_run w : exists w1, esfs_destroy w = Some (tt, w1) /\ w_os w1 = w_os w /\ w_junk_mfd w1 = w_junk_mfd w.
Proof.
  unfold esfs_destroy, mflock_destroy, put_table, b_destroy_block_buffer, get_fs, modify_fs, mbind, ST_bind, mret, ST_ret. cbn.
  destruct (block_buffer (w_fs w)); by eexists.
Qed.

(** All that is known of the snapshots is on disk. *)
Lemma hist_remount R w h : mounts_at R -> hist_inv R w h -> exists w', remount w = Some (0, w') /\ hist_inv R w' h.
Proof.
  intros [[Hu He] [Ha Hh] [Hh1 Hh2] Hr Hlog] Hi. pose proof (hv_sns _ _ _ Hi) as Hsn. pose proof Hsn as [].
  pose proof so_layout as [HR Hok Hnd Hroot Hrl Hdir].
  assert (Edir : join_path R +:+ SNDIR = join_path (R ++ ["snapshots"])) by by rewrite join_app.
  destruct (esfs_destroy_run w) as (w1 & E1 & Ho1 & Hj1).
  destruct (main_mounts_spec uid euid realpath fopen (fun _ _ => mret 0) argv (join_path R) (sn_path R <$> h_ids h) w1) as (w2 & E2 & []);
    rewrite ?Ho1; try done.
  - destruct so_chain as (dh & Edh & _). unfold get_dir_hid_path in Edh. rewrite Hdir, <-Edir, strlen_app in Edh.
    change (strlen SNDIR) with SNDIR_LEN in Edh. pose proof (strlen_nonneg (join_path R)).
    rewrite u64_path in Edh by (unfold EXT_LEN, PATH_MAX; lia). destruct (Z.ltb_spec (strlen (join_path R) + SNDIR_LEN) (PATH_MAX - EXT_LEN - 1)); [| done].
    unfold EXT_LEN in *. lia.
  - rewrite Edir, resolve_join; [by apply wf_dir_at |]. apply Forall_app. split; [done |]. constructor; [by vm_compute | done].
  - apply (chain_dir _ (w_fs w)); [cbn; congruence | done].
  - exists w2. split; [unfold remount; by rewrite (st_bind_run _ _ _ _ _ E1) |]. rewrite Ho1 in mt_os.
    split; rewrite ?mt_os, ?mt_junk, ?Hj1; try apply Hi; [| done]. split; rewrite ?mt_os; try done.
    + split; try done; [apply mt_root | by destruct mt_root as [-> ->] | by rewrite mt_dir].
    + apply (chain_dir _ (w_fs w)); [congruence | done].
Qed.
End Remount.
