(* ===== verification/HistoryTheorems.v ===== *)
(** The system as its users see it.

    [answer] is the abstract specification: for every file its contents and
    what they were at each snapshot, and nothing of maps, blocks, pointers,
    locks or descriptors.  [run_event] is the program: the handlers that FUSE
    calls, on a disk and the data in memory.  The refinement theorem says that
    the two give the same replies for as long as the specification answers. *)

From S2P Require Import Prelude Posix PosixSpec PosixPath Types Util UtilTheorems Mflock UtilLocking Layout Tree.
From S2P Require Import Snapshot SnapshotTheorems SnapshotDestroy Block CopyOnWrite BlockWrite BlockRead Mfd SnSteps.
From S2P Require Import FuseFd SnapshotIsolation SmallSystem FusePath Mount MfdTheorems Descriptors SnStepsTheorems Survival MountTheorems.
From S2P Require Import Reopen Sessions HistoryNames History HistoryOpen HistorySessions HistoryWrites HistoryCreate HistoryPaths.
From S2P Require Import HistorySnapshots HistoryReads HistoryList HistoryRoots HistoryEvents.

(** ** Events *)

Inductive event :=
  | EvWrite (f : fname) (flags : Z) (ops : list wop)
  | EvCreate (f : fname) (mode flags : Z) (ops : list wop)
  | EvUnlink (f : fname)
  | EvTruncate (f : fname) (n : Z)
  | EvChmod (f : fname) (mode : Z)
  | EvChown (f : fname) (uid gid : Z)
  | EvUtimens (f : fname) (atim mtim : Z)
  | EvRead (f : fname) (flags size off : Z)
  | EvTake (id : string) (mode : Z)
  | EvDrop
  | EvReadIn (id : string) (f : fname) (flags size off : Z)
  | EvWriteIn (id : string) (f : fname) (flags : Z) (ops : list wop)
  | EvStat (f : fname)
  | EvStatIn (id : string) (f : fname)
  | EvListIn (id : string) (f : fname)
  | EvList (f : fname)
  | EvListSns (id : string)
  | EvRemount.

Inductive reply :=
  | RWrite (r : Z * list outcome * Z)
  | RRead (r : Z * Z * list Z * Z)
  | RStat (r : Z * option Z)
  | RList (r : Z * Z * option Z * Z)
  | RNamed (r : Z * Z * bool * Z)
  | RCode (r : Z).

Section Program.
Context (uid euid : Z) (realpath : string -> option string) (fopen : string -> bool) (argv : list string).

Definition run_event (ev : event) : M reply :=
  match ev with
  | EvWrite f flags ops => r ← session mflock_lock mflock_unlock (inpath f) flags ops; mret (RWrite r)
  | EvCreate f mode flags ops => r ← create_session mflock_lock mflock_unlock (inpath f) mode flags ops; mret (RWrite r)
  | EvUnlink f => r ← esfs_unlink mflock_lock mflock_unlock (inpath f); mret (RCode r)
  | EvTruncate f n => r ← esfs_truncate mflock_lock mflock_unlock (inpath f) n; mret (RCode r)
  | EvChmod f mode => r ← esfs_chmod mflock_lock mflock_unlock (inpath f) mode; mret (RCode r)
  | EvChown f uid gid => r ← esfs_chown mflock_lock mflock_unlock (inpath f) uid gid; mret (RCode r)
  | EvUtimens f atim mtim => r ← esfs_utimens (inpath f) atim mtim; mret (RCode r)
  | EvRead f flags size off => r ← read_session mflock_lock mflock_unlock (inpath f) flags size off; mret (RRead r)
  | EvTake id mode => r ← esfs_mkdir mflock_lock mflock_unlock (user_sn id) mode; mret (RCode r)
  | EvDrop => r ← esfs_rmdir SNDIR; mret (RCode r)
  | EvReadIn id f flags size off =>
      r ← read_session mflock_lock mflock_unlock (user_sn id +:+ inpath f) flags size off; mret (RRead r)
  | EvWriteIn id f flags ops => r ← session mflock_lock mflock_unlock (user_sn id +:+ inpath f) flags ops; mret (RWrite r)
  | EvStat f => r ← stat_session (inpath f); mret (RStat r)
  | EvStatIn id f => r ← stat_session (user_sn id +:+ inpath f); mret (RStat r)
  | EvListIn id f => r ← look_session (user_sn id +:+ join_path f.1) f.2; mret (RList r)
  | EvList f => r ← name_session (user_dir f.1) f.2; mret (RNamed r)
  | EvListSns id => r ← name_session SNDIR id; mret (RNamed r)
  | EvRemount => r ← remount uid euid realpath fopen argv; mret (RCode r)
  end.

Fixpoint run_events (evs : list event) : M (list reply) :=
  match evs with
  | [] => mret []
  | ev :: r => out ← run_event ev; outs ← run_events r; mret (out :: outs)
  end.
End Program.

(** ** The specification *)

#[global] Instance write_flags_dec flags : Decision (write_flags flags).
Proof. unfold write_flags. apply _. Defined.

#[global] Instance read_flags_dec flags : Decision (read_flags flags).
Proof. unfold read_flags. apply _. Defined.

#[global] Instance wop_ok_dec o : Decision (wop_ok o).
Proof. destruct o; cbn; apply _. Defined.

#[global] Instance snap_file_ok_dec R id f e : Decision (snap_file_ok R id f e).
Proof. unfold snap_file_ok, fits. destruct (fe_main e); apply _. Defined.

#[global] Instance create_ok_dec flags mode main : Decision (create_ok flags mode main).
Proof. unfold create_ok. apply _. Defined.

Section Spec.
Context (R : path).

(** Reading [size] bytes from [off] of contents [v]. *)
Definition read_reply (v : list Z) (size off : Z) : reply :=
  RRead (0, read_len v size off, file_read v (read_len v size off) off, 0).

Definition span_ok (size off : Z) : Prop := 0 <= off /\ 0 <= size < 2 ^ 31 /\ off + size < 2 ^ 63.

(** The name of a file of a snapshot as a user may write it. *)
Definition user_ok (id : string) (f : fname) : Prop := comp_ok id /\ name_ok f /\ fits R f id.

#[global] Instance user_ok_dec id f : Decision (user_ok id f).
Proof. unfold user_ok, fits. apply _. Defined.

(** The return value of a request that needs the file to be there. *)
Definition found (e : fentry) : Z := match fe_main e with Some _ => 0 | None => - ENOENT end.

(** There is room in the dat file for what [n] changes may save. *)
Definition has_room (e : fentry) (n : Z) : Prop := fe_used e + growth e n < 2 ^ 62.

#[global] Instance has_room_dec e n : Decision (has_room e n).
Proof. unfold has_room. apply _. Defined.

Definition index_of (id : string) (ids : list string) : option nat := fst <$> list_find (eq id) ids.

Definition answer (h : hstate) (ev : event) : option (reply * hstate) :=
  let '(HState ids files) := h in
  match ev with
  | EvWrite f flags ops =>
      e ← files !! f;
      if decide (write_flags flags) then
        match fe_main e with
        | None => Some (RWrite (- ENOENT, [], 0), h)
        | Some main =>
            let '(outs, main') := wops_exec (has flags O_APPEND) main ops in
            if decide (Forall wop_ok ops /\ has_room e (zlen ops) /\ zlen main' < 2 ^ 61)
            then Some (RWrite (0, outs, 0), with_file h f (after_session e (Some main') (zlen ops))) else None
        end
      else None
  | EvCreate f mode flags ops =>
      e ← files !! f;
      let '(outs, main') := wops_exec (has flags O_APPEND) [] ops in
      if decide (create_ok flags mode (fe_main e) /\ Forall wop_ok ops /\ has_room e (1 + zlen ops) /\ zlen main' < 2 ^ 61)
      then Some (RWrite (0, outs, 0), with_file h f (after_session e (Some main') (1 + zlen ops))) else None
  | EvUnlink f =>
      e ← files !! f;
      if decide (has_room e 1) then Some (RCode (found e), with_file h f (after_session e None 1)) else None
  | EvTruncate f n =>
      e ← files !! f;
      if decide (0 <= n < 2 ^ 61 /\ has_room e 1)
      then Some (RCode (found e), with_file h f (after_session e ((fun c => file_resize c n) <$> fe_main e) 1)) else None
  | EvChmod f mode => e ← files !! f; Some (RCode (found e), h)
  | EvChown f uid gid =>
      e ← files !! f; if decide (0 <= uid < 2 ^ 32 /\ 0 <= gid < 2 ^ 32) then Some (RCode (found e), h) else None
  | EvUtimens f atim mtim =>
      e ← files !! f; if decide (0 <= atim < 2 ^ 128 /\ 0 <= mtim < 2 ^ 128) then Some (RCode (found e), h) else None
  | EvRead f flags size off =>
      e ← files !! f;
      if decide (read_flags flags /\ span_ok size off)
      then Some (match fe_main e with Some c => read_reply c size off | None => RRead (- ENOENT, 0, [], 0) end, h) else None
  | EvTake id mode =>
      if decide (id ∈ ids) then Some (RCode (- EIO), h)
      else if decide (id_ok R ids id /\ map_Forall (snap_file_ok R id) files)
      then Some (RCode 0, HState (id :: ids) (snap_entry <$> files)) else None
  | EvDrop =>
      match ids with
      | [] => Some (RCode (- ENOENT), h)
      | _ :: _ => Some (RCode 0, HState (drop_last ids) (drop_entry <$> files))
      end
  | EvReadIn id f flags size off =>
      if decide (Z.land flags O_ACCMODE = O_RDONLY /\ span_ok size off /\ user_ok id f) then
        match index_of id ids with
        | Some k => e ← files !! f; v ← fe_views e !! k; c ← v; Some (read_reply c size off, h)
        | None => match ids with [] => None | _ :: _ => Some (RRead (- EFAULT, 0, [], 0), h) end
        end
      else None
  | EvWriteIn id f flags ops =>
      if decide (Z.land flags O_ACCMODE <> O_RDONLY /\ user_ok id f) then Some (RWrite (- EACCES, [], 0), h) else None
  | EvStat f => e ← files !! f; Some (RStat (stat_reply (fe_main e)), h)
  | EvStatIn id f =>
      if decide (user_ok id f) then
        match index_of id ids with
        | Some k => e ← files !! f; v ← fe_views e !! k; Some (RStat (stat_reply v), h)
        | None => match ids with [] => None | _ :: _ => Some (RStat (- EFAULT, None), h) end
        end
      else None
  | EvListIn id f =>
      k ← index_of id ids; e ← files !! f; v ← fe_views e !! k; Some (RList (0, 0, zlen <$> v, 0), h)
  | EvList f => e ← files !! f; Some (RNamed (0, 0, bool_decide (is_Some (fe_main e)), 0), h)
  | EvListSns id =>
      if decide (id <> "." /\ id <> "..") then Some (RNamed (0, 0, bool_decide (id ∈ ids), 0), h) else None
  | EvRemount => Some (RCode 0, h)
  end.

Fixpoint answers (h : hstate) (evs : list event) : option (list reply * hstate) :=
  match evs with
  | [] => Some ([], h)
  | ev :: r => '(out, h') ← answer h ev; '(outs, h'') ← answers h' r; Some (out :: outs, h'')
  end.
End Spec.

(** ** One event *)

Lemma index_of_Some id ids k : index_of id ids = Some k -> ids !! k = Some id.
Proof.
  unfold index_of. destruct (list_find (eq id) ids) as [[j x] |] eqn:E; [| done]. intros [= <-].
  by apply list_find_Some in E as (? & <- & _).
Qed.

Lemma index_of_None id ids : index_of id ids = None -> id ∉ ids.
Proof.
  unfold index_of. destruct (list_find (eq id) ids) as [[j x] |] eqn:E; [done |]. intros _ Hin.
  apply list_find_None in E. rewrite Forall_forall in E. by apply (E id Hin).
Qed.

Section Refine.
Context (uid euid : Z) (realpath : string -> option string) (fopen : string -> bool) (argv : list string).
Context (R : path) (Hm : mounts_at uid euid realpath fopen argv R).

Abbreviation runs := (run_event uid euid realpath fopen argv).

Lemma refine_write w h f flags ops out h' :
  hist_inv R w h -> answer R h (EvWrite f flags ops) = Some (out, h') ->
  exists w', runs (EvWrite f flags ops) w = Some (out, w') /\ hist_inv R w' h'.
Proof using.
  intros Hi E. destruct h as [ids files]. cbn -[decide wops_exec Z.pow with_file] in E. destruct (files !! f) as [e |] eqn:He; [| done].
  cbn -[decide wops_exec Z.pow with_file] in E. case_decide as Hfl; [| done]. cbn [run_event]. destruct (fe_main e) as [main |] eqn:Hmn.
  - destruct (wops_exec _ _ _) as [outs main'] eqn:Ew. case_decide as Hd; [| done].
    destruct Hd as (Hops & Hroom & Hsz). injection E as <- <-.
    pose proof (hist_session R w (HState ids files) f e main flags ops Hi He Hmn Hfl Hops Hroom) as H. rewrite Ew in H.
    destruct (H Hsz) as (w' & Er & Hi'). exists w'. by rewrite (st_bind_run _ _ _ _ _ Er).
  - injection E as <- <-. destruct (hist_session_missing R w (HState ids files) f e flags ops Hi He Hmn Hfl) as (w' & Er & Hi').
    exists w'. by rewrite (st_bind_run _ _ _ _ _ Er).
Qed.

Lemma refine_create w h f mode flags ops out h' :
  hist_inv R w h -> answer R h (EvCreate f mode flags ops) = Some (out, h') ->
  exists w', runs (EvCreate f mode flags ops) w = Some (out, w') /\ hist_inv R w' h'.
Proof using.
  intros Hi E. destruct h as [ids files]. cbn -[decide wops_exec Z.pow with_file Z.add] in E. destruct (files !! f) as [e |] eqn:He; [| done].
  cbn -[decide wops_exec Z.pow with_file Z.add] in E. destruct (wops_exec _ _ _) as [outs main'] eqn:Ew. case_decide as Hd; [| done].
  destruct Hd as (Hc & Hops & Hroom & Hsz). injection E as <- <-.
  pose proof (hist_create R w (HState ids files) f e flags mode ops Hi He Hc Hops Hroom) as H. rewrite Ew in H.
  destruct (H Hsz) as (w' & Er & Hi'). exists w'. cbn [run_event]. by rewrite (st_bind_run _ _ _ _ _ Er).
Qed.

(** The requests that name the file by its path. *)
Lemma refine_code (run : M Z) w r h' :
  (exists w', run w = Some (r, w') /\ hist_inv R w' h') ->
  exists w', (x ← run; mret (RCode x)) w = Some (RCode r, w') /\ hist_inv R w' h'.
Proof using. intros (w' & E & H). exists w'. by rewrite (st_bind_run _ _ _ _ _ E). Qed.

Lemma refine_path w h ev out h' :
  match ev with EvUnlink _ | EvTruncate _ _ | EvChmod _ _ | EvChown _ _ _ | EvUtimens _ _ _ => True | _ => False end ->
  hist_inv R w h -> answer R h ev = Some (out, h') -> exists w', runs ev w = Some (out, w') /\ hist_inv R w' h'.
Proof using.
  intros Hev Hi E. destruct h as [ids files]. destruct ev; try done; cbn -[decide Z.pow with_file] in E;
    (destruct (files !! f) as [e |] eqn:He; [| done]); cbn -[decide Z.pow with_file] in E; try (case_decide as Hd; [| done]);
    injection E as <- <-; cbn [run_event]; apply refine_code.
  - by apply (hist_unlink R w (HState ids files)).
  - destruct Hd as [Hn Hroom]. by apply (hist_truncate R w (HState ids files)).
  - by apply (hist_save_and R w (HState ids files) f e Hi He _ (with_mode_ok mode)).
  - destruct Hd as [Hu Hg]. by apply (hist_save_and R w (HState ids files) f e Hi He _ (with_owner_ok uid0 gid Hu Hg)).
  - destruct Hd as [Ha Hmt]. by apply (hist_utimens R w (HState ids files)), with_times_ok.
Qed.

Lemma refine_read w h f flags size off out h' :
  hist_inv R w h -> answer R h (EvRead f flags size off) = Some (out, h') ->
  exists w', runs (EvRead f flags size off) w = Some (out, w') /\ hist_inv R w' h'.
Proof using.
  intros Hi E. destruct h as [ids files]. cbn -[decide] in E. destruct (files !! f) as [e |] eqn:He; [| done].
  cbn -[decide] in E. case_decide as Hd; [| done]. destruct Hd as (Hfl & Ho & Hs & _). injection E as <- <-. exists w. cbn [run_event].
  destruct (fe_main e) as [c |] eqn:Hmn.
  - by rewrite (st_bind_run _ _ _ _ _ (hist_read_main R w (HState ids files) f e c flags size off Hi He Hmn Hfl Ho Hs)).
  - by rewrite (st_bind_run _ _ _ _ _ (hist_read_missing R w (HState ids files) f e flags size off Hi He Hmn Hfl)).
Qed.

Lemma refine_take w h id mode out h' :
  hist_inv R w h -> answer R h (EvTake id mode) = Some (out, h') ->
  exists w', runs (EvTake id mode) w = Some (out, w') /\ hist_inv R w' h'.
Proof using.
  intros Hi E. destruct h as [ids files]. cbn -[decide] in E. cbn [run_event]. case_decide as Hin.
  - injection E as <- <-. exists w. by rewrite (st_bind_run _ _ _ _ _ (hist_take_again R w _ id mode Hi Hin)).
  - case_decide as Hd; [| done]. destruct Hd as [Hid Hfiles]. injection E as <- <-.
    destruct (hist_take R w (HState ids files) id mode Hi Hid Hfiles) as (w' & Er & Hi'). exists w'. by rewrite (st_bind_run _ _ _ _ _ Er).
Qed.

Lemma refine_drop w h out h' :
  hist_inv R w h -> answer R h EvDrop = Some (out, h') -> exists w', runs EvDrop w = Some (out, w') /\ hist_inv R w' h'.
Proof using.
  intros Hi E. destruct h as [ids files]. cbn [run_event]. destruct ids as [| id0 r]; injection E as <- <-.
  - exists w. by rewrite (st_bind_run _ _ _ _ _ (hist_drop_none R w _ Hi eq_refl)).
  - destruct (exists_last (l := id0 :: r)) as (ids & idz & Eids); [done |].
    destruct (hist_drop R w (HState (id0 :: r) files) ids idz Hi Eids) as (w' & Er & Hi'). exists w'.
    rewrite (st_bind_run _ _ _ _ _ Er), Eids, drop_last_snoc. done.
Qed.

Lemma refine_read_in w h id f flags size off out h' :
  hist_inv R w h -> answer R h (EvReadIn id f flags size off) = Some (out, h') ->
  exists w', runs (EvReadIn id f flags size off) w = Some (out, w') /\ hist_inv R w' h'.
Proof using.
  intros Hi E. destruct h as [ids files]. cbn -[decide] in E. cbn [run_event]. case_decide as Hd; [| done].
  destruct Hd as (Hfl & (Ho & Hs & Hb) & Hid & Hf & Hfit). destruct (index_of id ids) as [k |] eqn:Ei.
  - destruct (files !! f) as [e |] eqn:He; [| done]. cbn in E. destruct (fe_views e !! k) as [[v |] |] eqn:Hv; [| done | done].
    injection E as <- <-. apply index_of_Some in Ei.
    destruct (hist_read R w (HState ids files) f e k id v flags size off Hi He Ei Hv Hfl Ho Hs Hb) as (w' & Er & Hi').
    exists w'. by rewrite (st_bind_run _ _ _ _ _ Er).
  - apply index_of_None in Ei. destruct ids as [| id0 r]; [done |]. injection E as <- <-. exists w.
    by rewrite (st_bind_run _ _ _ _ _ (hist_read_unknown R w (HState (id0 :: r) files) f id flags size off Hi ltac:(done) Ei Hid Hf Hfit Hfl)).
Qed.

Lemma refine_stat_in w h id f out h' :
  hist_inv R w h -> answer R h (EvStatIn id f) = Some (out, h') ->
  exists w', runs (EvStatIn id f) w = Some (out, w') /\ hist_inv R w' h'.
Proof using.
  intros Hi E. destruct h as [ids files]. cbn -[decide] in E. cbn [run_event]. case_decide as Hd; [| done].
  destruct Hd as (Hid & Hf & Hfit). destruct (index_of id ids) as [k |] eqn:Ei.
  - destruct (files !! f) as [e |] eqn:He; [| done]. cbn in E. destruct (fe_views e !! k) as [v |] eqn:Hv; [| done].
    injection E as <- <-. apply index_of_Some in Ei.
    destruct (hist_stat R w (HState ids files) f e k id v Hi He Ei Hv) as (w' & Er & Hi').
    exists w'. by rewrite (st_bind_run _ _ _ _ _ Er).
  - apply index_of_None in Ei. destruct ids as [| id0 r]; [done |]. injection E as <- <-. exists w.
    by rewrite (st_bind_run _ _ _ _ _ (hist_stat_unknown R w (HState (id0 :: r) files) f id Hi ltac:(done) Ei Hid Hf Hfit)).
Qed.

Lemma refine_event w h ev out h' :
  hist_inv R w h -> answer R h ev = Some (out, h') -> exists w', runs ev w = Some (out, w') /\ hist_inv R w' h'.
Proof using Hm.
  intros Hi E. destruct ev; [by eapply refine_write | by eapply refine_create | by eapply refine_path | by eapply refine_path |
    by eapply refine_path | by eapply refine_path | by eapply refine_path | by eapply refine_read | by eapply refine_take | by eapply refine_drop |
    by eapply refine_read_in | | | by eapply refine_stat_in | | | |]; destruct h as [ids files]; cbn -[decide] in E; cbn [run_event].
  - case_decide as Hd; [| done]. destruct Hd as (Hfl & Hid & Hf & Hfit). injection E as <- <-. exists w.
    by rewrite (st_bind_run _ _ _ _ _ (hist_write_sn R w _ f id flags ops Hi Hid Hf Hfit Hfl)).
  - destruct (files !! f) as [e |] eqn:He; [| done]. injection E as <- <-. exists w.
    by rewrite (st_bind_run _ _ _ _ _ (hist_stat_main R w (HState ids files) f e Hi He)).
  - destruct (index_of id ids) as [k |] eqn:Ei; [| done]. destruct (files !! f) as [e |] eqn:He; [| done]. cbn in E.
    destruct (fe_views e !! k) as [v |] eqn:Hv; [| done]. injection E as <- <-. apply index_of_Some in Ei.
    destruct (hist_list R w (HState ids files) f e k id v Hi He Ei Hv) as (w' & Er & Hi'). exists w'. by rewrite (st_bind_run _ _ _ _ _ Er).
  - destruct (files !! f) as [e |] eqn:He; [| done]. injection E as <- <-.
    destruct (hist_list_main R w (HState ids files) f e Hi He) as (w' & Er & Hi'). exists w'. by rewrite (st_bind_run _ _ _ _ _ Er).
  - case_decide as Hd; [| done]. destruct Hd as [Hd1 Hd2]. injection E as <- <-.
    destruct (hist_list_sns R w (HState ids files) id Hi Hd1 Hd2) as (w' & Er & Hi'). exists w'. by rewrite (st_bind_run _ _ _ _ _ Er).
  - injection E as <- <-. destruct (hist_remount uid euid realpath fopen argv R w _ Hm Hi) as (w' & Er & Hi'). exists w'.
    by rewrite (st_bind_run _ _ _ _ _ Er).
Qed.

Lemma refine_events evs : forall w h outs h',
  hist_inv R w h -> answers R h evs = Some (outs, h') ->
  exists w', run_events uid euid realpath fopen argv evs w = Some (outs, w') /\ hist_inv R w' h'.
Proof using Hm.
  induction evs as [| ev evs IH]; intros w h outs h' Hi E.
  - injection E as <- <-. by exists w.
  - cbn [answers] in E. destruct (answer R h ev) as [[out h1] |] eqn:E1; [| done]. cbn in E.
    destruct (answers R h1 evs) as [[outs1 h2] |] eqn:E2; [| done]. injection E as <- <-.
    destruct (refine_event w h ev out h1 Hi E1) as (w1 & Er & Hi1). destruct (IH w1 h1 outs1 h2 Hi1 E2) as (w2 & Er2 & Hi2).
    exists w2. cbn [run_events]. by rewrite (st_bind_run _ _ _ _ _ Er), (st_bind_run _ _ _ _ _ Er2).
Qed.
End Refine.

(** ** A small system *)

(** A file, and one that is missing. *)
Definition f_name : fname := ([], "f").
Definition g_name : fname := ([], "g").
Definition e_hstate : hstate :=
  HState ["s1"] (<[ f_name := FEntry (Some sm_old) 0 [Some sm_old] ]> {[ g_name := FEntry None 0 [None] ]}).

Lemma e_wf : os_wf (w_os e_world).
Proof. apply os_wf_check; [by vm_compute | apply (bool_decide_unpack _); by vm_compute]. Qed.

Lemma e_snapshots_ok : snapshots_ok e_world ["r"] ["s1"].
Proof.
  split.
  - reflexivity.
  - apply e_wf.
  - apply idle_table_init.
  - apply e_layout.
  - repeat constructor.
  - apply (sr_chain _ _ _ _ _ _ _ _ e_sn_ready).
  - apply (sr_latest _ _ _ _ _ _ _ _ e_sn_ready).
  - by vm_compute.
  - apply is_dir_b_spec. by vm_compute.
  - constructor; [apply is_dir_b_spec; by vm_compute | done].
Qed.

(** A file in the root directory that the snapshot has nothing for. *)
Lemma e_file_hist (f : fname) v : f.1 = [] -> main_is (w_os e_world) (["r"] ++ full f) v -> view_ok v ->
  node_at (w_os e_world) (map_name ["r"] "s1" f) = None -> node_at (w_os e_world) (dat_name ["r"] "s1" f) = None ->
  node_at (w_os e_world) (sn_root ["r"] "s1" ++ full f) = None ->
  file_hist ["r"] (w_os e_world) ["s1"] f (FEntry v 0 [v]).
Proof.
  intros Hf Hm Hv Hmap Hdat Hp. split; try done.
  - rewrite Hf. apply is_dir_b_spec. by vm_compute.
  - by constructor.
  - intros [| k] id v1 v2 Hid Hv1 Hv2; [| done]. cbn in Hid, Hv1, Hv2. simplify_eq. by left.
  - intros id dat [= <-] (m & Hn & _). congruence.
  - intros id ->%list_elem_of_singleton. rewrite Hf. apply dir_clear; [apply e_wf |]. apply is_dir_b_spec. by vm_compute.
  - intros id ->%list_elem_of_singleton (n & Hn & _). congruence.
Qed.

Lemma e_hist : hist_inv ["r"] e_world e_hstate.
Proof.
  split; cbn [h_ids h_files e_hstate].
  - apply e_snapshots_ok.
  - exists (zeros BL_S). split; [reflexivity |]. by rewrite zlen_zeros.
  - split; [| by vm_compute]. unfold stat_wf. cbn. split_and!; (done || lia).
  - intros x (n & (i & Hi & _)%node_at_Some). change (e_names !! ["r"; "snapshots"; x] = Some i) in Hi. unfold e_names in Hi.
    repeat (apply lookup_insert_Some in Hi as [[Hx _] | [_ Hi]]; [try done; injection Hx as <-; right; left; apply list_elem_of_here |]).
    apply lookup_singleton_Some in Hi as [Hx _]. injection Hx as <-. by left.
  - intros f e Hf. assert (f = f_name \/ f = g_name) as [-> | ->].
    { apply lookup_insert_Some in Hf as [[? _] | [_ [? _]%lookup_singleton_Some]]; auto. }
    all: split; [apply (bool_decide_unpack _); by vm_compute |]; split; [by vm_compute |]; by repeat constructor.
  - intros f e [[<- <-] | [_ [<- <-]%lookup_singleton_Some]]%lookup_insert_Some.
    + apply e_file_hist; [reflexivity | | by vm_compute | vm_compute; reflexivity..].
      exists 3%nat, (sm_stat (Z.lor S_IFREG 420) 5). split; [by vm_compute |]. split; [by vm_compute |].
      split; [| by vm_compute]. unfold stat_wf. cbn. split_and!; (done || lia).
    + apply e_file_hist; [reflexivity | vm_compute; reflexivity | exact I | vm_compute; reflexivity..].
  - intros id p ->%list_elem_of_singleton (n & (i & Hi & _)%node_at_Some).
    change (e_names !! ("r" :: "snapshots" :: "s1" :: p) = Some i) in Hi. unfold e_names in Hi. left.
    repeat (apply lookup_insert_Some in Hi as [[Hx _] | [_ Hi]]; [try done; by injection Hx as <- |]).
    apply lookup_singleton_Some in Hi as [Hx _]. done.
  - intros f Hf. assert (f = f_name \/ f = g_name) as [-> | ->].
    { destruct Hf as [e Hf]. apply lookup_insert_Some in Hf as [[? _] | [_ [? _]%lookup_singleton_Some]]; auto. }
    all: intros x [-> | (n & (i & Hi & _)%node_at_Some)]; [by vm_compute |].
    all: change (e_names !! ["r"; x] = Some i) in Hi; unfold e_names in Hi.
    all: repeat (apply lookup_insert_Some in Hi as [[Hx _] | [_ Hi]]; [try done; injection Hx as <-; by vm_compute |]).
    all: by apply lookup_singleton_Some in Hi as [Hx _].
Qed.

(** ** Theorem *)

(** C1 (the file system refines its specification): take a sequence of
    events to which the abstract specification, which only knows which files
    exist, their contents and what they were at each snapshot, has an answer
    ([answers] is [Some]), and let no system call fail.  The events are: files
    of the main space opened or created, changed by writes and truncations and
    closed; files truncated and removed by path, their modes, owners and times
    changed; files read, and their sizes asked for, in the main space and in
    snapshots; directories listed in the main space and in snapshots, and a
    file looked for in the list, and the list of snapshots; snapshots taken and
    the earliest one removed; attempts to open or remove missing files, to
    write in a snapshot, to read in an unknown one while there are others, to
    take one twice or to remove one too many; and the program unmounted and
    started again.  Then the handlers return exactly the answers of the
    specification, and the disk and the data in memory remain in the invariant
    that relates them to it.

    [answer] has none for: an event on a file that is not tracked; a snapshot
    taken while a tracked file is empty, or whose name is too long or beyond
    the number of snapshots; reading a file that did not exist at the
    snapshot (its stat and listing are answered); reading or stat under the path of a
    snapshot when there is none at all; opening with O_CREAT or O_TRUNC;
    creating a file that is there with O_EXCL; sizes and offsets out of range,
    and more changes than a dat file has room for.  [Defects] shows what the
    program does with a file that was empty at a snapshot, with one missing
    there, and under the path of a removed snapshot. *)
Theorem history_refines uid euid realpath fopen argv R w h evs outs h' :
  mounts_at uid euid realpath fopen argv R -> hist_inv R w h -> answers R h evs = Some (outs, h') ->
  exists w', run_events uid euid realpath fopen argv evs w = Some (outs, w') /\ hist_inv R w' h'.
Proof. intros Hm. apply (refine_events _ _ _ _ _ R Hm). Qed.

Definition e_argv : list string := ["esfs"; "/r"; "/mnt"].

Lemma e_mounts : mounts_at 1000 1000 Some (fun _ => true) e_argv ["r"].
Proof. split; [done | by split | done | done | done]. Qed.

(** A file that the snapshot has is changed, removed and created again; one
    that it does not have is created and removed. *)
Definition e_events : list event :=
  [ EvWrite f_name O_WRONLY [WWrite [1; 2; 3] 3; WTruncate 4]; EvReadIn "s1" f_name O_RDONLY 8 1;
    EvRead g_name O_RDONLY 8 0; EvCreate g_name 420 O_WRONLY [WWrite [7; 8] 0; WWrite [9] 1]; EvRead g_name O_RDONLY 8 0;
    EvStatIn "s1" g_name; EvListIn "s1" g_name; EvListIn "s1" f_name; EvTruncate g_name 1; EvChmod g_name 256; EvStat g_name;
    EvTake "s2" 0; EvWrite f_name (Z.lor O_WRONLY O_APPEND) [WWrite [9] 0]; EvRemount;
    EvList g_name; EvUnlink g_name; EvUnlink g_name; EvList g_name; EvListSns "s2"; EvListSns "s3"; EvStatIn "s2" g_name; EvReadIn "s2" g_name O_RDONLY 8 0;
    EvRead f_name O_RDONLY 8 0; EvReadIn "s2" f_name O_RDONLY 8 0; EvReadIn "s1" f_name O_RDONLY 8 0;
    EvUnlink f_name; EvListIn "s2" f_name; EvReadIn "s2" f_name O_RDONLY 8 0; EvCreate f_name 420 O_WRONLY [WWrite [5; 5; 5; 5; 5; 5] 0];
    EvReadIn "s2" f_name O_RDONLY 8 0; EvReadIn "s1" f_name O_RDONLY 8 0;
    EvStat f_name; EvStatIn "s2" f_name; EvStatIn "s1" f_name;
    EvTake "s2" 0; EvDrop; EvReadIn "s1" f_name O_RDONLY 8 0; EvStatIn "s1" f_name; EvWriteIn "s2" f_name O_RDWR [];
    EvReadIn "s2" f_name O_RDONLY 8 2; EvDrop; EvDrop ].

Definition e_replies : list reply :=
  [ RWrite (0, [Ret 3; Ret 0], 0); RRead (0, 4, [20; 30; 40; 50], 0);
    RRead (- ENOENT, 0, [], 0); RWrite (0, [Ret 2; Ret 1], 0); RRead (0, 2, [7; 9], 0);
    RStat (- ENOENT, None); RList (0, 0, None, 0); RList (0, 0, Some 5, 0); RCode 0; RCode 0; RStat (0, Some 1);
    RCode 0; RWrite (0, [Ret 1], 0); RCode 0;
    RNamed (0, 0, true, 0); RCode 0; RCode (- ENOENT); RNamed (0, 0, false, 0); RNamed (0, 0, true, 0); RNamed (0, 0, false, 0);
    RStat (0, Some 1); RRead (0, 1, [7], 0);
    RRead (0, 5, [10; 20; 30; 1; 9], 0); RRead (0, 4, [10; 20; 30; 1], 0); RRead (0, 5, [10; 20; 30; 40; 50], 0);
    RCode 0; RList (0, 0, Some 4, 0); RRead (0, 4, [10; 20; 30; 1], 0); RWrite (0, [Ret 6], 0);
    RRead (0, 4, [10; 20; 30; 1], 0); RRead (0, 5, [10; 20; 30; 40; 50], 0);
    RStat (0, Some 6); RStat (0, Some 4); RStat (0, Some 5);
    RCode (- EIO); RCode 0; RRead (- EFAULT, 0, [], 0); RStat (- EFAULT, None); RWrite (- EACCES, [], 0);
    RRead (0, 2, [30; 1], 0); RCode 0; RCode (- ENOENT) ].

Lemma history_refines_witness :
  exists w' h', run_events 1000 1000 Some (fun _ => true) e_argv e_events e_world = Some (e_replies, w') /\ hist_inv ["r"] w' h'.
Proof.
  destruct (history_refines 1000 1000 Some (fun _ => true) e_argv ["r"] e_world e_hstate e_events e_replies
    (default e_hstate (snd <$> answers ["r"] e_hstate e_events))) as (w' & E & Hi).
  - apply e_mounts.
  - apply e_hist.
  - vm_compute. reflexivity.
  - exists w', (default e_hstate (snd <$> answers ["r"] e_hstate e_events)). split; [exact E | exact Hi].
Defined.
