(* ===== verification/HistoryFrozen.v ===== *)
(** A snapshot is frozen: what a file was when a snapshot was taken is what
    the snapshot shows of it, whatever happens until the snapshot is removed. *)

From S2P Require Import Prelude Posix PosixSpec PosixPath Types Util UtilTheorems Mflock UtilLocking Layout Tree.
From S2P Require Import Snapshot SnapshotTheorems SnapshotDestroy Block CopyOnWrite BlockWrite BlockRead Mfd SnSteps.
From S2P Require Import FuseFd SnapshotIsolation SmallSystem FusePath Mount MfdTheorems SnStepsTheorems Survival MountTheorems.
From S2P Require Import Reopen Sessions HistoryNames History HistoryOpen HistorySessions HistoryWrites HistoryCreate HistoryPaths.
From S2P Require Import HistorySnapshots HistoryReads HistoryList HistoryRoots HistoryEvents HistoryTheorems.

(** [f] is [v] in the snapshot [id]. *)
Definition shows (h : hstate) (id : string) (f : fname) (v : option (list Z)) : Prop :=
  exists k e, h_ids h !! k = Some id /\ h_files h !! f = Some e /\ fe_views e !! k = Some v.

(** Requests on one file change no view and no snapshot. *)
Lemma shows_with_file h id f v g e main n :
  h_files h !! g = Some e -> shows h id f v -> shows (with_file h g (after_session e main n)) id f v.
Proof.
  intros Hg (k & e' & Hid & Hf & Hv). destruct (decide (f = g)) as [-> | Hne].
  - rewrite Hg in Hf. injection Hf as <-. exists k, (after_session e main n). cbn. by rewrite lookup_insert_eq.
  - exists k, e'. cbn. by rewrite lookup_insert_ne.
Qed.

(** Taking another one moves it one place on. *)
Lemma shows_take h id f v id' : shows h id f v -> shows (HState (id' :: h_ids h) (snap_entry <$> h_files h)) id f v.
Proof. intros (k & e & Hid & Hf & Hv). exists (S k), (snap_entry e). cbn. by rewrite lookup_fmap, Hf. Qed.

(** Removing the earliest leaves the others. *)
Lemma shows_drop h id f v : NoDup (h_ids h) -> (forall e, h_files h !! f = Some e -> length (fe_views e) = length (h_ids h)) ->
  id ∈ drop_last (h_ids h) -> shows h id f v -> shows (HState (drop_last (h_ids h)) (drop_entry <$> h_files h)) id f v.
Proof.
  intros Hnd Hlen [k' Hk']%list_elem_of_lookup (k & e & Hid & Hf & Hv). pose proof (drop_last_lookup _ _ _ Hk') as Hk2.
  assert (k' = k) as -> by (eapply NoDup_lookup; [exact Hnd | done | done]).
  exists k, (drop_entry e). cbn. rewrite lookup_fmap, Hf. split_and!; [done | done |].
  unfold drop_last in *. apply lookup_take_Some in Hk' as [_ Hlt]. rewrite (Hlen e Hf). by rewrite lookup_take_lt.
Qed.

(** What an event can do to the abstract state. *)
Inductive change (h : hstate) : event -> hstate -> Prop :=
| ChNone ev : change h ev h
| ChFile ev g e main n : h_files h !! g = Some e -> change h ev (with_file h g (after_session e main n))
| ChTake id mode : change h (EvTake id mode) (HState (id :: h_ids h) (snap_entry <$> h_files h))
| ChDrop ev : change h ev (HState (drop_last (h_ids h)) (drop_entry <$> h_files h)).

Lemma answer_change R h ev out h' : answer R h ev = Some (out, h') -> change h ev h'.
Proof.
  intros E. destruct h as [ids files]. destruct ev; cbn -[decide wops_exec Z.pow Z.add with_file] in E;
    try (destruct (files !! f) as [e |] eqn:He; [| done]); cbn -[decide wops_exec Z.pow Z.add with_file] in E;
    repeat (case_match; try done); simplify_option_eq; first [apply ChNone | by eapply ChFile | apply ChTake | apply (ChDrop (HState _ _))].
Qed.

(** The snapshots that are left were there before, unless one was taken. *)
Definition takes (id : string) (ev : event) : bool := match ev with EvTake id' _ => bool_decide (id' = id) | _ => false end.

Lemma elem_of_drop_last {A} (l : list A) x : x ∈ drop_last l -> x ∈ l.
Proof. intros [k Hk]%list_elem_of_lookup. by eapply list_elem_of_lookup_2, drop_last_lookup. Qed.

Lemma change_shows R w h ev h' id f v :
  hist_inv R w h -> change h ev h' -> takes id ev = false -> id ∈ h_ids h' ->
  id ∈ h_ids h /\ (shows h id f v -> shows h' id f v).
Proof.
  intros Hi Hc Ht Hin. destruct Hc as [ev | ev g e main n He | id' mode | ev].
  - done.
  - split; [done | by apply shows_with_file].
  - cbn in Ht, Hin. apply bool_decide_eq_false in Ht. apply elem_of_cons in Hin as [-> | Hin]; [done |].
    split; [done | apply shows_take].
  - cbn in Hin. split; [by apply elem_of_drop_last |]. apply shows_drop; [apply (so_layout _ _ _ (hv_sns _ _ _ Hi)) | | done].
    intros e He. apply (hv_files _ _ _ Hi f e He).
Qed.

Section Frozen.
Context (uid euid : Z) (realpath : string -> option string) (fopen : string -> bool) (argv : list string).
Context (R : path) (Hm : mounts_at uid euid realpath fopen argv R).

Lemma answers_shows evs id f v : forall w h outs h',
  hist_inv R w h -> answers R h evs = Some (outs, h') -> forallb (fun ev => negb (takes id ev)) evs = true -> id ∈ h_ids h' ->
  id ∈ h_ids h /\ (shows h id f v -> shows h' id f v).
Proof using Hm.
  induction evs as [| ev evs IH]; intros w h outs h' Hi E Ht Hin.
  { by injection E as <- <-. }
  cbn [answers] in E. destruct (answer R h ev) as [[out h1] |] eqn:E1; [| done]. cbn in E.
  destruct (answers R h1 evs) as [[outs1 h2] |] eqn:E2; [| done]. injection E as <- <-. cbn [forallb] in Ht. apply andb_true_iff in Ht as [Ht1 Ht2].
  destruct (refine_event uid euid realpath fopen argv R Hm w h ev out h1 Hi E1) as (w1 & _ & Hi1).
  destruct (IH w1 h1 outs1 h2 Hi1 E2 Ht2 Hin) as [Hin1 Hsh]. apply negb_true_iff in Ht1.
  destruct (change_shows R w h ev h1 id f v Hi (answer_change R h ev out h1 E1) Ht1 Hin1) as [? ?]. split; [done |]. auto.
Qed.

Lemma answers_app h evs evs' outs h1 outs' h2 :
  answers R h evs = Some (outs, h1) -> answers R h1 evs' = Some (outs', h2) -> answers R h (evs ++ evs') = Some (outs ++ outs', h2).
Proof using.
  revert h outs. induction evs as [| ev evs IH]; intros h outs E E'; [by injection E as <- <- |].
  cbn [answers app] in E |- *. destruct (answer R h ev) as [[out h3] |] eqn:E1; [| done]. cbn in E |- *.
  destruct (answers R h3 evs) as [[outs3 h4] |] eqn:E2; [| done]. injection E as <- <-. by rewrite (IH h3 outs3 E2 E').
Qed.

(** Looking at a file in a snapshot: its stat, its place in the list of its
    directory and, if it exists, its bytes. *)
Definition look (id : string) (f : fname) (flags size off : Z) (v : option (list Z)) : list event :=
  [EvStatIn id f; EvListIn id f] ++ match v with Some _ => [EvReadIn id f flags size off] | None => [] end.

Definition replies_of (size off : Z) (v : option (list Z)) : list reply :=
  [RStat (stat_reply v); RList (0, 0, zlen <$> v, 0)] ++ match v with Some c => [read_reply c size off] | None => [] end.

Lemma shows_look h id f v flags size off :
  NoDup (h_ids h) -> shows h id f v -> Z.land flags O_ACCMODE = O_RDONLY -> span_ok size off -> user_ok R id f ->
  answers R h (look id f flags size off v) = Some (replies_of size off v, h).
Proof using.
  intros Hnd (k & e & Hid & Hf & Hv) Hfl Hsp Hu. destruct h as [ids files]. cbn [h_ids h_files] in *.
  assert (Ei : index_of id ids = Some k).
  { destruct (index_of id ids) as [k' |] eqn:Ei.
    - apply index_of_Some in Ei. f_equal. by eapply NoDup_lookup.
    - apply index_of_None in Ei. destruct Ei. by eapply list_elem_of_lookup_2. }
  unfold look, replies_of. cbn [app answers]. unfold answer. rewrite (decide_True (P := user_ok R id f)) by done.
  rewrite Ei, Hf. cbn -[decide]. rewrite Hv. cbn -[decide]. rewrite Ei, Hf. cbn -[decide]. rewrite Hv. cbn -[decide].
  destruct v as [c |]; [| done]. cbn -[decide]. rewrite decide_True by done. rewrite Ei, Hf. cbn. by rewrite Hv.
Qed.

Lemma frozen_run w h f e id mode evs outs h' flags size off :
  hist_inv R w h -> h_files h !! f = Some e -> id ∉ h_ids h ->
  answers R h (EvTake id mode :: evs) = Some (outs, h') -> forallb (fun ev => negb (takes id ev)) evs = true -> id ∈ h_ids h' ->
  Z.land flags O_ACCMODE = O_RDONLY -> span_ok size off -> user_ok R id f ->
  exists w', run_events uid euid realpath fopen argv (EvTake id mode :: evs ++ look id f flags size off (fe_main e)) w
    = Some (outs ++ replies_of size off (fe_main e), w').
Proof using Hm.
  intros Hi He Hni E Ht Hin Hfl Hsp Hu. destruct (refine_events uid euid realpath fopen argv R Hm _ w h _ _ Hi E) as (w' & _ & Hi').
  assert (Hsh : shows h' id f (fe_main e)).
  { cbn [answers] in E. destruct (answer R h _) as [[out h1] |] eqn:E1; [| done]. cbn in E.
    destruct (answers R h1 evs) as [[outs1 h2] |] eqn:E2; [| done]. injection E as <- <-.
    destruct (refine_event uid euid realpath fopen argv R Hm w h _ out h1 Hi E1) as (w1 & _ & Hi1).
    apply (answers_shows evs id f (fe_main e) w1 h1 outs1 h2 Hi1 E2 Ht Hin). destruct h as [ids files]. cbn -[decide] in E1, Hni.
    rewrite (decide_False (P := id ∈ ids)) in E1 by done. case_decide; [| done]. injection E1 as <- <-.
    exists 0%nat, (snap_entry e). cbn in *. by rewrite lookup_fmap, He. }
  pose proof (ly_nodup _ _ _ (so_layout _ _ _ (hv_sns _ _ _ Hi'))) as Hnd.
  pose proof (answers_app h _ _ _ _ _ _ E (shows_look h' id f (fe_main e) flags size off Hnd Hsh Hfl Hsp Hu)) as E2.
  destruct (refine_events uid euid realpath fopen argv R Hm _ w h _ _ Hi E2) as (w2 & Er & _). by exists w2.
Qed.
End Frozen.

(** C2 (a snapshot is frozen): take a snapshot, and then let any events
    follow to which the abstract specification has an answer (see
    [history_refines]: no system call fails, and at this and every later
    snapshot no tracked file is empty), as long as the snapshot itself is not
    removed: files written, truncated, removed and created, other snapshots
    taken and older ones removed, the program restarted.  The snapshot then
    shows every tracked file as it was: a file that had contents [c] has the
    size of [c], is in the list of its directory with that size, and reads as
    the bytes of [c]; a file that did not exist is not found by [getattr] and
    not in the list, even if it exists now. *)
Theorem snapshot_frozen uid euid realpath fopen argv R w h f e id mode evs outs h' flags size off :
  mounts_at uid euid realpath fopen argv R -> hist_inv R w h -> h_files h !! f = Some e -> id ∉ h_ids h ->
  answers R h (EvTake id mode :: evs) = Some (outs, h') -> forallb (fun ev => negb (takes id ev)) evs = true -> id ∈ h_ids h' ->
  Z.land flags O_ACCMODE = O_RDONLY -> span_ok size off -> user_ok R id f ->
  exists w', run_events uid euid realpath fopen argv (EvTake id mode :: evs ++ look id f flags size off (fe_main e)) w
    = Some (outs ++ replies_of size off (fe_main e), w').
Proof. intros Hm. by apply (frozen_run uid euid realpath fopen argv R Hm). Qed.

Definition z_events : list event :=
  [ EvUnlink f_name; EvTake "s3" 0; EvCreate f_name 420 O_WRONLY [WWrite [6; 6] 0]; EvRemount; EvDrop;
    EvTruncate f_name 1; EvUnlink f_name ].

Lemma snapshot_frozen_witness :
  exists w', run_events 1000 1000 Some (fun _ => true) e_argv
      (EvTake "s2" 0 :: z_events ++ [EvStatIn "s2" f_name; EvListIn "s2" f_name; EvReadIn "s2" f_name O_RDONLY 8 1]) e_world
    = Some ([RCode 0; RCode 0; RCode 0; RWrite (0, [Ret 2], 0); RCode 0; RCode 0; RCode 0; RCode 0] ++
            [RStat (0, Some 5); RList (0, 0, Some 5, 0); RRead (0, 4, [20; 30; 40; 50], 0)], w').
Proof.
  apply (snapshot_frozen 1000 1000 Some (fun _ => true) e_argv ["r"] e_world e_hstate f_name (FEntry (Some sm_old) 0 [Some sm_old]) "s2" 0 z_events _
    (default e_hstate (snd <$> answers ["r"] e_hstate (EvTake "s2" 0 :: z_events)))).
  - apply e_mounts.
  - apply e_hist.
  - reflexivity.
  - apply (bool_decide_unpack _). by vm_compute.
  - vm_compute. reflexivity.
  - reflexivity.
  - apply (bool_decide_unpack _). by vm_compute.
  - reflexivity.
  - unfold span_ok. lia.
  - apply (bool_decide_unpack _). by vm_compute.
Defined.
