(* ===== verification/EndToEnd.v ===== *)
(** Theorems on whole FUSE handlers, from paths to bytes. *)

From S2P Require Import Prelude Posix PosixSpec PosixPath Types Util UtilTheorems Mflock UtilLocking.
From S2P Require Import Snapshot SnapshotTheorems Block CopyOnWrite BlockWrite BlockRead Mfd SnSteps.
From S2P Require Import FuseFd SnapshotIsolation SmallSystem FusePath MfdTheorems Descriptors SnStepsTheorems SnStat Survival.

(** ** Disks *)

(** The disk of [e_world] with no snapshot at all. *)
Definition n_world (d : list Z) : world :=
  World (Os {[ [] := 1%nat; ["r"] := 2%nat; ["r"; "f"] := 3%nat; ["r"; "snapshots"] := 4%nat ]}
            {[ 1%nat := sm_dir; 2%nat := sm_dir; 3%nat := sm_file d; 4%nat := sm_dir ]} ∅ [])
    (FsData "/r" 2 "/r/snapshots" 0 "" 0 0 (replicate (Z.to_nat LOCK_NUM) mflock_init_entry) (Some (zeros BL_S)))
    ∅ [] sm_writer 1.

(** ** From paths to bytes *)



(** A snapshot file reads back: when the snapshots from the latest one
    to the one named in the path have on disk, for the file, either nothing
    or map and dat files in the copy-on-write invariant, opening the path
    for reading succeeds and every read through the handle returns exactly
    the bytes that the file had at that snapshot. *)
Theorem snapshot_file_reads_back (lock_ unlock_ : Z -> M Z) (LS : LockService lock_ unlock_)
    w path id inpath sns l views target flags buf size off :
  sn_ready w path id inpath sns l views (Some target) -> lk_idle (mflocks (w_fs w)) ->
  Z.land flags O_ACCMODE = O_RDONLY -> 0 <= off -> 0 <= size < 2 ^ 31 -> off + size < 2 ^ 63 ->
  exists w' fh w'', esfs_open lock_ unlock_ path flags w = Some ((0, Some fh), w') /\
    esfs_read lock_ unlock_ fh buf size off w'
      = Some ((read_len target size off, file_write buf (file_read target (read_len target size off) off) 0), w'').
Proof.
  intros H Hi Hfl Ho Hs Hb.
  destruct (esfs_open_sn_spec lock_ unlock_ w path id inpath sns l views target flags H Hi Hfl)
    as (w' & fh & mfd & E & Hm & Hfull & Hnum & Hf & _ & Hro).
  destruct (esfs_read_sn_spec lock_ unlock_ w' fh mfd (contents <$> views) target buf size off Hm Hfull Hnum Hf Hro Ho Hs Hb) as (w'' & E' & _).
  by exists w', fh, w''.
Qed.

Lemma sm_sn_ready :
  sn_ready (sm_world []) "/snapshots/s1/f" "/s1" "/f" ["/r/snapshots/s1"] ["/r/snapshots/s1"]
    [Some sm_old; Some sm_old] (Some sm_old).
Proof.
  split.
  - reflexivity.
  - exists "/r/snapshots/.hid". split; [by vm_compute |]. exists 8%nat. split.
    + split; [by vm_compute |]. split; [by vm_compute |]. by eexists.
    + split; [by vm_compute |]. exists "/r/snapshots/s1.hid". split; [by vm_compute | by split; vm_compute].
  - by vm_compute.
  - by vm_compute.
  - split; [by vm_compute |]. vm_compute. by eexists.
  - by vm_compute.
  - by vm_compute.
  - by vm_compute.
  - split; [reflexivity | | |].
    + intros r v [= <-] [= <-]. exists 3%nat. split; [by vm_compute |]. split; [by vm_compute |]. by eexists.
    + intros [| k] r v v' Hr Hv Hv'; [| done]. cbn in Hr, Hv, Hv'. simplify_eq.
      exists "/r/snapshots/s1/f.map", "/r/snapshots/s1/f.dat". split; [by vm_compute |]. split; [by vm_compute |]. right; left.
      exists sm_old, 6%nat, 7%nat, (enc_header sm_header), []. split_and!; [done | | |].
      * split; [by vm_compute |]. split; [by vm_compute |]. by eexists.
      * split; [by vm_compute |]. split; [by vm_compute |]. by eexists.
      * by apply cow_fresh; [apply sm_header_ok |].
    + intros [| [| k]] r Hr; [injection Hr as <-; by vm_compute .. | done].
  - reflexivity.
  - by vm_compute.
Qed.

Lemma snapshot_file_reads_back_witness :
  exists w' fh w'', esfs_open mflock_lock mflock_unlock "/snapshots/s1/f" O_RDONLY (sm_world []) = Some ((0, Some fh), w') /\
    esfs_read mflock_lock mflock_unlock fh [] 3 2 w' = Some ((3, [30; 40; 50]), w'').
Proof.
  apply (snapshot_file_reads_back mflock_lock mflock_unlock mflock_service (sm_world []) "/snapshots/s1/f" "/s1" "/f"
           ["/r/snapshots/s1"] ["/r/snapshots/s1"] [Some sm_old; Some sm_old] sm_old O_RDONLY [] 3 2);
    [apply sm_sn_ready | apply idle_table_init | reflexivity | lia | lia | lia].
Defined.

(** C9 (the stat of a file in a snapshot): no call fails, the snapshots on
    the way have, for the file, nothing, a map and a dat file in copy-on-write
    form or the record that it did not exist, and none has a directory in the
    place of the file.  Then [getattr]
    of the path returns 0 and a stat whose size is the length that the file
    had at the snapshot, or -ENOENT if the file did not exist then, whether
    it exists now or not.  Nothing else changes: the table of descriptors has
    the same entries as before, so the map file opened for its header is
    closed again. *)
Theorem snapshot_file_stat w path id inpath sns l views target :
  sn_ready w path id inpath sns l views target -> sn_plain w inpath l ->
  exists r st x, esfs_getattr path w = Some ((r, st), set_os (set_fds x (w_os w)) w) /\ fds_back (w_os w) x /\
    match target with
    | Some c => r = 0 /\ exists a, st = Some a /\ st_size a = zlen c
    | None => r = - ENOENT /\ st = None
    end.
Proof. apply esfs_getattr_sn_spec. Qed.

Lemma snapshot_file_stat_witness :
  exists r st x, esfs_getattr "/snapshots/s1/f" (sm_world []) = Some ((r, st), set_os (set_fds x (w_os (sm_world []))) (sm_world [])) /\
    r = 0 /\ exists a, st = Some a /\ st_size a = 5.
Proof.
  destruct (snapshot_file_stat (sm_world []) "/snapshots/s1/f" "/s1" "/f" ["/r/snapshots/s1"] ["/r/snapshots/s1"]
    [Some sm_old; Some sm_old] (Some sm_old) sm_sn_ready) as (r & st & x & E & _ & Hs).
  - constructor; [left; apply absent_enoent; by split; vm_compute | constructor].
  - exists r, st, x. split; [exact E | exact Hs].
Defined.

(** ** Snapshots cannot be written *)

Lemma malloc_frame w : exists b, malloc_ w = Some (b, set_os (adv (w_os w)) w).
Proof. unfold malloc_. rewrite pop_fault_adv. by eexists. Qed.

(** A handler with [IF_PATH_SN] whose part for snapshots refuses the path
    fails, with the error of the part or an earlier one. *)
Lemma if_path_sn_refused {A} path (ret : Z -> A) sn main w e0 :
  is_path_in_sn path = true -> e0 < 0 ->
  (forall w1 p, sn (snd (decompose_sn_path path)) p w1 = Some (ret e0, w1)) ->
  exists e s', if_path_sn path ret sn main w = Some (ret e, set_os s' w) /\ e < 0 /\ frame quiet (w_os w) s'.
Proof.
  intros Hp He Hsn. unfold if_path_sn. rewrite (st_bind_run get_fs _ w (w_fs w) w eq_refl), Hp.
  destruct (map_path path (w_fs w)) as [fpath |].
  - destruct (malloc_frame w) as [[|] E]; rewrite (st_bind_run _ _ _ _ _ E); cbn [negb]; [rewrite Hsn |];
      eexists _, _; split_and!; try done; apply frame_adv.
  - eexists _, (w_os w). split_and!; [by rewrite set_os_id | done | done].
Qed.

(** C25 (snapshots are read-only): [unlink], [truncate], [chmod], [chown],
    [utimens] and [create] refuse a path in the snapshot space with EACCES and
    change nothing at all; opening such a path for writing, and [mkdir] and
    [rmdir] of a path inside a snapshot, fail and change nothing on disk; and
    [write] through any handle that is not a main handle is refused with
    EACCES and changes nothing.  ([ftruncate] has no such check.) *)
Theorem snapshots_read_only (lock_ unlock_ : Z -> M Z) path flags w :
  is_path_in_sn path = true -> Z.land flags O_ACCMODE <> O_RDONLY ->
  esfs_unlink lock_ unlock_ path w = Some (- EACCES, w) /\
  (forall n, esfs_truncate lock_ unlock_ path n w = Some (- EACCES, w)) /\
  (forall mode, esfs_chmod lock_ unlock_ path mode w = Some (- EACCES, w)) /\
  (forall uid gid, esfs_chown lock_ unlock_ path uid gid w = Some (- EACCES, w)) /\
  (forall atim mtim, esfs_utimens path atim mtim w = Some (- EACCES, w)) /\
  (forall mode fl, esfs_create lock_ unlock_ path mode fl w = Some ((- EACCES, None), w)) /\
  (exists e s', esfs_open lock_ unlock_ path flags w = Some ((e, None), set_os s' w) /\ e < 0 /\ frame quiet (w_os w) s') /\
  (is_there (snd (decompose_sn_path path)) = snpath_full ->
     (forall mode, exists e s', esfs_mkdir lock_ unlock_ path mode w = Some (e, set_os s' w) /\ e < 0 /\ frame quiet (w_os w) s') /\
     (exists e s', esfs_rmdir path w = Some (e, set_os s' w) /\ e < 0 /\ frame quiet (w_os w) s')) /\
  (forall fh mfd buf off, w_mfds w !! fh = Some mfd -> is_main mfd <> mfd_main ->
     esfs_write lock_ unlock_ fh buf off w = Some (- EACCES, w)).
Proof.
  intros Hp Hfl.
  assert (Hmain : forall body, if_path_main_only path body w = Some (- EACCES, w)).
  { intros body. unfold if_path_main_only. rewrite (st_bind_run get_fs _ w (w_fs w) w eq_refl). by rewrite Hp. }
  split_and!; try (intros; apply Hmain).
  - intros mode fl. unfold esfs_create. rewrite (st_bind_run get_fs _ w (w_fs w) w eq_refl). by rewrite Hp.
  - destruct (if_path_sn_refused path (fun e => (e, None)) (fun snpath _ => esfs_open_sn flags snpath) (esfs_open_main lock_ unlock_ path flags) w (- EACCES) Hp)
      as (e & s' & E & He & Hfr); [done | | by exists e, s'].
    intros w1 p. unfold esfs_open_sn. by destruct (Z.eqb_spec (Z.land flags O_ACCMODE) O_RDONLY).
  - intros Hfull. split; [intros mode |]; apply (if_path_sn_refused path id _ _ w (- EFAULT) Hp eq_refl); intros w1 p; by rewrite Hfull.
  - intros fh mfd buf off Hm Hne. unfold esfs_write.
    rewrite (st_bind_run (get_mfd fh) _ w mfd w) by (unfold get_mfd; by rewrite Hm). by destruct (is_main mfd).
Qed.

Lemma snapshots_read_only_witness :
  esfs_unlink mflock_lock mflock_unlock "/snapshots/s1/f" (sm_world []) = Some (- EACCES, sm_world []) /\
  (forall n, esfs_truncate mflock_lock mflock_unlock "/snapshots/s1/f" n (sm_world []) = Some (- EACCES, sm_world [])) /\
  (exists e s', esfs_open mflock_lock mflock_unlock "/snapshots/s1/f" O_RDWR (sm_world []) = Some ((e, None), set_os s' (sm_world [])) /\
     e < 0 /\ frame quiet (w_os (sm_world [])) s') /\
  (exists e s', esfs_rmdir "/snapshots/s1/f" (sm_world []) = Some (e, set_os s' (sm_world [])) /\ e < 0 /\ frame quiet (w_os (sm_world [])) s') /\
  (forall fh mfd buf off, w_mfds (sm_world []) !! fh = Some mfd -> is_main mfd <> mfd_main ->
     esfs_write mflock_lock mflock_unlock fh buf off (sm_world []) = Some (- EACCES, sm_world [])).
Proof.
  destruct (snapshots_read_only mflock_lock mflock_unlock "/snapshots/s1/f" O_RDWR (sm_world [])) as (H1 & H2 & _ & _ & _ & _ & H3 & H4 & H5);
    [reflexivity | discriminate |].
  split; [exact H1 |]. split; [exact H2 |]. split; [exact H3 |]. split; [exact (proj2 (H4 eq_refl)) | exact H5].
Defined.

(** ** A run

    A run of the whole system from a small disk with no snapshot; it lists the
    return values of the handlers, in order. *)

Section Runs.

(** The address in the result of an open. *)
Definition fh_of (o : Z * option Z) : Z := default (-1) (snd o).

Abbreviation mkdir_ := (esfs_mkdir mflock_lock mflock_unlock).
Abbreviation create_ := (esfs_create mflock_lock mflock_unlock).

(** A directory made after the snapshot, and a file in it. *)
Definition run_late_dir : M (list Z) :=
  a ← mkdir_ "/snapshots/s1" 448;
  b ← mkdir_ "/d" 448;
  '(c, _) ← esfs_getattr "/snapshots/s1/d";
  d ← create_ "/d/x" 420 O_WRONLY;
  '(e, _) ← esfs_getattr "/snapshots/s1/d";
  mret [a; b; c; fst d; e].

(** A directory that appears late: one made after a snapshot is
    not found in the snapshot at first, and is found there once a file has
    been created in it. *)
Example late_dir_appears : fst <$> run_late_dir (n_world []) = Some [0; 0; - ENOENT; 0; 0].
Proof. vm_compute. reflexivity. Qed.

End Runs.
