(* ===== verification/Defects.v ===== *)
(** Where the code does not do what it means to.

    Each theorem here is about all the files, handles and states of a kind,
    and says what a handler does there against its purpose: a snapshot that
    shows later data, a handle that cannot be written, memory that is not
    given back, a snapshot that cannot be removed. *)

From S2P Require Import Prelude Posix PosixSpec PosixPath Types Util UtilTheorems Mflock UtilLocking Layout Tree.
From S2P Require Import Snapshot SnapshotTheorems SnapshotDestroy Block CopyOnWrite BlockWrite BlockRead Mfd SnSteps.
From S2P Require Import FuseFd SnapshotIsolation SmallSystem FusePath MfdTheorems Descriptors SnStepsTheorems SnStat.
From S2P Require Import PassedOver Survival.

(** ** Snapshots that show later data *)

(** Some time later: the handle is still open and its descriptors too, no
    snapshot was taken or removed, no call fails and no lock is taken. *)
Record later (idle : list mflock_t -> Prop) (fh : Z) (w w' : world) : Prop := {
  lt_handle : w_mfds w' !! fh = w_mfds w !! fh;
  lt_number : sn_number (w_fs w') = sn_number (w_fs w);
  lt_fds : forall fd i acc app, open_on (w_os w) fd i acc app -> open_on (w_os w') fd i acc app;
  lt_faults : os_faults (w_os w') = [];
  lt_idle : idle (mflocks (w_fs w'))
}.

(** The file of a path in the main space, as it is now. *)
Definition main_file (w : world) (inpath : string) (im : nat) (c : list Z) : Prop :=
  file_at (w_os w) (resolve (rootdir (w_fs w) +:+ inpath)) im c.

(** Opening a file about which the snapshots keep no blocks, and reading it at any later time. *)
Lemma passed_over_session (lock_ unlock_ : Z -> M Z) {LS : LockService lock_ unlock_} w path id inpath l im c flags :
  sn_found w path id inpath l -> Forall (fun r => passed_over (w_os w) (r +:+ inpath)) l ->
  main_file w inpath im c -> Z.land flags O_ACCMODE = O_RDONLY ->
  exists w1 fh, esfs_open lock_ unlock_ path flags w = Some ((0, Some fh), w1) /\
    (regular (w_os w1) im c /\ (lk_idle (mflocks (w_fs w)) -> later lk_idle fh w1 w1)) /\
    forall w2 now buf size off, later lk_idle fh w1 w2 -> regular (w_os w2) im now -> zlen c <= zlen now < 2 ^ 62 ->
      0 <= off -> 0 <= size < 2 ^ 31 -> off + size < 2 ^ 63 ->
      exists w3, esfs_read lock_ unlock_ fh buf size off w2
        = Some ((read_len c size off, file_write buf (file_read now (read_len c size off) off) 0), w3).
Proof.
  intros Hfound Hp Hmain Hfl.
  destruct (open_passed_over lock_ unlock_ w path id inpath l (Some (im, c)) flags Hfound Hp Hmain Hfl) as (w1 & fh & mfd & E & Hop).
  pose proof (op_handle _ _ _ _ _ Hop) as Hm. pose proof Hop as [(s' & -> & Hmf) Hfull [Hnum (Hfirst & Hsz & Hlab & step & Hst & Hon)]].
  cbn [w_os w_fs set_mfds set_os] in *. eexists _, fh. split; [exact E |]. split; [split; [| intros Hidle; split] |]; try done.
  - cbn. apply (more_fds_file_at _ _ _ _ _ Hmf Hmain).
  - cbn. by rewrite (mf_faults _ _ Hmf), (sd_faults _ _ _ _ _ Hfound).
  - intros w2 now buf size off [] Hreg Hlen Ho Hs Hb. cbn [w_os w_fs set_mfds set_os] in *.
    destruct (read_main_now lock_ unlock_ w2 fh mfd im c now buf size off) as (w3 & E3 & _); try done.
    + by rewrite lt_handle0.
    + by rewrite lt_number0.
    + split_and!; try done. exists step. split; [done | by apply lt_fds0].
    + by exists w3.
Qed.

(** C30 (a stale snapshot handle): a file is opened in a snapshot before it is
    first opened for writing, when no snapshot from the latest one to that of
    the path has a map file for it.  At any later time without a new
    snapshot, whatever was written in between, a read through the handle
    returns bytes that the main file holds at the time of the read, and not
    those of the snapshot: [mfd_in_sn_validate] compares snapshot numbers
    only, so the handle never learns of the map and dat files that the
    writer has made. *)
Theorem stale_handle_reads_new_data (lock_ unlock_ : Z -> M Z) (LS : LockService lock_ unlock_)
    w path id inpath sns l im old flags :
  sn_chained w path id inpath sns l -> Forall (fun r => untouched_at (w_os w) (r +:+ inpath)) l ->
  main_file w inpath im old -> Z.land flags O_ACCMODE = O_RDONLY ->
  exists w1 fh, esfs_open lock_ unlock_ path flags w = Some ((0, Some fh), w1) /\
    (regular (w_os w1) im old /\ (lk_idle (mflocks (w_fs w)) -> later lk_idle fh w1 w1)) /\
    forall w2 now buf size off, later lk_idle fh w1 w2 -> regular (w_os w2) im now -> zlen old <= zlen now < 2 ^ 62 ->
      0 <= off -> 0 <= size < 2 ^ 31 -> off + size < 2 ^ 63 ->
      exists w3, esfs_read lock_ unlock_ fh buf size off w2
        = Some ((read_len old size off, file_write buf (file_read now (read_len old size off) off) 0), w3).
Proof.
  intros Hc Hu. apply (passed_over_session lock_ unlock_ w path id inpath l im old flags (sn_chained_found _ _ _ _ _ _ Hc)).
  eapply Forall_impl; [exact Hu |]. intros r Hr. by left.
Qed.

Lemma e_untouched : Forall (fun r => untouched_at (w_os e_world) (r +:+ "/f")) ["/r/snapshots/s1"].
Proof.
  constructor; [| constructor]. exists "/r/snapshots/s1/f.map". split; [by vm_compute |]. apply absent_enoent. by split; vm_compute.
Qed.

(** The file is five bytes when it is opened in the snapshot; then three of them are changed. *)
Lemma stale_handle_reads_new_data_witness :
  exists w1 fh w2 w3, esfs_open mflock_lock mflock_unlock "/snapshots/s1/f" O_RDONLY e_world = Some ((0, Some fh), w1) /\
    regular (w_os w1) 3 [10; 20; 30; 40; 50] /\ w2 = set_os (set_data 3 [10; 1; 2; 3; 50] (w_os w1)) w1 /\
    esfs_read mflock_lock mflock_unlock fh [] 5 0 w2 = Some ((5, [10; 1; 2; 3; 50]), w3).
Proof.
  destruct (stale_handle_reads_new_data mflock_lock mflock_unlock mflock_service e_world "/snapshots/s1/f" "/s1" "/f"
    ["/r/snapshots/s1"] ["/r/snapshots/s1"] 3 sm_old O_RDONLY) as (w1 & fh & E & [Hreg Hlt] & H).
  - eapply sn_ready_chained, e_sn_ready.
  - apply e_untouched.
  - split; [by vm_compute |]. split; [by vm_compute |]. by eexists.
  - reflexivity.
  - assert (Hidle : lk_idle (mflocks (w_fs e_world))) by apply idle_table_init. destruct (Hlt Hidle) as [].
    destruct (H (set_os (set_data 3 [10; 1; 2; 3; 50] (w_os w1)) w1) [10; 1; 2; 3; 50] [] 5 0) as [w3 E3]; [| | by vm_compute | lia | lia | lia |].
    + split; try done.
    + destruct Hreg as (m & Hi & Hr). eexists. cbn. rewrite lookup_alter_eq, Hi. split; [reflexivity | exact Hr].
    + exists w1, fh, (set_os (set_data 3 [10; 1; 2; 3; 50] (w_os w1)) w1), w3. split_and!; [exact E | exact Hreg | reflexivity | exact E3].
Defined.

(** C32 (an empty file): a snapshot has for a file a map file with the size 0
    and no dat file, which is what it gets when the file was empty at the
    snapshot and is opened for writing later ([mfd_open_dat] makes no dat
    file then); the later snapshots have no map file for it, or the same.
    [getattr] tells that the file has 0 bytes in the snapshot, and reading it
    there gives what the main file holds: [mfd_get_sn_steps] passes over a
    snapshot without a dat file. *)
Theorem empty_file_reads_new_data (lock_ unlock_ : Z -> M Z) (LS : LockService lock_ unlock_)
    w path id inpath sns l p h im now flags buf size off :
  sn_chained w path id inpath sns (l ++ [p]) -> lk_idle (mflocks (w_fs w)) ->
  Forall (fun r => passed_over (w_os w) (r +:+ inpath)) l ->
  no_dat_at (w_os w) (p +:+ inpath) h -> header_for [] h -> plain_at (w_os w) (resolve (p +:+ inpath)) ->
  main_file w inpath im now -> zlen now < 2 ^ 62 -> Z.land flags O_ACCMODE = O_RDONLY ->
  0 <= off -> 0 <= size < 2 ^ 31 -> off + size < 2 ^ 63 ->
  (exists st w', esfs_getattr path w = Some ((0, Some st), w') /\ st_size st = 0) /\
  exists w1 fh w2, esfs_open lock_ unlock_ path flags w = Some ((0, Some fh), w1) /\
    esfs_read lock_ unlock_ fh buf size off w1
      = Some ((read_len now size off, file_write buf (file_read now (read_len now size off) off) 0), w2).
Proof.
  intros Hc Hidle Hl Hnd Hfor Hpl Hmain Hlen Hfl Ho Hs Hb. pose proof (sn_chained_found _ _ _ _ _ _ Hc) as Hfound. split.
  - exact (getattr_mapped w path id inpath l p h [] Hfound Hnd Hfor Hpl).
  - destruct (passed_over_session lock_ unlock_ w path id inpath (l ++ [p]) im now flags) as (w1 & fh & E & [Hreg Hlt] & H); try done.
    { apply Forall_app. split; [done |]. constructor; [by right; exists h | done]. }
    destruct (H w1 now buf size off) as [w2 E2]; auto; [lia |]. by exists w1, fh, w2.
Qed.

(** The snapshot [s1] with an empty [/f], which has two bytes now. *)
Definition z_header : mapheader_t := MapHeader ESFS_VERSION 1 (sm_stat (Z.lor S_IFREG 420) 0) ESFS_SIGNATURE.
Definition z_world : world :=
  World (Os (<[ ["r"; "snapshots"; "s1"; "f.map"] := 6%nat ]> e_names)
            (<[ 3%nat := sm_file [7; 8] ]> (<[ 6%nat := sm_file (enc_header z_header) ]> e_inodes)) ∅ []) sm_fs ∅ [] sm_writer 1.

Lemma z_chained : sn_chained z_world "/snapshots/s1/f" "/s1" "/f" ["/r/snapshots/s1"] ["/r/snapshots/s1"].
Proof.
  split; [reflexivity | | by vm_compute | by vm_compute | | by vm_compute | by vm_compute | by vm_compute |].
  - exists "/r/snapshots/.hid". split; [by vm_compute |]. exists 8%nat. split.
    + split; [by vm_compute |]. split; [by vm_compute |]. by eexists.
    + split; [by vm_compute |]. exists "/r/snapshots/s1.hid". split; [by vm_compute | by split; vm_compute].
  - split; [by vm_compute |]. vm_compute. by eexists.
  - intros r Hr. apply elem_of_cons in Hr as [-> | ->%list_elem_of_singleton]; by vm_compute.
Qed.

Lemma z_no_dat : no_dat_at (w_os z_world) ("/r/snapshots/s1" +:+ "/f") z_header.
Proof.
  exists "/r/snapshots/s1/f.map", "/r/snapshots/s1/f.dat", 6%nat, (enc_header z_header).
  split; [by vm_compute |]. split; [by vm_compute |]. split_and!.
  - split; [by vm_compute |]. split; [by vm_compute |]. by eexists.
  - split; [by vm_compute |]. unfold header_ok, header_wf, stat_wf. cbn. split_and!; (done || lia).
  - apply absent_enoent. by split; vm_compute.
Qed.

Lemma empty_file_reads_new_data_witness :
  (exists st w', esfs_getattr "/snapshots/s1/f" z_world = Some ((0, Some st), w') /\ st_size st = 0) /\
  exists w1 fh w2, esfs_open mflock_lock mflock_unlock "/snapshots/s1/f" O_RDONLY z_world = Some ((0, Some fh), w1) /\
    esfs_read mflock_lock mflock_unlock fh [] 4 0 w1 = Some ((2, [7; 8]), w2).
Proof.
  apply (empty_file_reads_new_data mflock_lock mflock_unlock mflock_service z_world "/snapshots/s1/f" "/s1" "/f"
    ["/r/snapshots/s1"] [] "/r/snapshots/s1" z_header 3 [7; 8] O_RDONLY [] 4 0).
  - apply z_chained.
  - apply idle_table_init.
  - constructor.
  - apply z_no_dat.
  - by split.
  - left. apply absent_enoent. by split; vm_compute.
  - split; [by vm_compute |]. split; [by vm_compute |]. by eexists.
  - by vm_compute.
  - reflexivity.
  - lia.
  - lia.
  - lia.
Defined.

(** C38 (a missing file): [open] of a file that exists neither in the main
    space nor, as far as the snapshots from the latest one to that of the
    path have map files with dat files, in a snapshot, succeeds.  A read through the handle
    leaves the buffer and everything else alone and reports a number of bytes
    that depends on [n], the size that was in the memory of the handle
    before: the whole request if [n] is negative, and otherwise what lies
    below [n]. *)
Theorem missing_snapshot_file_opens (lock_ unlock_ : Z -> M Z) w path id inpath sns l flags :
  sn_chained w path id inpath sns l -> Forall (fun r => passed_over (w_os w) (r +:+ inpath)) l ->
  enoent_at (w_os w) (resolve (rootdir (w_fs w) +:+ inpath)) -> Z.land flags O_ACCMODE = O_RDONLY ->
  let n := st_size (mh_fstat (mapheader (w_junk_mfd w))) in
  - 2 ^ 63 <= n < 2 ^ 63 ->
  exists w1 fh, esfs_open lock_ unlock_ path flags w = Some ((0, Some fh), w1) /\
    forall buf size off, 0 <= off -> 0 <= size < 2 ^ 31 -> off + size < 2 ^ 62 ->
      esfs_read lock_ unlock_ fh buf size off w1 = Some ((junk_len n size off, buf), w1).
Proof.
  intros Hc Hp Hmain Hfl n Hn.
  destruct (open_passed_over lock_ unlock_ w path id inpath l None flags (sn_chained_found _ _ _ _ _ _ Hc) Hp Hmain Hfl)
    as (w1 & fh & mfd & E & Hop).
  exists w1, fh. split; [done |]. intros buf size off Ho Hs Hb. pose proof (op_handle _ _ _ _ _ Hop) as Hm.
  destruct Hop as [(s' & -> & _) Hfull [Hnum [Hfirst Hh]]]. rewrite (read_nowhere lock_ unlock_ _ fh mfd) by (done || by rewrite Hh).
  by rewrite Hh.
Qed.

(** [malloc] gives a handle in which the size 2 is left over. *)
Definition with_junk_size (n : Z) (w : world) : world :=
  World (w_os w) (w_fs w) (w_mfds w) (w_junk w) (set_head_fstat (Stat 0 0 0 0 0 0 0 n 0 0 0 0 0) (w_junk_mfd w)) (w_bufs w).

Lemma missing_snapshot_file_opens_witness :
  exists w1 fh, esfs_open mflock_lock mflock_unlock "/snapshots/s1/nope" O_RDONLY (with_junk_size 2 z_world) = Some ((0, Some fh), w1) /\
    esfs_read mflock_lock mflock_unlock fh [0; 0; 0] 3 0 w1 = Some ((2, [0; 0; 0]), w1).
Proof.
  destruct (missing_snapshot_file_opens mflock_lock mflock_unlock (with_junk_size 2 z_world) "/snapshots/s1/nope" "/s1" "/nope"
    ["/r/snapshots/s1"] ["/r/snapshots/s1"] O_RDONLY) as (w1 & fh & E & H).
  - split; try apply z_chained; [split; [by vm_compute | vm_compute; by eexists] | by vm_compute |].
    intros r Hr. apply elem_of_cons in Hr as [-> | ->%list_elem_of_singleton]; by vm_compute.
  - constructor; [| constructor]. left. exists "/r/snapshots/s1/nope.map". split; [by vm_compute |]. apply absent_enoent. by split; vm_compute.
  - apply absent_enoent. by split; vm_compute.
  - reflexivity.
  - by vm_compute.
  - exists w1, fh. split; [exact E |]. apply (H [0; 0; 0] 3 0); lia.
Defined.

(** *** A removed snapshot *)

(** The snapshot [id] is the latest one in memory, whether there is any or
    not: the search for it ends at once. *)
Lemma paths_to_latest w mfd id inpath :
  os_faults (w_os w) = [] -> sn_lat_dir (w_fs w) = sn_dir (w_fs w) +:+ id -> strlen id + strlen (sn_dir (w_fs w)) < PATH_MAX ->
  sn_get_paths_to mfd (SnPath snpath_full id inpath) w
    = Some ((0, set_sn_current 1 (set_sn_steps (new_step <$> [rootdir (w_fs w); sn_lat_dir (w_fs w)]) mfd)), w).
Proof.
  intros Hf Hlat Hlen. unfold sn_get_paths_to. rewrite (st_bind_run get_fs _ w (w_fs w) w eq_refl). cbn [is_there sp_id].
  destruct (Z.leb_spec PATH_MAX (strlen id + strlen (sn_dir (w_fs w)))); [lia |].
  rewrite (st_bind_run _ _ _ _ _ (malloc_ok w Hf)). cbn [negb].
  replace (Z.to_nat MAX_SNAPSHOTS) with (S (Z.to_nat (MAX_SNAPSHOTS - 1))) by (unfold MAX_SNAPSHOTS; lia).
  cbn [sn_get_paths_loop]. rewrite <-Hlat, String.eqb_refl. by rewrite (st_bind_run (mret _) _ w _ w eq_refl).
Qed.

Section Removed.
Context (w : world) (R : path) (id : string) (H : snapshots_ok w R [id]) (C : path) (c : string).
Context (HC : Forall comp_ok C) (Hc : comp_ok c) (Hmain : is_path_in_sn (join_path (C ++ [c])) = false).
Context (s' : os) (Hrm : removed [latest_name R; sn_root R id] (w_os w) s') (Hok : snapshots_ok (set_fs (set_sn_is_any 0 (w_fs w)) (set_os s' w)) R []).

(** The main files stay, and nothing of the snapshot does. *)
Lemma removed_main im now : main_file w (join_path (C ++ [c])) im now -> file_at s' (resolve (rootdir (w_fs w) +:+ join_path (C ++ [c]))) im now.
Proof using H HC Hc Hmain Hrm Hok.
  pose proof (so_layout _ _ _ H) as [HR _ _ Eroot _ _]. unfold main_file. rewrite Eroot, <-join_app, resolve_join.
  2: { apply Forall_app. split; [done |]. apply Forall_app. split; [done | by constructor]. }
  apply (removed_file_at _ _ _ _ _ _ Hrm (so_wf _ _ _ Hok)).
  intros d [-> | ->%list_elem_of_singleton]%elem_of_cons [r E]; unfold latest_name, sn_root in E; rewrite <-app_assoc in E;
    apply app_inv_head in E; by apply (main_not_sn _ _ _ Hmain) in E.
Qed.

Lemma removed_untouched fmap :
  get_map_path (sn_path R id +:+ join_path (C ++ [c])) = Ok fmap -> enoent_at s' (resolve fmap).
Proof using H HC Hc Hrm Hok.
  pose proof (so_layout _ _ _ H) as [HR [Hid _]%Forall_cons _ _ _ _]. unfold get_map_path. case_match; [| done]. intros [= <-].
  rewrite string_app_assoc, resolve_sn_file by done. exists (sn_root R id). split; [unfold sn_file; apply prefix_app_r; done |].
  unfold sn_root. rewrite entry_split. apply wf_absent_at; [apply (so_wf _ _ _ Hok) | apply (so_dir _ _ _ Hok) |].
  rewrite <-entry_split. eapply (removed_gone _ _ _ (sn_root R id)); [done | by right; left | done].
Qed.
End Removed.

(** C37 (a removed snapshot): when the only snapshot has been removed, its
    tree is gone from the disk and there is no snapshot in memory, but every
    file of the main space can still be opened and read under the path of the
    snapshot, with its present contents: [sn_get_paths_to] starts at the
    latest snapshot without asking whether there is any. *)
Theorem removed_snapshot_shows_main (lock_ unlock_ : Z -> M Z) (LS : LockService lock_ unlock_)
    w R id C c path im now flags buf size off :
  let inpath := join_path (C ++ [c]) in
  snapshots_ok w R [id] -> lk_idle (mflocks (w_fs w)) -> Forall comp_ok C -> comp_ok c ->
  is_path_in_sn path = true -> is_Some (match map_path path (w_fs w) with Ok p => Some p | Err _ => None end) ->
  snd (decompose_sn_path path) = SnPath snpath_full (DIRSEP +:+ id) inpath ->
  is_path_in_sn inpath = false -> strlen inpath + strlen (sn_path R id) < PATH_MAX - EXT_LEN ->
  main_file w inpath im now -> zlen now < 2 ^ 62 ->
  Z.land flags O_ACCMODE = O_RDONLY -> 0 <= off -> 0 <= size < 2 ^ 31 -> off + size < 2 ^ 63 ->
  exists w1, sn_destroy w = Some (0, w1) /\ sn_is_any (w_fs w1) = 0 /\ os_names (w_os w1) !! sn_root R id = None /\
    exists w2 fh w3, esfs_open lock_ unlock_ path flags w1 = Some ((0, Some fh), w2) /\
      esfs_read lock_ unlock_ fh buf size off w2
        = Some ((read_len now size off, file_write buf (file_read now (read_len now size off) off) 0), w3).
Proof.
  intros inpath H Hidle HC Hc Hsn Hfp Hparts Hin Hfit Hmain Hlen Hfl Ho Hs Hb.
  destruct (sn_destroy_spec w R [] id H) as (s' & E & Hrm & Hok). change (last_pointer R []) with (latest_name R) in Hrm.
  change (fs_destroyed [] (w_fs w)) with (set_sn_is_any 0 (w_fs w)) in *.
  pose proof (so_layout _ _ _ H) as [HR _ _ Eroot _ Edir]. pose proof (so_latest _ _ _ H) as (_ & Elat & _).
  eexists. split; [exact E |]. split; [done |]. split; [apply (rm_gone _ _ _ Hrm (sn_root R id)); [by right; left | done] |].
  set (w1 := set_fs (set_sn_is_any 0 (w_fs w)) (set_os s' w)).
  assert (Ep : sn_path R id = sn_dir (w_fs w) +:+ DIRSEP +:+ id).
  { rewrite Edir. unfold sn_path, sn_root. rewrite entry_split, join_app. cbn [join_path]. by rewrite string_app_nil_r. }
  assert (Hl1 : strlen (DIRSEP +:+ id) + strlen (sn_dir (w_fs w)) = strlen (sn_path R id)) by (rewrite Ep, (strlen_app (sn_dir (w_fs w))); lia).
  assert (Hl2 : strlen (rootdir (w_fs w)) <= strlen (sn_path R id)).
  { rewrite Eroot. unfold sn_path, sn_root. rewrite join_app, strlen_app. pose proof (strlen_nonneg (join_path ["snapshots"; id])). lia. }
  pose proof (strlen_nonneg inpath). assert (0 < EXT_LEN) by done.
  assert (Hfound : sn_found w1 path (DIRSEP +:+ id) inpath [sn_path R id]).
  { split; try done.
    - apply (so_faults _ _ _ Hok).
    - intros mfd. change (set_sn_is_any 0 (w_fs w)) with (w_fs w1). rewrite (paths_to_latest w1 mfd (DIRSEP +:+ id) inpath).
      + cbn [w1 w_fs set_fs sn_lat_dir set_sn_is_any rootdir]. by rewrite Elat.
      + apply (so_faults _ _ _ Hok).
      + cbn [w1 w_fs set_fs sn_lat_dir set_sn_is_any sn_dir]. by rewrite Elat.
      + cbn [w1 w_fs set_fs set_sn_is_any sn_dir]. lia.
    - intros r [-> | ->%list_elem_of_singleton]%elem_of_cons; cbn [w1 w_fs set_fs set_sn_is_any rootdir]; lia. }
  destruct (passed_over_session lock_ unlock_ w1 path _ inpath [sn_path R id] im now flags Hfound) as (w2 & fh & E2 & [Hreg Hlt] & Hrd).
  - constructor; [| constructor]. left. eexists. split.
    + unfold get_map_path. destruct (Z.ltb_spec (strlen (sn_path R id +:+ inpath)) (u64 (PATH_MAX - EXT_LEN))) as [_ | Hge]; [done |].
      rewrite strlen_app, u64_small in Hge by done. lia.
    + apply (removed_untouched w R id H C c HC Hc s' Hrm Hok). unfold get_map_path.
      destruct (Z.ltb_spec (strlen (sn_path R id +:+ join_path (C ++ [c]))) (u64 (PATH_MAX - EXT_LEN))) as [_ | Hge]; [done |].
      rewrite strlen_app, u64_small in Hge by done. unfold inpath in *. lia.
  - by apply (removed_main w R id H C c HC Hc Hin s' Hrm Hok).
  - done.
  - destruct (Hrd w2 now buf size off) as [w3 E3]; auto; [lia |]. by exists w2, fh, w3.
Qed.

(** [s1] is removed, and [/f] read under it. *)
Lemma removed_snapshot_shows_main_witness :
  exists w1, sn_destroy e_world = Some (0, w1) /\ sn_is_any (w_fs w1) = 0 /\ os_names (w_os w1) !! ["r"; "snapshots"; "s1"] = None /\
    exists w2 fh w3, esfs_open mflock_lock mflock_unlock "/snapshots/s1/f" O_RDONLY w1 = Some ((0, Some fh), w2) /\
      esfs_read mflock_lock mflock_unlock fh [] 3 1 w2 = Some ((3, [20; 30; 40]), w3).
Proof.
  apply (removed_snapshot_shows_main mflock_lock mflock_unlock mflock_service e_world ["r"] "s1" [] "f" "/snapshots/s1/f" 3 sm_old O_RDONLY [] 3 1).
  - split.
    + reflexivity.
    + apply os_wf_check; [by vm_compute | apply (bool_decide_unpack _); by vm_compute].
    + apply idle_table_init.
    + apply e_layout.
    + repeat constructor.
    + exact (sc_chain _ _ _ _ _ _ (sn_ready_chained _ _ _ _ _ _ _ _ e_sn_ready)).
    + by vm_compute.
    + by vm_compute.
    + apply is_dir_b_spec. by vm_compute.
    + repeat constructor; apply is_dir_b_spec; by vm_compute.
  - apply idle_table_init.
  - constructor.
  - by vm_compute.
  - by vm_compute.
  - vm_compute. by eexists.
  - by vm_compute.
  - by vm_compute.
  - by vm_compute.
  - split; [by vm_compute |]. split; [by vm_compute |]. by eexists.
  - by vm_compute.
  - reflexivity.
  - lia.
  - lia.
  - lia.
Defined.

(** ** A handle that cannot be written *)

Section WriteOnly.
Context (lock_ unlock_ : Z -> M Z) {LS : LockService lock_ unlock_}.

(** A main handle on a file in the copy-on-write invariant whose descriptor
    for the main file cannot be read, as [create] makes it when it is called
    with O_WRONLY. *)
Record write_only (w : world) (mfd : mfd_t) (im ip : nat) (old main map dat : list Z) : Prop := {
  wy_main : is_main mfd = mfd_main;
  wy_number : mfd_sn_number mfd = sn_number (w_fs w);
  wy_mainfd : exists app, fd_file (w_os w) (mainfd mfd) im main O_WRONLY app;
  wy_mapfd : fd_file (w_os w) (mapfd mfd) ip map O_RDWR false;
  wy_datfd : 0 <= datfd mfd;
  wy_cow : cow old main map dat;
  wy_size : st_size (mh_fstat (mapheader mfd)) = zlen old;
  wy_len : zlen old < 2 ^ 61;
  wy_label : locklabel mfd <> 0;
  wy_faults : os_faults (w_os w) = [];
  wy_idle : lk_idle (mflocks (w_fs w))
}.

Lemma read_pointer_ok w fd ip map acc b :
  os_faults (w_os w) = [] -> fd_file (w_os w) fd ip map acc false -> acc <> O_WRONLY -> 0 <= b < 2 ^ 45 ->
  (zlen map - MAPHEADER_S) mod BLP_S = 0 -> MAPHEADER_S <= zlen map ->
  read_pointer fd (map_offset b) w = Some (Ok (ptr_at map b), w).
Proof.
  intros Hf Hfd Hacc Hb Hal Hl. assert (Ha : atomic (w_os w)) by (unfold atomic; by rewrite Hf).
  destruct (read_pointer_spec w fd ip map acc b Ha Hfd Hacc Hb Hal Hl) as (r & E & Hr).
  destruct Hr as [-> | (e & _ & _ & Hfl)]; [| by destruct (not_faulty_nil _ Hf)].
  rewrite E. do 2 f_equal. destruct w as [[? ? ? fl] ? ? ? ? ?]. cbn in *. by subst.
Qed.

Lemma pread_write_only w fd im c app n off :
  os_faults (w_os w) = [] -> fd_file (w_os w) fd im c O_WRONLY app -> sys (sys_pread fd n off) w = Some (Err EBADF, w).
Proof.
  intros Hf (pos & m & Ho & Hi & _). rewrite (sys_run _ w (Err EBADF) (w_os w)); [by rewrite set_os_id |].
  unfold sys_pread. rewrite syscall_io_ok by done. unfold fd_node. rewrite Ho. cbn. by rewrite Hi.
Qed.

(** The block loop stops at the first block. *)
Lemma write_only_loop w mfd im ip old main map dat n b :
  write_only w mfd im ip old main map dat -> in_old old b -> ~ saved map b -> latest_written_block_cache mfd <> b + 1 ->
  exists st w', b_write_loop lock_ (S n) (BwState mfd (-1) BufNull 0) b w = Some (st, w') /\
    w_os w' = w_os w /\ w_mfds w' = w_mfds w /\ bw_err st = EBADF /\ bw_mfd st = mfd /\ 0 <= bw_lock st /\
    exists t, lk_idle t /\ unlock_ (bw_lock st) w' = Some (0, set_fs (set_mflocks t (w_fs w')) w').
Proof using LS.
  intros [] Hin Hns Hca. destruct wy_mainfd0 as [app Hmain].
  pose proof (in_old_bound old b Hin ltac:(lia)) as Hb. assert (Hp : ptr_at map b = 0) by (unfold saved in Hns; lia).
  pose proof (fun w' Hf Hfd => read_pointer_ok w' (mapfd mfd) ip map O_RDWR b Hf Hfd ltac:(done) Hb (cow_map_align _ _ _ _ wy_cow0)
    (cow_map_len _ _ _ _ wy_cow0)) as Hrd. rewrite Hp in Hrd.
  destruct (lk_lock_ok w (locklabel mfd) wy_idle0 wy_label0) as (lid & t & Hlid & El & Hun).
  set (w1 := set_fs (set_mflocks t (w_fs w)) w) in *.
  assert (Hbuf : exists bf w2, b_get_buf (BwState mfd lid BufNull 0) w1 = Some (Some bf, w2) /\ w_os w2 = w_os w /\ w_mfds w2 = w_mfds w /\ mflocks (w_fs w2) = t).
  { unfold b_get_buf. cbn [bw_buf bw_lock]. destruct (lid =? 0); [by eexists _, _ |].
    assert (Em : exists m, malloc_block w1 = Some (Some m, set_bufs (w_bufs w1 + 1) w1)).
    { unfold malloc_block, pop_fault. cbn [w1 w_os set_fs]. rewrite wy_faults0. by eexists. }
    destruct Em as [m Em]. rewrite (st_bind_run _ _ _ _ _ Em). by eexists _, _. }
  destruct Hbuf as (bf & w2 & Eb & Eos & Emfds & Et). destruct (Hun w2 Et) as (t' & Ht' & Eu).
  exists (BwState mfd lid bf EBADF), w2. split_and!; [| done | done | done | done | cbn; lia | by exists t'].
  cbn [b_write_loop]. unfold b_write_block. cbn [bw_mfd bw_lock bw_buf bw_err].
  destruct (Z.eqb_spec (latest_written_block_cache mfd) (b + 1)); [done |].
  assert (Hsave : b_save_block (BwState mfd lid BufNull 0) b w1 = Some ((true, BwState mfd lid bf EBADF), w2)).
  { unfold b_save_block. rewrite (st_bind_run _ _ _ _ _ Eb). cbn [bw_mfd bw_lock bw_err].
    rewrite (st_bind_run _ _ _ _ _ (pread_write_only w2 _ im main app BL_S _ ltac:(by rewrite Eos) ltac:(by rewrite Eos))). done. }
  rewrite (st_bind_run _ _ _ (true, BwState mfd lid bf EBADF) w2); [done |].
  rewrite (st_bind_run _ _ _ _ _ (Hrd w wy_faults0 wy_mapfd0)). cbn [Z.eqb negb Pos.eqb].
  rewrite (st_bind_run _ _ _ _ _ El). destruct (Z.ltb_spec lid 0); [lia |].
  rewrite (st_bind_run _ _ _ _ _ (Hrd w1 wy_faults0 wy_mapfd0)). exact Hsave.
Qed.
End WriteOnly.


(** The small system with a handle from [create]: descriptor 9 on the main file is write-only. *)
Definition wy_handle : mfd_t := Mfd mfd_main sm_header sm_label 1 9 None 4 5 "/f" 0 0 0 [].
Definition wy_world : world :=
  World (Os sm_names sm_inodes (<[ 9 := OFile 3 O_WRONLY false 0 ]> sm_fds) []) sm_fs {[ 100 := wy_handle ]} [] sm_writer 1.


(** ** Memory that is not given back *)

(** A computation that neither allocates nor frees a block buffer. *)
Definition same_bufs {A} (m : M A) : Prop := forall w a w', m w = Some (a, w') -> w_bufs w' = w_bufs w.

Lemma same_bufs_bind {A B} (m : M A) (f : A -> M B) : same_bufs m -> (forall a, same_bufs (f a)) -> same_bufs (m ≫= f).
Proof. intros Hm Hf w b w' (a & w1 & E1 & E2)%st_bind_inv. rewrite (Hf _ _ _ _ E2). by apply (Hm _ _ _ E1). Qed.

Lemma same_bufs_ret {A} (a : A) : same_bufs (mret a).
Proof. by intros w b w' [= <- <-]. Qed.

Lemma same_bufs_stuck {A} : same_bufs (st_stuck : M A).
Proof. done. Qed.

Lemma same_bufs_sys {A} (f : os -> res A * os) : same_bufs (sys f).
Proof. intros w a w' E. unfold sys in E. destruct (f (w_os w)). by injection E as <- <-. Qed.

Lemma same_bufs_fs : same_bufs get_fs.
Proof. by intros w a w' [= <- <-]. Qed.

Lemma same_bufs_modify g : same_bufs (modify_fs g).
Proof. by intros w a w' [= <- <-]. Qed.

Lemma same_bufs_table : same_bufs get_table.
Proof. by intros w a w' [= <- <-]. Qed.

Lemma same_bufs_put t : same_bufs (put_table t).
Proof. by intros w a w' [= <- <-]. Qed.

Create HintDb bufs.
#[local] Hint Resolve same_bufs_ret same_bufs_stuck same_bufs_sys same_bufs_fs same_bufs_modify same_bufs_table same_bufs_put : bufs.

(** A walk over the structure of a computation. *)
Ltac bufs_tac := repeat first [progress auto with bufs | apply same_bufs_bind; [| intros ?] | case_match].

Lemma same_bufs_upd i f : same_bufs (upd_entry i f).
Proof. unfold upd_entry. bufs_tac. Qed.

Lemma same_bufs_read_entry i : same_bufs (read_entry i).
Proof. unfold read_entry. bufs_tac. Qed.
#[local] Hint Resolve same_bufs_upd same_bufs_read_entry : bufs.

Lemma same_bufs_start fuel : forall have_mod label, same_bufs (mflock_start fuel have_mod label).
Proof.
  induction fuel as [| n IH]; intros have_mod label; [done |]. cbn [mflock_start].
  unfold mod_unlock, mod_lock, mutex_unlock, mutex_lock. bufs_tac.
Qed.

Lemma same_bufs_lock label : same_bufs (mflock_lock label).
Proof. apply same_bufs_start. Qed.

(** Releasing a lock always reports success. *)
Lemma unlock_zero id w r w' : mflock_unlock id w = Some (r, w') -> r = 0 /\ w_bufs w' = w_bufs w.
Proof.
  intros E. split.
  - unfold mflock_unlock in E. repeat (case_match; try done); repeat apply st_bind_inv in E as (? & ? & _ & E); try (by injection E as <- _);
      case_match; repeat apply st_bind_inv in E as (? & ? & _ & E); try (by injection E as <- _);
      case_match; repeat apply st_bind_inv in E as (? & ? & _ & E); by injection E as <- _.
  - revert w r w' E. change (same_bufs (mflock_unlock id)). unfold mflock_unlock, mod_unlock, mod_lock, mutex_unlock. bufs_tac.
Qed.
#[local] Hint Resolve same_bufs_lock : bufs.

(** The block buffer of its own that a state of [b_write] has: 1 or 0. *)
Definition own_buf (b : bufref) : Z := match b with BufHeap _ => 1 | _ => 0 end.

(** What is allocated is what the state has. *)
Definition counted {A} (own : A -> Z) (b : bufref) (m : M A) : Prop :=
  forall w a w', m w = Some (a, w') -> w_bufs w' - own a = w_bufs w - own_buf b.
Abbreviation counted_st := (counted (fun x : bool * bw_state => own_buf (bw_buf (snd x)))).

Lemma counted_ret b (st : bw_state) (x : bool) : own_buf (bw_buf st) = own_buf b -> counted_st b (mret (x, st)).
Proof. intros E w a w' [= <- <-]. cbn. lia. Qed.

Lemma counted_bind {A B} (own : B -> Z) b (m : M A) (f : A -> M B) :
  same_bufs m -> (forall a, counted own b (f a)) -> counted own b (m ≫= f).
Proof. intros Hm Hf w x w' (a & w1 & E1 & E2)%st_bind_inv. pose proof (Hf _ _ _ _ E2). rewrite (Hm _ _ _ E1) in *. done. Qed.

Ltac counted_tac := repeat first [by apply counted_ret | apply counted_bind; [by bufs_tac | intros ?] | case_match].

Lemma counted_append st mem b : counted_st (bw_buf st) (b_append st mem b).
Proof. unfold b_append, bw_break, bw_continue. counted_tac. Qed.

Lemma counted_get_buf st w b w' :
  b_get_buf st w = Some (b, w') -> w_bufs w' - match b with Some b => own_buf b | None => own_buf (bw_buf st) end = w_bufs w - own_buf (bw_buf st).
Proof.
  unfold b_get_buf. destruct (bw_buf st) eqn:Eb; [case_match | |]; [by intros [= <- <-] | | by intros [= <- <-].. ].
  intros (m & w1 & E1 & E2)%st_bind_inv. injection E2 as <- <-. unfold malloc_block in E1.
  destruct (pop_fault (w_os w)) as [f s]. destruct f; injection E1 as <- <-; cbn; lia.
Qed.

Lemma counted_save st b : counted_st (bw_buf st) (b_save_block st b).
Proof.
  intros w a w' (bf & w1 & E1 & E2)%st_bind_inv. pose proof (counted_get_buf _ _ _ _ E1) as Hc.
  destruct bf as [bf |]; [| injection E2 as <- <-; exact Hc].
  rewrite <-Hc. clear Hc E1. revert w1 a w' E2.
  match goal with |- forall w1 a w', ?m w1 = _ -> _ => change (counted_st bf m) end.
  apply counted_bind; [by bufs_tac |]. intros [d | e]; [| by apply counted_ret].
  apply counted_bind; [unfold buf_get; by bufs_tac |]. intros mem w2 x w3 (bf' & w4 & E4 & E5)%st_bind_inv.
  assert (Hset : own_buf bf' = own_buf bf /\ w_bufs w4 = w_bufs w2).
  { destruct bf; [done | |]; cbn in E4; unfold modify_fs, mbind, ST_bind in E4; by injection E4 as <- <-. }
  destruct Hset as [<- <-]. cbv zeta in E5. case_match; [by injection E5 as <- <- | exact (counted_append _ _ _ _ _ _ E5)].
Qed.

Lemma counted_block st b : counted_st (bw_buf st) (b_write_block mflock_lock st b).
Proof.
  unfold b_write_block, bw_break, bw_continue. case_match; [by apply counted_ret |].
  assert (Hp : forall fd o, same_bufs (read_pointer fd o)) by (intros; unfold read_pointer; by bufs_tac).
  apply counted_bind; [apply Hp |]. intros [p | e]; [| by apply counted_ret]. case_match; [by apply counted_ret |].
  case_match; [| apply counted_save]. apply counted_bind; [by bufs_tac |]. intros lock. cbv zeta.
  case_match; [by apply counted_ret |]. apply counted_bind; [apply Hp |].
  intros [p' | e]; [| by apply counted_ret]. case_match; [by apply counted_ret |]. apply (counted_save (BwState _ _ _ _)).
Qed.

Lemma counted_loop n : forall st b, counted (fun st => own_buf (bw_buf st)) (bw_buf st) (b_write_loop mflock_lock n st b).
Proof.
  induction n as [| n IH]; intros st b w a w' E; cbn [b_write_loop] in E; [injection E as <- <-; cbn beta; lia |].
  apply st_bind_inv in E as ([stop st'] & w1 & E1 & E2). pose proof (counted_block _ _ _ _ _ E1) as H1. cbn in H1.
  destruct stop; [injection E2 as <- <-; cbn beta; lia |]. pose proof (IH _ _ _ _ _ E2) as H2. cbn beta in H2. rewrite H2. exact H1.
Qed.


(** The small system while another thread holds the mutex of the first entry
    of the lock table: the write gets another lock, and allocates a buffer. *)
Definition entry_0_busy (w : world) : world :=
  set_fs (set_mflocks (MfLock 0 true false 0 :: tail (mflocks (w_fs w))) (w_fs w)) w.

Definition busy_write : option (Z * mfd_t * world) :=
  b_write mflock_lock mflock_unlock sm_writer 2 1 B_WRITE_DEFAULTS (entry_0_busy (sm_world [])).


(** ** Handlers that go on, or stop, for the wrong reason *)

(** C39 (ftruncate does not ask): [ftruncate] through a handle on a file of a
    snapshot, to a size not below the one in its header, is accepted and
    truncates whatever file the descriptor in the field [mainfd] stands for,
    a field that the handle of a snapshot never sets; [write] checks
    [is_main] and refuses such a handle. *)
Theorem ftruncate_accepts_snapshot_handle (lock_ unlock_ : Z -> M Z) w fh mfd i c acc app n :
  w_mfds w !! fh = Some mfd -> is_main mfd = mfd_sn_full -> mfd_sn_number mfd = sn_number (w_fs w) ->
  os_faults (w_os w) = [] -> fd_file (w_os w) (mainfd mfd) i c acc app -> acc <> O_RDONLY ->
  0 <= n -> st_size (mh_fstat (mapheader mfd)) <= n ->
  esfs_ftruncate lock_ unlock_ fh n w = Some (0, set_os (set_data i (file_resize c n) (w_os w)) w) /\
  (forall buf off, esfs_write lock_ unlock_ fh buf off w = Some (- EACCES, w)).
Proof.
  intros Hm Hfull Hnum Hf Hfd Hacc Hn Hsz.
  assert (Hget : get_mfd fh w = Some (mfd, w)) by (unfold get_mfd; by rewrite Hm).
  assert (Hput : put_mfd fh mfd w = Some (tt, w)) by (unfold put_mfd; rewrite insert_id by done; by destruct w).
  split.
  - unfold esfs_ftruncate. rewrite (st_bind_run _ _ _ _ _ Hget), (st_bind_run _ _ _ _ _ (mfd_validate_same lock_ unlock_ w mfd Hnum)).
    rewrite (st_bind_run _ _ _ _ _ Hput). cbn [Z.eqb negb].
    assert (Hb : b_truncate lock_ unlock_ mfd n B_WRITE_DEFAULTS w = Some ((0, mfd), w)).
    { unfold b_truncate. destruct (Z.ltb_spec n (st_size (mh_fstat (mapheader mfd)))); [lia |]. by rewrite andb_false_r. }
    rewrite (st_bind_run _ _ _ _ _ Hb), (st_bind_run _ _ _ _ _ Hput). cbn [Z.eqb negb].
    assert (Ha : atomic (w_os w)) by (unfold atomic; by rewrite Hf).
    destruct (sys_ftruncate_spec (w_os w) Ha _ i c acc app Hfd n Hacc Hn) as [E | (e & _ & Hfl & _)]; [| by destruct (not_faulty_nil _ Hf)].
    rewrite (st_bind_run _ _ _ _ _ (sys_run _ w _ _ E)). unfold adv. destruct w as [[? ? ? fl] ? ? ? ? ?]. cbn in Hf. by subst.
  - intros buf off. unfold esfs_write. rewrite (st_bind_run _ _ _ _ _ Hget). by rewrite Hfull.
Qed.

(** The reader of the small system, in whose memory the descriptor of the main file was left over. *)
Definition tr_world : world := set_mfds {[ 200 := set_mainfd 3 sm_reader ]} (sm_world []).

Lemma ftruncate_accepts_snapshot_handle_witness :
  esfs_ftruncate mflock_lock mflock_unlock 200 7 tr_world
    = Some (0, set_os (set_data 3 [10; 20; 30; 40; 50; 0; 0] (w_os tr_world)) tr_world) /\
  (forall buf off, esfs_write mflock_lock mflock_unlock 200 buf off tr_world = Some (- EACCES, tr_world)).
Proof.
  apply (ftruncate_accepts_snapshot_handle mflock_lock mflock_unlock tr_world 200 (set_mainfd 3 sm_reader) 3 sm_old O_RDWR false 7).
  - reflexivity.
  - reflexivity.
  - reflexivity.
  - reflexivity.
  - apply fd_file_split. split; [by apply (sm_open []) | by apply (sm_regular [])].
  - discriminate.
  - lia.
  - by vm_compute.
Defined.

(** The pointer files lead from [p] through [ps], and where the pointer file
    of the earliest snapshot would be there is a directory. *)
Fixpoint ends_in_dir (s : os) (p : string) (ps : list string) : Prop :=
  path_ok p /\
  exists hid, get_hid_path p = Ok hid /\
    match ps with
    | [] => dir_at s (resolve hid)
    | q :: r => (exists ino, file_at s (resolve hid) ino (pointer q)) /\ ends_in_dir s q r
    end.

Lemma read_sndir_dir w buf hid :
  os_faults (w_os w) = [] -> dir_at (w_os w) (resolve hid) ->
  exists s', read_sndir_from_file buf hid w = Some ((- EISDIR, buf), set_os s' w) /\
    os_names s' = os_names (w_os w) /\ os_inodes s' = os_inodes (w_os w).
Proof.
  intros Hf (ino & n & Hl & Hi & Hdir). unfold lookup_path in Hl. destruct (walk _ _) as [[] |] eqn:Hd; [| done].
  destruct (os_names (w_os w) !! resolve hid) as [i0 |] eqn:Hn; [| done]. injection Hl as ->. set (s1 := opened (w_os w) ino O_RDONLY).
  assert (Eo : sys_open hid O_RDONLY 0 (w_os w) = (Ok (fresh_fd (w_os w)), s1)).
  { unfold sys_open. rewrite syscall_ok by done. cbv zeta. rewrite Hd, Hn.
    change (has O_RDONLY O_CREAT && has O_RDONLY O_EXCL) with false. cbv iota. by rewrite Hi, Hdir. }
  exists s1. unfold read_sndir_from_file. rewrite (st_bind_run _ _ _ _ _ (sys_run _ w _ _ Eo)).
  assert (Er : sys_pread (fresh_fd (w_os w)) PATH_MAX 0 s1 = (Err EISDIR, s1)).
  { unfold sys_pread. rewrite syscall_io_ok by done. unfold fd_node, s1, opened. cbn [os_fds set_fds os_inodes].
    rewrite lookup_insert_eq. cbn. rewrite Hi. cbn. by rewrite Hdir. }
  by rewrite (st_bind_run _ _ _ _ _ (sys_run _ (set_os s1 w) _ _ Er)).
Qed.

Lemma earliest_blocked ps : forall w p n fuel prev,
  os_faults (w_os w) = [] -> ends_in_dir (w_os w) p ps -> (length ps < fuel)%nat ->
  exists x y s', sn_get_earliest_loop fuel n p prev w = Some ((- EISDIR, x, y), set_os s' w) /\
    os_names s' = os_names (w_os w) /\ os_inodes s' = os_inodes (w_os w).
Proof.
  induction ps as [| q r IH]; intros w p n [| fuel] prev Hf Hp Hlen; cbn in Hlen; try lia;
    destruct Hp as (_ & hid & Eh & Hp); cbn [sn_get_earliest_loop]; rewrite Eh.
  - destruct (read_sndir_dir w p hid Hf Hp) as (s' & E & Hs). rewrite (st_bind_run _ _ _ _ _ E). by eexists _, _, s'.
  - destruct Hp as [[ino Hat] Hr]. assert (Hq : path_ok q) by by destruct r as [| ? ?], Hr. pose proof Hq as [_ ?].
    rewrite (st_bind_run _ _ _ _ _ (read_sndir_file w p hid ino q Hf Hat Hq)).
    destruct (Z.eqb_spec (strlen q) 0); [lia |]. destruct (Z.ltb_spec (strlen q) 0); [lia |]. apply IH; (done || lia).
Qed.

(** C36 (a directory in the place of a pointer file): the end of the chain of
    snapshots is where the pointer file is missing.  When there is a directory
    of that name instead, which [mkdir] of a snapshot named ID.hid makes for
    the earliest snapshot ID, removing a snapshot fails with EISDIR and
    removes nothing, however long the chain is. *)
Theorem hid_name_blocks_removal w p ps :
  os_faults (w_os w) = [] -> sn_is_any (w_fs w) <> 0 -> sn_lat_dir (w_fs w) = p -> zlen ps < MAX_SNAPSHOTS ->
  ends_in_dir (w_os w) p ps ->
  exists w', sn_destroy w = Some (- EISDIR, w') /\ w_fs w' = w_fs w /\
    os_names (w_os w') = os_names (w_os w) /\ os_inodes (w_os w') = os_inodes (w_os w).
Proof.
  intros Hf Hany Hlat Hlen Hp. unfold sn_destroy, sn_get_earliest.
  destruct (earliest_blocked ps w p 0 (Z.to_nat MAX_SNAPSHOTS) "" Hf Hp) as (x & y & s' & E & Hn & Hi); [unfold zlen in Hlen; lia |].
  rewrite (st_bind_run _ _ w (- EISDIR, x, y) (set_os s' w)); [by eexists |].
  rewrite (st_bind_run get_fs _ w (w_fs w) w eq_refl), Hlat. by destruct (Z.eqb_spec (sn_is_any (w_fs w)) 0).
Qed.

(** The snapshots [s1] and then [s1.hid]. *)
Definition hd_world : world :=
  World (Os (<[ ["r"; "snapshots"; "s1.hid"] := 6%nat ]> (<[ ["r"; "snapshots"; "s1.hid.hid"] := 7%nat ]> e_names))
            (<[ 8%nat := sm_file (pointer "/r/snapshots/s1.hid") ]> (<[ 6%nat := sm_dir ]>
               (<[ 7%nat := sm_file (pointer "/r/snapshots/s1") ]> e_inodes))) ∅ [])
    (FsData "/r" 2 "/r/snapshots" 2 "/r/snapshots/s1.hid" 19 1 (mflocks sm_fs) None) ∅ [] sm_writer 0.

Lemma hid_name_blocks_removal_witness :
  exists w', sn_destroy hd_world = Some (- EISDIR, w') /\ w_fs w' = w_fs hd_world /\
    os_names (w_os w') = os_names (w_os hd_world) /\ os_inodes (w_os w') = os_inodes (w_os hd_world).
Proof.
  apply (hid_name_blocks_removal hd_world "/r/snapshots/s1.hid" ["/r/snapshots/s1"]).
  - reflexivity.
  - discriminate.
  - reflexivity.
  - by vm_compute.
  - split; [by vm_compute |]. exists "/r/snapshots/s1.hid.hid". split; [by vm_compute |]. split.
    + exists 7%nat. split; [by vm_compute |]. split; [by vm_compute |]. by eexists.
    + split; [by vm_compute |]. exists "/r/snapshots/s1.hid". split; [by vm_compute |].
      exists 6%nat, sm_dir. split_and!; by vm_compute.
Defined.

(** A directory of the main space for which the latest snapshot has no map
    file; the directory of that map file is there. *)
Record dir_ready (w : world) (path fpath fmap : string) (im : nat) (n : inode) : Prop := {
  dr_faults : os_faults (w_os w) = [];
  dr_any : sn_is_any (w_fs w) <> 0;
  dr_main_space : is_path_in_sn path = false;
  dr_fpath : map_path path (w_fs w) = Ok fpath;
  dr_fmap : get_map_prefix_path path (sn_lat_dir (w_fs w)) (sn_lat_dir_len (w_fs w)) = Ok fmap;
  dr_parent : exists k, last_slash fmap = Some (S k) /\ dir_at (w_os w) (resolve (strncpy fmap (Z.of_nat (S k))));
  dr_lookup : lookup_path (w_os w) (resolve fpath) = Ok im;
  dr_inode : os_inodes (w_os w) !! im = Some n;
  dr_dir : i_isdir n = true;
  dr_map : absent_at (w_os w) (resolve fmap)
}.

(** The map file, just created. *)
Lemma dir_new_map w path fpath fmap im n :
  dir_ready w path fpath fmap im n ->
  exists s1, sys_open fmap (Z.lor (Z.lor (Z.lor O_RDWR O_CREAT) O_EXCL) O_NOATIME) S_IRWXU (w_os w) = (Ok (fresh_fd (w_os w)), s1) /\
    os_faults s1 = [] /\ is_Some (os_fds s1 !! fresh_fd (w_os w)) /\ (exists ip, file_at s1 (resolve fmap) ip []) /\
    lookup_path s1 (resolve fpath) = Ok im /\ os_inodes s1 !! im = Some n.
Proof.
  intros []. set (flags := Z.lor _ _). set (a := snd (add_node (resolve fmap) (Z.lor S_IFREG S_IRWXU) (w_os w))).
  pose proof (grows_add (w_os w) (resolve fmap) (Z.lor S_IFREG S_IRWXU) (proj2 dr_map0) : grows _ a) as Hg.
  exists (opened a (fresh_ino (w_os w)) flags). split_and!; [by apply open_create | done | | | |].
  - cbn. rewrite lookup_insert_eq. by eexists.
  - exists (fresh_ino (w_os w)). apply file_at_unopened. by apply (add_node_file_at (w_os w) (resolve fmap) (Z.lor S_IFREG S_IRWXU)).
  - unfold lookup_path in *. destruct (walk (w_os w) _) as [[] |] eqn:Hw; [| done].
    destruct (os_names (w_os w) !! resolve fpath) as [i0 |] eqn:Hn; [| done]. injection dr_lookup0 as ->.
    pose proof (grows_trans _ _ _ Hg (grows_fds a _) : grows _ (opened a (fresh_ino (w_os w)) flags)) as Hg'.
    rewrite (walk_grows _ _ _ Hg' Hw). by rewrite (proj1 Hg' _ _ Hn).
  - change (os_inodes a !! im = Some n). cbn. rewrite lookup_insert_ne; [done |]. intros E. pose proof (fresh_ino_free (w_os w)). congruence.
Qed.

(** The part of [mfd_open_sn] with the lock held: the map file is found to be
    for a directory, and removed again. *)
Lemma open_locked_dir (unlock_ : Z -> M Z) w path fpath fmap im n mfd lid :
  dir_ready w path fpath fmap im n -> 0 <= lid ->
  exists mfd' s', mfd_open_locked unlock_ path fpath fmap lid mfd w = Some ((EISDIR, lid, mfd'), set_os s' w) /\
    os_inodes s' !! im = Some n.
Proof.
  intros H Hlid. destruct (dir_new_map _ _ _ _ _ _ H) as (s1 & E1 & Hf1 & [o Ho] & (ip & Hat) & Hl & Hi). pose proof H as [].
  set (fd := fresh_fd (w_os w)) in *. set (s2 := set_fds (delete fd (os_fds s1)) s1).
  set (s3 := set_names (delete (resolve fmap) (os_names s2)) s2). set (st := stat_of im n).
  assert (Est : sys_lstat fpath s1 = (Ok st, s1)).
  { unfold sys_lstat. rewrite syscall_ok by done. by rewrite Hl, Hi. }
  assert (E3 : sys_unlink fmap s2 = (Ok tt, s3)).
  { pose proof (file_at_fds s1 (resolve fmap) ip [] (delete fd (os_fds s1)) Hat : file_at s2 _ _ _) as (Hd & Hn & m & Hi2 & Hr).
    unfold sys_unlink. rewrite syscall_ok by done. cbv zeta. unfold lookup_path. unfold dirs_ok in Hd. rewrite Hd, Hn, Hi2.
    unfold i_isdir. cbn [i_meta]. by rewrite Hr. }
  set (h := MapHeader ESFS_VERSION 1 st ESFS_SIGNATURE). set (mfd' := set_mapheader h (set_mapfd fd mfd)).
  exists mfd', s3. split; [| exact Hi]. unfold mfd_open_locked. rewrite (st_bind_run _ _ _ _ _ (sys_run _ w _ _ E1)).
  assert (En : mfd_open_new unlock_ path fpath fd lid mfd (set_os s1 w) = Some ((EISDIR, lid, mfd'), set_os s1 w)).
  { unfold mfd_open_new, mfd_new_header. unfold mbind at 1, ST_bind at 1. rewrite (st_bind_run _ _ _ _ _ (sys_run _ (set_os s1 w) _ _ Est)).
    cbn -[st stat_of]. change (st_mode st) with (st_mode (i_meta n)). unfold i_isdir in dr_dir0. by rewrite dr_dir0. }
  rewrite (st_bind_run _ _ _ _ _ En). change (negb (EISDIR =? 0)) with true. cbv iota.
  rewrite (st_bind_run _ _ _ tt (set_os s3 w)); [done |].
  rewrite (st_bind_run _ _ _ _ _ (sys_run _ (set_os s1 w) _ _ (close_ok s1 fd o Hf1 Ho))).
  destruct (Z.leb_spec 0 lid); [| lia]. by rewrite (st_bind_run _ _ _ _ _ (sys_run _ (set_os s2 w) _ _ E3)).
Qed.


(** The directory [/d] of the small disk. *)
Definition dd_world : world :=
  World (Os (<[ ["r"; "d"] := 6%nat ]> e_names) (<[ 6%nat := sm_dir ]> e_inodes) ∅ []) sm_fs ∅ [] sm_writer 1.


(** ** A write that is cut short *)

(** Appending to a dat file through its descriptor, of which [k] bytes get through. *)
Lemma write_cut s fd id dat k rest mem :
  os_faults s = Short k :: rest -> fd_file s fd id dat O_WRONLY true -> 0 <= k <= zlen mem ->
  exists s', sys_write fd mem s = (Ok k, s') /\ fd_file s' fd id (dat ++ ztake k mem) O_WRONLY true /\ os_faults s' = rest.
Proof.
  intros Hf (pos & m & Ho & Hi & Hd) Hk. eexists. split; [| split].
  - unfold sys_write, syscall_io, pop_fault. rewrite Hf. cbn [io_limit]. unfold fd_node. cbn [os_fds os_inodes set_faults].
    rewrite Ho. cbn. rewrite Hi. cbn. by replace (Z.max 0 (Z.min k (zlen mem))) with k by lia.
  - eexists _, m. split_and!; [| | done].
    + cbn. by rewrite lookup_alter_eq, Ho.
    + cbn. rewrite lookup_alter_eq, Hi. cbn. do 2 f_equal. apply file_write_end.
  - done.
Qed.


