(* ===== verification/Threads.v ===== *)
(** Threads that run the code of the handlers, interleaved at every access
    to what they share.

    A [prog] is the code of a handler cut at the calls it makes: a system
    call or an access to shared memory is one [PAct], and the two functions of
    the lock table are [PLock] and [PUnlock].  [prun] runs a program from its
    start to its end, with the functions of [Mflock] for the locks.  [gexec]
    runs any number of programs in turn: a step of a thread is one [PAct], or
    one step of [MflockConc] while the thread is inside [mflock_lock] or
    [mflock_unlock]; the lock table is the one of [MflockConc], not the one in
    the world.

    [ewp] is a logic of relies and guarantees for programs.  What all threads
    agree on, an invariant and a relation that every step keeps, is the class
    [Protocol]; a thread that holds a lock may rely on what the lock
    protects.  A step may cause events, which change what can be observed;
    [wp] is the logic of code that causes none.  [ginv_exec] is the soundness:
    whatever the schedule, the invariant holds, and there is one log of
    events that explains what is observed and has the events of each thread
    in its order.  Mutual exclusion is the one of [MflockConc]. *)

From S2P Require Import Prelude Posix Types Mflock MflockConc.

(** ** Programs *)

Inductive prog (A : Type) : Type :=
| PRet (a : A)
| PAct {B : Type} (m : M B) (k : B -> prog A)
| PLock (label : Z) (k : Z -> prog A)
| PUnlock (id : Z) (k : Z -> prog A).

Arguments PRet {A} a.
Arguments PAct {A B} m k.
Arguments PLock {A} label k.
Arguments PUnlock {A} id k.

#[global] Instance prog_ret : MRet prog := fun A a => PRet a.
#[global] Instance prog_bind : MBind prog := fun A B f =>
  fix go p :=
    match p with
    | PRet a => f a
    | PAct m k => PAct m (fun b => go (k b))
    | PLock label k => PLock label (fun i => go (k i))
    | PUnlock id k => PUnlock id (fun r => go (k r))
    end.

Definition act {B} (m : M B) : prog B := PAct m PRet.
Definition plock (label : Z) : prog Z := PLock label PRet.
Definition punlock (id : Z) : prog Z := PUnlock id PRet.

(** From the start to the end, alone. *)
Fixpoint prun {A} (lock_ unlock_ : Z -> M Z) (p : prog A) : M A :=
  match p with
  | PRet a => mret a
  | PAct m k => b ← m; prun lock_ unlock_ (k b)
  | PLock label k => i ← lock_ label; prun lock_ unlock_ (k i)
  | PUnlock id k => r ← unlock_ id; prun lock_ unlock_ (k r)
  end.

Lemma prun_bind {A B} lock_ unlock_ (p : prog A) (f : A -> prog B) w :
  prun lock_ unlock_ (p ≫= f) w = (prun lock_ unlock_ p ≫= fun a => prun lock_ unlock_ (f a)) w.
Proof.
  revert w. induction p as [a | B' m k IH | label k IH | id k IH]; intros w; [done | ..]; cbn; unfold mbind, ST_bind.
  - destruct (m w) as [[b w'] |]; [apply IH | done].
  - destruct (lock_ label w) as [[i w'] |]; [apply IH | done].
  - destruct (unlock_ id w) as [[r w'] |]; [apply IH | done].
Qed.

Lemma prun_bind_run {A B} lock_ unlock_ (p : prog A) (f : A -> prog B) w a w' :
  prun lock_ unlock_ p w = Some (a, w') -> prun lock_ unlock_ (p ≫= f) w = prun lock_ unlock_ (f a) w'.
Proof. intros H. by rewrite prun_bind, (st_bind_run _ _ _ _ _ H). Qed.

(** ** Threads *)

(** A thread is at a point of its program, inside [mflock_lock], or inside
    [mflock_unlock]. *)
Inductive thread (A : Type) : Type :=
| TAt (p : prog A)
| TIn (k : Z -> prog A)
| TOut (k : Z -> prog A).
Arguments TAt {A} p.
Arguments TIn {A} k.
Arguments TOut {A} k.

Record gstate (A : Type) := GState { g_world : world; g_locks : cstate; g_thread : nat -> thread A }.
Arguments GState {A} _ _ _.
Arguments g_world {A} _.
Arguments g_locks {A} _.
Arguments g_thread {A} _.

Section Machine.
Context {A : Type}.
Implicit Types (s : gstate A) (t : nat).

Definition put_thread (t : nat) (x : thread A) (c : cstate) (w : world) (s : gstate A) : gstate A :=
  GState w c (upd (g_thread s) t x).

(** The next step of a thread; [None] when it has ended, waits for a mutex,
    or is at a point whose behaviour is not defined. *)
Definition gexec (t : nat) (s : gstate A) : option (gstate A) :=
  let w := g_world s in
  let c := g_locks s in
  match g_thread s t with
  | TAt (PRet _) => None
  | TAt (PAct m k) =>
      match m w with Some (b, w') => Some (put_thread t (TAt (k b)) c w' s) | None => None end
  | TAt (PLock label k) =>
      match exec t (Call label) c with Some c' => Some (put_thread t (TIn k) c' w s) | None => None end
  | TIn k =>
      match c_pc c t with
      | Locked _ i => Some (put_thread t (TAt (k (Z.of_nat i))) c w s)
      | _ => match exec t Go c with Some c' => Some (put_thread t (TIn k) c' w s) | None => None end
      end
  | TAt (PUnlock id k) =>
      match c_pc c t with
      | Locked _ i =>
          if id =? Z.of_nat i then
            match exec t Go c with Some c' => Some (put_thread t (TOut k) c' w s) | None => None end
          else None
      | _ => None
      end
  | TOut k =>
      match c_pc c t with
      | Idle => Some (put_thread t (TAt (k 0)) c w s)
      | _ => match exec t Go c with Some c' => Some (put_thread t (TOut k) c' w s) | None => None end
      end
  end.

(** A schedule: which thread goes next.  A thread that cannot go is passed over. *)
Fixpoint interleave (sched : list nat) (s : gstate A) : gstate A :=
  match sched with
  | [] => s
  | t :: r => interleave r (default s (gexec t s))
  end.

(** The thread has returned [a]. *)
Definition returned (s : gstate A) (t : nat) (a : A) : Prop := g_thread s t = TAt (PRet a).

(** The thread waits for a mutex of the lock table. *)
Definition waits (s : gstate A) (t : nat) : Prop :=
  exec t Go (g_locks s) = None /\
  match g_thread s t with
  | TAt _ => False
  | TIn _ => forall L i, c_pc (g_locks s) t <> Locked L i
  | TOut _ => c_pc (g_locks s) t <> Idle
  end.
End Machine.

(** ** The logic *)

(** What a thread holds: the label and the entry of its lock. *)
Definition held : Type := option (Z * nat).
Definition has_label (h : held) (L : Z) : Prop := fst <$> h = Some L.
Definition has_entry (h : held) (i : nat) : Prop := snd <$> h = Some i.

(** What the threads agree on.  [p_inv n] holds while at most [n] more steps
    are taken; [p_rel lab ent w w'] says that nothing is lost from [w] to
    [w'], and that what the labels in [lab] and the entries in [ent] protect
    is not changed at all; [p_event l w w'] says that what can be observed
    changes from [w] to [w'] by the events [l], one after the other. *)
Class Protocol (E : Type) := {
  p_inv : nat -> world -> Prop;
  p_rel : (Z -> Prop) -> (nat -> Prop) -> world -> world -> Prop;
  p_event : list E -> world -> world -> Prop;
  p_rel_refl lab ent :: Reflexive (p_rel lab ent);
  p_rel_trans lab ent :: Transitive (p_rel lab ent);
  p_rel_mono (lab lab' : Z -> Prop) (ent ent' : nat -> Prop) w w' :
    (forall L, lab' L -> lab L) -> (forall i, ent' i -> ent i) -> p_rel lab ent w w' -> p_rel lab' ent' w w';
  p_inv_less n w : p_inv (S n) w -> p_inv n w;
  p_event_nil w : p_event [] w w;
  p_event_app l l' w w' w'' : p_event l w w' -> p_event l' w' w'' -> p_event (l ++ l') w w''
}.

Section Logic.
Context {E : Type} {P : Protocol E}.

(** What the others leave alone, and what the thread itself does. *)
Definition rely (h : held) : world -> world -> Prop := p_rel (has_label h) (has_entry h).
Definition guar (h : held) : world -> world -> Prop := p_rel (fun L => ~ has_label h L) (fun i => ~ has_entry h i).

#[global] Instance rely_refl h : Reflexive (rely h).
Proof. unfold rely. apply _. Qed.
#[global] Instance rely_trans h : Transitive (rely h).
Proof. unfold rely. apply _. Qed.

(** A thread that holds nothing relies on the least. *)
Lemma rely_weaken h w w' : rely h w w' -> rely None w w'.
Proof. by apply p_rel_mono. Qed.

Lemma guar_rely h w w' : guar h w w' -> rely None w w'.
Proof. by apply p_rel_mono. Qed.

(** From [w] on, whatever the others do, every step of the program is
    defined, keeps the invariant and the guarantee, and the program ends in
    [Q].  The thread has caused the events [l] so far, and its events are in
    [R] at any time. *)
Fixpoint ewp {A} (R : list E -> Prop) (h : held) (l : list E) (p : prog A) (Q : held -> list E -> A -> world -> Prop) (w : world) : Prop :=
  match p with
  | PRet a => forall w1, rely h w w1 -> Q h l a w1
  | PAct m k => forall n w1, rely h w w1 -> p_inv (S n) w1 ->
      exists b w2 ev, m w1 = Some (b, w2) /\ p_inv n w2 /\ guar h w1 w2 /\ p_event ev w1 w2 /\
        (ev = [] \/ R (l ++ ev)) /\ ewp R h (l ++ ev) (k b) Q w2
  | PLock label k => h = None /\ label <> 0 /\
      forall w1 i, rely h w w1 -> (i < lock_num)%nat -> ewp R (Some (label, i)) l (k (Z.of_nat i)) Q w1
  | PUnlock id k => exists L i, h = Some (L, i) /\ id = Z.of_nat i /\
      forall w1, rely h w w1 -> ewp R None l (k 0) Q w1
  end.

(** What is known survives the steps of the others. *)
Lemma ewp_stable {A} R h l (p : prog A) Q w w' : ewp R h l p Q w -> rely h w w' -> ewp R h l p Q w'.
Proof.
  destruct p as [a | B m k | label k | id k]; cbn; intros H Hr.
  - intros w1 Hw. apply H. by etransitivity.
  - intros n w1 Hw. apply H. by etransitivity.
  - destruct H as (? & ? & H). split_and!; [done | done |]. intros w1 i Hw. apply H. by etransitivity.
  - destruct H as (L & i & ? & ? & H). exists L, i. split_and!; [done | done |]. intros w1 Hw. apply H. by etransitivity.
Qed.

Lemma ewp_mono {A} R (p : prog A) : forall h l (Q Q' : held -> list E -> A -> world -> Prop) w,
  (forall h l a w, Q h l a w -> Q' h l a w) -> ewp R h l p Q w -> ewp R h l p Q' w.
Proof.
  induction p as [a | B m k IH | label k IH | id k IH]; cbn; intros h l Q Q' w HQ H.
  - auto.
  - intros n w1 Hr Hi. destruct (H n w1 Hr Hi) as (b & w2 & ev & ? & ? & ? & ? & ? & ?). exists b, w2, ev. split_and!; eauto.
  - destruct H as (? & ? & H). split_and!; eauto.
  - destruct H as (L & i & ? & ? & H). exists L, i. split_and!; eauto.
Qed.

Lemma ewp_bind {A B} R (p : prog A) (f : A -> prog B) : forall h l Q w,
  ewp R h l p (fun h l a w => ewp R h l (f a) Q w) w -> ewp R h l (p ≫= f) Q w.
Proof.
  induction p as [a | B' m k IH | label k IH | id k IH]; intros h l Q w H.
  - cbn in H. by apply H.
  - intros n w1 Hr Hi. destruct (H n w1 Hr Hi) as (b & w2 & ev & ? & ? & ? & ? & ? & Hk).
    exists b, w2, ev. split_and!; [done.. |]. by apply IH.
  - destruct H as (? & ? & H). split_and!; [done | done |]. intros w1 i Hr Hl. apply IH. by apply H.
  - destruct H as (L & i & ? & ? & H). exists L, i. split_and!; [done | done |]. intros w1 Hr. apply IH. by apply H.
Qed.

Lemma ewp_ret {A} R h l (a : A) (Q : held -> list E -> A -> world -> Prop) w :
  (forall w1, rely h w w1 -> Q h l a w1) -> ewp R h l (mret a) Q w.
Proof. done. Qed.

(** An access to shared state, followed by the rest of the program. *)
Lemma ewp_act {A B} R h l (m : M A) (f : A -> prog B) Q w :
  (forall n w1, rely h w w1 -> p_inv (S n) w1 ->
     exists a w2 ev, m w1 = Some (a, w2) /\ p_inv n w2 /\ guar h w1 w2 /\ p_event ev w1 w2 /\
       (ev = [] \/ R (l ++ ev)) /\ ewp R h (l ++ ev) (f a) Q w2) ->
  ewp R h l (act m ≫= f) Q w.
Proof. done. Qed.

(** ** Code that causes no event *)

Definition wp {A} (h : held) (p : prog A) (Q : held -> A -> world -> Prop) (w : world) : Prop :=
  forall R l, ewp R h l p (fun h l' a w => l' = l /\ Q h a w) w.

(** Such code at the start of other code. *)
Lemma ewp_quiet {A B} R h l (p : prog A) (f : A -> prog B) Q w :
  wp h p (fun h a w => ewp R h l (f a) Q w) w -> ewp R h l (p ≫= f) Q w.
Proof. intros H. apply ewp_bind. eapply ewp_mono; [| apply H]. cbn. by intros h' l' a w' [-> ?]. Qed.

Lemma wp_mono {A} (p : prog A) h (Q Q' : held -> A -> world -> Prop) w :
  (forall h a w, Q h a w -> Q' h a w) -> wp h p Q w -> wp h p Q' w.
Proof. intros HQ H R l. eapply ewp_mono; [| apply H]. cbn. intros h' l' a w' [-> ?]. eauto. Qed.

Lemma wp_bind {A B} (p : prog A) (f : A -> prog B) h Q w :
  wp h p (fun h a w => wp h (f a) Q w) w -> wp h (p ≫= f) Q w.
Proof. intros H R l. apply ewp_quiet. eapply wp_mono; [| exact H]. cbn. auto. Qed.

Lemma wp_ret {A} h (a : A) (Q : held -> A -> world -> Prop) w :
  (forall w1, rely h w w1 -> Q h a w1) -> wp h (mret a) Q w.
Proof. intros H R l. apply ewp_ret. auto. Qed.

Lemma wp_act {A B} h (m : M A) (f : A -> prog B) Q w :
  (forall n w1, rely h w w1 -> p_inv (S n) w1 ->
     exists a w2, m w1 = Some (a, w2) /\ p_inv n w2 /\ guar h w1 w2 /\ p_event [] w1 w2 /\ wp h (f a) Q w2) ->
  wp h (act m ≫= f) Q w.
Proof.
  intros H R l. apply ewp_act. intros n w1 Hr Hi. destruct (H n w1 Hr Hi) as (a & w2 & ? & ? & ? & ? & Hw).
  exists a, w2, []. rewrite app_nil_r. split_and!; [done.. | by left | apply Hw].
Qed.

(** Taking and giving back a lock. *)
Lemma wp_lock {B} (label : Z) (k : Z -> prog B) Q w :
  label <> 0 ->
  (forall w1 i, rely None w w1 -> (i < lock_num)%nat -> wp (Some (label, i)) (k (Z.of_nat i)) Q w1) ->
  wp None (plock label ≫= k) Q w.
Proof. intros Hl H R l. split_and!; [done | done |]. intros w1 i Hr Hi. by apply H. Qed.

Lemma wp_unlock {B} (L : Z) (i : nat) (k : Z -> prog B) Q w :
  (forall w1, rely (Some (L, i)) w w1 -> wp None (k 0) Q w1) -> wp (Some (L, i)) (punlock (Z.of_nat i) ≫= k) Q w.
Proof. intros H R l. exists L, i. split_and!; [done | done |]. intros w1 Hr. by apply H. Qed.

(** An access that changes nothing. *)
Lemma ewp_look {A B} R h l (m : M A) (f : A -> prog B) Q w :
  (forall n w1, rely h w w1 -> p_inv (S n) w1 -> exists a, m w1 = Some (a, w1) /\ ewp R h l (f a) Q w1) ->
  ewp R h l (act m ≫= f) Q w.
Proof.
  intros H. apply ewp_act. intros n w1 Hr Hi. destruct (H n w1 Hr Hi) as (a & E1 & Hw). exists a, w1, []. rewrite app_nil_r.
  split_and!; [done | by apply p_inv_less | unfold guar; reflexivity | apply p_event_nil | by left | done].
Qed.

Lemma wp_look {A B} h (m : M A) (f : A -> prog B) Q w :
  (forall n w1, rely h w w1 -> p_inv (S n) w1 -> exists a, m w1 = Some (a, w1) /\ wp h (f a) Q w1) ->
  wp h (act m ≫= f) Q w.
Proof.
  intros H R l. apply ewp_look. intros n w1 Hr Hi. destruct (H n w1 Hr Hi) as (a & E1 & Hw). exists a. split; [done | apply Hw].
Qed.

(** What no step of any thread destroys still holds at the end. *)
Lemma ewp_keep {A} (X : world -> Prop) R (p : prog A) :
  (forall w w', rely None w w' -> X w -> X w') -> forall h l Q w, X w -> ewp R h l p Q w -> ewp R h l p (fun h l a w => Q h l a w /\ X w) w.
Proof.
  intros HX. induction p as [a | B m k IH | label k IH | id k IH]; cbn; intros h l Q w Hx H.
  - intros w1 Hr. split; [by apply H |]. eapply HX; [by eapply rely_weaken | done].
  - intros n w1 Hr Hi. destruct (H n w1 Hr Hi) as (b & w2 & ev & ? & ? & Hg & ? & ? & ?). exists b, w2, ev. split_and!; [done.. |].
    apply IH; [| done]. eapply HX; [by eapply guar_rely |]. eapply HX; [by eapply rely_weaken | done].
  - destruct H as (? & ? & H). split_and!; [done | done |]. intros w1 i Hr Hl. apply IH; [| by apply H].
    eapply HX; [by eapply rely_weaken | done].
  - destruct H as (L & i & ? & ? & H). exists L, i. split_and!; [done | done |]. intros w1 Hr. apply IH; [| by apply H].
    eapply HX; [by eapply rely_weaken | done].
Qed.

Lemma wp_keep {A} (X : world -> Prop) (p : prog A) :
  (forall w w', rely None w w' -> X w -> X w') -> forall h Q w, X w -> wp h p Q w -> wp h p (fun h a w => Q h a w /\ X w) w.
Proof.
  intros HX h Q w Hx H R l. eapply ewp_mono; [| by apply (ewp_keep X); [| | apply H]]. cbn. by intros h' l' a w' [[-> ?] ?].
Qed.
End Logic.

(** ** Soundness *)

(** The events of a thread. *)
Definition mine {E} (t : nat) (log : list (nat * E)) : list E := (filter (fun x => x.1 = t) log).*2.

Lemma mine_app {E} t (log log' : list (nat * E)) : mine t (log ++ log') = mine t log ++ mine t log'.
Proof. unfold mine. by rewrite filter_app, fmap_app. Qed.

(** The log after a step of thread [t]. *)
Definition logged {E} (t : nat) (ev : list E) : list (nat * E) := (fun e => (t, e)) <$> ev.

Lemma logged_events {E} t (ev : list E) : (logged t ev).*2 = ev.
Proof. unfold logged. induction ev as [| e ev IH]; [done |]. cbn. f_equal. exact IH. Qed.

Lemma mine_logged {E} t (ev : list E) : mine t (logged t ev) = ev.
Proof.
  unfold mine. induction ev as [| e ev IH]; [done |]. cbn. rewrite decide_True by done. cbn. by f_equal.
Qed.

Lemma mine_logged_other {E} t u (ev : list E) : t <> u -> mine u (logged t ev) = [].
Proof. intros Hne. unfold mine. induction ev as [| e ev IH]; [done |]. cbn. by rewrite decide_False by done. Qed.

(** Where a thread can be inside the two functions of the lock table. *)
Definition in_lock (L : Z) (p : pc) : Prop :=
  match p with
  | Scan L' _ _ | FoundMod L' _ | WantRead L' _ | WantWrite L' _ _ | WaitMutex L' _ | UnwantRead L' _
  | UnwantWrite L' _ _ | Recheck L' _ | WaitMod L' | FindTest L' _ | FindTry L' _ | FindRecheck L' _
  | FindLabel L' _ | FindRelease L' _ | FindModUnlock L' _ | Locked L' _ => L' = L
  | _ => False
  end.
Definition in_unlock (p : pc) : Prop :=
  match p with
  | Idle | UnTest _ _ | UnWaitMod _ _ | UnRetest _ _ | UnLabel _ _ | UnMutex _ _ | UnMod _ | HandMod _ _ | HandMutex _ _ => True
  | _ => False
  end.

Lemma exec_in_lock s s' t L :
  exec t Go s = Some s' -> in_lock L (c_pc s t) -> (forall i, c_pc s t <> Locked L i) -> in_lock L (c_pc s' t).
Proof.
  intros E Hl Hn. unfold exec in E. destruct (c_pc s t) eqn:Epc; cbn in Hl; subst; try done;
    repeat case_match; simplify_eq; cbn; rewrite ?upd_same; try done; repeat case_match; try done.
  all: by edestruct Hn.
Qed.

Lemma exec_in_unlock s s' t : exec t Go s = Some s' -> in_unlock (c_pc s t) -> in_unlock (c_pc s' t).
Proof.
  intros E Hl. unfold exec in E. destruct (c_pc s t) eqn:Epc; cbn in Hl; try done;
    repeat case_match; simplify_eq; cbn; rewrite ?upd_same; try done; repeat case_match; done.
Qed.

Section Soundness.
Context {E : Type} {P : Protocol E} {A : Type}.
(** What holds of the events of a thread at any time, and of its events and
    its result when it has returned. *)
Context (R : nat -> list E -> Prop) (Q : nat -> list E -> A -> Prop) (w0 : world).

(** What the program point of a thread says about the lock it holds. *)
Definition pc_held (p : pc) : option held :=
  match p with Idle => Some None | Locked L i => Some (Some (L, i)) | _ => None end.

(** The rest of the program of thread [t] is safe and ends in [Q]. *)
Definition safe (t : nat) (l : list E) (h : held) (p : prog A) (w : world) : Prop :=
  ewp (R t) h l p (fun h l a _ => h = None /\ Q t l a) w.

Definition thread_ok (w : world) (c : cstate) (t : nat) (l : list E) (x : thread A) : Prop :=
  match x with
  | TAt p => exists h, pc_held (c_pc c t) = Some h /\ safe t l h p w
  | TIn k => exists L, in_lock L (c_pc c t) /\
      forall w1 i, rely None w w1 -> (i < lock_num)%nat -> safe t l (Some (L, i)) (k (Z.of_nat i)) w1
  | TOut k => in_unlock (c_pc c t) /\ safe t l None (k 0) w
  end.

(** The log of all threads: who caused which event, in order. *)
Record ginv (n : nat) (log : list (nat * E)) (s : gstate A) : Prop := {
  gi_locks : cinv (g_locks s);
  gi_inv : p_inv n (g_world s);
  gi_log : p_event log.*2 w0 (g_world s);
  gi_mine t : R t (mine t log);
  gi_thread t : thread_ok (g_world s) (g_locks s) t (mine t log) (g_thread s t)
}.

(** Two threads never hold the same label, nor the same entry. *)
Lemma pc_held_apart c t u h h' w w' :
  cinv c -> t <> u -> pc_held (c_pc c t) = Some h -> pc_held (c_pc c u) = Some h' -> guar h w w' -> rely h' w w'.
Proof.
  intros Hc Hne Ht Hu. apply p_rel_mono.
  - intros L Hl Hl'. destruct (c_pc c t) eqn:Et, (c_pc c u) eqn:Eu; simplify_eq/=; try done.
    unfold has_label in *. simplify_eq/=. by destruct (locked_exclusive _ _ _ _ _ _ _ Hc Et Eu Hne).
  - intros i Hl Hl'. destruct (c_pc c t) eqn:Et, (c_pc c u) eqn:Eu; simplify_eq/=; try done.
    unfold has_entry in *. simplify_eq/=. by destruct (locked_exclusive _ _ _ _ _ _ _ Hc Et Eu Hne).
Qed.

(** A step of thread [t] on the world leaves the other threads safe. *)
Lemma thread_ok_other w w' c t u h l x :
  cinv c -> t <> u -> pc_held (c_pc c t) = Some h -> guar h w w' -> thread_ok w c u l x -> thread_ok w' c u l x.
Proof.
  intros Hc Hne Ht Hg. pose proof (guar_rely _ _ _ Hg) as Hr. destruct x as [p | k | k]; cbn.
  - intros (h' & Hu & Hs). exists h'. split; [done |]. eapply ewp_stable; [done |]. by eapply pc_held_apart.
  - intros (L & Hp & Hs). exists L. split; [done |]. intros w1 i H1. apply Hs. by etransitivity.
  - intros (Hp & Hs). split; [done |]. by eapply ewp_stable.
Qed.

(** So does a step of thread [t] on the lock table. *)
Lemma thread_ok_table w c c' t u a l x :
  exec t a c = Some c' -> u <> t -> thread_ok w c u l x -> thread_ok w c' u l x.
Proof. intros E1 Hne. destruct x; cbn; by rewrite (exec_other_pc _ _ _ _ _ E1 Hne). Qed.

Lemma ginv_table n log s t a x c' :
  ginv (S n) log s -> exec t a (g_locks s) = Some c' -> thread_ok (g_world s) c' t (mine t log) x ->
  ginv n log (put_thread t x c' (g_world s) s).
Proof.
  intros [Hc Hi Hl Hm Ht] E1 Hx. split; [by eapply cinv_exec | by apply p_inv_less | done | done |].
  intros u. cbn. unfold upd. case_decide; [by subst |]. by eapply thread_ok_table.
Qed.

Lemma ginv_move n log s t x :
  ginv (S n) log s -> thread_ok (g_world s) (g_locks s) t (mine t log) x ->
  ginv n log (put_thread t x (g_locks s) (g_world s) s).
Proof.
  intros [Hc Hi Hl Hm Ht] Hx. split; [done | by apply p_inv_less | done | done |].
  intros u. cbn. unfold upd. case_decide; [by subst | done].
Qed.

(** A step on the world. *)
Lemma ginv_world n log s t h p ev w' :
  ginv (S n) log s -> pc_held (c_pc (g_locks s) t) = Some h -> p_inv n w' -> guar h (g_world s) w' ->
  p_event ev (g_world s) w' -> (ev = [] \/ R t (mine t log ++ ev)) -> safe t (mine t log ++ ev) h p w' ->
  ginv n (log ++ logged t ev) (put_thread t (TAt p) (g_locks s) w' s).
Proof.
  intros [Hc Hi Hl Hm Ht] Hh Hi' Hg He HR Hs. split; [done | done | | |].
  - rewrite fmap_app, logged_events. by eapply p_event_app.
  - intros u. rewrite mine_app. destruct (decide (u = t)) as [-> | Hne].
    + rewrite mine_logged. destruct HR as [-> | HR]; [by rewrite app_nil_r | done].
    + by rewrite mine_logged_other, app_nil_r.
  - intros u. cbn. unfold upd. rewrite mine_app. case_decide as Hu.
    + subst u. rewrite mine_logged. by exists h.
    + rewrite mine_logged_other, app_nil_r by done. by eapply thread_ok_other.
Qed.

Lemma locked_entry c t L i : cinv c -> c_pc c t = Locked L i -> (i < lock_num)%nat.
Proof.
  intros [[Hr _] Hi] E1. destruct (Hi t) as [Hp _]. rewrite E1 in Hp. cbn in Hp. apply Hr. by destruct Hp as (? & _ & ->).
Qed.

Lemma pc_cases (p : pc) : (exists L i, p = Locked L i) \/ p = Idle \/ ((forall L i, p <> Locked L i) /\ p <> Idle).
Proof. destruct p; eauto; right; right; split; intros; discriminate. Qed.

(** The point of a thread inside [mflock_lock]. *)
Lemma ginv_lock n log s s' t k L :
  ginv (S n) log s -> g_thread s t = TIn k -> in_lock L (c_pc (g_locks s) t) ->
  (forall w1 i, rely None (g_world s) w1 -> (i < lock_num)%nat -> safe t (mine t log) (Some (L, i)) (k (Z.of_nat i)) w1) ->
  gexec t s = Some s' -> ginv n log s'.
Proof.
  intros H Et Hp Hk E1. unfold gexec in E1. rewrite Et in E1.
  destruct (pc_cases (c_pc (g_locks s) t)) as [(L' & i & El) | [El | [Hn _]]]; [| by rewrite El in Hp |].
  - rewrite El in E1, Hp. cbn in Hp. simplify_eq. apply ginv_move; [done |]. exists (Some (L, i)). rewrite El.
    split; [done |]. apply Hk; [done |]. by eapply locked_entry, El; apply H.
  - assert (E' : match exec t Go (g_locks s) with Some c' => Some (put_thread t (TIn k) c' (g_world s) s) | None => None end = Some s').
    { destruct (c_pc (g_locks s) t) eqn:Ep; try done. by destruct (Hn label ml). }
    clear E1. destruct (exec t Go (g_locks s)) as [c' |] eqn:Ex; simplify_eq. eapply ginv_table; [done | done |].
    exists L. split; [| done]. eapply exec_in_lock; [done | done |]. intros i. apply Hn.
Qed.

(** Soundness: any step of any thread keeps the invariant. *)
Lemma ginv_exec n log s s' t : ginv (S n) log s -> gexec t s = Some s' -> exists log', ginv n log' s'.
Proof.
  intros H E1. pose proof H as [Hc Hi _ _ Hall]. pose proof (Hall t) as Ht.
  destruct (g_thread s t) as [[a | B m k | label k | id k] | k | k] eqn:Et; cbn in Ht.
  - unfold gexec in E1. by rewrite Et in E1.
  - destruct Ht as (h & Hh & Hs). destruct (Hs n (g_world s)) as (b & w2 & ev & Em & Hi2 & Hg & He & HR & Hk); [done | done |].
    unfold gexec in E1. rewrite Et, Em in E1. simplify_eq. eexists. by eapply ginv_world.
  - destruct Ht as (h & Hh & -> & Hl & Hk). unfold gexec in E1. rewrite Et in E1.
    destruct (exec t (Call label) (g_locks s)) as [c' |] eqn:Ex; simplify_eq. exists log. eapply ginv_table; [done | done |].
    exists label. split; [| by intros w1 i Hr; apply Hk].
    unfold exec in Ex. destruct (c_pc (g_locks s) t); simplify_eq/=. case_match; simplify_eq. cbn. by rewrite upd_same.
  - destruct Ht as (h & Hh & L & i & -> & -> & Hk). unfold gexec in E1. rewrite Et in E1.
    destruct (c_pc (g_locks s) t) eqn:Ep; simplify_eq/=. rewrite Z.eqb_refl in E1.
    destruct (exec t Go (g_locks s)) as [c' |] eqn:Ex; simplify_eq. exists log. eapply ginv_table; [done | done |].
    unfold exec in Ex. rewrite Ep in Ex. simplify_eq. cbn. rewrite upd_same. split; [done |]. by apply Hk.
  - destruct Ht as (L & Hp & Hk). exists log. by eapply ginv_lock.
  - destruct Ht as (Hp & Hk). unfold gexec in E1. rewrite Et in E1. exists log.
    destruct (pc_cases (c_pc (g_locks s) t)) as [(L & i & Ep) | [Ep | [_ Hn]]]; [by rewrite Ep in Hp | |].
    + rewrite Ep in E1. simplify_eq. apply ginv_move; [done |]. exists None. by rewrite Ep.
    + assert (E' : match exec t Go (g_locks s) with Some c' => Some (put_thread t (TOut k) c' (g_world s) s) | None => None end = Some s')
        by (by destruct (c_pc (g_locks s) t)).
      destruct (exec t Go (g_locks s)) as [c' |] eqn:Ex; simplify_eq. eapply ginv_table; [done | done |].
      split; [| done]. by eapply exec_in_unlock.
Qed.

Lemma ginv_less n log s : ginv (S n) log s -> ginv n log s.
Proof. intros []. split; [done | by apply p_inv_less | done..]. Qed.

Lemma ginv_interleave sched : forall s log n, ginv (length sched + n) log s -> exists log', ginv n log' (interleave sched s).
Proof.
  induction sched as [| t r IH]; intros s log n H; [by exists log |]. cbn [interleave].
  destruct (gexec t s) as [s' |] eqn:E1; cbn [default] in *.
  - destruct (ginv_exec _ _ _ _ _ H E1) as [log' H']. by eapply IH.
  - by eapply IH, ginv_less.
Qed.

(** A thread that cannot go has ended or waits for a mutex: no step is undefined. *)
Lemma ginv_stops n log s t : ginv (S n) log s -> gexec t s = None -> (exists a, returned s t a) \/ waits s t.
Proof.
  intros [Hc Hi _ _ Hall] E1. pose proof (Hall t) as Ht. unfold gexec in E1. unfold returned, waits.
  destruct (g_thread s t) as [[a | B m k | label k | id k] | k | k] eqn:Et; cbn in Ht; [by left; exists a | ..].
  - destruct Ht as (h & Hh & Hs). destruct (Hs n (g_world s)) as (b & w2 & ev & Em & _); [done | done |]. by rewrite Em in E1.
  - destruct Ht as (h & Hh & -> & Hl & Hk). unfold exec in E1. destruct (c_pc (g_locks s) t); simplify_eq/=.
    by destruct (Z.eqb_spec label 0).
  - destruct Ht as (h & Hh & L & i & -> & -> & Hk). unfold exec in E1.
    destruct (c_pc (g_locks s) t) eqn:Ep; simplify_eq/=. by rewrite Z.eqb_refl in E1.
  - right. destruct (c_pc (g_locks s) t) eqn:Ep; try done; by destruct (exec t Go (g_locks s)).
  - right. destruct (c_pc (g_locks s) t) eqn:Ep; try done; by destruct (exec t Go (g_locks s)).
Qed.

(** A thread that has returned has given its lock back and ended in [Q]. *)
Lemma ginv_returned n log s t a : ginv n log s -> returned s t a -> c_pc (g_locks s) t = Idle /\ Q t (mine t log) a.
Proof.
  intros [Hc Hi _ _ Hall] E1. pose proof (Hall t) as Ht. unfold returned in E1. rewrite E1 in Ht.
  destruct Ht as (h & Hh & Hs). destruct (Hs (g_world s)) as [-> HQ]; [done |]. split; [| done].
  by destruct (c_pc (g_locks s) t).
Qed.

(** Where the threads start: at their programs, with no lock taken. *)
Definition gstart (progs : nat -> prog A) : gstate A := GState w0 c_init (fun t => TAt (progs t)).

Lemma ginv_start n progs :
  p_inv n w0 -> (forall t, R t []) -> (forall t, safe t [] None (progs t) w0) -> ginv n [] (gstart progs).
Proof.
  intros Hi HR Hs. split; [apply cinv_init | done | apply p_event_nil | done |]. intros t. exists None. split; [done | apply Hs].
Qed.
End Soundness.
