(* ===== verification/ThreadCode.v ===== *)
(** The handlers on open files as programs of threads: [b_write], [b_truncate]
    and [b_read] of [block.c] and [write], [ftruncate] and [read] above them, cut at
    every system call and at every access to memory that threads share: the
    cached block number in the handle, the block buffer in [fsdata], and
    [sn_number].  [op_agrees] shows that a thread that runs alone does what
    the functions of [Block] and [FuseFd] compute.

    The descriptors, the header and the label of a handle are read when the
    handler starts; no program here changes them.  A handle that has to be
    renewed after a new snapshot ([mfd_validate] with another [sn_number]) is
    outside this model: the program has no behaviour there. *)

From S2P Require Import Prelude Posix Types Mflock Block Mfd FuseFd SnapshotIsolation Threads.

(** ** Shared memory *)

(** [mfd->latest_written_block_cache] *)
Definition load_cache (fh : Z) : M Z := mfd ← get_mfd fh; mret (latest_written_block_cache mfd).
Definition store_cache (fh c : Z) : M unit := mfd ← get_mfd fh; put_mfd fh (set_cache c mfd).

Definition load_number : M Z := f ← get_fs; mret (sn_number f).

(** [pread] into the buffer, and [write] from it. *)
Definition read_into (fd n off : Z) (b : bufref) : M (res Z * bufref) :=
  r ← sys (sys_pread fd n off);
  match r with
  | Err e => mret (Err e, b)
  | Ok d => mem ← buf_get b; b ← buf_set b (d ++ zdrop (zlen d) mem); mret (Ok (zlen d), b)
  end.

Definition write_from (fd : Z) (b : bufref) : M (res Z) :=
  mem ← buf_get b; sys (sys_write fd (ztake BL_S mem)).

(** ** [b_write] *)

(** The variables of the block loop that are the thread's own. *)
Record pw_state := PwState { pw_lock : Z; pw_buf : bufref; pw_err : Z }.

Definition pw_break (st : pw_state) (e : Z) : prog (bool * pw_state) := mret (true, PwState (pw_lock st) (pw_buf st) e).
Definition pw_continue (st : pw_state) : prog (bool * pw_state) := mret (false, st).

Section Code.
(** The address of the handle and what its constant fields are. *)
Context (fh : Z) (mfd : mfd_t).

Definition p_get_buf (st : pw_state) : prog (option bufref) :=
  match pw_buf st with
  | BufNull =>
      if pw_lock st =? 0 then mret (Some BufGlobal)
      else b ← act malloc_block; mret (option_map BufHeap b)
  | b => mret (Some b)
  end.

Definition p_append (st : pw_state) (blockoffset : Z) : prog (bool * pw_state) :=
  l ← act (sys (sys_lseek_end (datfd mfd)));
  match l with
  | Err e => pw_break st e
  | Ok datsize =>
      if negb (Z.land datsize (BL_S - 1) =? 0) then pw_break st EFAULT
      else
        n ← act (write_from (datfd mfd) (pw_buf st));
        match n with
        | Err e => pw_break st e
        | Ok n =>
            if negb (n =? BL_S) then pw_break st ENXIO
            else
              let pointer := Z.shiftr datsize BL_SLOG + 1 in
              p ← act (sys (sys_pwrite (mapfd mfd) (le_bytes 8 pointer) (map_offset blockoffset)));
              match p with
              | Err e => pw_break st e
              | Ok n =>
                  if negb (n =? BLP_S) then pw_break st ENXIO
                  else _ ← act (store_cache fh (blockoffset + 1)); pw_continue st
              end
        end
  end.

Definition p_save_block (st : pw_state) (blockoffset : Z) : prog (bool * pw_state) :=
  buf ← p_get_buf st;
  match buf with
  | None => pw_break st ENOMEM
  | Some b =>
      '(r, b) ← act (read_into (mainfd mfd) BL_S (Z.shiftl blockoffset BL_SLOG) b);
      let st := PwState (pw_lock st) b (pw_err st) in
      match r with
      | Err e => pw_break st e
      | Ok ret => if ret <? 1 then pw_break st ENXIO else p_append st blockoffset
      end
  end.

Definition p_write_block (st : pw_state) (blockoffset : Z) : prog (bool * pw_state) :=
  cache ← act (load_cache fh);
  if cache =? blockoffset + 1 then pw_continue st
  else
    p ← act (read_pointer (mapfd mfd) (map_offset blockoffset));
    match p with
    | Err e => pw_break st e
    | Ok pointer =>
        if negb (pointer =? 0) then _ ← act (store_cache fh (blockoffset + 1)); pw_continue st
        else if pw_lock st =? -1 then
          lock ← plock (locklabel mfd);
          let st := PwState lock (pw_buf st) (pw_err st) in
          if lock <? 0 then pw_break st (- lock)
          else
            p ← act (read_pointer (mapfd mfd) (map_offset blockoffset));
            match p with
            | Err e => pw_break st e
            | Ok pointer => if negb (pointer =? 0) then pw_continue st else p_save_block st blockoffset
            end
        else p_save_block st blockoffset
    end.

Fixpoint p_write_loop (n : nat) (st : pw_state) (blockoffset : Z) : prog pw_state :=
  match n with
  | O => mret st
  | S n' =>
      '(stop, st') ← p_write_block st blockoffset;
      if stop : bool then mret st' else p_write_loop n' st' (blockoffset + 1)
  end.

Definition p_write_cleanup (st : pw_state) : prog Z :=
  if negb (pw_lock st =? -1) then
    lock ← punlock (pw_lock st);
    let waserror := if (lock <? 0) && (pw_err st =? 0) then - lock else pw_err st in
    _ ← (if negb (lock =? 0) then act (buf_free (pw_buf st)) else mret tt);
    mret (- waserror)
  else mret (- pw_err st).

(** [b_write] without the flag that says that the lock is held already. *)
Definition p_b_write (writesize writeoffset : Z) : prog Z :=
  if (datfd mfd <? 0) || (writesize =? 0) then mret 0
  else
    let snsize := st_size (mh_fstat (mapheader mfd)) in
    let go writesize :=
      let '(blockoffset, blocknumber) := B_CALC_BLOCKS writeoffset writesize in
      st ← p_write_loop (Z.to_nat blocknumber) (PwState (-1) BufNull 0) blockoffset;
      p_write_cleanup st in
    if u64 snsize <? u64 (writeoffset + writesize) then
      if snsize <=? writeoffset then mret 0
      else go (u64 (snsize - writeoffset))
    else go writesize.

Definition p_b_truncate (newsize : Z) : prog Z :=
  let st := mapheader mfd in
  if (mh_exists st =? 1) && (newsize <? st_size (mh_fstat st))
  then p_b_write (u64 (st_size (mh_fstat st) - newsize)) newsize
  else mret 0.

(** ** [b_read] *)

Definition p_read_step (sni : nat) (blockoffset copyto copylength copyfrom : Z) (buf : list Z) : prog (Z * list Z) :=
  match sn_steps mfd !! sni with
  | None => act st_stuck
  | Some step =>
      if (0 <? Z.of_nat sni) then
        if step_mapfd step <? 0 then mret (0, buf)
        else
          p ← act (read_pointer (step_mapfd step) (map_offset blockoffset));
          match p with
          | Err e => mret (e, buf)
          | Ok pointer =>
              if pointer =? 0 then mret (0, buf)
              else act (b_read_copy (step_datfd step) copyto copylength (copyfrom + Z.shiftl (pointer - 1) BL_SLOG) buf)
          end
      else
        act (b_read_copy (step_datfd step) copyto copylength (copyfrom + Z.shiftl blockoffset BL_SLOG) buf)
  end.

Fixpoint p_read_sni (k : nat) (lock : Z) (blockoffset copyto copylength copyfrom : Z) (buf : list Z)
  : prog (read_next * list Z) :=
  match k with
  | O => mret (RNext, buf)
  | S sni =>
      let want := (Z.of_nat sni <=? 1) && (lock =? -1) in
      lock' ← (if want then plock (locklabel mfd) else mret lock);
      '(waserror, buf') ← (if want && (lock' <? 0) then mret (- lock', buf)
                           else p_read_step sni blockoffset copyto copylength copyfrom buf);
      if waserror =? 0 then p_read_sni sni lock' blockoffset copyto copylength copyfrom buf'
      else
        r ← (if negb (lock' =? -1) then punlock lock' else mret 0);
        if r <? 0 then mret (RReturn (- r), buf')
        else if 0 <? waserror then mret (RReturn (- waserror), buf')
        else mret (RNext, buf')
  end.

Fixpoint p_read_loop (n : nat) (blockoffset copyto readoffset readsize : Z) (buf : list Z) : prog (Z * list Z) :=
  match n with
  | O => mret (i32 copyto, buf)
  | S n' =>
      let '(copyfrom, copylength) := b_read_part (copyto =? 0) (n =? 1)%nat blockoffset readoffset readsize in
      '(r, buf') ← p_read_sni (Z.to_nat (sn_first_file mfd + 1)) (-1) blockoffset copyto copylength copyfrom buf;
      match r with
      | RReturn ret => mret (ret, buf')
      | RNext => p_read_loop n' (blockoffset + 1) (copyto + copylength) readoffset readsize buf'
      end
  end.

Definition p_b_read (buf : list Z) (readsize readoffset : Z) : prog (Z * list Z) :=
  if readsize =? 0 then mret (0, buf)
  else
    let snsize := st_size (mh_fstat (mapheader mfd)) in
    let go readsize :=
      let '(blockoffset, blocknumber) := B_CALC_BLOCKS readoffset readsize in
      p_read_loop (Z.to_nat blocknumber) blockoffset 0 readoffset readsize buf in
    if u64 snsize <? u64 (readoffset + readsize) then
      if snsize <=? readoffset then mret (0, buf)
      else go (u64 (snsize - readoffset))
    else go readsize.
End Code.

(** ** The handlers *)

(** [mfd_validate] of a handle that need not be renewed. *)
Definition p_validate (mfd : mfd_t) : prog unit :=
  number ← act load_number;
  if number =? mfd_sn_number mfd then mret tt else act st_stuck.

Definition p_write (fh : Z) (buf : list Z) (offset : Z) : prog Z :=
  mfd ← act (get_mfd fh);
  match is_main mfd with
  | mfd_main =>
      _ ← p_validate mfd;
      ret ← p_b_write fh mfd (zlen buf) offset;
      if negb (ret =? 0) then mret ret
      else
        r ← act (sys (sys_pwrite (mainfd mfd) buf offset));
        mret match r with Ok n => i32 n | Err e => - e end
  | _ => mret (- EACCES)
  end.

Definition p_ftruncate (fh newsize : Z) : prog Z :=
  mfd ← act (get_mfd fh);
  _ ← p_validate mfd;
  ret ← p_b_truncate fh mfd newsize;
  if negb (ret =? 0) then mret ret
  else
    r ← act (sys (sys_ftruncate (mainfd mfd) newsize));
    mret match r with Ok _ => 0 | Err e => - e end.

Definition p_read (fh : Z) (buf : list Z) (size offset : Z) : prog (Z * list Z) :=
  mfd ← act (get_mfd fh);
  match is_main mfd with
  | mfd_main =>
      r ← act (sys (sys_pread (mainfd mfd) size offset));
      mret match r with
           | Ok d => (i32 (zlen d), file_write buf d 0)
           | Err e => (- e, buf)
           end
  | mfd_sn_full =>
      number ← act load_number;
      if number =? mfd_sn_number mfd then p_b_read mfd buf size offset else mret (- EREMCHG, buf)
  | _ => mret (- EBADE, buf)
  end.

(** The operations of [SnapshotIsolation], run by a thread. *)
Definition p_op (o : op) : prog outcome :=
  match o with
  | OWrite fh buf off => r ← p_write fh buf off; mret (Ret r)
  | OTruncate fh n => r ← p_ftruncate fh n; mret (Ret r)
  | ORead fh buf size off => '(r, buf') ← p_read fh buf size off; mret (Got r buf')
  end.

Fixpoint p_ops (ops : list op) : prog (list outcome) :=
  match ops with
  | [] => mret []
  | o :: r => out ← p_op o; outs ← p_ops r; mret (out :: outs)
  end.
