(* ===== verification/ThreadProtocol.v ===== *)
(** What the threads that write, truncate and read files agree on.

    Any number of files are open for writing, each with its map and dat file
    in the latest snapshot.  The invariant is the copy-on-write invariant of
    every file.  A step of a thread loses no saved block, only appends to a
    dat file, and changes the map and the dat file of a file only if the
    thread holds the lock with the label of the file; it changes the block
    buffer of [fsdata] only if it holds entry 0 of the lock table.  The events
    are the requests, each with its whole effect on a main file. *)

From S2P Require Import Prelude Posix PosixSpec Types Mflock Block CopyOnWrite BlockWrite BlockRead.
From S2P Require Import Mfd FuseFd SnapshotIsolation MflockConc Threads ThreadCode.

(** ** The files *)

(** The inodes of a file and of its map and dat files, the contents at the
    latest snapshot, and the label. *)
Record finfo := FInfo { f_main : nat; f_map : nat; f_dat : nat; f_old : list Z; f_label : Z }.

#[global] Instance decide_finfo : EqDecision finfo.
Proof. solve_decision. Defined.

Definition f_inodes (f : finfo) : list nat := [f_main f; f_map f; f_dat f].

Lemma in_main f : f_main f ∈ f_inodes f.
Proof. by left. Qed.
Lemma in_map f : f_map f ∈ f_inodes f.
Proof. right. by left. Qed.
Lemma in_dat f : f_dat f ∈ f_inodes f.
Proof. right. right. by left. Qed.

(** The bytes of an inode. *)
Definition fdata (w : world) (i : nat) : list Z :=
  match os_inodes (w_os w) !! i with Some x => i_data x | None => [] end.

Lemma fdata_regular w i c : regular (w_os w) i c -> fdata w i = c.
Proof. intros (m & E & _). unfold fdata. by rewrite E. Qed.

Lemma fdata_frame (touch : nat -> Prop) w w' i : frame touch (w_os w) (w_os w') -> ~ touch i -> fdata w' i = fdata w i.
Proof. intros Hf Hi. unfold fdata. by rewrite (fr_inodes _ _ _ Hf i Hi). Qed.

Lemma regular_frame_meta touch w w' i :
  frame touch (w_os w) (w_os w') -> regular (w_os w) i (fdata w i) -> regular (w_os w') i (fdata w' i).
Proof.
  intros Hf (m & E & Hd). pose proof (fr_meta _ _ _ Hf i) as Hm. rewrite E in Hm. unfold regular, fdata.
  destruct (os_inodes (w_os w') !! i) as [[m' d'] |]; simplify_eq/=. by exists m.
Qed.

Section Protocol.
(** The files, the writers and whether they append, the readers, in the main
    space ([None]) or in a snapshot and what it holds, and whether calls may
    fail. *)
Context (Fs : list finfo) (writers : gmap Z (finfo * bool)) (readers : gmap Z (finfo * option (list Z))) (fl : Prop).

Definition touched (i : nat) : Prop := exists f, f ∈ Fs /\ i ∈ f_inodes f.

(** The files are apart, and within the bounds of [off_t]. *)
Record files_apart : Prop := {
  fa_nodup : NoDup (Fs ≫= f_inodes);
  fa_old f : f ∈ Fs -> zlen (f_old f) < 2 ^ 61;
  fa_label f : f ∈ Fs -> f_label f <> 0
}.
Context (Hfs : files_apart).

(** ** The invariant *)

Record file_ok (n : nat) (w : world) (f : finfo) : Prop := {
  fo_main : regular (w_os w) (f_main f) (fdata w (f_main f));
  fo_map : regular (w_os w) (f_map f) (fdata w (f_map f));
  fo_dat : regular (w_os w) (f_dat f) (fdata w (f_dat f));
  fo_cow : cow (f_old f) (fdata w (f_main f)) (fdata w (f_map f)) (fdata w (f_dat f));
  fo_align : zlen (fdata w (f_dat f)) mod BL_S = 0;
  fo_room : zlen (fdata w (f_dat f)) + Z.of_nat n * BL_S < 2 ^ 62
}.

(** A handle inside a snapshot: the main file, the latest snapshot, and
    earlier ones, whose files nobody writes, down to the one where the file
    holds [target]. *)
Record treader_ok (w : world) (f : finfo) (target : list Z) (mfd : mfd_t) : Prop := {
  tr_full : is_main mfd = mfd_sn_full;
  tr_number : mfd_sn_number mfd = sn_number (w_fs w);
  tr_views : exists views,
    length views = length (sn_steps mfd) /\ views !! 1%nat = Some (f_old f) /\
    1 <= sn_first_file mfd /\ views !! Z.to_nat (sn_first_file mfd) = Some target /\
    forall k step v v', sn_steps mfd !! S (S k) = Some step -> views !! S (S k) = Some v -> views !! S k = Some v' ->
      step_ok touched (w_os w) step v v';
  tr_main step : sn_steps mfd !! 0%nat = Some step ->
    exists acc app, open_on (w_os w) (step_datfd step) (f_main f) acc app /\ acc <> O_WRONLY;
  tr_latest step : sn_steps mfd !! 1%nat = Some step -> 0 <= step_mapfd step /\
    (exists acc, open_on (w_os w) (step_mapfd step) (f_map f) acc false /\ acc <> O_WRONLY) /\
    (exists acc app, open_on (w_os w) (step_datfd step) (f_dat f) acc app /\ acc <> O_WRONLY);
  tr_size : st_size (mh_fstat (mapheader mfd)) = zlen target;
  tr_len : zlen target < 2 ^ 62;
  tr_label : locklabel mfd = f_label f
}.

(** A handle in the main space that is open for reading. *)
Definition tlooker_ok (w : world) (f : finfo) (mfd : mfd_t) : Prop :=
  is_main mfd = mfd_main /\ exists acc app, open_on (w_os w) (mainfd mfd) (f_main f) acc app /\ acc <> O_WRONLY.

Definition handle_ok (w : world) (f : finfo) (view : option (list Z)) (mfd : mfd_t) : Prop :=
  match view with Some target => treader_ok w f target mfd | None => tlooker_ok w f mfd end.

Record tinv (n : nat) (w : world) : Prop := {
  ti_files f : f ∈ Fs -> file_ok n w f;
  ti_buffer : buffer_ok w;
  ti_atomic : atomic (w_os w);
  ti_faulty : faulty (w_os w) -> fl;
  ti_writers fh f app : writers !! fh = Some (f, app) -> f ∈ Fs /\
    exists mfd, w_mfds w !! fh = Some mfd /\
      writer_ok (f_main f) (f_map f) (f_dat f) (f_old f) w (fdata w (f_map f)) app mfd /\ locklabel mfd = f_label f;
  ti_readers fh f view : readers !! fh = Some (f, view) -> f ∈ Fs /\
    exists mfd, w_mfds w !! fh = Some mfd /\ handle_ok w f view mfd
}.

(** ** The relation *)

Record trel (lab : Z -> Prop) (ent : nat -> Prop) (w w' : world) : Prop := {
  re_frame : frame touched (w_os w) (w_os w');
  re_fs : fs_stable (w_fs w) (w_fs w');
  re_mfds fh m : w_mfds w !! fh = Some m -> exists m', w_mfds w' !! fh = Some m' /\ same_mfd m m';
  re_saved f b : f ∈ Fs -> 0 <= b -> saved (fdata w (f_map f)) b -> saved (fdata w' (f_map f)) b;
  re_dat f : f ∈ Fs -> exists ext, fdata w' (f_dat f) = fdata w (f_dat f) ++ ext;
  re_label f : f ∈ Fs -> lab (f_label f) ->
    fdata w' (f_map f) = fdata w (f_map f) /\ fdata w' (f_dat f) = fdata w (f_dat f);
  re_buffer : ent 0%nat -> block_buffer (w_fs w') = block_buffer (w_fs w)
}.

Lemma same_mfd_trans m1 m2 m3 : same_mfd m1 m2 -> same_mfd m2 m3 -> same_mfd m1 m3.
Proof. unfold same_mfd. congruence. Qed.

Lemma trel_refl lab ent w : trel lab ent w w.
Proof.
  split; try done.
  - intros fh m Hm. by exists m.
  - intros f _. exists []. by rewrite app_nil_r.
Qed.

Lemma trel_trans lab ent w1 w2 w3 : trel lab ent w1 w2 -> trel lab ent w2 w3 -> trel lab ent w1 w3.
Proof.
  intros H1 H2. split.
  - etransitivity; [apply (re_frame _ _ _ _ H1) | apply (re_frame _ _ _ _ H2)].
  - pose proof (re_fs _ _ _ _ H1). pose proof (re_fs _ _ _ _ H2). unfold fs_stable in *. congruence.
  - intros fh m Hm. destruct (re_mfds _ _ _ _ H1 _ _ Hm) as (m' & Hm' & E).
    destruct (re_mfds _ _ _ _ H2 _ _ Hm') as (m'' & Hm'' & E'). exists m''. split; [done | by eapply same_mfd_trans].
  - intros f b Hf Hb Hs. apply (re_saved _ _ _ _ H2); [done | done |]. by apply (re_saved _ _ _ _ H1).
  - intros f Hf. destruct (re_dat _ _ _ _ H1 f Hf) as [e1 E1], (re_dat _ _ _ _ H2 f Hf) as [e2 E2].
    exists (e1 ++ e2). by rewrite E2, E1, app_assoc.
  - intros f Hf Hl. destruct (re_label _ _ _ _ H1 f Hf Hl), (re_label _ _ _ _ H2 f Hf Hl). split; congruence.
  - intros He. rewrite (re_buffer _ _ _ _ H2 He). by apply (re_buffer _ _ _ _ H1).
Qed.

Lemma trel_mono (lab lab' : Z -> Prop) (ent ent' : nat -> Prop) w w' :
  (forall L, lab' L -> lab L) -> (forall i, ent' i -> ent i) -> trel lab ent w w' -> trel lab' ent' w w'.
Proof. intros Hl He []. split; eauto. Qed.

Lemma file_ok_less n w f : file_ok (S n) w f -> file_ok n w f.
Proof. intros []. split; try done. assert (0 < BL_S) by done. lia. Qed.

Lemma tinv_less n w : tinv (S n) w -> tinv n w.
Proof. intros []. split; try done. intros f Hf. apply file_ok_less. auto. Qed.

(** ** The events *)

(** A request and its result. *)
Definition event : Type := op * outcome.

(** What a request does to the contents of a file when it succeeds. *)
Definition effect (f : finfo) (main : list Z) (o : op) : list Z :=
  match o with
  | OWrite fh buf off =>
      match writers !! fh with
      | Some (g, app) => if decide (g = f) then file_write main buf (if app : bool then zlen main else off) else main
      | None => main
      end
  | OTruncate fh n =>
      match writers !! fh with
      | Some (g, _) => if decide (g = f) then file_resize main n else main
      | None => main
      end
  | ORead _ _ _ _ => main
  end.

(** What a request that reads the main file must have got. *)
Definition shows (f : finfo) (main : list Z) (e : event) : Prop :=
  match e with
  | (ORead fh buf size off, Got r buf') =>
      readers !! fh = Some (f, None) ->
      r = zlen (file_read main size off) /\ buf' = file_write buf (file_read main size off) 0
  | _ => True
  end.

(** From the contents [c] to the contents [c'] by the requests [l], one after the other. *)
Fixpoint replay (f : finfo) (c : list Z) (l : list event) (c' : list Z) : Prop :=
  match l with
  | [] => c' = c
  | e :: l => shows f c e /\ replay f (effect f c e.1) l c'
  end.

Lemma replay_app f l l' : forall c c' c'', replay f c l c' -> replay f c' l' c'' -> replay f c (l ++ l') c''.
Proof. induction l as [| e l IH]; cbn; intros c c' c''; [by intros -> |]. intros [? H] H'. split; [done |]. by eapply IH. Qed.

(** The contents of the main files change by the requests [l]. *)
Definition tevent (l : list event) (w w' : world) : Prop :=
  forall f, f ∈ Fs -> replay f (fdata w (f_main f)) l (fdata w' (f_main f)).

Lemma tevent_nil w : tevent [] w w.
Proof. done. Qed.

Lemma tevent_app l l' w w' w'' : tevent l w w' -> tevent l' w' w'' -> tevent (l ++ l') w w''.
Proof. intros H1 H2 f Hf. eapply replay_app; [by apply H1 | by apply H2]. Qed.

Definition thread_protocol : Protocol event := {|
  p_inv := tinv; p_rel := trel; p_event := tevent;
  p_rel_refl := trel_refl; p_rel_trans := trel_trans; p_rel_mono := trel_mono; p_inv_less := tinv_less;
  p_event_nil := tevent_nil; p_event_app := tevent_app
|}.

(** ** Files apart *)

Lemma inodes_unique f g i : f ∈ Fs -> g ∈ Fs -> i ∈ f_inodes f -> i ∈ f_inodes g -> f = g.
Proof.
  intros Hf Hg Hi Hj. pose proof (fa_nodup Hfs) as Hn. clear Hfs. induction Fs as [| x l IH]; [by apply not_elem_of_nil in Hf |].
  rewrite bind_cons in Hn. apply NoDup_app in Hn as (_ & Hd & Hn).
  apply elem_of_cons in Hf as [-> | Hf], Hg as [-> | Hg]; [done | | | by apply IH].
  - destruct (Hd i Hi). apply list_elem_of_bind. eauto.
  - destruct (Hd i Hj). apply list_elem_of_bind. eauto.
Qed.

Lemma inodes_distinct f : f ∈ Fs -> f_main f <> f_map f /\ f_main f <> f_dat f /\ f_map f <> f_dat f.
Proof.
  intros Hf. pose proof (fa_nodup Hfs) as Hn. clear Hfs. induction Fs as [| x l IH]; [by apply not_elem_of_nil in Hf |].
  rewrite bind_cons in Hn. apply NoDup_app in Hn as (Hx & _ & Hn).
  apply elem_of_cons in Hf as [-> | Hf]; [| by apply IH]. unfold f_inodes in Hx.
  clear IH.
  apply NoDup_cons in Hx as [H1 [H2 _]%NoDup_cons].
  apply not_elem_of_cons in H1 as [? [? _]%not_elem_of_cons], H2 as [? _]. done.
Qed.
End Protocol.
