(* ===== verification/ThreadSteps.v ===== *)
(** The steps of the threads keep the protocol of [ThreadProtocol]: one lemma per
    system call and per access to shared memory, each with what the thread
    knows afterwards. *)

From S2P Require Import Prelude Posix PosixSpec Types Mflock Block CopyOnWrite BlockWrite BlockRead.
From S2P Require Import Mfd FuseFd SnapshotIsolation MflockConc Threads ThreadCode ThreadProtocol.

Section Steps.
Context (Fs : list finfo) (writers : gmap Z (finfo * bool)) (readers : gmap Z (finfo * option (list Z))) (fl : Prop).
Context (Hfs : files_apart Fs).

#[local] Instance the_protocol : Protocol event := thread_protocol Fs writers readers fl.
Abbreviation inv := (tinv Fs writers readers fl).
Abbreviation rel := (trel Fs).

(** ** Moving the invariant *)

Lemma writer_ok_cache im ip id old w map app m c :
  writer_ok im ip id old w map app m -> cache_ok (set_cache c m) map -> writer_ok im ip id old w map app (set_cache c m).
Proof. intros [] Hc. by split. Qed.

Lemma same_mfd_cache_eq m m' : same_mfd m m' -> exists c, m' = set_cache c m.
Proof. intros H. exists (latest_written_block_cache m'). destruct m, m'. unfold same_mfd in H. cbn in *. by simplify_eq. Qed.

Lemma treader_ok_move w w' f target m c :
  frame (touched Fs) (w_os w) (w_os w') -> fs_stable (w_fs w) (w_fs w') ->
  treader_ok Fs w f target m -> treader_ok Fs w' f target (set_cache c m).
Proof.
  intros Hf Hs [Hfull Hnum (views & ? & ? & ? & ? & Hv) Hm Hl ? ? ?]. split; try done.
  - cbn. by rewrite (fs_stable_number _ _ Hs).
  - exists views. split_and!; try done. intros k step v v' ? ? ?. eapply step_ok_frame; [done |]. by eapply Hv.
  - intros step Hst. destruct (Hm step Hst) as (acc & app & ? & ?). exists acc, app. split; [by eapply open_on_frame | done].
  - intros step Hst. destruct (Hl step Hst) as (? & (acc & ? & ?) & (acc' & app & ? & ?)). split_and!; [done | |].
    + exists acc. split; [by eapply open_on_frame | done].
    + exists acc', app. split; [by eapply open_on_frame | done].
Qed.

Lemma handle_ok_move w w' f view m c :
  frame (touched Fs) (w_os w) (w_os w') -> fs_stable (w_fs w) (w_fs w') ->
  handle_ok Fs w f view m -> handle_ok Fs w' f view (set_cache c m).
Proof.
  intros Hf Hs. destruct view as [target |]; [by apply treader_ok_move |].
  intros (Hm & acc & app & Ho & Ha). split; [done |]. exists acc, app. split; [by eapply open_on_frame | done].
Qed.

(** The invariant after a step, once the files are known to be in order. *)
Lemma tinv_move n w w' :
  inv (S n) w -> rel (fun _ => False) (fun _ => False) w w' ->
  (forall f, f ∈ Fs -> file_ok n w' f) -> buffer_ok w' ->
  (forall fh f app m, writers !! fh = Some (f, app) -> w_mfds w' !! fh = Some m -> cache_ok m (fdata w' (f_map f))) ->
  inv n w'.
Proof.
  intros Hi Hr Hf Hb Hc. pose proof (re_frame _ _ _ _ _ Hr) as Hfr. split; [done | done | | | |].
  - apply (fr_atomic _ _ _ Hfr), (ti_atomic _ _ _ _ _ _ Hi).
  - intros H%(fr_faulty _ _ _ Hfr). by apply (ti_faulty _ _ _ _ _ _ Hi).
  - intros fh f app Hw. destruct (ti_writers _ _ _ _ _ _ Hi fh f app Hw) as (Hin & m & Hm & Hok & Hl).
    destruct (re_mfds _ _ _ _ _ Hr _ _ Hm) as (m' & Hm' & [c ->]%same_mfd_cache_eq). split; [done |].
    eexists. split_and!; [done | | done]. apply writer_ok_cache; [| by eapply Hc].
    eapply writer_ok_move; [done | apply (re_fs _ _ _ _ _ Hr) | | done]. intros b. by apply (re_saved _ _ _ _ _ Hr).
  - intros fh f view Hw. destruct (ti_readers _ _ _ _ _ _ Hi fh f view Hw) as (Hin & m & Hm & Hok).
    destruct (re_mfds _ _ _ _ _ Hr _ _ Hm) as (m' & Hm' & [c ->]%same_mfd_cache_eq). split; [done |].
    eexists. split; [done |]. by eapply handle_ok_move; [| apply (re_fs _ _ _ _ _ Hr) |].
Qed.

(** The caches, when no handle changes. *)
Lemma caches_same n w w' :
  inv n w -> rel (fun _ => False) (fun _ => False) w w' -> w_mfds w' = w_mfds w ->
  forall fh f app m, writers !! fh = Some (f, app) -> w_mfds w' !! fh = Some m -> cache_ok m (fdata w' (f_map f)).
Proof.
  intros Hi Hr Hm fh f app m Hw Hl. rewrite Hm in Hl.
  destruct (ti_writers _ _ _ _ _ _ Hi fh f app Hw) as (Hin & m' & Hm' & Hok & _). simplify_eq.
  eapply cache_ok_mono; [| apply (wo_cache _ _ _ _ _ _ _ _ Hok)]. intros b. by apply (re_saved _ _ _ _ _ Hr).
Qed.

Lemma file_ok_frame n (T : nat -> Prop) w w' f :
  frame T (w_os w) (w_os w') -> (forall i, i ∈ f_inodes f -> ~ T i) -> file_ok (S n) w f -> file_ok n w' f.
Proof.
  intros Hf HT H%file_ok_less. destruct H.
  assert (E : forall i, i ∈ f_inodes f -> fdata w' i = fdata w i) by (intros; eapply fdata_frame; [done | by apply HT]).
  pose proof (E _ (in_main f)) as E1. pose proof (E _ (in_map f)) as E2. pose proof (E _ (in_dat f)) as E3.
  split; try (by eapply regular_frame_meta); by rewrite ?E1, ?E2, ?E3.
Qed.

(** ** Steps that change no file *)

Definition still (w w' : world) : Prop :=
  frame (fun _ => False) (w_os w) (w_os w') /\ w_fs w' = w_fs w /\ w_mfds w' = w_mfds w.

Lemma frame_touched w w' : frame (fun _ => False) (w_os w) (w_os w') -> frame (touched Fs) (w_os w) (w_os w').
Proof. by apply frame_weaken. Qed.

Lemma still_rel lab ent w w' : still w w' -> rel lab ent w w'.
Proof.
  intros (Hf & Hs & Hm). assert (E : forall i, fdata w' i = fdata w i) by (intros; by apply (fdata_frame (fun _ => False)); [| tauto]).
  split.
  - by apply frame_touched.
  - by rewrite Hs.
  - intros fh m Hl. exists m. by rewrite Hm.
  - intros f b _ _. by rewrite E.
  - intros f _. exists []. by rewrite E, app_nil_r.
  - intros f _ _. by rewrite !E.
  - intros _. by rewrite Hs.
Qed.

Lemma still_inv n w w' : inv (S n) w -> still w w' -> inv n w'.
Proof.
  intros Hi Hs. pose proof (still_rel (fun _ => False) (fun _ => False) _ _ Hs) as Hr. destruct Hs as (Hf & Hfs' & Hm).
  apply (tinv_move n w); [done | done | | | by eapply caches_same].
  - intros f Hin. apply (file_ok_frame n (fun _ => False) w); [done | tauto |]. by apply (ti_files _ _ _ _ _ _ Hi).
  - destruct (ti_buffer _ _ _ _ _ _ Hi) as (m & ? & ?). exists m. by rewrite Hfs'.
Qed.

Lemma still_event w w' : still w w' -> tevent Fs writers readers [] w w'.
Proof. intros (Hf & _) f _. by apply (fdata_frame (fun _ => False)); [| tauto]. Qed.

Lemma wp_still {A B} h (m : M A) (k : A -> prog B) Q w :
  (forall n w1, rely h w w1 -> inv (S n) w1 ->
     exists a w2, m w1 = Some (a, w2) /\ still w1 w2 /\ (inv n w2 -> rely h w w2 -> wp h (k a) Q w2)) ->
  wp h (act m ≫= k) Q w.
Proof.
  intros H. apply wp_act. intros n w1 Hr Hi. destruct (H n w1 Hr Hi) as (a & w2 & E & Hs & Hk).
  exists a, w2. pose proof (still_inv _ _ _ Hi Hs) as Hi2. split_and!; [done | done | by apply still_rel | by apply still_event |].
  apply Hk; [done |]. etransitivity; [done | by apply still_rel].
Qed.

Lemma still_os w s : frame (fun _ => False) (w_os w) s -> still w (set_os s w).
Proof. done. Qed.

Lemma inv_fd_file n w fd i acc app c :
  open_on (w_os w) fd i acc app -> regular (w_os w) i c -> inv n w -> fd_file (w_os w) fd i c acc app /\ atomic (w_os w).
Proof. intros. split; [by apply fd_file_split | by eapply ti_atomic]. Qed.

(** Reading a pointer of the map file. *)
Lemma wp_read_pointer {B} h (k : res Z -> prog B) Q w f fd acc b :
  f ∈ Fs -> in_old (f_old f) b -> open_on (w_os w) fd (f_map f) acc false -> acc <> O_WRONLY ->
  (forall n w2, inv n w2 -> rely h w w2 -> wp h (k (Ok (ptr_at (fdata w2 (f_map f)) b))) Q w2) ->
  (forall e w2, 0 < e -> fl -> rely h w w2 -> wp h (k (Err e)) Q w2) ->
  wp h (act (read_pointer fd (map_offset b)) ≫= k) Q w.
Proof.
  intros Hf Hin Ho Hacc Hok Herr. apply wp_still. intros n w1 Hr Hi.
  pose proof (ti_files _ _ _ _ _ _ Hi f Hf) as F. pose proof (fa_old _ Hfs f Hf) as Hold.
  pose proof (open_on_frame _ _ _ _ _ _ _ (re_frame _ _ _ _ _ Hr) Ho) as Ho1.
  destruct (read_pointer_spec w1 fd (f_map f) (fdata w1 (f_map f)) acc b) as (r & E & Hrr);
    [by eapply ti_atomic | by apply fd_file_split; split; [| apply (fo_map _ _ _ F)] | done
    | apply (in_old_bound (f_old f)); [done | lia] | apply (cow_map_align _ _ _ _ (fo_cow _ _ _ F))
    | apply (cow_map_len _ _ _ _ (fo_cow _ _ _ F)) |].
  exists r, (set_os (adv (w_os w1)) w1). split_and!; [done | apply still_os, frame_adv |]. intros Hi2 Hr2.
  destruct Hrr as [-> | (e & -> & He & Hfl)].
  - apply (Hok n (set_os (adv (w_os w1)) w1)); done.
  - apply Herr; [done | by apply (ti_faulty _ _ _ _ _ _ Hi) | done].
Qed.

(** ** The handle of a writer *)

(** The handle at [fh] is [m], up to the cached block number. *)
Definition knows (fh : Z) (m : mfd_t) (w : world) : Prop := exists c, w_mfds w !! fh = Some (set_cache c m).

Lemma knows_rel lab ent fh m w w' : rel lab ent w w' -> knows fh m w -> knows fh m w'.
Proof.
  intros Hr [c Hc]. destruct (re_mfds _ _ _ _ _ Hr _ _ Hc) as (m' & Hm' & [c' ->]%same_mfd_cache_eq). by exists c'.
Qed.

Lemma knows_self fh m w : w_mfds w !! fh = Some m -> knows fh m w.
Proof. intros H. exists (latest_written_block_cache m). rewrite H. by destruct m. Qed.

Section Writer.
Context (fh : Z) (f : finfo) (app : bool) (Hw : writers !! fh = Some (f, app)) (m : mfd_t).

Lemma writer_at n w : inv n w -> knows fh m w ->
  f ∈ Fs /\ locklabel m = f_label f /\ exists c, w_mfds w !! fh = Some (set_cache c m) /\
    writer_ok (f_main f) (f_map f) (f_dat f) (f_old f) w (fdata w (f_map f)) app (set_cache c m).
Proof.
  intros Hi [c Hc]. destruct (ti_writers _ _ _ _ _ _ Hi fh f app Hw) as (Hin & m' & Hm' & Hok & Hl).
  simplify_eq. eauto.
Qed.

Lemma wp_load_cache {B} h (k : Z -> prog B) Q w :
  knows fh m w ->
  (forall n c w2, inv n w2 -> rely h w w2 ->
     (forall b, 0 <= b -> c = b + 1 -> saved (fdata w2 (f_map f)) b) -> wp h (k c) Q w2) ->
  wp h (act (load_cache fh) ≫= k) Q w.
Proof.
  intros Hk H. apply wp_look. intros n w1 Hr Hi. pose proof (knows_rel _ _ _ _ _ _ Hr Hk) as Hk1.
  destruct (writer_at _ _ Hi Hk1) as (Hin & Hl & c & Hc & Hok). exists c. split.
  - unfold load_cache, get_mfd, mbind, ST_bind. by rewrite Hc.
  - apply (H (S n)); [done | done |]. intros b Hb Ec. by apply (wo_cache _ _ _ _ _ _ _ _ Hok).
Qed.

(** Storing the number of a block that is saved. *)
Lemma wp_store_cache {B} h (k : unit -> prog B) Q w b :
  knows fh m w -> f ∈ Fs -> 0 <= b -> saved (fdata w (f_map f)) b ->
  (forall w2, rely h w w2 -> wp h (k tt) Q w2) ->
  wp h (act (store_cache fh (b + 1)) ≫= k) Q w.
Proof.
  intros Hk Hin Hb Hs H. apply wp_act. intros n w1 Hr Hi. pose proof (knows_rel _ _ _ _ _ _ Hr Hk) as Hk1.
  destruct (writer_at _ _ Hi Hk1) as (_ & Hl & c & Hc & Hok).
  pose proof (re_saved _ _ _ _ _ Hr f b Hin Hb Hs) as Hs1.
  set (w2 := set_mfds (<[fh := set_cache (b + 1) m]> (w_mfds w1)) w1).
  assert (Hrel : forall lab ent, rel lab ent w1 w2).
  { intros lab ent. pose proof (trel_refl Fs lab ent w1) as []. split; try done. intros fh' m' Hm'.
    destruct (decide (fh' = fh)) as [-> | Hne]; cbn.
    - exists (set_cache (b + 1) m). rewrite lookup_insert_eq. split; [done |]. by simplify_eq.
    - exists m'. by rewrite lookup_insert_ne. }
  exists tt, w2. split_and!.
  - unfold store_cache, get_mfd, put_mfd, mbind, ST_bind. by rewrite Hc.
  - apply (tinv_move n w1); [done | done | | apply (ti_buffer _ _ _ _ _ _ Hi) |].
    + intros g Hg. apply (file_ok_frame n (fun _ => False) w1); [apply frame_refl | tauto |].
      apply (ti_files _ _ _ _ _ _ Hi g Hg).
    + intros fh' g app' m' Hw' Hm'. destruct (decide (fh' = fh)) as [-> | Hne]; cbn in Hm'.
      * rewrite lookup_insert_eq in Hm'. simplify_eq. intros b' Hb' Ec. cbn in Ec. by assert (b' = b) as -> by lia.
      * rewrite lookup_insert_ne in Hm' by done. 
        exact (caches_same (S n) w1 w1 Hi (trel_refl _ _ _ _) eq_refl fh' g app' m' Hw' Hm').
  - apply Hrel.
  - done.
  - apply H. etransitivity; [done | apply Hrel].
Qed.
End Writer.

(** ** Steps that change one inode of a file *)

Lemma step_file n w w' f j lab ent :
  inv (S n) w -> f ∈ Fs -> j ∈ f_inodes f -> frame (fun i => i = j) (w_os w) (w_os w') ->
  w_fs w' = w_fs w -> w_mfds w' = w_mfds w -> file_ok n w' f ->
  (forall b, 0 <= b -> saved (fdata w (f_map f)) b -> saved (fdata w' (f_map f)) b) ->
  (exists ext, fdata w' (f_dat f) = fdata w (f_dat f) ++ ext) ->
  (lab (f_label f) -> fdata w' (f_map f) = fdata w (f_map f) /\ fdata w' (f_dat f) = fdata w (f_dat f)) ->
  inv n w' /\ rel lab ent w w'.
Proof.
  intros Hi Hf Hj Hfr Efs Emf Hok Hs Hd Hl.
  assert (Hother : forall g i, g ∈ Fs -> g <> f -> i ∈ f_inodes g -> i <> j).
  { intros g i Hg Hne Hi' ->. apply Hne. by eapply (inodes_unique Fs). }
  assert (E : forall g i, g ∈ Fs -> g <> f -> i ∈ f_inodes g -> fdata w' i = fdata w i).
  { intros g i Hg Hne Hi'. eapply fdata_frame; [done |]. by eapply Hother. }
  assert (Hrel : forall lab', (lab' (f_label f) -> fdata w' (f_map f) = fdata w (f_map f) /\ fdata w' (f_dat f) = fdata w (f_dat f)) ->
     rel lab' ent w w').
  { intros lab' Hl'. split.
    - eapply frame_weaken; [| done]. intros i ->. by exists f.
    - by rewrite Efs.
    - intros fh m Hm. exists m. by rewrite Emf.
    - intros g b Hg Hb. destruct (decide (g = f)) as [-> | Hgf]; [by apply Hs |].
      by rewrite (E g) by (done || apply in_map).
    - intros g Hg. destruct (decide (g = f)) as [-> | Hgf]; [done |].
      exists []. rewrite app_nil_r. apply (E g); [done | done | apply in_dat].
    - intros g Hg Hlg. destruct (decide (g = f)) as [-> | Hgf]; [by apply Hl' |].
      split; apply (E g); (done || apply in_map || apply in_dat).
    - by rewrite Efs. }
  split; [| by apply Hrel].
  assert (Hr0 : rel (fun _ => False) (fun _ => False) w w').
  { apply (trel_mono Fs (fun _ => False) _ ent); [done | done |]. by apply Hrel. }
  apply (tinv_move n w); [done | done | | | by eapply caches_same].
  - intros g Hg. destruct (decide (g = f)) as [-> | Hgf]; [done |].
    eapply file_ok_frame; [done | | by apply (ti_files _ _ _ _ _ _ Hi)]. intros i Hi' ->. by eapply Hother.
  - destruct (ti_buffer _ _ _ _ _ _ Hi) as (mm & ? & ?). exists mm. by rewrite Efs.
Qed.

(** ** What a lock protects *)

Lemma rely_label h w w' f : f ∈ Fs -> has_label h (f_label f) -> rely h w w' ->
  fdata w' (f_map f) = fdata w (f_map f) /\ fdata w' (f_dat f) = fdata w (f_dat f).
Proof. intros Hf Hl Hr. by apply (re_label _ _ _ _ _ Hr). Qed.

Lemma rely_open h w w' fd i acc app : rely h w w' -> open_on (w_os w) fd i acc app -> open_on (w_os w') fd i acc app.
Proof. intros Hr. apply (open_on_frame _ _ _ _ _ _ _ (re_frame _ _ _ _ _ Hr)). Qed.

(** The buffer [b] belongs to the thread: its own memory, or the one of [fsdata] with entry 0. *)
Definition buf_mine (h : held) (b : bufref) : Prop :=
  match b with BufNull => False | BufGlobal => has_entry h 0 | BufHeap m => zlen m = BL_S end.

(** The buffer holds [mem]. *)
Definition buf_is (b : bufref) (w : world) (mem : list Z) : Prop := buf_get b w = Some (mem, w).

Lemma buf_is_iff b w mem : buf_is b w mem <->
  match b with BufNull => False | BufGlobal => block_buffer (w_fs w) = Some mem | BufHeap m => m = mem end.
Proof.
  unfold buf_is. destruct b as [| | m]; cbn; [done | |].
  - unfold mbind, ST_bind. cbn. destruct (block_buffer (w_fs w)); [| done]. split; by intros [= ->].
  - split; [by intros [= ->] | by intros ->].
Qed.

Lemma buf_is_rely h b w w' mem : buf_mine h b -> rely h w w' -> buf_is b w mem -> buf_is b w' mem.
Proof.
  intros Hm Hr. rewrite !buf_is_iff. destruct b; try done. cbn in Hm.
  by rewrite (re_buffer _ _ _ _ _ Hr Hm).
Qed.

(** ** The dat file *)

Lemma wp_lseek {B} h (k : res Z -> prog B) Q w f fd :
  f ∈ Fs -> has_label h (f_label f) -> open_on (w_os w) fd (f_dat f) O_WRONLY true ->
  (forall n w2, inv n w2 -> rely h w w2 -> wp h (k (Ok (zlen (fdata w (f_dat f))))) Q w2) ->
  (forall e w2, 0 < e -> fl -> rely h w w2 -> wp h (k (Err e)) Q w2) ->
  wp h (act (sys (sys_lseek_end fd)) ≫= k) Q w.
Proof.
  intros Hf Hl Ho Hok Herr. apply wp_still. intros n w1 Hr Hi.
  pose proof (ti_files _ _ _ _ _ _ Hi f Hf) as F.
  destruct (inv_fd_file _ _ _ _ _ _ _ (rely_open _ _ _ _ _ _ _ Hr Ho) (fo_dat _ _ _ F) Hi) as [Hfd Ha].
  destruct (sys_lseek_end_spec _ Ha _ _ _ _ _ Hfd) as [E | (e & He & Hfl & E)].
  - eexists _, _. split_and!; [by apply sys_run | apply still_os; etransitivity; [apply frame_adv | apply frame_set_pos] |].
    intros Hi2 Hr2. pose proof (Hok n _ Hi2 Hr2) as H. by rewrite <-(proj2 (rely_label _ _ _ _ Hf Hl Hr)) in H at 1.
  - eexists _, _. split_and!; [by apply sys_run | apply still_os, frame_adv |].
    intros Hi2 Hr2. apply Herr; [done | by apply (ti_faulty _ _ _ _ _ _ Hi) | done].
Qed.

(** How a call that changes the inode [j] of the file [f] ends well. *)
Record changes {A} (n : nat) (w1 : world) (h : held) (f : finfo) (j : nat) (m : M (res A)) (a : A) (s2 : os) : Prop := {
  ch_run : m w1 = Some (Ok a, set_os s2 w1);
  ch_inode : j ∈ f_inodes f;
  ch_frame : frame (fun i => i = j) (w_os w1) s2;
  ch_file : file_ok n (set_os s2 w1) f;
  ch_saved b : 0 <= b -> saved (fdata w1 (f_map f)) b -> saved (fdata (set_os s2 w1) (f_map f)) b;
  ch_dat : exists ext, fdata (set_os s2 w1) (f_dat f) = fdata w1 (f_dat f) ++ ext;
  ch_label : ~ has_label h (f_label f) ->
    fdata (set_os s2 w1) (f_map f) = fdata w1 (f_map f) /\ fdata (set_os s2 w1) (f_dat f) = fdata w1 (f_dat f)
}.

(** The invariant afterwards, and what the others see. *)
Lemma change_step {A} n w1 h f j (m : M (res A)) a s2 :
  f ∈ Fs -> inv (S n) w1 -> changes n w1 h f j m a s2 ->
  inv n (set_os s2 w1) /\ guar h w1 (set_os s2 w1) /\
  forall g, g ∈ Fs -> g <> f -> fdata (set_os s2 w1) (f_main g) = fdata w1 (f_main g).
Proof.
  intros Hf Hi [E Hj Hfr Hok Hs Hd Hl].
  destruct (step_file n w1 (set_os s2 w1) f j (fun L => ~ has_label h L) (fun i => ~ has_entry h i)) as [Hi2 Hg]; try done.
  split_and!; [done | done |]. intros g Hg' Hne. eapply fdata_frame; [exact Hfr |]. intros Ej. apply Hne.
  eapply (inodes_unique Fs); [done | done | done | apply in_main | by rewrite Ej].
Qed.

(** A call that failed. *)
Lemma failed_step n w1 : inv (S n) w1 ->
  let w2 := set_os (adv (w_os w1)) w1 in inv n w2 /\ (forall lab ent, rel lab ent w1 w2) /\ tevent Fs writers readers [] w1 w2.
Proof.
  intros Hi w2. assert (Hst : still w1 w2) by apply still_os, frame_adv.
  split_and!; [by eapply still_inv | intros; by apply still_rel | by apply still_event].
Qed.

Lemma wp_change {A B} h (m : M (res A)) (k : res A -> prog B) Q w f j :
  f ∈ Fs ->
  (forall n w1, rely h w w1 -> inv (S n) w1 ->
     (exists a s2, changes n w1 h f j m a s2 /\ fdata (set_os s2 w1) (f_main f) = fdata w1 (f_main f) /\
        (inv n (set_os s2 w1) -> rely None w (set_os s2 w1) -> wp h (k (Ok a)) Q (set_os s2 w1))) \/
     (exists e, 0 < e /\ faulty (w_os w1) /\ m w1 = Some (Err e, set_os (adv (w_os w1)) w1))) ->
  (forall e w2, 0 < e -> fl -> rely h w w2 -> wp h (k (Err e)) Q w2) ->
  wp h (act m ≫= k) Q w.
Proof.
  intros Hf H Herr. apply wp_act. intros n w1 Hr Hi.
  destruct (H n w1 Hr Hi) as [(a & s2 & Hch & Hm & Hk) | (e & He & Hfl & E)].
  - destruct (change_step _ _ _ _ _ _ _ _ Hf Hi Hch) as (Hi2 & Hg & Ho).
    exists (Ok a), (set_os s2 w1). split_and!; [apply Hch | done | done | |].
    + intros g Hg'. destruct (decide (g = f)) as [-> | Hne]; [done | by apply Ho].
    + apply Hk; [done |]. etransitivity; [by eapply rely_weaken | by eapply guar_rely].
  - destruct (failed_step n w1 Hi) as (Hi2 & Hrel & Hev). eexists _, _. split_and!; [done | done | apply Hrel | done |].
    apply Herr; [done | by apply (ti_faulty _ _ _ _ _ _ Hi) |]. etransitivity; [done | apply Hrel].
Qed.

(** New contents for one inode of a file, as [sys_pwrite] and the others leave them. *)
Lemma fdata_set w j d s2 :
  os_inodes s2 = os_inodes (set_data j d (adv (w_os w))) -> regular (w_os w) j (fdata w j) -> fdata (set_os s2 w) j = d.
Proof. intros E (m & Em & _). unfold fdata at 1. cbn. rewrite E. cbn. by rewrite lookup_alter_eq, Em. Qed.

(** Appending the block in the buffer. *)
Lemma wp_write_dat {B} h (k : res Z -> prog B) Q w f fd b mem :
  f ∈ Fs -> has_label h (f_label f) -> open_on (w_os w) fd (f_dat f) O_WRONLY true ->
  buf_mine h b -> buf_is b w mem -> zlen mem = BL_S ->
  (forall n w2, inv n w2 -> rely None w w2 -> fdata w2 (f_dat f) = fdata w (f_dat f) ++ mem ->
     fdata w2 (f_map f) = fdata w (f_map f) -> wp h (k (Ok BL_S)) Q w2) ->
  (forall e w2, 0 < e -> fl -> rely h w w2 -> wp h (k (Err e)) Q w2) ->
  wp h (act (write_from fd b) ≫= k) Q w.
Proof.
  intros Hf Hl Ho Hb Hm Hlen Hok. apply (wp_change _ _ _ _ _ f (f_dat f) Hf). intros n w1 Hr Hi.
  pose proof (ti_files _ _ _ _ _ _ Hi f Hf) as F. destruct (rely_label _ _ _ _ Hf Hl Hr) as [Emap Edat].
  destruct (inv_fd_file _ _ _ _ _ _ _ (rely_open _ _ _ _ _ _ _ Hr Ho) (fo_dat _ _ _ F) Hi) as [Hfd Ha].
  assert (Ew : write_from fd b w1 = sys (sys_write fd mem) w1).
  { unfold write_from. rewrite (st_bind_run _ _ _ _ _ (buf_is_rely _ _ _ _ _ Hb Hr Hm)).
    unfold ztake. rewrite take_ge; [done | unfold zlen in Hlen; lia]. }
  destruct (sys_write_spec _ Ha _ _ _ _ _ Hfd mem) as [E | (e & He & Hfl & E)]; [done | done | |].
  2: { right. exists e. by rewrite Ew, (sys_run _ _ _ _ E). }
  left. rewrite file_write_end, Hlen in E. set (s2 := set_pos fd _ _) in E.
  assert (Hfr : frame (fun i => i = f_dat f) (w_os w1) s2).
  { unfold s2. etransitivity; [apply frame_adv |]. etransitivity; [by apply frame_set_data | apply frame_set_pos]. }
  destruct (inodes_distinct _ Hfs f Hf) as (Hd1 & Hd2 & Hd3).
  assert (E1 : fdata (set_os s2 w1) (f_main f) = fdata w1 (f_main f)) by (eapply fdata_frame; [exact Hfr | congruence]).
  assert (E2 : fdata (set_os s2 w1) (f_map f) = fdata w1 (f_map f)) by (eapply fdata_frame; [exact Hfr | congruence]).
  assert (E3 : fdata (set_os s2 w1) (f_dat f) = fdata w1 (f_dat f) ++ mem) by (by apply fdata_set; [| apply F]).
  exists BL_S, s2. split_and!; [| done |].
  - split; [by rewrite Ew, (sys_run _ _ _ _ E) | apply in_dat | done | | by rewrite E2 | eauto | done].
    destruct F as [Fm Fp Fd Fc Fal Froom].
    split; try (by eapply regular_frame_meta; [exact Hfr |]); rewrite ?E1, ?E2, ?E3, ?zlen_app, ?Hlen.
    + by apply cow_dat_app.
    + by rewrite Zplus_mod, Fal, Z_mod_same_full.
    + lia.
  - intros Hi2 Hr2. apply (Hok n); [done | done | by rewrite E3, Edat | by rewrite E2, Emap].
Qed.

(** ** The map file *)

(** Storing the number of a block of the dat file that holds the old block. *)
Lemma wp_write_map {B} h (k : res Z -> prog B) Q w f fd b p :
  f ∈ Fs -> has_label h (f_label f) -> open_on (w_os w) fd (f_map f) O_RDWR false -> in_old (f_old f) b ->
  0 < p < 2 ^ 63 -> p * BL_S <= zlen (fdata w (f_dat f)) -> holds_block (f_old f) b (fdata w (f_dat f)) (p - 1) ->
  (forall n w2, inv n w2 -> rely None w w2 -> saved (fdata w2 (f_map f)) b -> wp h (k (Ok BLP_S)) Q w2) ->
  (forall e w2, 0 < e -> fl -> rely h w w2 -> wp h (k (Err e)) Q w2) ->
  wp h (act (sys (sys_pwrite fd (le_bytes 8 p) (map_offset b))) ≫= k) Q w.
Proof.
  intros Hf Hl Ho Hin Hp Hplen Hh Hok. apply (wp_change _ _ _ _ _ f (f_map f) Hf). intros n w1 Hr Hi.
  pose proof (ti_files _ _ _ _ _ _ Hi f Hf) as F. destruct (rely_label _ _ _ _ Hf Hl Hr) as [Emap Edat].
  destruct (inv_fd_file _ _ _ _ _ _ _ (rely_open _ _ _ _ _ _ _ Hr Ho) (fo_map _ _ _ F) Hi) as [Hfd Ha].
  assert (Hb : 0 <= b < 2 ^ 45) by (apply (in_old_bound (f_old f)); [done | pose proof (fa_old _ Hfs f Hf); lia]).
  rewrite (map_offset_ptr b Hb).
  destruct (sys_pwrite_spec _ Ha _ _ _ _ _ Hfd (le_bytes 8 p) (ptr_off b)) as [E | (e & He & Hfl & E)];
    [done | unfold ptr_off, MAPHEADER_S, BLP_S; lia | |].
  2: { right. exists e. by rewrite (sys_run _ _ _ _ E). }
  left. cbv iota in E. rewrite zlen_le_bytes in E. set (s2 := set_data _ _ _) in E.
  assert (Hfr : frame (fun i => i = f_map f) (w_os w1) s2).
  { unfold s2. etransitivity; [apply frame_adv | by apply frame_set_data]. }
  destruct (inodes_distinct _ Hfs f Hf) as (Hd1 & Hd2 & Hd3).
  assert (E1 : fdata (set_os s2 w1) (f_main f) = fdata w1 (f_main f)) by (eapply fdata_frame; [exact Hfr | congruence]).
  assert (E2 : fdata (set_os s2 w1) (f_map f) = file_write (fdata w1 (f_map f)) (le_bytes 8 p) (ptr_off b))
    by (by apply fdata_set; [| apply F]).
  assert (E3 : fdata (set_os s2 w1) (f_dat f) = fdata w1 (f_dat f)) by (eapply fdata_frame; [exact Hfr | congruence]).
  assert (Hsv : saved (fdata (set_os s2 w1) (f_map f)) b) by (unfold saved; rewrite E2, ptr_at_store; lia).
  exists BLP_S, s2. split_and!; [| done | intros Hi2 Hr2; by apply (Hok n)].
  split; [by rewrite (sys_run _ _ _ _ E) | apply in_map | done | | | exists []; by rewrite E3, app_nil_r | done].
  - apply file_ok_less in F. destruct F as [Fm Fp Fd Fc Fal Froom].
    split; try (by eapply regular_frame_meta; [exact Hfr |]); rewrite ?E1, ?E2, ?E3; [| done | done].
    apply cow_set_ptr; [done | lia | done | by rewrite Edat | by rewrite Edat].
  - intros b' Hb' Hs. destruct (decide (b' = b)) as [-> | Hne]; [done |].
    unfold saved. rewrite E2, ptr_at_store_ne by (done || lia). done.
Qed.

(** ** The main file *)

Lemma range_saved_rel lab ent w w' f off size :
  f ∈ Fs -> rel lab ent w w' -> range_saved (f_old f) (fdata w (f_map f)) off size ->
  range_saved (f_old f) (fdata w' (f_map f)) off size.
Proof.
  intros Hf Hr Hs Hn Ho b Hin H1 H2. apply (re_saved _ _ _ _ _ Hr f b Hf); [by destruct Hin |]. by apply Hs.
Qed.

(** A call of the thread that gives the main file new contents, which the
    snapshot does not need: the request has its effect here. *)
Lemma ewp_change_main {A B} R l h (call : os -> res A * os) (a : A) (k : res A -> prog B) Q w f o out :
  f ∈ Fs -> (forall g main, g <> f -> effect writers g main o = main) -> (forall g main, shows readers g main (o, out)) ->
  R (l ++ [(o, out)]) ->
  (forall n w1, rely h w w1 -> inv (S n) w1 ->
     (let d := effect writers f (fdata w1 (f_main f)) o in
      call (w_os w1) = (Ok a, set_data (f_main f) d (adv (w_os w1))) /\
      cow (f_old f) d (fdata w1 (f_map f)) (fdata w1 (f_dat f))) \/
     (exists e, 0 < e /\ faulty (w_os w1) /\ call (w_os w1) = (Err e, adv (w_os w1)))) ->
  (forall w2, ewp R h (l ++ [(o, out)]) (k (Ok a)) Q w2) ->
  (forall e w2, 0 < e -> fl -> ewp R h l (k (Err e)) Q w2) ->
  ewp R h l (act (sys call) ≫= k) Q w.
Proof.
  intros Hf Hother Hsh HR H Hok Herr. apply ewp_act. intros n w1 Hr Hi.
  pose proof (ti_files _ _ _ _ _ _ Hi f Hf) as F.
  destruct (H n w1 Hr Hi) as [[E Hc] | (e & He & Hfl & E)].
  2: { destruct (failed_step n w1 Hi) as (Hi2 & Hrel & Hev). eexists _, _, []. rewrite app_nil_r.
       split_and!; [by apply sys_run | done | apply Hrel | done | by left |]. apply Herr; [done | by apply (ti_faulty _ _ _ _ _ _ Hi)]. }
  set (d := effect _ _ _ _) in *. set (s2 := set_data _ _ _) in E.
  assert (Hfr : frame (fun i => i = f_main f) (w_os w1) s2).
  { unfold s2. etransitivity; [apply frame_adv | by apply frame_set_data]. }
  destruct (inodes_distinct _ Hfs f Hf) as (Hd1 & Hd2 & Hd3).
  assert (E1 : fdata (set_os s2 w1) (f_main f) = d) by (by apply fdata_set; [| apply F]).
  assert (E2 : fdata (set_os s2 w1) (f_map f) = fdata w1 (f_map f)) by (eapply fdata_frame; [exact Hfr | congruence]).
  assert (E3 : fdata (set_os s2 w1) (f_dat f) = fdata w1 (f_dat f)) by (eapply fdata_frame; [exact Hfr | congruence]).
  assert (Hch : changes n w1 h f (f_main f) (sys call) a s2).
  { split; [by apply sys_run | apply in_main | done | | by rewrite E2 | exists []; by rewrite E3, app_nil_r | by rewrite E2, E3].
    apply file_ok_less in F. destruct F as [Fm Fp Fd Fc Fal Froom].
    split; try (by eapply regular_frame_meta; [exact Hfr |]); by rewrite ?E1, ?E2, ?E3. }
  destruct (change_step _ _ _ _ _ _ _ _ Hf Hi Hch) as (Hi2 & Hg & Ho).
  eexists _, _, [(o, out)]. split_and!; [apply Hch | done | done | | by right | apply Hok].
  intros g Hg'. split; [apply Hsh |]. cbn. destruct (decide (g = f)) as [-> | Hne]; [done |]. by rewrite Hother, Ho.
Qed.

Section MainFile.
Context (fh : Z) (f : finfo) (app : bool) (Hw : writers !! fh = Some (f, app)).
Context {B : Type} (R : list event -> Prop) (l : list event) (h : held) (Q : held -> list event -> B -> world -> Prop) (w : world).
Context (Hf : f ∈ Fs) (fd acc : Z) (Ho : open_on (w_os w) fd (f_main f) acc app) (Hacc : acc <> O_RDONLY).

Lemma ewp_write_main (k : res Z -> prog B) buf off :
  0 <= off -> range_saved (f_old f) (fdata w (f_map f)) off (zlen buf) -> R (l ++ [(OWrite fh buf off, Ret (i32 (zlen buf)))]) ->
  (forall w2, ewp R h (l ++ [(OWrite fh buf off, Ret (i32 (zlen buf)))]) (k (Ok (zlen buf))) Q w2) ->
  (forall e w2, 0 < e -> fl -> ewp R h l (k (Err e)) Q w2) ->
  ewp R h l (act (sys (sys_pwrite fd buf off)) ≫= k) Q w.
Proof.
  intros Hoff Hs HR. apply (ewp_change_main _ _ _ _ _ _ _ _ f (OWrite fh buf off) (Ret (i32 (zlen buf))) Hf); [| done | done |].
  { intros g main Hne. cbn. rewrite Hw. by rewrite decide_False. }
  intros n w1 Hr Hi. pose proof (ti_files _ _ _ _ _ _ Hi f Hf) as F. cbn. rewrite Hw, decide_True by done.
  destruct (inv_fd_file _ _ _ _ _ _ _ (rely_open _ _ _ _ _ _ _ Hr Ho) (fo_main _ _ _ F) Hi) as [Hfd Ha].
  destruct (sys_pwrite_spec _ Ha _ _ _ _ _ Hfd buf off) as [E | ?]; [done | done | | by right].
  left. split; [done |]. destruct app.
  - apply cow_main_append, F.
  - apply cow_main_write; [apply F | done |]. by eapply range_saved_rel.
Qed.

Lemma ewp_truncate_main (k : res unit -> prog B) size :
  0 <= size -> range_saved (f_old f) (fdata w (f_map f)) size (zlen (f_old f) - size) -> R (l ++ [(OTruncate fh size, Ret 0)]) ->
  (forall w2, ewp R h (l ++ [(OTruncate fh size, Ret 0)]) (k (Ok tt)) Q w2) ->
  (forall e w2, 0 < e -> fl -> ewp R h l (k (Err e)) Q w2) ->
  ewp R h l (act (sys (sys_ftruncate fd size)) ≫= k) Q w.
Proof.
  intros Hoff Hs HR. apply (ewp_change_main _ _ _ _ _ _ _ _ f (OTruncate fh size) (Ret 0) Hf); [| done | done |].
  { intros g main Hne. cbn. rewrite Hw. by rewrite decide_False. }
  intros n w1 Hr Hi. pose proof (ti_files _ _ _ _ _ _ Hi f Hf) as F. cbn. rewrite Hw, decide_True by done.
  destruct (inv_fd_file _ _ _ _ _ _ _ (rely_open _ _ _ _ _ _ _ Hr Ho) (fo_main _ _ _ F) Hi) as [Hfd Ha].
  destruct (sys_ftruncate_spec _ Ha _ _ _ _ _ Hfd size) as [E | ?]; [done | done | | by right].
  left. split; [done |]. apply cow_main_resize; [apply F | done |]. by eapply range_saved_rel.
Qed.
End MainFile.

(** ** The buffer *)

(** The buffer holds the old block [b]. *)
Definition holds_old (f : finfo) (b : Z) (mem : list Z) : Prop :=
  zlen mem = BL_S /\ forall i, 0 <= i < BL_S -> b * BL_S + i < zlen (f_old f) -> zget mem i = zget (f_old f) (b * BL_S + i).

(** The block read from the main file, while its pointer is 0. *)
Lemma main_block_old n w f b d mem :
  file_ok n w f -> in_old (f_old f) b -> ptr_at (fdata w (f_map f)) b = 0 ->
  d = file_read (fdata w (f_main f)) BL_S (b * BL_S) -> zlen mem = BL_S ->
  1 <= zlen d /\ holds_old f b (d ++ zdrop (zlen d) mem).
Proof.
  intros F Hin Hp Hd Hm. pose proof Hin as [Hb0 Hbl].
  destruct (buffer_block (f_old f) (fdata w (f_main f)) b d mem Hb0 Hd Hm) as [Hlen Hget].
  destruct (cow_blocks _ _ _ _ (fo_cow _ _ _ F) b Hin) as [[_ Hh] | (? & _)]; [| lia].
  split.
  - destruct (Hh 0) as [H0 _]; [unfold BL_S; lia | lia |]. rewrite Hd, zlen_file_read by (unfold BL_S; lia). unfold BL_S in *. lia.
  - split; [done |]. intros i Hi Hl. destruct (Hh i Hi Hl) as [Hlt <-]. by apply Hget.
Qed.

(** Filling the buffer of [fsdata]. *)
Lemma buffer_step n w s mem (lab : Z -> Prop) (ent : nat -> Prop) :
  inv (S n) w -> frame (fun _ => False) (w_os w) s -> zlen mem = BL_S -> ~ ent 0%nat ->
  let w' := set_fs (set_block_buffer (Some mem) (w_fs w)) (set_os s w) in inv n w' /\ rel lab ent w w'.
Proof.
  intros Hi Hfr Hlen He w'. assert (E : forall i, fdata w' i = fdata w i) by (intros; by apply (fdata_frame (fun _ => False)); [| tauto]).
  assert (Hrel : forall lab ent, ~ ent 0%nat -> rel lab ent w w').
  { intros lab' ent' He'. split.
    - by apply (frame_touched w w').
    - done.
    - intros fh m Hm. by exists m.
    - intros f b _ _. by rewrite E.
    - intros f _. exists []. by rewrite E, app_nil_r.
    - intros f _ _. by rewrite !E.
    - done. }
  split; [| by apply Hrel]. apply (tinv_move n w); [done | by apply Hrel; tauto | | by exists mem |].
  - intros f Hf. apply (file_ok_frame n (fun _ => False) w); [done | tauto |]. by apply (ti_files _ _ _ _ _ _ Hi).
  - apply (caches_same (S n) w); [done | by apply Hrel; tauto | done].
Qed.

(** [pread] into a buffer of the thread. *)
Lemma read_into_run n w h fd i c acc app off buf :
  inv (S n) w -> fd_file (w_os w) fd i c acc app -> acc <> O_WRONLY -> 0 <= off -> buf_mine h buf ->
  (exists e, 0 < e /\ faulty (w_os w) /\ read_into fd BL_S off buf w = Some ((Err e, buf), set_os (adv (w_os w)) w)) \/
  (exists mem, zlen mem = BL_S /\
     let d := file_read c BL_S off in
     zlen (d ++ zdrop (zlen d) mem) = BL_S ->
     exists buf' w', read_into fd BL_S off buf w = Some ((Ok (zlen d), buf'), w') /\ inv n w' /\ guar h w w' /\
       (forall j, fdata w' j = fdata w j) /\ buf_mine h buf' /\ buf_is buf' w' (d ++ zdrop (zlen d) mem)).
Proof.
  intros Hi Hfd Hacc Hoff Hb. pose proof (ti_atomic _ _ _ _ _ _ Hi) as Ha. unfold read_into.
  destruct (sys_pread_spec _ Ha _ _ _ _ _ Hfd BL_S off) as [E | (e & He & Hfl & E)]; [done | done | |];
    rewrite (st_bind_run _ _ _ _ _ (sys_run _ _ _ _ E)); [right | by left; exists e].
  set (s2 := adv (w_os w)). assert (Hfr : frame (fun _ => False) (w_os w) s2) by apply frame_adv.
  destruct buf as [| | m]; [done | |]; cbn in Hb.
  - destruct (ti_buffer _ _ _ _ _ _ Hi) as (m & Em & Hm). exists m. split; [done |].
    set (d := file_read c BL_S off). intros Hd. destruct (buffer_step n w s2 (d ++ zdrop (zlen d) m) (fun L => ~ has_label h L) (fun i => ~ has_entry h i)) as [Hi2 Hr2];
      [done | done | done | tauto |].
    eexists BufGlobal, _. split_and!; [| done | done | | done |].
    + assert (Eg : buf_get BufGlobal (set_os s2 w) = Some (m, set_os s2 w)) by by apply buf_is_iff.
      by rewrite (st_bind_run _ _ _ _ _ Eg).
    + intros j. by apply (fdata_frame (fun _ => False)); [| tauto].
    + by apply buf_is_iff.
  - exists m. split; [done |]. set (d := file_read c BL_S off). intros Hd. assert (Hst : still w (set_os s2 w)) by by apply still_os.
    eexists (BufHeap _), (set_os s2 w). split_and!; [done | by eapply still_inv | by apply still_rel | | done |].
    + intros j. by apply (fdata_frame (fun _ => False)); [| tauto].
    + by apply buf_is_iff.
Qed.

(** Reading the old block into the buffer. *)
Lemma wp_read_into {B} h (k : res Z * bufref -> prog B) Q w f fd acc app b buf :
  f ∈ Fs -> has_label h (f_label f) -> open_on (w_os w) fd (f_main f) acc app ->
  can_save acc (f_old f) (fdata w (f_map f)) -> in_old (f_old f) b -> ptr_at (fdata w (f_map f)) b = 0 -> buf_mine h buf ->
  (forall n w2 r buf' mem, inv n w2 -> rely None w w2 -> fdata w2 (f_map f) = fdata w (f_map f) ->
     fdata w2 (f_dat f) = fdata w (f_dat f) -> buf_mine h buf' -> buf_is buf' w2 mem -> holds_old f b mem -> 1 <= r ->
     wp h (k (Ok r, buf')) Q w2) ->
  (forall e w2, 0 < e -> fl -> rely h w w2 -> wp h (k (Err e, buf)) Q w2) ->
  wp h (act (read_into fd BL_S (Z.shiftl b BL_SLOG) buf) ≫= k) Q w.
Proof.
  intros Hf Hl Ho Hcs Hin Hp Hbuf Hok Herr. apply wp_act. intros n w1 Hr Hi. rewrite shiftl_block.
  pose proof (ti_files _ _ _ _ _ _ Hi f Hf) as F. destruct (rely_label _ _ _ _ Hf Hl Hr) as [Emap Edat].
  destruct (inv_fd_file _ _ _ _ _ _ _ (rely_open _ _ _ _ _ _ _ Hr Ho) (fo_main _ _ _ F) Hi) as [Hfd Ha].
  assert (Hacc : acc <> O_WRONLY) by (destruct Hcs as [? | Hall]; [done | by destruct (Hall b Hin)]).
  assert (0 <= b * BL_S) by (destruct Hin; unfold BL_S; lia).
  destruct (read_into_run n w1 h fd _ _ _ _ (b * BL_S) buf Hi Hfd) as [(e & He & Hfl & E) | (mem & Hlen & H2)]; [done | done | done | |].
  - assert (Hst : still w1 (set_os (adv (w_os w1)) w1)) by apply still_os, frame_adv.
    eexists _, _. split_and!; [done | by eapply still_inv | by apply still_rel | by apply still_event |].
    apply Herr; [done | by apply (ti_faulty _ _ _ _ _ _ Hi) |]. etransitivity; [done | by apply still_rel].
  - destruct (main_block_old (S n) w1 f b _ mem F Hin ltac:(by rewrite Emap) eq_refl Hlen) as [H1 Hold].
    destruct (H2 (proj1 Hold)) as (buf' & w2 & E & Hi2 & Hg & Hd & Hb' & His).
    eexists _, w2. split_and!; [done | done | done | by intros g _; rewrite Hd |].
    eapply Hok; [done | | by rewrite Hd | by rewrite Hd | done | done | done | done].
    etransitivity; [by eapply rely_weaken | by eapply guar_rely].
Qed.

(** A buffer from [malloc]. *)
Lemma wp_malloc {B} h (k : option (list Z) -> prog B) Q w :
  (forall m w2, zlen m = BL_S -> rely h w w2 -> wp h (k (Some m)) Q w2) ->
  (forall w2, fl -> rely h w w2 -> wp h (k None) Q w2) ->
  wp h (act malloc_block ≫= k) Q w.
Proof.
  intros Hok Herr. apply wp_still. intros n w1 Hr Hi. unfold malloc_block. rewrite pop_fault_adv.
  assert (Hfr : frame (fun _ => False) (w_os w1) (adv (w_os w1))) by apply frame_adv.
  assert (Hlen : zlen (ztake BL_S (w_junk w1 ++ zeros BL_S)) = BL_S).
  { rewrite zlen_ztake, zlen_app, zlen_zeros. pose proof (zlen_nonneg (w_junk w1)). unfold BL_S in *. lia. }
  destruct (os_faults (w_os w1)) as [| [| e | j] r] eqn:Ef; cbn.
  3: { eexists _, _. split_and!; [done | by apply still_os |]. intros _ Hr2. apply Herr; [| done].
       apply (ti_faulty _ _ _ _ _ _ Hi). exists e. rewrite Ef. by left. }
  all: eexists _, _; split_and!; [done | done |]; intros _ Hr2; by apply Hok.
Qed.
End Steps.
