(* ===== verification/ThreadWrites.v ===== *)
(** [write] and [ftruncate] run by threads keep the protocol: when [b_write]
    returns 0 every old block of the range is saved, whatever the other
    threads do, so that the main file may be changed. *)

From S2P Require Import Prelude Posix PosixSpec Types Mflock Block CopyOnWrite BlockWrite BlockRead.
From S2P Require Import Mfd FuseFd SnapshotIsolation MflockConc Threads ThreadCode ThreadProtocol ThreadSteps.

Section Writes.
Context (Fs : list finfo) (writers : gmap Z (finfo * bool)) (readers : gmap Z (finfo * option (list Z))) (fl : Prop).
Context (Hfs : files_apart Fs).

#[local] Instance the_protocol : Protocol event := thread_protocol Fs writers readers fl.
Abbreviation inv := (tinv Fs writers readers fl).
Abbreviation rel := (trel Fs).

(** The handle of the thread, and its file. *)
Context (fh : Z) (f : finfo) (app : bool) (Hw : writers !! fh = Some (f, app)) (m : mfd_t).

Abbreviation old := (f_old f).
Definition map_of (w : world) : list Z := fdata w (f_map f).

(** What the thread knows of its handle. *)
Record writes (w : world) : Prop := {
  wr_knows : knows fh m w;
  wr_file : f ∈ Fs;
  wr_label : locklabel m = f_label f;
  wr_main : exists acc, open_on (w_os w) (mainfd m) (f_main f) acc app /\ acc <> O_RDONLY /\ can_save acc old (map_of w);
  wr_map : open_on (w_os w) (mapfd m) (f_map f) O_RDWR false;
  wr_dat : open_on (w_os w) (datfd m) (f_dat f) O_WRONLY true;
  wr_size : st_size (mh_fstat (mapheader m)) = zlen old;
  wr_exists : mh_exists (mapheader m) = 1;
  wr_nonneg : 0 <= datfd m
}.

Lemma writes_at n w : inv n w -> knows fh m w -> writes w.
Proof.
  intros Hi Hk. destruct (writer_at _ _ _ _ _ _ _ Hw m _ _ Hi Hk) as (Hin & Hl & c & Hc & []). by split.
Qed.

Lemma writes_rel lab ent w w' : rel lab ent w w' -> writes w -> writes w'.
Proof.
  intros Hr [Hk Hf Hl (acc & Ho & Ha & Hc) Hm Hd ? ? ?]. pose proof (re_frame _ _ _ _ _ Hr) as Hfr. split; try done.
  - by eapply knows_rel.
  - exists acc. split_and!; [by eapply open_on_frame | done |]. eapply can_save_mono; [| done].
    intros b Hb. by apply (re_saved _ _ _ _ _ Hr).
  - by eapply open_on_frame.
  - by eapply open_on_frame.
Qed.

(** The lock of the thread, as its program and as the logic know it. *)
Definition lk (h : held) (lock : Z) : Prop :=
  (h = None /\ lock = -1) \/ (exists i, h = Some (f_label f, i) /\ lock = Z.of_nat i).

Record wst (h : held) (st : pw_state) (w : world) : Prop := {
  ws_writes : writes w;
  ws_lock : lk h (pw_lock st);
  ws_buf : pw_buf st = BufNull \/ buf_mine h (pw_buf st)
}.

Lemma wst_rel h st lab ent w w' : rel lab ent w w' -> wst h st w -> wst h st w'.
Proof. intros Hr []. split; [by eapply writes_rel | done | done]. Qed.

(** How an iteration ends. *)
Definition it_post (err b : Z) (h : held) (r : bool * pw_state) (w : world) : Prop :=
  wst h r.2 w /\ ((r.1 = false /\ pw_err r.2 = err /\ saved (map_of w) b) \/ (r.1 = true /\ 0 < pw_err r.2 /\ fl)).

Lemma saved_rel lab ent w w' b : writes w -> 0 <= b -> rel lab ent w w' -> saved (map_of w) b -> saved (map_of w') b.
Proof. intros Hwr Hb Hr. apply (re_saved _ _ _ _ _ Hr); [by apply wr_file in Hwr | done]. Qed.

Lemma wp_break h st e err b w : wst h st w -> 0 < e -> fl -> wp h (pw_break st e) (it_post err b) w.
Proof.
  intros Hs He Hfl. apply wp_ret. intros w1 Hr. split; [| by right].
  destruct (wst_rel _ _ _ _ _ _ Hr Hs). by split.
Qed.

Lemma wp_continue h st b w : wst h st w -> 0 <= b -> saved (map_of w) b -> wp h (pw_continue st) (it_post (pw_err st) b) w.
Proof.
  intros Hs Hb Hsv. apply wp_ret. intros w1 Hr. split; [by eapply wst_rel |]. left. split_and!; [done | done |].
  eapply saved_rel; [apply (ws_writes _ _ _ Hs) | done | exact Hr | done].
Qed.

(** The block is in the buffer: it goes to the end of the dat file, and its number into the map. *)
Lemma wp_append i st mem b w :
  let h := Some (f_label f, i) in
  wst h st w -> buf_mine h (pw_buf st) -> buf_is (pw_buf st) w mem -> holds_old f b mem -> in_old old b ->
  wp h (p_append fh m st b) (it_post (pw_err st) b) w.
Proof.
  intros h Hs Hmine His [Hlen Hold] Hin. pose proof (ws_writes _ _ _ Hs) as Hwr. pose proof (wr_file _ Hwr) as Hf.
  assert (Hb0 : 0 <= b) by apply Hin. assert (Hlab : has_label h (f_label f)) by done. unfold p_append.
  apply (wp_lseek _ _ _ _ _ _ _ _ f); [done | done | by apply wr_dat | |].
  2: { intros e w2 He Hfl Hr2. apply wp_break; [by eapply wst_rel | done | done]. }
  intros n2 w2 Hi2 Hr2. pose proof (ti_files _ _ _ _ _ _ Hi2 f Hf) as F2.
  pose proof (wst_rel _ _ _ _ _ _ Hr2 Hs) as Hs2.
  destruct (rely_label _ _ _ _ h w w2 f Hf Hlab Hr2) as [Emap Edat]. rewrite <-Edat.
  rewrite land_block, (fo_align _ _ _ F2). cbn [Z.eqb negb].
  apply (wp_write_dat _ _ _ _ Hfs _ _ _ _ f _ _ mem); [done | done | apply (wr_dat _ (ws_writes _ _ _ Hs2)) | done | by eapply buf_is_rely | done | |].
  2: { intros e w3 He Hfl Hr3. apply wp_break; [by eapply wst_rel | done | done]. }
  intros n3 w3 Hi3 Hr3 Ed3 Em3. pose proof (wst_rel _ _ _ _ _ _ Hr3 Hs2) as Hs3.
  rewrite Z.eqb_refl. cbn [negb]. rewrite shiftr_block.
  assert (Hroom : zlen (fdata w2 (f_dat f)) < 2 ^ 62).
  { pose proof (fo_room _ _ _ F2). assert (0 < BL_S) by done. nia. }
  destruct (append_block _ mem (fo_align _ _ _ F2) Hlen Hroom) as (Hp & Hd & Hpl).
  apply (wp_write_map _ _ _ _ Hfs _ _ _ _ f); [done | done | apply (wr_map _ (ws_writes _ _ _ Hs3)) | done | done | by rewrite Ed3 | | |].
  { rewrite Ed3. apply append_holds; [lia | done | done]. }
  2: { intros e w4 He Hfl Hr4. apply wp_break; [by eapply wst_rel | done | done]. }
  intros n4 w4 Hi4 Hr4 Hsv. pose proof (wst_rel _ _ _ _ _ _ Hr4 Hs3) as Hs4.
  change (negb (BLP_S =? BLP_S)) with false. cbv iota.
  apply (wp_store_cache _ _ _ _ _ f app Hw m); [apply (wr_knows _ (ws_writes _ _ _ Hs4)) | done | done | done |].
  intros w5 Hr5. apply wp_continue; [by eapply wst_rel | done |].
  eapply saved_rel; [apply (ws_writes _ _ _ Hs4) | done | exact Hr5 | done].
Qed.

(** The buffer to copy through. *)
Lemma wp_get_buf i st w :
  let h := Some (f_label f, i) in
  wst h st w ->
  wp h (p_get_buf st) (fun h' r w' => h' = h /\ rely h w w' /\ match r with None => fl | Some b => buf_mine h b end) w.
Proof.
  intros h [Hwr Hl Hb]. unfold p_get_buf.
  assert (Hret : forall b w1, buf_mine h b -> rely h w w1 ->
    wp h (mret (Some b)) (fun h' r w' => h' = h /\ rely h w w' /\ match r with None => fl | Some b => buf_mine h b end) w1).
  { intros b w1 Hm Hr1. apply wp_ret. intros w2 Hr. split_and!; [done | by etransitivity | done]. }
  destruct (pw_buf st) as [| | mem] eqn:E; [| destruct Hb; [done | by apply Hret]..].
  destruct Hl as [[? _] | (i' & Hi' & Hlock)]; [done |]. injection Hi' as <-. rewrite Hlock.
  destruct (Z.eqb_spec (Z.of_nat i) 0) as [Hz | Hz].
  - apply Hret; [| done]. cbn. by assert (i = 0%nat) as -> by lia.
  - apply wp_malloc.
    + intros mem w2 Hlen Hr2. by apply Hret.
    + intros w2 Hfl Hr2. apply wp_ret. intros w3 Hr3. split_and!; [done | by etransitivity | done].
Qed.

(** Copying a block that is not saved. *)
Lemma wp_save_block i st b w :
  let h := Some (f_label f, i) in
  wst h st w -> in_old old b -> ptr_at (map_of w) b = 0 -> wp h (p_save_block fh m st b) (it_post (pw_err st) b) w.
Proof.
  intros h Hs Hin Hp. unfold p_save_block. apply wp_bind. eapply wp_mono; [| by apply wp_get_buf].
  intros h' buf w1 (-> & Hr1 & Hbuf). cbv beta. pose proof (wst_rel _ _ _ _ _ _ Hr1 Hs) as Hs1.
  pose proof (ws_writes _ _ _ Hs1) as Hwr1. pose proof (wr_file _ Hwr1) as Hf.
  destruct buf as [b1 |]; [| by apply wp_break].
  destruct (rely_label _ _ _ _ h w w1 f Hf eq_refl Hr1) as [Emap Edat].
  destruct (wr_main _ Hwr1) as (acc & Ho & Hacc & Hcs).
  assert (Hset : forall bx wx, wst h st wx -> buf_mine h bx -> wst h (PwState (pw_lock st) bx (pw_err st)) wx).
  { intros bx wx [] Hm. split; [done | done | by right]. }
  apply (wp_read_into _ _ _ _ _ _ _ _ f _ acc app); [done | done | done | done | done | by rewrite Emap | done | |].
  - intros n2 w2 r buf' mem Hi2 Hr2 Em2 Ed2 Hm His Hold Hone. cbv beta iota.
    destruct (Z.ltb_spec r 1); [lia |].
    apply (wp_append i (PwState (pw_lock st) buf' (pw_err st)) mem); [| done | done | done | done].
    apply Hset; [by eapply wst_rel | done].
  - intros e w2 He Hfl Hr2. apply wp_break; [| done | done]. apply Hset; [by eapply wst_rel | done].
Qed.

(** The body of the loop. *)
Lemma wp_write_block h st b w :
  wst h st w -> in_old old b -> wp h (p_write_block fh m st b) (it_post (pw_err st) b) w.
Proof.
  intros Hs Hin. pose proof (ws_writes _ _ _ Hs) as Hwr. pose proof (wr_file _ Hwr) as Hf. assert (Hb0 : 0 <= b) by apply Hin.
  unfold p_write_block. apply (wp_load_cache _ _ _ _ _ f app Hw m); [apply (wr_knows _ Hwr) |].
  intros n1 c w1 Hi1 Hr1 Hc. pose proof (wst_rel _ _ _ _ _ _ Hr1 Hs) as Hs1. pose proof (ws_writes _ _ _ Hs1) as Hwr1.
  destruct (Z.eqb_spec c (b + 1)) as [Ec | _]; [apply wp_continue; [done | done | by apply Hc] |].
  apply (wp_read_pointer _ _ _ _ Hfs _ _ _ _ f _ O_RDWR); [done | done | apply (wr_map _ Hwr1) | done | |].
  2: { intros e w2 He Hfl Hr2. apply wp_break; [by eapply wst_rel | done | done]. }
  intros n2 w2 Hi2 Hr2. pose proof (wst_rel _ _ _ _ _ _ Hr2 Hs1) as Hs2. pose proof (ws_writes _ _ _ Hs2) as Hwr2.
  destruct (Z.eqb_spec (ptr_at (fdata w2 (f_map f)) b) 0) as [Hp | Hp]; cbn [negb].
  2: { apply (wp_store_cache _ _ _ _ _ f app Hw m); [apply (wr_knows _ Hwr2) | done | done | done |].
       intros w3 Hr3. apply wp_continue; [by eapply wst_rel | done |]. by eapply saved_rel; [| | exact Hr3 |]. }
  destruct (ws_lock _ _ _ Hs2) as [[-> Hl] | (i & -> & Hl)]; rewrite Hl.
  2: { destruct (Z.eqb_spec (Z.of_nat i) (-1)); [lia |]. by apply wp_save_block. }
  change (-1 =? -1) with true. cbv iota. rewrite (wr_label _ Hwr2). apply wp_lock; [by apply (fa_label _ Hfs) |].
  intros w3 i Hr3 Hlt. destruct (Z.ltb_spec (Z.of_nat i) 0); [lia |].
  assert (Hs3 : wst (Some (f_label f, i)) (PwState (Z.of_nat i) (pw_buf st) (pw_err st)) w3).
  { destruct (wst_rel _ _ _ _ _ _ Hr3 Hs2) as [? _ Hb]. split; [done | right; by exists i |].
    destruct Hb as [? | Hb]; [by left | right]. cbn in *. by destruct (pw_buf st). }
  apply (wp_read_pointer _ _ _ _ Hfs _ _ _ _ f _ O_RDWR); [done | done | apply (wr_map _ (ws_writes _ _ _ Hs3)) | done | |].
  2: { intros e w4 He Hfl Hr4. apply wp_break; [by eapply wst_rel | done | done]. }
  intros n4 w4 Hi4 Hr4. pose proof (wst_rel _ _ _ _ _ _ Hr4 Hs3) as Hs4.
  destruct (Z.eqb_spec (ptr_at (fdata w4 (f_map f)) b) 0) as [Hp4 | Hp4]; cbn [negb].
  - by apply (wp_save_block i (PwState (Z.of_nat i) (pw_buf st) (pw_err st))).
  - by apply (wp_continue _ (PwState (Z.of_nat i) (pw_buf st) (pw_err st))).
Qed.

(** The block loop. *)
Definition loop_post (b : Z) (n : nat) (h : held) (st : pw_state) (w : world) : Prop :=
  wst h st w /\
  ((pw_err st = 0 /\ forall b', b <= b' < b + Z.of_nat n -> saved (map_of w) b') \/ (0 < pw_err st /\ fl)).

Lemma wp_write_loop n : forall h st b w,
  wst h st w -> pw_err st = 0 -> (forall b', b <= b' < b + Z.of_nat n -> in_old old b') ->
  wp h (p_write_loop fh m n st b) (loop_post b n) w.
Proof.
  induction n as [| n IH]; intros h st b w Hs He Hin.
  { apply wp_ret. intros w1 Hr. split; [by eapply wst_rel |]. left. split; [done | lia]. }
  cbn [p_write_loop]. apply wp_bind. eapply wp_mono; [| apply wp_write_block; [done | apply Hin; lia]].
  clear Hs w. intros h' [stop st1] w1 [Hs1 Hpost]. cbn [fst snd] in Hpost, Hs1. rewrite He in Hpost.
  destruct Hpost as [(-> & He1 & Hsv) | (-> & He1 & Hfl)].
  2: { apply wp_ret. intros w2 Hr. split; [by eapply wst_rel | by right]. }
  assert (Hb0 : 0 <= b) by (apply (Hin b); lia).
  assert (Hk : wp h' (p_write_loop fh m n st1 (b + 1)) (fun h st w => loop_post (b + 1) n h st w /\ saved (map_of w) b) w1).
  { apply (wp_keep (fun w => saved (map_of w) b)); [| done | by apply IH; [| | intros; apply Hin; lia]].
    intros w2 w3 Hr2. apply (re_saved _ _ _ _ _ Hr2); [apply (wr_file _ (ws_writes _ _ _ Hs1)) | done]. }
  eapply wp_mono; [| exact Hk]. intros h2 st2 w2 [[Hs2 Hp2] Hsv2]. split; [done |].
  destruct Hp2 as [[? H2] | ?]; [left | by right]. split; [done |].
  intros b' Hb'. destruct (decide (b' = b)) as [-> | ?]; [done | apply H2; lia].
Qed.

(** The lock is given back. *)
Lemma wp_cleanup h st w Q :
  lk h (pw_lock st) -> (forall w1, rely None w w1 -> Q None (- pw_err st) w1) -> wp h (p_write_cleanup st) Q w.
Proof.
  intros [[-> Hl] | (i & -> & Hl)] HQ; unfold p_write_cleanup; rewrite Hl.
  - by apply wp_ret.
  - destruct (Z.eqb_spec (Z.of_nat i) (-1)); [lia |]. apply wp_unlock. intros w1 Hr1.
    apply wp_ret. intros w2 Hr2. apply HQ. etransitivity; [by eapply rely_weaken | done].
Qed.

(** How [b_write] ends. *)
Definition save_end (off size : Z) (h : held) (r : Z) (w : world) : Prop :=
  h = None /\ writes w /\ ((r = 0 /\ range_saved old (map_of w) off size) \/ (r < 0 /\ fl)).

Lemma wp_write_nothing off size w : writes w -> (zlen old <= off \/ size = 0) -> wp None (mret 0) (save_end off size) w.
Proof.
  intros Hwr Hn. apply wp_ret. intros w1 Hr. split_and!; [done | by eapply writes_rel |]. left. split; [done |].
  intros Hsz Ho b [? ?] ? ?. lia.
Qed.

(** The blocks of a range inside the old contents. *)
Lemma wp_write_range off size w :
  writes w -> 0 <= off -> 1 <= size -> off + size <= zlen old ->
  wp None (let '(blockoffset, blocknumber) := B_CALC_BLOCKS off size in
           st ← p_write_loop fh m (Z.to_nat blocknumber) (PwState (-1) BufNull 0) blockoffset;
           p_write_cleanup st) (save_end off size) w.
Proof.
  intros Hwr Ho Hs Hend. pose proof (fa_old _ Hfs f (wr_file _ Hwr)) as Hold. assert (HBL : 0 < BL_S) by done.
  rewrite calc_blocks_eq by lia.
  pose proof (Z.div_pos off BL_S Ho HBL) as Hf. pose proof (Z.div_le_mono off (off + size - 1) BL_S HBL ltac:(lia)) as Hle.
  pose proof (div_block_bounds (off + size - 1)) as Hlast.
  apply wp_bind. eapply wp_mono; [| apply wp_write_loop].
  2: { split; [done | by left | by left]. }
  2: { done. }
  2: { intros b Hb. split; [lia |]. assert (b <= (off + size - 1) / BL_S) by lia. unfold BL_S in *. nia. }
  intros h st w1 [Hs1 Hpost]. apply wp_cleanup; [apply (ws_lock _ _ _ Hs1) |]. intros w2 Hr2.
  pose proof (ws_writes _ _ _ Hs1) as Hwr1. split_and!; [done | by eapply writes_rel |].
  destruct Hpost as [[-> Hsv] | [He ?]]; [left | right; split; [lia | done]]. split; [done |].
  eapply (range_saved_rel Fs); [apply (wr_file _ Hwr1) | exact Hr2 |].
  intros _ _ b Hin H1 H2. apply Hsv. pose proof (proj2 (block_in_range off size b) (conj H1 H2)). lia.
Qed.

(** [b_write] *)
Lemma wp_b_write off size w :
  writes w -> 0 <= off -> 0 <= size -> off + size < 2 ^ 63 -> wp None (p_b_write fh m size off) (save_end off size) w.
Proof.
  intros Hwr Ho Hs Hb. pose proof (fa_old _ Hfs f (wr_file _ Hwr)) as Hold. pose proof (zlen_nonneg old).
  unfold p_b_write. rewrite (wr_size _ Hwr). pose proof (wr_nonneg _ Hwr). destruct (Z.ltb_spec (datfd m) 0); [lia |].
  cbn [orb]. destruct (Z.eqb_spec size 0); [by apply wp_write_nothing; [| right] |]. cbv zeta.
  rewrite !u64_small by lia. destruct (Z.ltb_spec (zlen old) (off + size)).
  2: { apply wp_write_range; (done || lia). }
  destruct (Z.leb_spec (zlen old) off); [by apply wp_write_nothing; [| left] |].
  rewrite u64_small by lia. eapply wp_mono; [| apply wp_write_range; (done || lia)].
  intros h r w1 (-> & Hwr1 & Hp). split_and!; [done | done |].
  destruct Hp as [[-> Hr] | ?]; [left | by right]. split; [done |].
  intros _ _ b Hin Hb1 Hb2. apply Hr; [lia | done | done | done |]. destruct Hin. lia.
Qed.

(** [b_truncate] *)
Lemma wp_b_truncate n w :
  writes w -> 0 <= n -> wp None (p_b_truncate fh m n) (save_end n (zlen old - n)) w.
Proof.
  intros Hwr Hn. pose proof (fa_old _ Hfs f (wr_file _ Hwr)) as Hold. pose proof (zlen_nonneg old).
  unfold p_b_truncate. rewrite (wr_exists _ Hwr), (wr_size _ Hwr). cbn [Z.eqb andb].
  destruct (Z.ltb_spec n (zlen old)); [| by apply wp_write_nothing; [| left]].
  rewrite u64_small by lia. apply wp_b_write; (done || lia).
Qed.
End Writes.

(** ** The handlers *)

Section Handlers.
Context (Fs : list finfo) (writers : gmap Z (finfo * bool)) (readers : gmap Z (finfo * option (list Z))) (fl : Prop).
Context (Hfs : files_apart Fs).

#[local] Instance a_protocol : Protocol event := thread_protocol Fs writers readers fl.

Context (fh : Z) (f : finfo) (app : bool) (Hw : writers !! fh = Some (f, app)).

(** What holds of the events of the thread, those before the request, and how the request ends. *)
Context (R : list event -> Prop) (l : list event).

(** The start of a handler: the handle is read, and its number is the current one. *)
Lemma ewp_handle {B} (k : mfd_t -> prog B) Q w :
  (forall m w1, writes Fs fh f app m w1 -> is_main m = mfd_main -> mfd_sn_number m = sn_number (w_fs w1) -> ewp R None l (k m) Q w1) ->
  ewp R None l (act (get_mfd fh) ≫= k) Q w.
Proof.
  intros H. apply ewp_look. intros n w1 Hr Hi.
  destruct (ti_writers _ _ _ _ _ _ Hi fh f app Hw) as (Hin & m & Hm & Hok & Hl).
  exists m. split; [unfold get_mfd; by rewrite Hm |]. apply H; [| apply Hok | apply Hok].
  apply (writes_at _ _ _ _ _ _ _ Hw m _ _ Hi). by apply knows_self.
Qed.

Lemma wp_validate (m : mfd_t) w :
  mfd_sn_number m = sn_number (w_fs w) -> wp None (p_validate m) (fun h _ w1 => h = None /\ rely None w w1) w.
Proof.
  intros Hn. unfold p_validate. apply wp_look. intros n w1 Hr Hi. exists (sn_number (w_fs w1)). split; [done |].
  rewrite (fs_stable_number _ _ (re_fs _ _ _ _ _ Hr)), Hn, Z.eqb_refl. apply wp_ret. intros w2 Hr2. split; [done | by etransitivity].
Qed.

(** How a request that changes the file ends: it is done and returns [ok], or
    nothing is done and it fails because a call failed. *)
Definition change_end (o : op) (ok : Z) (h : held) (l' : list event) (r : Z) (_ : world) : Prop :=
  h = None /\ ((r = ok /\ l' = l ++ [(o, Ret ok)]) \/ (r < 0 /\ fl /\ l' = l)).

(** [write] returns the number of bytes, or fails because a call failed. *)
Lemma ewp_write buf off w :
  0 <= off -> off + zlen buf < 2 ^ 63 -> R (l ++ [(OWrite fh buf off, Ret (i32 (zlen buf)))]) ->
  ewp R None l (p_write fh buf off) (change_end (OWrite fh buf off) (i32 (zlen buf))) w.
Proof.
  intros Ho Hb HR. pose proof (zlen_nonneg buf). unfold p_write. apply ewp_handle. intros m w1 Hwr Hmain Hn. rewrite Hmain.
  apply ewp_quiet. eapply wp_mono; [| by apply wp_validate]. intros h _ w2 [-> Hr2].
  apply ewp_quiet. eapply wp_mono; [| apply (wp_b_write _ _ _ _ Hfs _ _ _ Hw); [by eapply writes_rel | lia..]].
  intros h r w3 (-> & Hwr3 & Hp). destruct Hp as [[-> Hs] | [Hr Hfl]].
  2: { destruct (Z.eqb_spec r 0); [lia |]. apply ewp_ret. intros w4 _. split; [done | by right]. }
  cbn [Z.eqb negb]. destruct (wr_main _ _ _ _ _ _ Hwr3) as (acc & Hopen & Hacc & _).
  apply (ewp_write_main _ _ _ _ Hfs _ _ _ Hw _ _ _ _ _ (wr_file _ _ _ _ _ _ Hwr3) _ _ Hopen Hacc); [done | done | done | |].
  - intros w4. apply ewp_ret. intros w5 _. split; [done | by left].
  - intros e w4 He Hfl. apply ewp_ret. intros w5 _. split; [done | right]. split_and!; [lia | done | done].
Qed.

(** So does [ftruncate]. *)
Lemma ewp_ftruncate n w :
  0 <= n -> R (l ++ [(OTruncate fh n, Ret 0)]) -> ewp R None l (p_ftruncate fh n) (change_end (OTruncate fh n) 0) w.
Proof.
  intros Hn HR. unfold p_ftruncate. apply ewp_handle. intros m w1 Hwr Hmain Hnum.
  apply ewp_quiet. eapply wp_mono; [| by apply wp_validate]. intros h _ w2 [-> Hr2].
  apply ewp_quiet. eapply wp_mono; [| apply (wp_b_truncate _ _ _ _ Hfs _ _ _ Hw); [by eapply writes_rel | lia]].
  intros h r w3 (-> & Hwr3 & Hp). destruct Hp as [[-> Hs] | [Hr Hfl]].
  2: { destruct (Z.eqb_spec r 0); [lia |]. apply ewp_ret. intros w4 _. split; [done | by right]. }
  cbn [Z.eqb negb]. destruct (wr_main _ _ _ _ _ _ Hwr3) as (acc & Hopen & Hacc & _).
  apply (ewp_truncate_main _ _ _ _ Hfs _ _ _ Hw _ _ _ _ _ (wr_file _ _ _ _ _ _ Hwr3) _ _ Hopen Hacc); [done | done | done | |].
  - intros w4. apply ewp_ret. intros w5 _. split; [done | by left].
  - intros e w4 He Hfl. apply ewp_ret. intros w5 _. split; [done | right]. split_and!; [lia | done | done].
Qed.
End Handlers.
