(* ===== verification/ThreadReads.v ===== *)
(** [read] in a snapshot, run by threads: whatever the other threads do, it
    gets the bytes that the file had at the snapshot.

    The lock is taken before the pointer in the map file of the latest
    snapshot is read and kept until the block has been read.  While it is
    held, a block whose pointer is 0 is not saved by anybody, so the main
    file still has the old bytes. *)

From S2P Require Import Prelude Posix PosixSpec Types Mflock Block CopyOnWrite BlockWrite BlockRead.
From S2P Require Import Mfd FuseFd SnapshotIsolation MflockConc Threads ThreadCode ThreadProtocol ThreadSteps ThreadWrites.

Section Reads.
Context (Fs : list finfo) (writers : gmap Z (finfo * bool)) (readers : gmap Z (finfo * option (list Z))) (fl : Prop).
Context (Hfs : files_apart Fs).

#[local] Instance the_protocol : Protocol event := thread_protocol Fs writers readers fl.
Abbreviation inv := (tinv Fs writers readers fl).
Abbreviation rel := (trel Fs).

(** The handle of the thread, its file, and what the file was at the snapshot. *)
Context (f : finfo) (Hf : f ∈ Fs) (target : list Z) (m : mfd_t).
Abbreviation old := (f_old f).

(** What the thread knows of its handle. *)
Definition reads (w : world) : Prop := treader_ok Fs w f target m.

Lemma reads_rel lab ent w w' : rel lab ent w w' -> reads w -> reads w'.
Proof.
  intros Hr H. pose proof (treader_ok_move Fs w w' f target m (latest_written_block_cache m) (re_frame _ _ _ _ _ Hr) (re_fs _ _ _ _ _ Hr) H) as H'.
  unfold reads. by destruct m.
Qed.

(** ** Copying from one file *)

Lemma wp_copy h Q w fd b k from len to buf :
  0 <= k -> part_ok target b from len ->
  (forall n w1, rely h w w1 -> inv (S n) w1 ->
     exists ino src acc app, fd_file (w_os w1) fd ino src acc app /\ acc <> O_WRONLY /\ holds_block target b src k) ->
  (forall w1, rely h w w1 -> Q h (-1, with_part target buf b to len from) w1) ->
  (forall r buf' w1, 0 < r -> fl -> rely h w w1 -> Q h (r, buf') w1) ->
  wp h (act (b_read_copy fd to len (from + Z.shiftl k BL_SLOG) buf)) Q w.
Proof.
  intros Hk Hp Hsrc Hok Herr. refine (wp_still _ _ _ _ _ _ PRet _ _ _). intros n w1 Hr Hi.
  destruct (Hsrc n w1 Hr Hi) as (ino & src & acc & app & Hfd & Hacc & Hh).
  destruct (b_read_copy_spec target w1 fd ino src acc app b k from len to buf (ti_atomic _ _ _ _ _ _ Hi) Hfd Hacc Hh Hk Hp)
    as (r & buf' & E & Hr').
  eexists _, _. split_and!; [done | apply still_os, frame_adv |]. intros _ Hr2. apply wp_ret. intros w3 Hr3.
  assert (Hr4 : rely h w w3) by by etransitivity.
  destruct Hr' as [[-> ->] | [He Hfl]]; [by apply Hok |]. apply Herr; [done | by apply (ti_faulty _ _ _ _ _ _ Hi) | done].
Qed.

(** ** One step of the chain *)

Section Chain.
Context (views : list (list Z)).

(** What is known when the search for block [b] comes to a step: the old
    block is in the contents of the step; at the main file, its pointer is 0
    and the lock is held. *)
Definition at_step (h : held) (sni : nat) (b : Z) (w : world) : Prop :=
  match sni with
  | O => has_label h (f_label f) /\ ptr_at (fdata w (f_map f)) b = 0 /\ holds_block target b old b
  | S _ => exists v, views !! sni = Some v /\ holds_block target b v b
  end.

Lemma at_step_rely h sni b w w' : rely h w w' -> at_step h sni b w -> at_step h sni b w'.
Proof.
  intros Hr. destruct sni as [| k]; [| done]. intros (Hl & Hp & Hh). split_and!; [done | | done].
  by rewrite (proj1 (rely_label _ _ _ _ _ _ _ _ Hf Hl Hr)).
Qed.

Definition step_end (h0 : held) (sni : nat) (b from len to : Z) (buf : list Z) (h : held) (r : Z * list Z) (w : world) : Prop :=
  h = h0 /\
  ((r.1 = -1 /\ r.2 = with_part target buf b to len from) \/
   (r.1 = 0 /\ r.2 = buf /\ exists sni', sni = S sni' /\ at_step h sni' b w) \/
   (0 < r.1 /\ fl)).

Context (Hlen : zlen target < 2 ^ 62).

(** The main file: nobody has saved the block, so nobody has changed it. *)
Lemma wp_step_main h b from len to buf w step :
  reads w -> sn_steps m !! 0%nat = Some step -> at_step h 0 b w -> part_ok target b from len ->
  wp h (p_read_step m 0 b to len from buf) (step_end h 0 b from len to buf) w.
Proof.
  intros Hrd Hst Hat Hp. pose proof Hp as ([Hb0 _] & _). unfold p_read_step. rewrite Hst. cbn [Z.of_nat Z.ltb Z.compare].
  apply (wp_copy _ _ _ _ b); [done | done | | by split; [| left] | by split; [| right; right]]. intros n w1 Hr Hi.
  destruct (tr_main _ _ _ _ _ Hrd step Hst) as (acc & app & Ho & Hacc).
  pose proof (ti_files _ _ _ _ _ _ Hi f Hf) as F. destruct (at_step_rely _ _ _ _ _ Hr Hat) as (_ & Hptr & Hh).
  eexists _, _, acc, app. split_and!; [apply fd_file_split; split; [by eapply rely_open | apply F] | done |].
  pose proof (holds_block_in _ _ _ (proj1 Hp) Hh) as Hin.
  destruct (cow_blocks _ _ _ _ (fo_cow _ _ _ F) b Hin) as [[_ Hm] | (? & _)]; [| lia]. by eapply holds_block_trans.
Qed.

(** The latest snapshot. *)
Lemma wp_step_latest h b from len to buf w step :
  reads w -> sn_steps m !! 1%nat = Some step -> has_label h (f_label f) -> holds_block target b old b ->
  part_ok target b from len ->
  wp h (p_read_step m 1 b to len from buf) (step_end h 1 b from len to buf) w.
Proof.
  intros Hrd Hst Hl Hh Hp. unfold p_read_step. rewrite Hst. change (0 <? Z.of_nat 1) with true. cbv iota.
  destruct (tr_latest _ _ _ _ _ Hrd step Hst) as (Hm & (acc & Ho & Hacc) & (acc' & app & Ho' & Hacc')).
  destruct (Z.ltb_spec (step_mapfd step) 0); [lia |].
  pose proof (holds_block_in _ _ _ (proj1 Hp) Hh) as Hin.
  apply (wp_read_pointer _ _ _ _ Hfs _ _ _ _ f _ acc); [done | done | done | done | |].
  2: { intros e w2 He Hfl _. apply wp_ret. intros w3 _. by split; [| right; right]. }
  intros n2 w2 Hi2 Hr2. pose proof (ti_files _ _ _ _ _ _ Hi2 f Hf) as F.
  destruct (cow_blocks _ _ _ _ (fo_cow _ _ _ F) b Hin) as [[Hz _] | (Hz & Hpl & Hd)].
  - rewrite Hz. cbn [Z.eqb]. apply wp_ret. intros w3 Hr3. split; [done |]. right. left. split_and!; [done | done |]. exists 0%nat. split; [done |].
    by apply (at_step_rely h 0 b w2 w3 Hr3).
  - destruct (Z.eqb_spec (ptr_at (fdata w2 (f_map f)) b) 0); [lia |].
    apply (wp_copy _ _ _ _ b); [lia | done | | by split; [| left] | by split; [| right; right]]. intros n3 w3 Hr3 Hi3.
    pose proof (ti_files _ _ _ _ _ _ Hi3 f Hf) as F3. assert (Hr23 : rely h w w3) by by etransitivity.
    eexists _, _, acc', app. split_and!; [apply fd_file_split; split; [by eapply rely_open | apply F3] | done |].
    rewrite (proj2 (rely_label _ _ _ _ _ _ _ _ Hf Hl Hr3)). by eapply holds_block_into.
Qed.

(** An earlier snapshot, whose files nobody writes. *)
Lemma wp_step_earlier h k b from len to buf w step v v' :
  sn_steps m !! S (S k) = Some step -> views !! S k = Some v' -> step_ok (touched Fs) (w_os w) step v v' ->
  holds_block target b v b -> part_ok target b from len ->
  wp h (p_read_step m (S (S k)) b to len from buf) (step_end h (S (S k)) b from len to buf) w.
Proof.
  intros Hst Hv' Hok Hh Hp. pose proof (holds_block_in _ _ _ (proj1 Hp) Hh) as Hin.
  unfold p_read_step. rewrite Hst. destruct (Z.ltb_spec 0 (Z.of_nat (S (S k)))); [| lia].
  assert (Hnext : forall w1, holds_block target b v' b -> wp h (mret (0, buf)) (step_end h (S (S k)) b from len to buf) w1).
  { intros w1 Hh'. apply wp_ret. intros w2 _. split; [done |]. right. left. split_and!; [done | done |]. exists (S k). split; [done | by exists v']. }
  destruct Hok as [-> | [[Hneg ->] | (Hpos & ip & map & acc & dat & Hm & Hacc & Hx & Hc & Hd)]]; [by destruct (in_old_nil b) | |].
  { destruct (Z.ltb_spec (step_mapfd step) 0); [by apply Hnext | lia]. }
  destruct (Z.ltb_spec (step_mapfd step) 0); [lia |].
  apply wp_still. intros n w1 Hr Hi.
  destruct (read_pointer_spec w1 (step_mapfd step) ip map acc b (ti_atomic _ _ _ _ _ _ Hi)) as (r & E & Hr');
    [eapply frame_fd_file; [apply (re_frame _ _ _ _ _ Hr) | done | done] | done | by eapply in_old_bound, Hlen; apply Hp
    | apply (cow_map_align _ _ _ _ Hc) | apply (cow_map_len _ _ _ _ Hc) |].
  eexists _, _. split_and!; [done | apply still_os, frame_adv |]. intros _ Hr2.
  destruct Hr' as [-> | (e & -> & He & Hfl)].
  2: { apply wp_ret. intros w3 _. split; [done |]. right. right. split; [done | by apply (ti_faulty _ _ _ _ _ _ Hi)]. }
  destruct (cow_blocks _ _ _ _ Hc b Hin) as [[Hz Hb] | (Hz & Hpl & Hb)].
  - rewrite Hz. cbn [Z.eqb]. apply Hnext. by eapply holds_block_trans.
  - destruct (Z.eqb_spec (ptr_at map b) 0); [lia |].
    destruct Hd as [-> | (id & acc' & app & Hd & Hacc' & Hxd)]; [rewrite zlen_nil in Hpl; unfold BL_S in Hpl; lia |].
    apply (wp_copy _ _ _ _ b); [lia | done | | by split; [| left] | by split; [| right; right]]. intros n3 w3 Hr3 Hi3.
    assert (Hr13 : rely h w w3) by by etransitivity.
    exists id, dat, acc', app. split_and!; [eapply frame_fd_file; [apply (re_frame _ _ _ _ _ Hr13) | done | done] | done |].
    by eapply holds_block_into.
Qed.

(** The files of the earlier snapshots. *)
Definition chain (w : world) : Prop :=
  length views = length (sn_steps m) /\ views !! 1%nat = Some old /\
  forall k step v v', sn_steps m !! S (S k) = Some step -> views !! S (S k) = Some v -> views !! S k = Some v' ->
    step_ok (touched Fs) (w_os w) step v v'.

Lemma chain_rel lab ent w w' : rel lab ent w w' -> chain w -> chain w'.
Proof.
  intros Hr (? & ? & Hc). split_and!; [done | done |]. intros k step v v' ? ? ?.
  eapply step_ok_frame; [apply (re_frame _ _ _ _ _ Hr) | by eapply Hc].
Qed.

(** What the search knows at a step. *)
Definition searches (h : held) (sni : nat) (b : Z) (w : world) : Prop := reads w /\ chain w /\ at_step h sni b w.

Lemma searches_rely h sni b w w' : rely h w w' -> searches h sni b w -> searches h sni b w'.
Proof. intros Hr (? & ? & ?). split_and!; [by eapply reads_rel | by eapply chain_rel | by eapply at_step_rely]. Qed.

(** A step of the search, with the lock where it is needed. *)
Lemma wp_read_step h sni b from len to buf w :
  (sni < length (sn_steps m))%nat -> searches h sni b w -> ((sni <= 1)%nat -> has_label h (f_label f)) -> part_ok target b from len ->
  wp h (p_read_step m sni b to len from buf) (step_end h sni b from len to buf) w.
Proof.
  intros Hlt (Hrd & (Hlv & H1 & Hc) & Hat) Hl Hp. destruct (lookup_lt_is_Some_2 _ _ Hlt) as [step Hst].
  destruct sni as [| [| k]]; [by eapply wp_step_main | |].
  - destruct Hat as (v & Hv & Hh). assert (v = old) as -> by congruence. eapply wp_step_latest; [done | done | apply Hl; lia | done | done].
  - destruct Hat as (v & Hv & Hh). destruct (lookup_lt_is_Some_2 views (S k)) as [v' Hv']; [lia |].
    eapply wp_step_earlier; [done | done | by eapply Hc | done | done].
Qed.

(** The lock, taken where the loop wants it. *)
Lemma wp_read_lock h lock sni b w :
  searches h sni b w -> lk f h lock ->
  let want := (Z.of_nat sni <=? 1) && (lock =? -1) in
  wp h (if want then plock (locklabel m) else mret lock)
    (fun h' l w' => searches h' sni b w' /\ lk f h' l /\ want && (l <? 0) = false /\ ((sni <= 1)%nat -> has_label h' (f_label f))) w.
Proof.
  intros Hs Hlk want. destruct Hlk as [[-> ->] | (i & -> & ->)].
  - destruct want eqn:Ew; unfold want in *.
    + rewrite (tr_label _ _ _ _ _ (proj1 Hs)). apply (wp_lock _ PRet); [by apply (fa_label _ Hfs) |]. intros w1 i Hr1 Hi.
      apply wp_ret. intros w2 Hr2. split_and!; [| right; by exists i | | done].
      * assert (Hr : rely None w w2) by (etransitivity; [exact Hr1 | by eapply rely_weaken]).
        pose proof (searches_rely _ _ _ _ _ Hr Hs) as (? & ? & Ha). split_and!; [done | done |].
        destruct sni; [by destruct Ha as [? _] | done].
      * cbn. destruct (Z.ltb_spec (Z.of_nat i) 0); [lia | done].
    + apply wp_ret. intros w1 Hr. split_and!; [by eapply searches_rely | by left | done |].
      intros Hle. destruct (Z.leb_spec (Z.of_nat sni) 1); [done | lia].
  - destruct (Z.eqb_spec (Z.of_nat i) (-1)); [lia |]. unfold want. rewrite andb_false_r.
    apply wp_ret. intros w1 Hr. split_and!; [by eapply searches_rely | right; by exists i | done | done].
Qed.

(** It is given back when the search ends. *)
Lemma wp_read_unlock {B} h lock (k : Z -> prog B) Q w :
  lk f h lock -> (forall w1, rely None w w1 -> wp None (k 0) Q w1) ->
  wp h ((if negb (lock =? -1) then punlock lock else mret 0) ≫= k) Q w.
Proof.
  intros [[-> ->] | (i & -> & ->)] H; [by apply H |].
  destruct (Z.eqb_spec (Z.of_nat i) (-1)); [lia |]. apply wp_unlock. intros w1 Hr. apply H. by eapply rely_weaken.
Qed.

Definition search_end (b from len to : Z) (buf : list Z) (h : held) (r : read_next * list Z) (w : world) : Prop :=
  h = None /\ ((r.1 = RNext /\ r.2 = with_part target buf b to len from) \/ (exists ret, r.1 = RReturn ret /\ ret < 0 /\ fl)).

(** The search down the chain finds the old block. *)
Lemma wp_read_sni sni : forall h lock b from len to buf w,
  (sni < length (sn_steps m))%nat -> searches h sni b w -> lk f h lock -> part_ok target b from len ->
  wp h (p_read_sni m (S sni) lock b to len from buf) (search_end b from len to buf) w.
Proof.
  induction sni as [sni IH] using lt_wf_ind. intros h lock b from len to buf w Hlt Hs Hlk Hp.
  cbn [p_read_sni]. apply wp_bind. eapply wp_mono; [| by apply wp_read_lock]. clear Hs Hlk w h.
  intros h l w (Hs & Hlk & -> & Hl). apply wp_bind.
  eapply wp_mono; [| apply (wp_keep (fun w => reads w /\ chain w)); [| split; apply Hs | by eapply wp_read_step]].
  2: { intros w1 w2 Hr [? ?]. split; [by eapply reads_rel | by eapply chain_rel]. }
  clear Hs w. intros h1 [e buf'] w [[-> Hend] [Hrd Hc]]. cbn [fst snd] in Hend. cbv beta iota.
  destruct Hend as [[-> ->] | [(-> & -> & sni' & -> & Hat) | [He Hfl]]].
  - apply wp_read_unlock; [done |]. intros w1 _. apply wp_ret. intros w2 _. split; [done | by left].
  - cbn [Z.eqb]. apply IH; [lia | lia | done | done | done].
  - destruct (Z.eqb_spec e 0); [lia |]. apply wp_read_unlock; [done |]. intros w1 _. cbn [Z.ltb Z.compare].
    destruct (Z.ltb_spec 0 e); [| lia]. apply wp_ret. intros w2 _. split; [done | right]. exists (- e). split_and!; [done | lia | done].
Qed.
End Chain.

(** ** The range *)

(** How a read of [n] bytes from [off] ends. *)
Definition read_end (buf : list Z) (n off : Z) (h : held) (r : Z * list Z) (_ : world) : Prop :=
  h = None /\ ((r.1 = n /\ r.2 = file_write buf (file_read target n off) 0) \/ (r.1 < 0 /\ fl)).

(** One block of the range. *)
Lemma wp_read_block b from len to buf w :
  reads w -> part_ok target b from len ->
  wp None (p_read_sni m (Z.to_nat (sn_first_file m + 1)) (-1) b to len from buf)
    (fun h r w => search_end b from len to buf h r w /\ reads w) w.
Proof.
  intros Hrd Hp. destruct (tr_views _ _ _ _ _ Hrd) as (views & Hlv & H1 & Hfirst & Ht & Hc).
  pose proof (tr_len _ _ _ _ _ Hrd) as Hlen. pose proof (lookup_lt_Some _ _ _ Ht) as Hlt.
  replace (Z.to_nat (sn_first_file m + 1)) with (S (Z.to_nat (sn_first_file m))) by lia.
  apply wp_keep; [by intros ? ? ?; eapply reads_rel | done |].
  apply (wp_read_sni views Hlen); [lia | | by left | done]. split_and!; [done | by split_and! |].
  destruct (Z.to_nat (sn_first_file m)) eqn:E; [lia |]. exists target. split; [done | apply holds_block_refl].
Qed.

Lemma wp_read_loop off size buf n : forall w b,
  reads w -> 0 <= off -> 1 <= size -> size < 2 ^ 31 -> off + size <= zlen target ->
  off / BL_S <= b -> b + Z.of_nat n = (off + size - 1) / BL_S + 1 ->
  wp None (p_read_loop m n b (copied off size b) off size (file_write buf (file_read target (copied off size b) off) 0))
    (read_end buf size off) w.
Proof.
  induction n as [| n IH]; intros w b Hrd Ho Hs Hs31 Hend Hb Hn; pose proof (tr_len _ _ _ _ _ Hrd) as Hlen.
  { replace b with ((off + size - 1) / BL_S + 1) by lia. rewrite copied_end by done. apply wp_ret. intros w1 _.
    split; [done | left]. split; [| done]. apply i32_small. lia. }
  cbn [p_read_loop].
  destruct (b_read_part_eq off size b (S n =? 1)%nat) as (from & E & Hfrom & Hpos & Hfit & Hmono); [lia.. | |].
  { destruct n; cbn; split; intros; (done || lia). }
  rewrite E. clear E. 
  destruct (copied_part target off size buf b from) as [Hp Eb]; [lia.. |].
  set (to := copied off size b) in *. set (to' := copied off size (b + 1)) in *.
  apply wp_bind. eapply wp_mono; [| by apply wp_read_block]. clear Hrd w.
  intros h [out buf'] w [[-> Hpost] Hrd]. cbn [fst snd] in Hpost. cbv beta iota.
  destruct Hpost as [[-> ->] | (r & -> & Hr & Hfl)].
  - rewrite Eb. replace (to + (to' - to)) with to' by lia. apply IH; (done || lia).
  - apply wp_ret. intros w1 _. split; [done | by right].
Qed.

(** [b_read] *)
Lemma wp_b_read buf size off w :
  reads w -> 0 <= off -> 0 <= size < 2 ^ 31 -> off + size < 2 ^ 63 ->
  wp None (p_b_read m buf size off) (read_end buf (read_len target size off) off) w.
Proof.
  intros Hrd Ho Hs Hb. pose proof (tr_len _ _ _ _ _ Hrd). pose proof (zlen_nonneg target).
  assert (Hnone : read_len target size off = 0 -> wp None (mret (0, buf)) (read_end buf (read_len target size off) off) w).
  { intros ->. apply wp_ret. intros w1 _. split; [done | by left]. }
  assert (Hgo : forall n, 1 <= n -> n < 2 ^ 31 -> off + n <= zlen target ->
    wp None (let '(blockoffset, blocknumber) := B_CALC_BLOCKS off n in
             p_read_loop m (Z.to_nat blocknumber) blockoffset 0 off n buf) (read_end buf n off) w).
  { intros n Hn Hn31 Hend. rewrite calc_blocks_eq by lia.
    pose proof (Z.div_le_mono off (off + n - 1) BL_S ltac:(done) ltac:(lia)).
    pose proof (wp_read_loop off n buf (Z.to_nat ((off + n - 1) / BL_S - off / BL_S + 1)) w (off / BL_S) Hrd) as L.
    rewrite copied_first in L by lia. apply L; lia. }
  unfold p_b_read. rewrite (tr_size _ _ _ _ _ Hrd). destruct (Z.eqb_spec size 0) as [-> | ?].
  { apply Hnone. unfold read_len. lia. }
  cbv zeta. rewrite !u64_small by lia. destruct (Z.ltb_spec (zlen target) (off + size)).
  - destruct (Z.leb_spec (zlen target) off); [apply Hnone; unfold read_len; lia |].
    rewrite u64_small by lia. replace (read_len target size off) with (zlen target - off) by (unfold read_len; lia).
    apply Hgo; lia.
  - replace (read_len target size off) with size by (unfold read_len; lia). apply Hgo; lia.
Qed.
End Reads.

(** ** The handler *)

Section Handler.
Context (Fs : list finfo) (writers : gmap Z (finfo * bool)) (readers : gmap Z (finfo * option (list Z))) (fl : Prop).
Context (Hfs : files_apart Fs).

#[local] Instance a_protocol : Protocol event := thread_protocol Fs writers readers fl.

Context (fh : Z) (f : finfo) (buf : list Z) (size off : Z) (Ho : 0 <= off) (Hs : 0 <= size < 2 ^ 31) (Hb : off + size < 2 ^ 63).

(** [read] in a snapshot gets the old bytes, or fails because a call failed. *)
Lemma wp_read target w :
  readers !! fh = Some (f, Some target) ->
  wp None (p_read fh buf size off) (read_end fl target buf (read_len target size off) off) w.
Proof.
  intros Hw. unfold p_read. apply wp_look. intros n w1 Hr Hi.
  destruct (ti_readers _ _ _ _ _ _ Hi fh f _ Hw) as (Hin & m & Hm & Hok).
  exists m. split; [unfold get_mfd; by rewrite Hm |]. rewrite (tr_full _ _ _ _ _ Hok).
  apply wp_look. intros n2 w2 Hr2 Hi2. exists (sn_number (w_fs w2)). split; [done |].
  pose proof (reads_rel Fs f target m _ _ _ _ Hr2 Hok) as Hok2. rewrite (tr_number _ _ _ _ _ Hok2), Z.eqb_refl.
  apply (wp_b_read _ _ _ _ Hfs f Hin); (done || lia).
Qed.

(** [read] in the main space is an event: it gets the contents of that moment. *)
Lemma ewp_read_main R l w :
  readers !! fh = Some (f, None) -> (forall out, R (l ++ [(ORead fh buf size off, out)])) ->
  ewp R None l (p_read fh buf size off) (fun h l' r _ => h = None /\
    ((0 <= r.1 <= size /\ l' = l ++ [(ORead fh buf size off, Got r.1 r.2)]) \/ (r.1 < 0 /\ fl /\ l' = l))) w.
Proof.
  intros Hw HR. unfold p_read. apply ewp_look. intros n w1 Hr Hi.
  destruct (ti_readers _ _ _ _ _ _ Hi fh f _ Hw) as (Hin & m & Hm & Hmain & acc & app & Hopen & Hacc).
  exists m. split; [unfold get_mfd; by rewrite Hm |]. rewrite Hmain.
  apply ewp_act. intros n2 w2 Hr2 Hi2. pose proof (ti_files _ _ _ _ _ _ Hi2 f Hin) as F.
  destruct (inv_fd_file _ _ _ _ _ _ _ _ _ _ _ (rely_open _ _ _ _ _ _ _ _ _ _ _ Hr2 Hopen) (fo_main _ _ _ F) Hi2) as [Hfd Ha].
  destruct (failed_step _ _ _ _ n2 w2 Hi2) as (Hi3 & Hrel & Hev).
  destruct (sys_pread_spec _ Ha _ _ _ _ _ Hfd size off) as [E | (e & He & Hfl & E)]; [done | done | |].
  - set (d := file_read _ _ _) in E. assert (Hd : 0 <= zlen d <= size).
    { pose proof (zlen_nonneg d). split; [done |]. unfold d. rewrite zlen_file_read by lia. lia. }
    eexists _, _, [(ORead fh buf size off, Got (zlen d) (file_write buf d 0))].
    split_and!; [by apply sys_run | done | apply Hrel | | right; apply HR |].
    + intros g Hg. cbn. split; [| by apply Hev]. intros Hg'. simplify_eq. done.
    + apply ewp_ret. intros w3 _. split; [done | left]. rewrite i32_small by lia. done.
  - eexists _, _, []. rewrite app_nil_r. split_and!; [by apply sys_run | done | apply Hrel | done | by left |].
    apply ewp_ret. intros w3 _. split; [done | right]. split_and!; [cbn; lia | by apply (ti_faulty _ _ _ _ _ _ Hi2) | done].
Qed.
End Handler.
