(* ===== verification/ThreadTheorems.v ===== *)
(** Requests served by threads at the same time.

    Any number of threads, each with its list of requests, write, truncate
    and read through handles in order ([writer_ok], [handle_ok]) of any number
    of files; the scheduler switches at every access to what they share.  Calls
    may fail, and none is cut short.  [parallel_requests_isolated]
    is the property: the copy-on-write invariant of every file holds at every
    moment, each request that has returned has the result the specification
    gives it, a reader of a snapshot having got the old bytes, and no step is
    undefined.  [parallel_requests_linearizable] says what becomes of the
    files: the requests take effect one at a time, in some order that keeps
    the order of each thread.  [snapshot_during_write] shows
    what the code does not protect: a snapshot taken while a write is under
    way. *)

From S2P Require Import Prelude Posix PosixSpec Types Mflock Block CopyOnWrite BlockWrite BlockRead.
From S2P Require Import Mfd FuseFd SnapshotIsolation SmallSystem MflockConc Threads ThreadCode.
From S2P Require Import ThreadProtocol ThreadSteps ThreadWrites ThreadReads.
From S2P Require Import FusePath EndToEnd.

(** ** Requests and their results *)

Section Requests.
Context (writers : gmap Z (finfo * bool)) (readers : gmap Z (finfo * option (list Z))) (fl : Prop).

(** Through a handle of the right kind, and within the range of [off_t] and
    of the return value. *)
Definition request_ok (o : op) : Prop :=
  match o with
  | OWrite fh buf off => is_Some (writers !! fh) /\ 0 <= off /\ zlen buf < 2 ^ 31 /\ off + zlen buf < 2 ^ 63
  | OTruncate fh n => is_Some (writers !! fh) /\ 0 <= n
  | ORead fh buf size off => is_Some (readers !! fh) /\ 0 <= off /\ 0 <= size < 2 ^ 31 /\ off + size < 2 ^ 63
  end.

(** A write and a truncation are done, a read in a snapshot has the bytes of
    the snapshot, and one in the main space some bytes; a failure is the
    failure of a call. *)
Definition result_ok (o : op) (out : outcome) : Prop :=
  match o, out with
  | OWrite fh buf off, Ret r => r = i32 (zlen buf) \/ (r < 0 /\ fl)
  | OTruncate fh n, Ret r => r = 0 \/ (r < 0 /\ fl)
  | ORead fh buf size off, Got r buf' =>
      match readers !! fh with
      | Some (_, Some target) =>
          (r = read_len target size off /\ buf' = file_write buf (file_read target (read_len target size off) off) 0) \/
          (r < 0 /\ fl)
      | Some (_, None) => 0 <= r <= size \/ (r < 0 /\ fl)
      | None => False
      end
  | _, _ => False
  end.

(** The requests on the main files that had an effect or saw one, by their results. *)
Definition done_op (o : op) (out : outcome) : list event :=
  match o, out with
  | (OWrite _ _ _ | OTruncate _ _), Ret r => if 0 <=? r then [(o, out)] else []
  | ORead fh _ _ _, Got r _ =>
      match readers !! fh with Some (_, None) => if 0 <=? r then [(o, out)] else [] | _ => [] end
  | _, _ => []
  end.
Definition done_ops (ops : list op) (outs : list outcome) : list event := mjoin (zip_with done_op ops outs).

Lemma done_op_cases o out : done_op o out = [] \/ done_op o out = [(o, out)].
Proof. destruct o, out; cbn; repeat case_match; auto. Qed.

Context (Fs : list finfo) (Hfs : files_apart Fs).
#[local] Instance requests_protocol : Protocol event := thread_protocol Fs writers readers fl.

(** How a request ends. *)
Definition op_end (l : list event) (o : op) (h : held) (l' : list event) (out : outcome) (_ : world) : Prop :=
  h = None /\ result_ok o out /\ l' = l ++ done_op o out.

Lemma ewp_op_change R l o p ok w :
  match o with OWrite _ buf _ => ok = i32 (zlen buf) /\ 0 <= ok | OTruncate _ _ => ok = 0 | ORead _ _ _ _ => False end ->
  ewp R None l p (change_end fl l o ok) w -> ewp R None l (r ← p; mret (Ret r)) (op_end l o) w.
Proof.
  intros Hok Hp. apply ewp_bind. eapply ewp_mono; [| exact Hp]. intros h l' r w1 [-> Hr]. apply ewp_ret. intros w2 _.
  destruct Hr as [[-> ->] | (Hr & Hfl & ->)]; (split_and!; [done | ..]); destruct o as [fh buf off | fh n |]; try done; cbn.
  - left. apply Hok.
  - by left.
  - destruct (Z.leb_spec 0 ok); [done | lia].
  - by subst ok.
  - by right.
  - by right.
  - destruct (Z.leb_spec 0 r); [lia | by rewrite app_nil_r].
  - destruct (Z.leb_spec 0 r); [lia | by rewrite app_nil_r].
Qed.

Lemma ewp_op R l o w : request_ok o -> (forall out, R (l ++ [(o, out)])) -> ewp R None l (p_op o) (op_end l o) w.
Proof.
  destruct o as [fh buf off | fh n | fh buf size off]; cbn [request_ok p_op]; intros Ho HR.
  - destruct Ho as ([[f app] Hw] & ? & ? & ?). pose proof (zlen_nonneg buf).
    eapply ewp_op_change; [split; [done |] | by apply (ewp_write _ _ _ _ Hfs _ _ _ Hw)]. rewrite i32_small; lia.
  - destruct Ho as ([[f app] Hw] & ?). eapply ewp_op_change; [done | by apply (ewp_ftruncate _ _ _ _ Hfs _ _ _ Hw)].
  - destruct Ho as ([[f [target |]] Hw] & ? & ? & ?).
    + apply ewp_quiet. eapply wp_mono; [| by eapply (wp_read _ _ _ _ Hfs)].
      intros h [r buf'] w1 [-> Hr]. apply ewp_ret. intros w2 _. unfold op_end. cbn. rewrite Hw, app_nil_r. done.
    + apply ewp_bind. eapply ewp_mono; [| by eapply (ewp_read_main _ _ _ _ fh f)]. cbn.
      intros h l' [r buf'] w1 [-> Hr]. apply ewp_ret. intros w2 _. unfold op_end. cbn in *. rewrite Hw.
      destruct Hr as [[Hr ->] | (Hr & Hfl & ->)]; destruct (Z.leb_spec 0 r); try lia; split_and!; auto. by rewrite app_nil_r.
Qed.

Lemma ewp_ops R ops : forall l w,
  Forall request_ok ops -> (forall l', l'.*1 `sublist_of` ops -> R (l ++ l')) ->
  ewp R None l (p_ops ops) (fun h l' outs _ => h = None /\ Forall2 result_ok ops outs /\ l' = l ++ done_ops ops outs) w.
Proof.
  induction ops as [| o ops IH]; intros l w Hall HR.
  { apply ewp_ret. intros w1 _. split_and!; [done | done | by rewrite app_nil_r]. }
  apply Forall_cons in Hall as [Ho Hops]. cbn [p_ops]. apply ewp_bind.
  eapply ewp_mono; [| apply ewp_op; [done | intros out; apply HR, sublist_skip, sublist_nil_l]]. intros h l1 out w1 (-> & Hout & ->).
  apply ewp_bind. eapply ewp_mono; [| apply IH; [done |]].
  - intros h l2 outs w2 (-> & Houts & ->). apply ewp_ret. intros w3 _. split_and!; [done | by constructor |].
    unfold done_ops. cbn. by rewrite app_assoc.
  - intros l' Hl'. rewrite <-app_assoc. apply HR. rewrite fmap_app.
    destruct (done_op_cases o out) as [-> | ->]; [by apply sublist_cons | by apply sublist_skip].
Qed.

(** The threads, run for a while. *)
Lemma threads_run sched n w (ops : nat -> list op) :
  tinv Fs writers readers fl (length sched + n) w -> (forall t, Forall request_ok (ops t)) ->
  exists log, ginv (fun t l => l.*1 `sublist_of` ops t)
    (fun t l outs => Forall2 result_ok (ops t) outs /\ l = done_ops (ops t) outs) w n log
    (interleave sched (gstart w (fun t => p_ops (ops t)))).
Proof.
  intros Hi Hops. eapply ginv_interleave, ginv_start; [done | intros t; apply sublist_nil_l |].
  intros t. by apply ewp_ops.
Qed.
End Requests.

(** ** The properties *)

(** C4 (requests served in parallel): any number of threads, each with its
    list of requests, write, truncate and read through any number of handles
    in order, as in [parallel_requests_linearizable], of any number of files,
    and the scheduler switches between them at every system call, every access
    to shared memory and every step inside the lock table.  System calls may
    fail, and none is cut short.  At every moment each file and its map and
    dat files satisfy the copy-on-write invariant, so the contents at the
    latest snapshot can be recovered; a thread that has returned holds no
    lock, its writes and truncations report success and its reads of snapshots
    got the bytes of the snapshot, unless a call failed; and a thread that
    cannot go on has returned or waits for a mutex of the lock table: no step
    is undefined. *)
Theorem parallel_requests_isolated Fs writers readers (fl : Prop) (ops : nat -> list op) sched w :
  files_apart Fs -> tinv Fs writers readers fl (S (length sched)) w ->
  (forall t, Forall (request_ok writers readers) (ops t)) ->
  let s := interleave sched (gstart w (fun t => p_ops (ops t))) in
  (forall f, f ∈ Fs -> cow (f_old f) (fdata (g_world s) (f_main f)) (fdata (g_world s) (f_map f)) (fdata (g_world s) (f_dat f))) /\
  (forall t outs, returned s t outs -> c_pc (g_locks s) t = Idle /\ Forall2 (result_ok readers fl) (ops t) outs) /\
  (forall t, gexec t s = None -> (exists outs, returned s t outs) \/ waits s t).
Proof.
  intros Hfs Hi Hops s. replace (S (length sched)) with (length sched + 1)%nat in Hi by lia.
  destruct (threads_run writers readers fl Fs Hfs sched 1 w ops Hi Hops) as [log Hg]. fold s in Hg. split_and!.
  - intros f Hf. apply (fo_cow _ _ _ (ti_files _ _ _ _ _ _ (gi_inv _ _ _ _ _ _ Hg) f Hf)).
  - intros t outs Hr. by destruct (ginv_returned _ _ _ _ _ _ _ _ Hg Hr) as (? & ? & _).
  - intros t. by eapply ginv_stops.
Qed.

(** C3 (parallel requests take effect one at a time): any number of
    threads write, truncate and read through handles that are in order: for
    writing, handles made since the latest snapshot of files that existed and
    were not empty then, with the map and the dat file open; for reading
    snapshots, handles with the map file of the latest snapshot open; and
    handles on main files for reading.  A system call does all that it was
    asked to or fails, none is cut short.  Then under every interleaving there
    is an order of requests whose effects, one after the other, give the
    current contents of every file from the contents at the start; a read of a
    file in the main space has the contents of its place in that order.  The
    requests of each thread are in it in the order in which the thread makes
    them, none twice; and of a thread that has returned exactly the writes,
    truncations and main reads that reported success. *)
Theorem parallel_requests_linearizable Fs writers readers (fl : Prop) (ops : nat -> list op) sched w :
  files_apart Fs -> tinv Fs writers readers fl (length sched) w ->
  (forall t, Forall (request_ok writers readers) (ops t)) ->
  let s := interleave sched (gstart w (fun t => p_ops (ops t))) in
  exists log : list (nat * event),
    (forall f, f ∈ Fs -> replay writers readers f (fdata w (f_main f)) log.*2 (fdata (g_world s) (f_main f))) /\
    (forall t, (mine t log).*1 `sublist_of` ops t) /\
    (forall t outs, returned s t outs -> mine t log = done_ops readers (ops t) outs).
Proof.
  intros Hfs Hi Hops s. rewrite <-(Nat.add_0_r (length sched)) in Hi.
  destruct (threads_run writers readers fl Fs Hfs sched 0 w ops Hi Hops) as [log Hg]. fold s in Hg. exists log. split_and!.
  - apply (gi_log _ _ _ _ _ _ Hg).
  - apply (gi_mine _ _ _ _ _ _ Hg).
  - intros t outs Hr. by destruct (ginv_returned _ _ _ _ _ _ _ _ Hg Hr) as (_ & _ & ?).
Qed.

(** ** Where the threads can start *)

Section Start.
Context (lock_ unlock_ : Z -> M Z) {LS : LockService lock_ unlock_}.
Context (im ip id : nat) (old : list Z) (L : Z).
Context (writers : gmap Z bool) (readers : gmap Z (list Z)).
Abbreviation info := (FInfo im ip id old L).

Lemma the_files_touched i : the_files im ip id i <-> touched [info] i.
Proof.
  unfold the_files, touched. split.
  - intros Hi. exists info. split; [by left |]. destruct Hi as [-> | [-> | ->]]; [apply (in_main info) | apply (in_map info) | apply (in_dat info)].
  - intros (f & ->%list_elem_of_singleton & Hi). cbn in Hi.
    repeat (apply elem_of_cons in Hi as [-> | Hi]; [auto |]). by apply not_elem_of_nil in Hi.
Qed.

Lemma reader_threads w target m :
  reader_ok im ip id old w target m -> locklabel m = L -> treader_ok [info] w info target m.
Proof.
  intros [Hfull Hn (s0 & s1 & rest & vrest & accm & appm & accd & Est & Hlen & [Hm ?] & [? Hp] & (appd & Hd & ?) & Hc & Hf & Ht) ? ? ?] Hl.
  split; try done; rewrite ?Est.
  - exists ([] :: old :: vrest). split_and!; [cbn; by rewrite Hlen | done | done | |].
    + by replace (Z.to_nat (sn_first_file m)) with (S (Z.to_nat (sn_first_file m - 1))) by lia.
    + intros k step v v' ? ? ?. eapply step_ok_weaken; [| by eapply (Hc k)]. intros i. apply the_files_touched.
  - intros step [= <-]. eauto.
  - intros step [= <-]. split_and!; [done | exists O_RDONLY; done | eauto].
Qed.

(** The invariant that [open] establishes and that requests served one after
    the other keep is one that threads can start from, as long as the dat
    file has room for the steps. *)
Lemma threads_can_start n w main map dat :
  file_inv lock_ unlock_ im ip id old writers readers w main map dat ->
  zlen dat + Z.of_nat n * BL_S < 2 ^ 62 -> L <> 0 -> 
  (forall fh m, is_Some (writers !! fh) \/ is_Some (readers !! fh) -> w_mfds w !! fh = Some m -> locklabel m = L) ->
  files_apart [info] /\
  tinv [info] ((fun app => (info, app)) <$> writers) ((fun target => (info, Some target)) <$> readers) (faulty (w_os w)) n w.
Proof.
  intros [Hm Hp Hd (? & ? & ?) Hc Hold Hal Hbuf _ Hat Hws Hrs] Hroom HL Hlab.
  pose proof (fdata_regular _ _ _ Hm) as Em. pose proof (fdata_regular _ _ _ Hp) as Ep. pose proof (fdata_regular _ _ _ Hd) as Ed.
  split; split; try done.
  - cbn. rewrite !NoDup_cons, !not_elem_of_cons. split_and!; auto using NoDup_nil_2, not_elem_of_nil.
  - by intros f ->%list_elem_of_singleton.
  - by intros f ->%list_elem_of_singleton.
  - intros f ->%list_elem_of_singleton. split; cbn; by rewrite ?Em, ?Ep, ?Ed.
  - intros fh f app Hw. apply lookup_fmap_Some in Hw as (? & [= <- <-] & Hw). split; [by left |].
    destruct (Hws fh _ Hw) as (m & Em' & Hok). exists m. cbn. rewrite Ep. split_and!; [done | done | eapply Hlab; eauto].
  - intros fh f view Hr. apply lookup_fmap_Some in Hr as (target & [= <- <-] & Hr). split; [by left |].
    destruct (Hrs fh _ Hr) as (m & Em' & Hok). exists m. split; [done |]. apply reader_threads; [done | eapply Hlab; eauto].
Qed.
End Start.

(** ** A small system *)

(** The file of [SmallSystem], its writer, which may read too, and its reader. *)
Definition sm_info : finfo := FInfo 3 6 7 sm_old sm_label.
Definition sm_twriters : gmap Z (finfo * bool) := {[ 100 := (sm_info, false) ]}.
Definition sm_treaders : gmap Z (finfo * option (list Z)) := {[ 100 := (sm_info, None); 200 := (sm_info, Some sm_old) ]}.

Lemma sm_treader_ok faults : treader_ok [sm_info] (sm_world faults) sm_info sm_old sm_reader.
Proof.
  split; try done.
  - exists [[]; sm_old]. split_and!; done.
  - intros step [= <-]. exists O_RDONLY, false. split; [by apply sm_open | done].
  - intros step [= <-]. split_and!; [done | |].
    + exists O_RDONLY. split; [by apply sm_open | done].
    + exists O_RDONLY, false. split; [by apply sm_open | done].
Qed.

Lemma sm_files_apart : files_apart [sm_info].
Proof.
  split.
  - by apply (bool_decide_unpack _).
  - by intros f ->%list_elem_of_singleton.
  - by intros f ->%list_elem_of_singleton.
Qed.

Lemma sm_tinv n : Z.of_nat n * BL_S < 2 ^ 62 -> tinv [sm_info] sm_twriters sm_treaders False n (sm_world []).
Proof.
  intros Hn. split.
  - intros f ->%list_elem_of_singleton. split; try done; try (by apply sm_regular).
    by apply cow_fresh; [apply sm_header_ok |].
  - exists (zeros BL_S). split; [done |]. by rewrite zlen_zeros.
  - by apply Forall_nil.
  - by intros [e He%not_elem_of_nil].
  - unfold sm_twriters. intros fh f app [<- [= <- <-]]%lookup_singleton_Some. split; [by left |].
    exists sm_writer. split_and!; [done | apply sm_writer_ok | done].
  - unfold sm_treaders. intros fh f view [[<- [= <- <-]] | [_ [<- [= <- <-]]%lookup_singleton_Some]]%lookup_insert_Some; (split; [by left |]).
    + exists sm_writer. split; [done |]. split; [done |]. exists O_RDWR, false. split; [by apply sm_open | done].
    + exists sm_reader. split; [done | apply sm_treader_ok].
Qed.

(** Threads 0 and 2 write, truncate and read through the same handle while
    thread 1 reads the snapshot. *)
Definition sm_ops (t : nat) : list op :=
  match t with
  | 0%nat => [OWrite 100 [77; 78] 1; OTruncate 100 2]
  | 1%nat => [ORead 200 [] 5 0; ORead 200 [] 4 1]
  | 2%nat => [OWrite 100 [99] 4; ORead 100 [] 9 1]
  | _ => []
  end.

Definition sm_sched : list nat := mjoin (replicate 250 [0%nat; 0%nat; 1%nat; 2%nat]).

Lemma sm_requests t : Forall (request_ok sm_twriters sm_treaders) (sm_ops t).
Proof. destruct t as [| [| [| t]]]; repeat constructor; cbn; eauto; lia. Qed.

Lemma parallel_requests_isolated_witness :
  let s := interleave sm_sched (gstart (sm_world []) (fun t => p_ops (sm_ops t))) in
  returned s 0 [Ret 2; Ret 0] /\
  returned s 1 [Got 5 [10; 20; 30; 40; 50]; Got 4 [20; 30; 40; 50]] /\
  cow sm_old (fdata (g_world s) 3) (fdata (g_world s) 6) (fdata (g_world s) 7) /\
  c_pc (g_locks s) 1 = Idle.
Proof.
  intros s.
  assert (Hr : returned s 1 [Got 5 [10; 20; 30; 40; 50]; Got 4 [20; 30; 40; 50]]) by (vm_compute; reflexivity).
  destruct (parallel_requests_isolated [sm_info] sm_twriters sm_treaders False sm_ops sm_sched (sm_world [])) as (Hc & Hret & _).
  - apply sm_files_apart.
  - by apply sm_tinv.
  - apply sm_requests.
  - split_and!; [vm_compute; reflexivity | exact Hr | apply (Hc sm_info); by left | apply (Hret _ _ Hr)].
Defined.

Lemma parallel_requests_linearizable_witness :
  let s := interleave sm_sched (gstart (sm_world []) (fun t => p_ops (sm_ops t))) in
  fdata (g_world s) 3 = [10; 77; 0; 0; 99] /\
  exists log, replay sm_twriters sm_treaders sm_info sm_old log.*2 (fdata (g_world s) 3) /\
    mine 0 log = [(OWrite 100 [77; 78] 1, Ret 2); (OTruncate 100 2, Ret 0)] /\ mine 1 log = [] /\
    mine 2 log = [(OWrite 100 [99] 4, Ret 1); (ORead 100 [] 9 1, Got 4 [77; 0; 0; 99])].
Proof.
  intros s.
  destruct (parallel_requests_linearizable [sm_info] sm_twriters sm_treaders False sm_ops sm_sched (sm_world [])) as (log & Hm & _ & Hret).
  - apply sm_files_apart.
  - by apply sm_tinv.
  - apply sm_requests.
  - split; [vm_compute; reflexivity |]. exists log. split_and!; [apply (Hm sm_info); by left | ..].
    + apply (Hret 0%nat [Ret 2; Ret 0]). vm_compute. reflexivity.
    + apply (Hret 1%nat [Got 5 [10; 20; 30; 40; 50]; Got 4 [20; 30; 40; 50]]). vm_compute. reflexivity.
    + apply (Hret 2%nat [Ret 1; Got 4 [77; 0; 0; 99]]). vm_compute. reflexivity.
Defined.

(** ** A snapshot taken during a write *)

(** A step of another thread leaves a thread where it is. *)
Lemma gexec_other {A} (s s' : gstate A) t u : gexec u s = Some s' -> u <> t -> g_thread s' t = g_thread s t.
Proof.
  intros E Hne. unfold gexec in E. repeat (case_match; try done); injection E as <-; cbn; apply upd_other; congruence.
Qed.

Lemma interleave_other {A} t sched : forall s : gstate A, t ∉ sched -> g_thread (interleave sched s) t = g_thread s t.
Proof.
  induction sched as [| u r IH]; intros s Hs; [done |]. apply not_elem_of_cons in Hs as [Hne Hr]. cbn [interleave]. rewrite IH by done.
  destruct (gexec u s) as [s' |] eqn:E; [| done]. eapply gexec_other; [exact E | congruence].
Qed.


(** Thread 0 writes [/f] through the handle 100, opened when there was no
    snapshot; thread 1 takes the snapshot [s1]. *)
Definition rc_world : world :=
  let w := n_world [10; 20; 30; 40; 50] in
  World (Os (os_names (w_os w)) (os_inodes (w_os w)) {[ 3 := OFile 3 O_RDWR false 0 ]} []) (w_fs w)
    {[ 100 := Mfd mfd_main sm_header sm_label 0 3 None MFD_FD_NOSN MFD_FD_NOSN "/f" 0 0 0 [] ]} [] sm_writer 1.

Definition rc_progs (t : nat) : prog Z :=
  match t with
  | 0%nat => p_write 100 [1; 2; 3] 1
  | 1%nat => act (esfs_mkdir mflock_lock mflock_unlock "/snapshots/s1" 448)
  | _ => mret 0
  end.


(** The same end to end: thread 0 writes a file; thread 1 takes a snapshot
    and twice opens and reads the file in it.  The requests of thread 1 are
    one step each: thread 0 stands still meanwhile. *)
Definition race_write : prog (list outcome) :=
  f ← act (esfs_open mflock_lock mflock_unlock "/f" O_WRONLY);
  r ← p_op (OWrite (fh_of f) [1; 2; 3] 1);
  mret [r].

Definition race_look : prog outcome :=
  f ← act (esfs_open mflock_lock mflock_unlock "/snapshots/s1/f" O_RDONLY);
  '(r, buf) ← act (esfs_read mflock_lock mflock_unlock (fh_of f) [] 5 0);
  mret (Got r buf).

Definition race_snapshot : prog (list outcome) :=
  r ← act (esfs_mkdir mflock_lock mflock_unlock "/snapshots/s1" 448);
  first ← race_look;
  second ← race_look;
  mret [Ret r; first; second].

(** The file is opened and the write has validated its handle; the snapshot is
    taken and read; the write goes on; the snapshot is read again. *)
Definition race_sched : list nat := [0; 0; 0; 1; 1; 1; 0; 1; 1]%nat.

(** Every call succeeds, and the file in the snapshot first has its old
    contents and then, opened again, the bytes written after the snapshot was
    taken. *)
Example race_changes_snapshot :
  let s := interleave race_sched
    (gstart (n_world [10; 20; 30; 40; 50]) (fun t => match t with 0%nat => race_write | 1%nat => race_snapshot | _ => mret [] end)) in
  returned s 0 [Ret 3] /\
  returned s 1 [Ret 0; Got 5 [10; 20; 30; 40; 50]; Got 5 [10; 1; 2; 3; 50]].
Proof. split; vm_compute; reflexivity. Qed.
