(* ===== verification/ThreadSolo.v ===== *)
(** A thread that runs alone computes what the functions of [Block] and [FuseFd]
    compute.  Those pass the handle as a value and store it at the end;
    the programs change it in place. *)

From S2P Require Import Prelude Posix Types Mflock Block Mfd FuseFd SnapshotIsolation SmallSystem Threads ThreadCode.

(** ** Computations that do not look at the handles *)

Definition neutral {A} (m : M A) : Prop :=
  forall h w, m (set_mfds h w) = match m w with Some (a, w') => Some (a, set_mfds h w') | None => None end.

Lemma neutral_keeps {A} (m : M A) w a w' : neutral m -> m w = Some (a, w') -> w_mfds w' = w_mfds w.
Proof.
  intros Hn E. pose proof (Hn (w_mfds w) w) as E'. replace (set_mfds (w_mfds w) w) with w in E' by by destruct w.
  rewrite E in E'. injection E' as ->. done.
Qed.

Lemma neutral_sys {A} (f : os -> res A * os) : neutral (sys f).
Proof. intros h w. unfold sys. cbn. by destruct (f (w_os w)). Qed.

Lemma neutral_ret {A} (a : A) : neutral (mret a).
Proof. done. Qed.

Lemma neutral_bind {A B} (m : M A) (f : A -> M B) : neutral m -> (forall a, neutral (f a)) -> neutral (m ≫= f).
Proof. intros Hm Hf h w. unfold mbind, ST_bind. rewrite Hm. destruct (m w) as [[a w'] |]; [apply Hf | done]. Qed.

Lemma neutral_modify g : neutral (modify_fs g).
Proof. done. Qed.

Lemma neutral_malloc_block : neutral malloc_block.
Proof. intros h w. unfold malloc_block. cbn. by destruct (pop_fault (w_os w)) as [[] ?]. Qed.

Lemma neutral_buf_get b : neutral (buf_get b).
Proof.
  destruct b; [done | | done]. intros h w. cbn. unfold mbind, ST_bind. cbn. by destruct (block_buffer (w_fs w)).
Qed.

Lemma neutral_buf_set b m : neutral (buf_set b m).
Proof. by destruct b. Qed.

Lemma neutral_buf_free b : neutral (buf_free b).
Proof. by destruct b. Qed.

Lemma neutral_read_pointer fd off : neutral (read_pointer fd off).
Proof. apply neutral_bind; [apply neutral_sys | intros; apply neutral_ret]. Qed.

Lemma neutral_get_buf st : neutral (b_get_buf st).
Proof.
  unfold b_get_buf. destruct (bw_buf st); [| apply neutral_ret..]. case_match; [apply neutral_ret |].
  apply neutral_bind; [apply neutral_malloc_block | intros; apply neutral_ret].
Qed.

Create HintDb neutral.
#[export] Hint Resolve neutral_sys neutral_ret neutral_modify neutral_malloc_block neutral_buf_get neutral_buf_set
  neutral_buf_free neutral_read_pointer neutral_get_buf : neutral.

(** A buffer that has been filled is read back, whatever calls come between. *)
Lemma buf_get_set b m b' w w' : buf_set b m w = Some (b', w') -> buf_get b' w' = Some (m, w').
Proof. by destruct b; intros [= <- <-]. Qed.

Lemma buf_get_os b m w s : buf_get b w = Some (m, w) -> buf_get b (set_os s w) = Some (m, set_os s w).
Proof.
  destruct b as [| | mem]; cbn; [done | |]; unfold mbind, ST_bind; cbn.
  - destruct (block_buffer (w_fs w)); [| done]. by intros [= ->].
  - by intros [= ->].
Qed.

(** [b_write] changes nothing of the handle but the cached block number. *)
Ltac walk H :=
  repeat first
    [ apply st_bind_inv in H as (? & ? & _ & H)
    | match type of H with context [match ?x with _ => _ end] => destruct x end ].

Definition same_but_cache (m m' : mfd_t) : Prop := exists c, m' = set_cache c m.

Lemma same_but_cache_refl m : same_but_cache m m.
Proof. exists (latest_written_block_cache m). by destruct m. Qed.

Lemma append_same_mfd st mem b w stop st' w' :
  b_append st mem b w = Some (stop, st', w') -> same_but_cache (bw_mfd st) (bw_mfd st').
Proof.
  unfold b_append. intros H. walk H; injection H as <- <- <-; first [apply same_but_cache_refl | by eexists].
Qed.

Lemma save_same_mfd st b w stop st' w' :
  b_save_block st b w = Some (stop, st', w') -> same_but_cache (bw_mfd st) (bw_mfd st').
Proof.
  unfold b_save_block. intros H. apply st_bind_inv in H as (buf & w1 & _ & H).
  destruct buf as [b1 |]; [| injection H as <- <- <-; apply same_but_cache_refl].
  apply st_bind_inv in H as (r & w2 & _ & H).
  destruct r as [d | e]; [| injection H as <- <- <-; apply same_but_cache_refl].
  apply st_bind_inv in H as (mem & w3 & _ & H). apply st_bind_inv in H as (b2 & w4 & _ & H).
  case_match; [injection H as <- <- <-; apply same_but_cache_refl |]. by apply append_same_mfd in H.
Qed.

Lemma block_same_mfd lock_ st b w stop st' w' :
  b_write_block lock_ st b w = Some (stop, st', w') -> same_but_cache (bw_mfd st) (bw_mfd st').
Proof.
  unfold b_write_block. intros H.
  walk H; first [by apply save_same_mfd in H | injection H as <- <- <-; first [apply same_but_cache_refl | by eexists]].
Qed.

Lemma loop_same_mfd lock_ n : forall st b w st' w',
  b_write_loop lock_ n st b w = Some (st', w') -> same_but_cache (bw_mfd st) (bw_mfd st').
Proof.
  induction n as [| n IH]; intros st b w st' w' H; [injection H as <- <-; apply same_but_cache_refl |].
  apply st_bind_inv in H as ([stop st1] & w1 & E & H). apply block_same_mfd in E as [c E].
  destruct stop; [injection H as <- <-; by exists c |].
  apply IH in H as [c' ->]. exists c'. by rewrite E.
Qed.

Lemma write_same_mfd lock_ unlock_ m size off fl w r m' w' :
  b_write lock_ unlock_ m size off fl w = Some (r, m', w') -> same_but_cache m m'.
Proof.
  unfold b_write. intros H. case_match; [injection H as <- <- <-; apply same_but_cache_refl |]. cbv zeta in H.
  assert (Hgo : forall sz, (let '(b, n) := B_CALC_BLOCKS off sz in
      st ← b_write_loop lock_ (Z.to_nat n) (BwState m (if has fl B_WRITE_HAS_LOCK then -2 else -1) BufNull 0) b;
      b_write_cleanup unlock_ st fl) w = Some (r, m', w') -> same_but_cache m m').
  { intros sz. destruct (B_CALC_BLOCKS off sz) as [b n]. intros E. apply st_bind_inv in E as (st & w1 & E & Hc).
    apply loop_same_mfd in E. unfold b_write_cleanup in Hc.
    case_match; [| injection Hc as <- <- <-; done]. apply st_bind_inv in Hc as (lock & w2 & _ & Hc).
    apply st_bind_inv in Hc as (u & w3 & _ & Hc). by injection Hc as <- <- <-. }
  destruct (_ <? u64 (off + size)); [destruct (_ <=? off) |]; [| by eapply Hgo..].
  injection H as <- <- <-. apply same_but_cache_refl.
Qed.

Section Solo.
Context (lock_ unlock_ : Z -> M Z).
Context (Hlock : forall l, neutral (lock_ l)) (Hunlock : forall i, neutral (unlock_ i)) (fh : Z).

(** The world in which the handle at [fh] is [m]. *)
Definition with_mfd (m : mfd_t) (w : world) : world := set_mfds (<[fh := m]> (w_mfds w)) w.

(** The results of the function of [Block], as those of the program. *)
Definition strip (st : bw_state) : pw_state := PwState (bw_lock st) (bw_buf st) (bw_err st).
Definition emb (r : option (bool * bw_state * world)) : option (bool * pw_state * world) :=
  match r with Some (stop, st, w) => Some (stop, strip st, with_mfd (bw_mfd st) w) | None => None end.

Lemma with_mfd_get m w : get_mfd fh (with_mfd m w) = Some (m, with_mfd m w).
Proof. unfold get_mfd, with_mfd. cbn. by rewrite lookup_insert_eq. Qed.

Lemma load_cache_run m w : load_cache fh (with_mfd m w) = Some (latest_written_block_cache m, with_mfd m w).
Proof. unfold load_cache. by rewrite (st_bind_run _ _ _ _ _ (with_mfd_get m w)). Qed.

Lemma store_cache_run m w c : store_cache fh c (with_mfd m w) = Some (tt, with_mfd (set_cache c m) w).
Proof.
  unfold store_cache. rewrite (st_bind_run _ _ _ _ _ (with_mfd_get m w)).
  unfold put_mfd, with_mfd. cbn. by rewrite insert_insert_eq.
Qed.

(** A call that does not look at the handles, on both sides. *)
Lemma sync {A X Y} (n : M A) (f : A -> M Y) (g : A -> M X) (E : option (X * world) -> option (Y * world)) m w :
  neutral n -> E None = None ->
  (forall a w', n w = Some (a, w') -> f a (with_mfd m w') = E (g a w')) ->
  (n ≫= f) (with_mfd m w) = E ((n ≫= g) w).
Proof.
  intros Hn HE H. unfold mbind, ST_bind. unfold with_mfd at 1. rewrite Hn.
  destruct (n w) as [[a w'] |] eqn:En; [| done]. specialize (H a w' eq_refl). rewrite <-H. unfold with_mfd.
  by rewrite (neutral_keeps _ _ _ _ Hn En).
Qed.

Ltac sync := apply sync; [auto with neutral | done |].

Lemma bind_same {A B} (m m' : M A) (f : A -> M B) w : m w = m' w -> (m ≫= f) w = (m' ≫= f) w.
Proof. intros E. unfold mbind, ST_bind. by rewrite E. Qed.

Lemma ret_bind {A B} (a : A) (f : A -> M B) w : (mret a ≫= f) w = f a w.
Proof. done. Qed.

Lemma bind_ext {A B} (m : M A) (f g : A -> M B) w : (forall a w', f a w' = g a w') -> (m ≫= f) w = (m ≫= g) w.
Proof. intros E. unfold mbind, ST_bind. by destruct (m w) as [[a w'] |]. Qed.

Lemma bind_ext2 {A B} (m m' : M A) (f g : A -> M B) w :
  m w = m' w -> (forall a w', f a w' = g a w') -> (m ≫= f) w = (m' ≫= g) w.
Proof. intros E Ef. by rewrite (bind_same _ _ _ _ E), (bind_ext _ _ _ _ Ef). Qed.

Lemma prun_act {A} (n : M A) w : prun lock_ unlock_ (act n) w = n w.
Proof. cbn. unfold mbind, ST_bind. by destruct (n w) as [[a w'] |]. Qed.

Lemma prun_act_run {A B} (n : M A) (f : A -> prog B) w a w' :
  n w = Some (a, w') -> prun lock_ unlock_ (act n ≫= f) w = prun lock_ unlock_ (f a) w'.
Proof. intros E. cbn. by rewrite (st_bind_run _ _ _ _ _ E). Qed.

Lemma prun_lock l w : prun lock_ unlock_ (plock l) w = lock_ l w.
Proof. cbn. unfold mbind, ST_bind. by destruct (lock_ l w) as [[i w'] |]. Qed.

Lemma prun_unlock l w : prun lock_ unlock_ (punlock l) w = unlock_ l w.
Proof. cbn. unfold mbind, ST_bind. by destruct (unlock_ l w) as [[i w'] |]. Qed.

Lemma get_buf_agrees st w : prun lock_ unlock_ (p_get_buf (strip st)) w = b_get_buf st w.
Proof. unfold p_get_buf, b_get_buf. cbn. destruct (bw_buf st); [| done..]. by case_match. Qed.

(** The end of an iteration. *)
Lemma break_agrees st e w : prun lock_ unlock_ (pw_break (strip st) e) (with_mfd (bw_mfd st) w) = emb (bw_break st e w).
Proof. done. Qed.

Lemma append_agrees st mem b w :
  buf_get (bw_buf st) w = Some (mem, w) ->
  prun lock_ unlock_ (p_append fh (bw_mfd st) (strip st) b) (with_mfd (bw_mfd st) w) = emb (b_append st mem b w).
Proof.
  intros Hb. unfold p_append, b_append. cbn [prun mbind prog_bind act]. sync.
  intros l w1 E1. destruct l as [datsize | e]; [| done]. case_match; [done |].
  assert (Hb1 : buf_get (bw_buf st) w1 = Some (mem, w1)).
  { unfold sys in E1. destruct (sys_lseek_end (datfd (bw_mfd st)) (w_os w)). simplify_eq. by apply buf_get_os. }
  assert (Hw : (write_from (datfd (bw_mfd st)) (pw_buf (strip st))) (with_mfd (bw_mfd st) w1)
               = sys (sys_write (datfd (bw_mfd st)) (ztake BL_S mem)) (with_mfd (bw_mfd st) w1)).
  { unfold write_from. unfold mbind, ST_bind. unfold with_mfd at 1. rewrite (neutral_buf_get (bw_buf st)), Hb1. done. }
  cbn [prun mbind prog_bind act]. rewrite (bind_same _ _ _ _ Hw). sync.
  intros n w2 _. destruct n as [n | e]; [| done]. case_match; [done |].
  cbn [prun mbind prog_bind act]. sync. intros p w3 _. destruct p as [p | e]; [| done]. case_match; [done |].
  cbn [prun mbind prog_bind act]. by rewrite (st_bind_run _ _ _ _ _ (store_cache_run _ _ _)).
Qed.

(** Copying one block. *)
Lemma save_block_agrees st b w :
  prun lock_ unlock_ (p_save_block fh (bw_mfd st) (strip st) b) (with_mfd (bw_mfd st) w) = emb (b_save_block st b w).
Proof.
  unfold p_save_block, b_save_block. rewrite prun_bind, (bind_same _ _ _ _ (get_buf_agrees st _)). sync.
  intros buf w1 _. destruct buf as [b1 |]; [| done]. cbn [prun mbind prog_bind act]. unfold read_into.
  rewrite <-st_bind_assoc. sync. intros r w2 _. destruct r as [d | e]; [| done].
  rewrite <-st_bind_assoc. sync. intros mem w3 _. rewrite <-st_bind_assoc. sync. intros b2 w4 E4.
  rewrite ret_bind. destruct (Z.ltb_spec (zlen d) 1); [done |].
  apply (append_agrees (BwState (bw_mfd st) (bw_lock st) b2 (bw_err st))). by eapply buf_get_set.
Qed.

(** The body of the loop. *)
Lemma write_block_agrees st b w :
  prun lock_ unlock_ (p_write_block fh (bw_mfd st) (strip st) b) (with_mfd (bw_mfd st) w) = emb (b_write_block lock_ st b w).
Proof.
  unfold p_write_block, b_write_block. cbn [prun mbind prog_bind act].
  rewrite (st_bind_run _ _ _ _ _ (load_cache_run _ _)). case_match; [done |].
  cbn [prun mbind prog_bind act]. sync. intros p w1 _. destruct p as [p | e]; [| done]. case_match.
  { cbn [prun mbind prog_bind act]. by rewrite (st_bind_run _ _ _ _ _ (store_cache_run _ _ _)). }
  cbn [pw_lock strip]. case_match; [| apply save_block_agrees].
  cbn [prun mbind prog_bind plock]. apply sync; [done | done |]. intros lock w2 _. case_match; [done |].
  cbn [prun mbind prog_bind act]. sync. intros p' w3 _. destruct p' as [p' | e]; [| done]. case_match; [done |].
  apply (save_block_agrees (BwState (bw_mfd st) lock (bw_buf st) (bw_err st))).
Qed.

(** The block loop. *)
Definition emb_loop (r : option (bw_state * world)) : option (pw_state * world) :=
  match r with Some (st, w) => Some (strip st, with_mfd (bw_mfd st) w) | None => None end.

Lemma write_loop_agrees n : forall st b w,
  prun lock_ unlock_ (p_write_loop fh (bw_mfd st) n (strip st) b) (with_mfd (bw_mfd st) w)
  = emb_loop (b_write_loop lock_ n st b w).
Proof.
  induction n as [| n IH]; intros st b w; [done |]. cbn [p_write_loop b_write_loop].
  rewrite prun_bind. unfold mbind, ST_bind. rewrite write_block_agrees.
  destruct (b_write_block lock_ st b w) as [[[stop st'] w'] |] eqn:E; [| done]. cbn [emb].
  destruct stop; [done |]. rewrite <-IH. destruct (block_same_mfd _ _ _ _ _ _ _ E) as [c ->]. done.
Qed.

(** What [b_write] returns, as the program returns it. *)
Definition emb_mfd (r : option (Z * mfd_t * world)) : option (Z * world) :=
  match r with Some (x, m, w) => Some (x, with_mfd m w) | None => None end.

Lemma write_cleanup_agrees st w :
  prun lock_ unlock_ (p_write_cleanup (strip st)) (with_mfd (bw_mfd st) w)
  = emb_mfd (b_write_cleanup unlock_ st B_WRITE_DEFAULTS w).
Proof.
  unfold p_write_cleanup, b_write_cleanup. change (has B_WRITE_DEFAULTS B_WRITE_HAS_LOCK) with false.
  rewrite andb_true_r. cbn [pw_lock strip]. case_match; [| done].
  cbn [prun mbind prog_bind punlock]. apply sync; [done | done |]. intros lock w1 _.
  rewrite prun_bind. destruct (negb (lock =? 0)); [| done]. cbn [prun act mbind prog_bind].
  rewrite <-st_bind_assoc. apply sync; [auto with neutral | done |]. intros [] w2 _. done.
Qed.

Lemma b_write_agrees m size off w :
  prun lock_ unlock_ (p_b_write fh m size off) (with_mfd m w)
  = emb_mfd (b_write lock_ unlock_ m size off B_WRITE_DEFAULTS w).
Proof.
  unfold p_b_write, b_write. case_match; [done |]. change (has B_WRITE_DEFAULTS B_WRITE_HAS_LOCK) with false. cbv iota zeta.
  assert (Hgo : forall size, prun lock_ unlock_
      (let '(b, n) := B_CALC_BLOCKS off size in
       st ← p_write_loop fh m (Z.to_nat n) (PwState (-1) BufNull 0) b; p_write_cleanup st) (with_mfd m w)
      = emb_mfd ((let '(b, n) := B_CALC_BLOCKS off size in
          st ← b_write_loop lock_ (Z.to_nat n) (BwState m (-1) BufNull 0) b; b_write_cleanup unlock_ st B_WRITE_DEFAULTS) w)).
  { intros sz. destruct (B_CALC_BLOCKS off sz) as [b n]. rewrite prun_bind. unfold mbind, ST_bind.
    rewrite (write_loop_agrees (Z.to_nat n) (BwState m (-1) BufNull 0)).
    destruct (b_write_loop lock_ (Z.to_nat n) (BwState m (-1) BufNull 0) b w) as [[st w1] |]; [| done].
    apply write_cleanup_agrees. }
  case_match; [case_match; [done |] |]; apply Hgo.
Qed.

Lemma b_truncate_agrees m n w :
  prun lock_ unlock_ (p_b_truncate fh m n) (with_mfd m w)
  = emb_mfd (b_truncate lock_ unlock_ m n B_WRITE_DEFAULTS w).
Proof. unfold p_b_truncate, b_truncate. case_match; [apply b_write_agrees | done]. Qed.

(** ** Reading *)

Lemma read_step_agrees m sni b to len from buf w :
  prun lock_ unlock_ (p_read_step m sni b to len from buf) w = b_read_step m sni b to len from buf w.
Proof.
  unfold p_read_step, b_read_step. destruct (sn_steps m !! sni) as [step |]; [| done].
  case_match; [| apply prun_act]. case_match; [done |]. cbn [prun mbind prog_bind act]. apply bind_ext. intros p w1.
  destruct p; [| done]. case_match; [done |]. apply prun_act.
Qed.

Lemma read_sni_agrees m k : forall lock b to len from buf w,
  prun lock_ unlock_ (p_read_sni m k lock b to len from buf) w = b_read_sni lock_ unlock_ m k lock b to len from buf w.
Proof.
  induction k as [| k IH]; intros lock b to len from buf w; [done |]. cbn [p_read_sni b_read_sni].
  rewrite prun_bind. apply bind_ext2; [by case_match; [apply prun_lock |] |]. intros lock' w1.
  rewrite prun_bind. apply bind_ext2; [case_match; [done | apply read_step_agrees] |]. intros [e buf'] w2.
  case_match; [apply IH |]. rewrite prun_bind. apply bind_ext2; [by case_match; [apply prun_unlock |] |]. intros r w3.
  by repeat case_match.
Qed.

Lemma read_loop_agrees m n : forall b to off size buf w,
  prun lock_ unlock_ (p_read_loop m n b to off size buf) w = b_read_loop lock_ unlock_ m n b to off size buf w.
Proof.
  induction n as [| n IH]; intros b to off size buf w; [done |]. cbn [p_read_loop b_read_loop].
  destruct (b_read_part _ _ _ _ _) as [from len]. rewrite prun_bind. apply bind_ext2; [apply read_sni_agrees |].
  intros [r buf'] w1. destruct r; [done | apply IH].
Qed.

Lemma b_read_agrees m buf size off w :
  prun lock_ unlock_ (p_b_read m buf size off) w = b_read lock_ unlock_ buf m size off w.
Proof.
  unfold p_b_read, b_read. case_match; [done |].
  assert (Hgo : forall sz, prun lock_ unlock_ (let '(b, n) := B_CALC_BLOCKS off sz in p_read_loop m (Z.to_nat n) b 0 off sz buf) w
    = (let '(b, n) := B_CALC_BLOCKS off sz in b_read_loop lock_ unlock_ m (Z.to_nat n) b 0 off sz buf) w).
  { intros sz. destruct (B_CALC_BLOCKS off sz). apply read_loop_agrees. }
  case_match; [case_match; [done |] |]; apply Hgo.
Qed.

(** ** The handlers *)

Lemma with_mfd_id m w : w_mfds w !! fh = Some m -> with_mfd m w = w.
Proof. intros H. unfold with_mfd. rewrite insert_id by done. by destruct w. Qed.

Lemma get_mfd_run m w : w_mfds w !! fh = Some m -> get_mfd fh w = Some (m, w).
Proof. intros H. unfold get_mfd. by rewrite H. Qed.

(** The number of the handle is the current one, as [mfd_validate] wants it. *)
Lemma validate_agrees m w :
  w_mfds w !! fh = Some m -> sn_number (w_fs w) = mfd_sn_number m ->
  prun lock_ unlock_ (p_validate m) w = Some (tt, w) /\ mfd_validate lock_ unlock_ m w = Some (0, m, w) /\
  put_mfd fh m w = Some (tt, w).
Proof.
  intros Hm Hn. split_and!.
  - unfold p_validate, load_number. cbn. unfold mbind, ST_bind. cbn. by rewrite Hn, Z.eqb_refl.
  - unfold mfd_validate, mbind, ST_bind. cbn. by rewrite Hn, Z.eqb_refl.
  - unfold put_mfd. rewrite insert_id by done. by destruct w.
Qed.

Lemma put_mfd_run m w : put_mfd fh m w = Some (tt, with_mfd m w).
Proof. done. Qed.

(** What follows the saving of the old blocks, on both sides. *)
Lemma saved_agrees {A} (p : prog Z) (save : M (Z * mfd_t)) (op : Z -> os -> res A * os) (out : res A -> Z) m w :
  prun lock_ unlock_ p w = emb_mfd (save w) ->
  (forall r m' w', save w = Some (r, m', w') -> same_but_cache m m') ->
  prun lock_ unlock_ (ret ← p; if negb (ret =? 0) then mret ret else r ← act (sys (op (mainfd m))); mret (out r)) w
  = ('(ret, m') ← save; _ ← put_mfd fh m'; if negb (ret =? 0) then mret ret else r ← sys (op (mainfd m')); mret (out r)) w.
Proof.
  intros E Hs. rewrite prun_bind. destruct (save w) as [[[ret m'] w'] |] eqn:Es.
  2: { unfold mbind, ST_bind. by rewrite E, Es. }
  rewrite (st_bind_run _ _ _ _ _ E), (st_bind_run _ _ _ _ _ Es). cbv beta iota.
  rewrite (st_bind_run _ _ _ _ _ (put_mfd_run m' w')). destruct (negb (ret =? 0)); [done |].
  by destruct (Hs _ _ _ eq_refl) as [c ->].
Qed.

Lemma write_agrees m buf off w :
  w_mfds w !! fh = Some m -> sn_number (w_fs w) = mfd_sn_number m ->
  prun lock_ unlock_ (p_write fh buf off) w = esfs_write lock_ unlock_ fh buf off w.
Proof.
  intros Hm Hn. unfold p_write, esfs_write.
  rewrite (prun_act_run _ _ _ _ _ (get_mfd_run m w Hm)), (st_bind_run _ _ _ _ _ (get_mfd_run m w Hm)). destruct (is_main m); [| done..].
  destruct (validate_agrees m w Hm Hn) as (E1 & E2 & E3).
  rewrite (prun_bind_run _ _ _ _ _ _ _ E1), (st_bind_run _ _ _ _ _ E2). cbv beta iota.
  rewrite (st_bind_run _ _ _ _ _ E3). cbn [Z.eqb negb].
  apply (saved_agrees _ _ (fun fd => sys_pwrite fd buf off) (fun r => match r with Ok n => i32 n | Err e => - e end)).
  - rewrite <-(with_mfd_id m w Hm) at 1. apply b_write_agrees.
  - intros r m' w'. apply write_same_mfd.
Qed.

Lemma ftruncate_agrees m n w :
  w_mfds w !! fh = Some m -> sn_number (w_fs w) = mfd_sn_number m ->
  prun lock_ unlock_ (p_ftruncate fh n) w = esfs_ftruncate lock_ unlock_ fh n w.
Proof.
  intros Hm Hn. unfold p_ftruncate, esfs_ftruncate.
  rewrite (prun_act_run _ _ _ _ _ (get_mfd_run m w Hm)), (st_bind_run _ _ _ _ _ (get_mfd_run m w Hm)).
  destruct (validate_agrees m w Hm Hn) as (E1 & E2 & E3).
  rewrite (prun_bind_run _ _ _ _ _ _ _ E1), (st_bind_run _ _ _ _ _ E2). cbv beta iota.
  rewrite (st_bind_run _ _ _ _ _ E3). cbn [Z.eqb negb].
  apply (saved_agrees _ _ (fun fd => sys_ftruncate fd n) (fun r => match r with Ok _ => 0 | Err e => - e end)).
  - rewrite <-(with_mfd_id m w Hm) at 1. apply b_truncate_agrees.
  - intros r m' w'. unfold b_truncate. case_match; [apply write_same_mfd |].
    intros [= <- <- <-]. apply same_but_cache_refl.
Qed.

Lemma read_agrees m buf size off w :
  w_mfds w !! fh = Some m ->
  prun lock_ unlock_ (p_read fh buf size off) w = esfs_read lock_ unlock_ fh buf size off w.
Proof.
  intros Hm. unfold p_read, esfs_read.
  rewrite (prun_act_run _ _ _ _ _ (get_mfd_run m w Hm)), (st_bind_run _ _ _ _ _ (get_mfd_run m w Hm)). destruct (is_main m); [done | done | done |].
  unfold mfd_in_sn_validate, load_number. cbn. unfold mbind, ST_bind. cbn.
  destruct (sn_number (w_fs w) =? mfd_sn_number m); [apply b_read_agrees | done].
Qed.
End Solo.

(** The handle that an operation uses, and whether [mfd_validate] accepts it as it is. *)
Definition op_fh (o : op) : Z := match o with OWrite fh _ _ | OTruncate fh _ | ORead fh _ _ _ => fh end.
Definition op_current (o : op) (w : world) (m : mfd_t) : Prop :=
  match o with ORead _ _ _ _ => True | _ => sn_number (w_fs w) = mfd_sn_number m end.

Lemma op_agrees lock_ unlock_ o w m :
  (forall l, neutral (lock_ l)) -> (forall i, neutral (unlock_ i)) ->
  w_mfds w !! op_fh o = Some m -> op_current o w m ->
  prun lock_ unlock_ (p_op o) w = run_op lock_ unlock_ o w.
Proof.
  intros Hl Hu Hm Hc. destruct o as [fh buf off | fh n | fh buf size off]; cbn [p_op run_op op_fh op_current] in *;
    rewrite prun_bind; apply bind_ext2.
  - by apply (write_agrees _ _ Hl Hu _ m).
  - done.
  - by apply (ftruncate_agrees _ _ Hl Hu _ m).
  - done.
  - by apply (read_agrees _ _ _ m).
  - by intros [r buf'] w'.
Qed.

(** ** The lock table does not look at the handles *)

Lemma neutral_read_entry i : neutral (read_entry i).
Proof. intros h w. unfold read_entry, mbind, ST_bind. cbn. by destruct (mflocks (w_fs w) !! i). Qed.

Lemma neutral_upd_entry i f : neutral (upd_entry i f).
Proof. intros h w. unfold upd_entry, mbind, ST_bind. cbn. by destruct (mflocks (w_fs w) !! i). Qed.

Lemma neutral_stuck {A} : neutral (st_stuck : M A).
Proof. done. Qed.

#[export] Hint Resolve neutral_read_entry neutral_upd_entry neutral_stuck : neutral.

Ltac neutral := repeat first [solve [auto with neutral] | apply neutral_bind; [| intros] | case_match].

Lemma neutral_mutex_lock i : neutral (mutex_lock i).
Proof. unfold mutex_lock. neutral. Qed.
Lemma neutral_mod_lock i : neutral (mod_lock i).
Proof. unfold mod_lock. neutral. Qed.
Lemma neutral_get_table : neutral get_table.
Proof. done. Qed.

#[export] Hint Resolve neutral_mutex_lock neutral_mod_lock neutral_get_table : neutral.

Lemma neutral_mflock_start n : forall hm l, neutral (mflock_start n hm l).
Proof. induction n as [| n IH]; intros hm l; cbn [mflock_start]; unfold mod_unlock, mutex_unlock; neutral. Qed.

Lemma neutral_mflock_lock l : neutral (mflock_lock l).
Proof. apply neutral_mflock_start. Qed.

Lemma neutral_mflock_unlock i : neutral (mflock_unlock i).
Proof. unfold mflock_unlock, mod_unlock, mutex_unlock. cbv zeta. neutral. Qed.

(** ** A thread alone *)

(** C20 (equivalence of the two models of the handlers): a thread that runs a
    request from its start to its end without being interrupted, with the
    lock functions of [Mflock], computes exactly what the function of the
    handler computes, in every world: the same result, the same state
    afterwards, and undefined in the same cases.  The handle must be open
    and, of a write or a truncation, be one that [mfd_validate] need not
    renew. *)
Theorem thread_alone_agrees o w m :
  w_mfds w !! op_fh o = Some m -> op_current o w m ->
  prun mflock_lock mflock_unlock (p_op o) w = run_op mflock_lock mflock_unlock o w.
Proof. apply op_agrees; [apply neutral_mflock_lock | apply neutral_mflock_unlock]. Qed.

Lemma thread_alone_agrees_witness :
  fst <$> prun mflock_lock mflock_unlock (p_op (OWrite 100 [77; 78] 1)) (sm_world []) = Some (Ret 2).
Proof. rewrite (thread_alone_agrees _ _ sm_writer); [vm_compute; reflexivity | reflexivity | reflexivity]. Defined.
